(* ===== verification/_CoqProject ===== *)
-Q . S2P
Prelude.v
GoLib.v
Json.v
JsonFacts.v
GoTime.v
Sha256.v
GoText.v
JsonUtil.v
JsonText.v
Assertions.v
AssertionFacts.v
Scenario.v
ScenarioFacts.v
Protocol.v
ProtocolFacts.v
HostCheck.v
HostDoctor.v
GuestClock.v
GuestSystem.v
Firecracker.v
GuestAgent.v
GuestServe.v
GuestManager.v
GuestManagerFacts.v
GuestManagerLive.v
GuestWhole.v
GuestClient.v
Evidence.v
EngineSteps.v
WireTypes.v
GuestRpc.v
Disk.v
SafeFS.v
Artifact.v
Config.v
FirecrackerStart.v
VmmProcess.v
ArtifactLoad.v
GuestExec.v
EnginePlan.v
EngineReady.v
EngineTypes.v
EngineRecover.v
EngineRecovery.v
EngineRun.v
EngineRunFacts.v
EngineHost.v
Terminal.v
Cli.v
Platform.v
GoJson.v
ClockProbe.v
Authority.v
AuthorityFacts.v
DemoTools.v
DemoStore.v
DemoAgent.v
Base64.v
DemoJson.v
DemoCommands.v
DemoBootstrap.v
DemoSystem.v
