(* ===== verification/Prelude.v ===== *)
(** * Verification of Epoch: temporal experiments in one virtual machine

    Epoch runs a scenario (a plan of clock changes, actions, services and assertions)
    inside one Firecracker virtual machine, judges the answers on the host, and leaves
    evidence behind.  This library models its Go code function by function and proves
    what the parts promise to each other.  File names below without a directory are files
    of this library; the others are under src/.

    ** The program and where its parts are modelled

    - [GoLib], [GoTime], [GoText], [Sha256], [Json] (facts in [JsonFacts]): what the code
      uses of the Go language and its standard library: byte strings, strconv, 64-bit
      wrap-around, instants and RFC 3339, paths, SHA-256, encoding/json.  [JsonText]: what
      json.Marshal makes of a json.RawMessage (compaction, which keeps the escapes as they
      are written), messages as text around it, and indentation.  [GoJson] (with
      demos/incident-response-agent/internal/jsonio) and [Base64]: json.Decoder and base64
      as the workloads and the demo call them.
    - [JsonUtil]: internal/jsonutil/decode.go, strict decoding; a [decoder] stands for the
      reflection over a Go type.
    - [Assertions], [Scenario] (facts in [AssertionFacts], [ScenarioFacts]):
      internal/scenario, the scenario format, its validation, and assertion evaluation.
    - [Protocol], [ProtocolFacts]: internal/protocol, the messages between host and guest.
    - Guest side: [GuestClock] (internal/guestclock/clock.go), [GuestSystem]
      (system_linux.go: the clock system calls behind it), [GuestAgent]
      (internal/guestagent/server.go), [GuestServe] (its accept loop), [GuestManager] with
      [GuestManagerFacts] and [GuestManagerLive] (process_linux.go), [GuestExec]
      (run_linux.go: starting the agent and its workloads), [GuestWhole] (server, manager
      and clock controller assembled), [Platform] (cmd/epoch-agent/main.go, and the stubs
      of the files named _other.go).
    - Host side: [GuestClient] (internal/guestclient), [EngineSteps], [EngineReady],
      [EnginePlan], [EngineTypes], [EngineRun], [EngineRecover], [EngineRecovery] (facts of
      the run in [EngineRunFacts]): internal/engine; [HostCheck], [HostDoctor]:
      internal/hostcheck; [Firecracker], [FirecrackerStart], [VmmProcess]:
      internal/firecracker; [Evidence]: internal/evidence; [SafeFS], [Disk]: internal/safefs and files by name;
      [Artifact], [ArtifactLoad]: internal/artifact; [Config]: internal/config; [Cli],
      [Terminal]: cmd/epoch/main.go.  [EngineHost] runs the engine with the VMM process of
      [VmmProcess] beside it.
    - Host and guest together: [WireTypes] (the [Wire] class: what a message is after it was
      written and read) and [GuestRpc] (client and agent joined by a connection, compared
      with calling the guest directly).
    - Workloads: [Authority], [AuthorityFacts]: workloads/agent-authority-expiry/main.go;
      [ClockProbe]: workloads/clock-probe; the incident-response demo
      (demos/incident-response-agent): [DemoTools] (internal/authority and internal/tools),
      [DemoStore] (internal/postgres/store.go), [DemoAgent] (internal/agent), [DemoJson] (the
      JSON tags of internal/api), [DemoCommands] (cmd/agent, cmd/authority-issuer,
      cmd/mcp-server), [DemoBootstrap] (internal/postgres/bootstrap.go,
      cmd/postgres-bootstrap), [DemoSystem] (all of it as one system).

    The command line loads a configuration and calls the engine; the engine admits a plan,
    prepares a private directory and disk, starts the VMM, waits for an authentic guest,
    executes the steps over the guest client and cleans up.  In the guest, the agent
    serves one connection and passes requests to the clock controller and the
    process manager, which re-executes the agent as the unprivileged workload.

    ** Correspondence

    A message with raw JSON inside is encoded as the text json.Marshal returns, any other as a
    JSON value that [print] writes.  A Go struct is a record, an error value is [error] (format and arguments unrendered,
    wrapping kept, so that errors.Is and errors.As are functions), a fallible function
    returns [result].  Mutable state is passed explicitly: [EngineRun.state] for the
    closures of run, [GuestManager.mstate] for the manager with its shared process store,
    [Evidence.Recorder] for the recorder, a monad with a log in [Authority].  A w-bit
    integer is a [Z] with its wrap-around or range check written out.

    What lies outside the repository is a class over a world type, its documented
    behaviour a second class of laws, and every law class has an instance: [FS]/[LawfulFS]
    (file system calls), the two [Disk]/[LawfulDisk] (files of a recorder; files by name),
    [Writer]/[LawfulWriter] (io.Writer), [Conn] (a guest connection), [Boundary] (the clock
    calls, implemented in [GuestSystem] over [UnixClocks]/[LawfulClocks]), [VmmHost] (opening,
    running and starting the VMM), [LockOps] (flock, also under recovery), [Guest] (the interfaces Clock and
    Runner of the server), [Workloads]/[Clocked]
    (processes, pipes and monotonic time), [StopOps]/[LawfulStop] (signalling an owned process; its
    deadline passes),
    [Link]/[LawfulLink] (the engine's guest connection, implemented by [GuestClient] in
    [EngineSteps]), [BootEnv]/[LawfulBoot], [Machine] and [RecoverOps]/[LawfulRecover] (what a run or a
    recovery touches besides files, lock and process; looking leaves the files as they are), [Reads] (how a file is handed out in chunks), [Child] (the
    re-executed child), [Epoch] (what the command line calls), and for the demo [Jwt]/[LawfulJwt],
    [Store] (implemented by [DemoStore]), [ToolEnv], [PgEnv], [Client] (implemented by
    [DemoSystem]), [McpSession], [GoSort], [AgentHost], [Pool], [McpHost],
    [ClusterHost]/[LawfulCluster] and [Admin]/[TimedAdmin].  The fixtures have
    [Probe]/[LawfulProbe], the agent's entry point [AgentProgram], the VMM beside the
    engine [Schedule].

    Choices that belong to the environment stay free: which case of a select fires, what
    background goroutines have done at a point where the code waits, the iteration order
    of a map where the result depends on it, and when a context is cancelled.  Instants
    are UTC nanoseconds; the location of a time is not kept beyond its offset in text.

    ** Bounds and fuel

    Loops that Go runs on data take fuel computed from the data: the JSON reader its
    length plus one ([JsonFacts.value_fuel_irrelevant]), walks to the root of a path its
    length, the session loop [GuestAgent.session_fuel] = 1025 since a session is refused
    after 1024 requests ([GuestAgent.session_spec] shows that it always returns), the
    reaper's kill loop [GuestManager.kill_rounds] = 201 since it sleeps 5 ms a round for at
    most 1 s.  Waits take explicit fuel and return [None] when it runs out; the theorems that a
    wait returns ([GuestManagerLive.stop_returns], [EngineReady.ready_authentic]) bound
    the fuel by the deadline that is left; [DemoBootstrap.prepare_atomic] needs 302 rounds,
    thirty seconds of pauses of a tenth of a second.

    ** What the theorems show

    - Verdict of a run: [EngineRunFacts.run_success_means], on top of
      [EngineSteps.execute_step_sound], [AssertionFacts.evaluate_sound],
      [AssertionFacts.equal_spec] and [EngineReady.ready_authentic]; the host's judgement of
      a clock change agrees with the guest's ([EngineSteps.clock_verdicts_agree]).
    - Refinement: [GuestRpc.plan_over_wire], a plan executed over the connection is the plan
      executed on the guest itself, step by step; [GuestRpc.operations_exact], each operation
      reaches the guest as it was meant and comes back as it happened.
    - Nothing foreign is deleted, signalled or overwritten:
      [EngineRunFacts.cleanup_ordered], [EngineHost.removal_after_exit] (the runtime
      directory goes only after the exit of the very process the run started, and stays only
      when the run's own Stop failed), [EngineRecover.removal_confined],
      [EngineRecovery.recover_safe] (it returns, and changes nothing unless asked to), [Firecracker.stop_owned_safe],
      [FirecrackerStart.start_verified], [VmmProcess.stop_confirmed] (every interleaving of
      concurrent stops), [SafeFS.atomic_write_all_or_nothing],
      [ArtifactLoad.copy_private_exact].
    - Only validated input is acted on: [ScenarioFacts], [EnginePlan.plan_admissible],
      [ArtifactLoad.load_authentic], [ProtocolFacts.manifest_safe],
      [JsonUtil.decode_any_spec], [HostDoctor.doctor_sound], [Cli.command_sound].
    - The guest: [GuestAgent.session_spec] and [GuestAgent.handle_spec] (no clock change
      under a live service unless allowed, no request replayed), [GuestServe.serve_once],
      [GuestWhole.agent_assembled] (the invariants of the parts hold of the whole),
      [GuestSystem.system_set_valid], the manager's invariant,
      actions, service life cycle and termination, [GuestExec.workload_exec_confined]
      (the workload runs unprivileged and as declared), the clock controller.
    - Evidence: [Evidence.evidence_bounded], the bytes in the files of the evidence directory
      are at most those counted, and within the quota whatever fails.
    - The wire: round trips and framing in [ProtocolFacts], [GuestClient.call_outcome].
    - The authority workload: effects only under a lease valid at execution, at most once
      per pending request, state that survives a restart.
    - The fixture: [ClockProbe.marker_kept] (the marker is replaced whole and read as written).
    - The demo: [DemoSystem.demo_window] (from the agent's input to the rows: one restart at
      most, of the named worker, inside the window), [DemoBootstrap.cluster_complete] and
      [DemoBootstrap.prepare_atomic], [DemoStore.demo_books] (every restart consumes one authority, checked twice, and
      is audited, and what changes in the tables), [DemoAgent.agent_justified] (over all
      requests sent, a restart is asked for at most once and only on evidence),
      [DemoTools.issue_window], [DemoAgent.contains_spec] (binary search against membership).

    ** Not modelled

    The wording of messages on terminals outside [Terminal], connection deadlines, the test hook
    startOverride, the ten-minute deadline of the command line, and the operating system and the
    libraries outside the repository: what they do is a field of a class above, never a
    definition.  The MCP transport of the demo is third-party code: its session is the
    class [McpSession] for the client, and [DemoSystem] calls the tools directly.  Concurrent
    database transactions are modelled in some serial order, since the code asks for
    serializable isolation; time passes only at the calls that read a clock or wait. *)

From stdpp Require Export base tactics list strings gmap numbers sorting.
From Stdlib Require Export ZArith Lia.
From Stdlib Require Import Ascii String.
#[export] Set Warnings "-clear-no-such-hyp".
#[export] Set Default Goal Selector "!".
#[global] Arguments String.append : simpl nomatch.

(** ** Go error values and fallible results

    Go errors are interface values that the code compares with [errors.Is],
    searches with [errors.As] and wraps with [%w].  The model keeps exactly
    that structure: a format string with its unrendered arguments, the wrapped
    error, the joined errors, and the typed errors the code looks for. *)
#[warnings="-register-all"]
Inductive error :=
| Errorf (format : string) (args : list string)
| Wrapf (format : string) (args : list string) (inner : error)
| ErrJoin (errs : list error)
| ErrProtocol (code message details : string)
| ErrOutcomeUnknown (inner : error)
| ErrValidation (inner : error)
| ErrSentinel (name : string).

Definition ErrNotExist : error := ErrSentinel "os.ErrNotExist".
Definition ErrEOF : error := ErrSentinel "io.EOF".
Definition ErrUnexpectedEOF : error := ErrSentinel "io.ErrUnexpectedEOF".
Definition ErrShortWrite : error := ErrSentinel "io.ErrShortWrite".
Definition Canceled : error := ErrSentinel "context.Canceled".
Definition DeadlineExceeded : error := ErrSentinel "context.DeadlineExceeded".

Inductive result (A : Type) :=
| Ok (a : A)
| Err (e : error).
Arguments Ok {A} a.
Arguments Err {A} e.

Definition is_ok {A} (r : result A) : bool := match r with Ok _ => true | Err _ => false end.

Definition rbind {A B} (r : result A) (k : A → result B) : result B :=
  match r with Ok a => k a | Err e => Err e end.

(** [map_err f r] is Go's [return fmt.Errorf("...: %w", err)]. *)
Definition map_err {A} (f : error → error) (r : result A) : result A :=
  match r with Ok a => Ok a | Err e => Err (f e) end.

(** A function that returns only an [error]: [None] is [nil]. *)
Definition of_err (e : option error) : result unit :=
  match e with None => Ok tt | Some e => Err e end.

Definition err_of {A} (r : result A) : option error :=
  match r with Ok _ => None | Err e => Some e end.

Declare Scope go_scope.
Delimit Scope go_scope with go.
Notation "'fail_if' c 'with' e ';;' k" := (if c then Err e else k)
  (at level 10, c at level 99, e at level 99, k at level 200,
   format "'fail_if'  c  'with'  e  ';;' '//' k") : go_scope.
Notation "'let?' x ':=' c 'in' k" := (rbind c (λ x, k))
  (at level 10, x pattern, c at level 99, k at level 200,
   format "'let?'  x  ':='  c  'in' '//' k") : go_scope.
Notation "'do?' c ';;' k" := (rbind c (λ _, k))
  (at level 10, c at level 99, k at level 200,
   format "'do?'  c  ';;' '//' k") : go_scope.
Notation "s =?s t" := (String.eqb s t) (at level 70) : go_scope.
Notation "s <>?s t" := (negb (String.eqb s t)) (at level 70) : go_scope.
#[global] Open Scope go_scope.
#[global] Open Scope Z_scope.

Section loops.
Context {A B : Type}.

(** Run a fallible check on every element, stopping at the first error. *)
Definition each (f : A → result unit) : list A → result unit :=
  fix each l := match l with
                | [] => Ok tt
                | x :: l => do? f x ;; each l
                end.

(** Decode every element, stopping at the first error. *)
Definition traverse (f : A → result B) : list A → result (list B) :=
  fix traverse l := match l with
                    | [] => Ok []
                    | x :: l => let? y := f x in let? ys := traverse l in Ok (y :: ys)
                    end.
End loops.

(** [errors.Join]: [nil] when every argument is [nil]. *)
Definition join_errors (es : list (option error)) : option error :=
  match omap id es with [] => None | es => Some (ErrJoin es) end.

(** [errors.As(err, &typed)] for [*protocol.Error], depth first. *)
Fixpoint as_protocol (e : error) : option (string * string * string) :=
  match e with
  | ErrProtocol c m d => Some (c, m, d)
  | Wrapf _ _ i | ErrOutcomeUnknown i | ErrValidation i => as_protocol i
  | ErrJoin es =>
      (fix go es := match es with
                    | [] => None
                    | e :: es => match as_protocol e with Some r => Some r | None => go es end
                    end) es
  | _ => None
  end.

(** [errors.Is(err, sentinel)]. *)
Fixpoint err_is (name : string) (e : error) : bool :=
  match e with
  | ErrSentinel n => n =?s name
  | Wrapf _ _ i | ErrOutcomeUnknown i | ErrValidation i => err_is name i
  | ErrJoin es =>
      (fix go es := match es with [] => false | e :: es => err_is name e || go es end) es
  | _ => false
  end.

(** ** Tactics *)

(** Break a hypothesis that says a chain of guards and binds succeeded. *)
Ltac inv_ok1 H :=
  lazymatch type of H with
  | rbind ?c _ = Ok _ =>
      let E := fresh "E" in destruct c eqn:E; cbn [rbind] in H; [|discriminate H]
  | (if ?c then Err _ else _) = Ok _ =>
      let E := fresh "E" in destruct c eqn:E; [discriminate H|]
  | (if ?c then _ else Err _) = Ok _ =>
      let E := fresh "E" in destruct c eqn:E; [|discriminate H]
  | map_err _ ?c = Ok _ =>
      let E := fresh "E" in destruct c eqn:E; cbn [map_err] in H; [|discriminate H]
  end.
Ltac inv_ok H := repeat (inv_ok1 H; cbv beta in H).

Ltac split_bool :=
  repeat match goal with
  | H : _ || _ = false |- _ => apply orb_false_iff in H as [? ?]
  | H : _ && _ = true |- _ => apply andb_true_iff in H as [? ?]
  | H : negb _ = false |- _ => apply negb_false_iff in H
  | H : negb _ = true |- _ => apply negb_true_iff in H
  end.

Ltac to_prop :=
  split_bool;
  repeat match goal with
  | H : (_ <? _) = true |- _ => apply Z.ltb_lt in H
  | H : (_ <? _) = false |- _ => apply Z.ltb_ge in H
  | H : (_ <=? _) = true |- _ => apply Z.leb_le in H
  | H : (_ <=? _) = false |- _ => apply Z.leb_gt in H
  | H : (_ =? _) = true |- _ => apply Z.eqb_eq in H
  | H : (_ =? _) = false |- _ => apply Z.eqb_neq in H
  | H : (_ =?s _) = true |- _ => apply String.eqb_eq in H
  | H : (_ =?s _) = false |- _ => apply String.eqb_neq in H
  end.

(** ** Hints *)
Create HintDb epoch.
#[export] Hint Constants Opaque : epoch.

(** ** Results *)
Lemma rbind_ok {A B} (r : result A) (k : A → result B) b :
  rbind r k = Ok b ↔ ∃ a, r = Ok a ∧ k a = Ok b.
Proof. destruct r; naive_solver. Qed.

Lemma each_ok {A} (f : A → result unit) l :
  each f l = Ok tt ↔ Forall (λ x, f x = Ok tt) l.
Proof.
  induction l as [|x l IH]; cbn; [by split; auto|].
  rewrite Forall_cons, rbind_ok. split.
  - intros ([] & ? & ?). by rewrite <-IH.
  - intros [? ?%IH]. by exists tt.
Qed.

Lemma each_is_ok {A} (f : A → result unit) l :
  is_ok (each f l) = forallb (λ x, is_ok (f x)) l.
Proof. induction l as [|x l IH]; cbn; [done|]. by destruct (f x). Qed.

Lemma traverse_ok {A B} (f : A → result B) l ys :
  traverse f l = Ok ys ↔ Forall2 (λ x y, f x = Ok y) l ys.
Proof.
  revert ys; induction l as [|x l IH]; intros ys; cbn.
  - split; [intros [= <-]; constructor | by inversion 1].
  - rewrite rbind_ok. split.
    + intros (y & ? & (ys' & Hys & Heq)%rbind_ok). apply IH in Hys. simplify_eq. by constructor.
    + inversion 1 as [|? y ? ys' ? ?]; subst. exists y. split; [done|].
      apply rbind_ok. exists ys'. split; [by apply IH|done].
Qed.

Lemma map_err_is_ok {A} f (r : result A) : is_ok (map_err f r) = is_ok r.
Proof. by destruct r. Qed.

Lemma map_err_ok {A} f (r : result A) a : map_err f r = Ok a ↔ r = Ok a.
Proof. destruct r; naive_solver. Qed.

Lemma join_errors_none es : join_errors es = None ↔ Forall (λ e, e = None) es.
Proof.
  unfold join_errors. induction es as [|[e|] es IH]; cbn.
  - split; [constructor|done].
  - split; [done|]. intros [? _]%Forall_cons. done.
  - rewrite Forall_cons. split; [intros ?; split; [done|by apply IH] | intros [_ ?%IH]; done].
Qed.
