(* ===== verification/GoLib.v ===== *)
(** * GoLib: the parts of the Go language and standard library the code uses

    Go strings and byte slices are both modelled as [string]: a sequence of
    8-bit characters.  This file holds the byte predicates behind the
    repository's regular expressions, [strings.Split], [strings.Fields],
    [bytes.TrimSpace], [strconv.ParseInt]/[ParseUint]/[FormatInt],
    [encoding/hex], [unicode/utf8] and 64-bit two's complement arithmetic. *)

From S2P Require Import Prelude.
From Stdlib Require Import Ascii String.

(** ** Machine integers *)
Definition wrap64 (z : Z) : Z := (z + 2 ^ 63) mod 2 ^ 64 - 2 ^ 63.
Definition int64_ok (z : Z) : bool := (- 2 ^ 63 <=? z) && (z <? 2 ^ 63).

Lemma wrap64_id z : - 2 ^ 63 ≤ z < 2 ^ 63 → wrap64 z = z.
Proof. intros. unfold wrap64. rewrite Z.mod_small; lia. Qed.

Lemma wrap64_range z : - 2 ^ 63 ≤ wrap64 z < 2 ^ 63.
Proof. unfold wrap64. pose proof (Z.mod_pos_bound (z + 2 ^ 63) (2 ^ 64)). lia. Qed.

(** ** Bytes *)
Definition bz (c : ascii) : Z := Z.of_N (N_of_ascii c).
Definition chr (z : Z) : ascii := ascii_of_N (Z.to_N z).
Definition in_range (lo hi : Z) (c : ascii) : bool := (lo <=? bz c) && (bz c <=? hi).

Definition is_digit : ascii → bool := in_range 48 57.
Definition is_lower : ascii → bool := in_range 97 122.
Definition is_upper : ascii → bool := in_range 65 90.
Definition is_alnum (c : ascii) : bool := is_lower c || is_upper c || is_digit c.

Definition blen (s : string) : Z := Z.of_nat (String.length s).
Lemma blen_nonneg s : 0 <= blen s.
Proof. unfold blen. lia. Qed.

Fixpoint all_bytes (p : ascii → bool) (s : string) : bool :=
  match s with
  | EmptyString => true
  | String c s => p c && all_bytes p s
  end.

Lemma all_bytes_app p a b : all_bytes p (a +:+ b) = all_bytes p a && all_bytes p b.
Proof. induction a as [|c a IH]; cbn; [done|]. by rewrite IH, andb_assoc. Qed.

Fixpoint any_byte (p : ascii → bool) (s : string) : bool :=
  match s with
  | EmptyString => false
  | String c s => p c || any_byte p s
  end.

Definition contains_byte (z : Z) (s : string) : bool := any_byte (λ c, bz c =? z) s.

(** [strings.HasPrefix] and the remainder after the prefix. *)
Fixpoint strip_prefix (p s : string) : option string :=
  match p, s with
  | EmptyString, _ => Some s
  | String a p, String b s => if Ascii.eqb a b then strip_prefix p s else None
  | String _ _, EmptyString => None
  end.
Definition has_prefix (s p : string) : bool :=
  match strip_prefix p s with Some _ => true | None => false end.

Fixpoint rev_app (s acc : string) : string :=
  match s with EmptyString => acc | String c s => rev_app s (String c acc) end.
Definition string_rev (s : string) : string := rev_app s "".

Fixpoint string_take (n : nat) (s : string) : string :=
  match n, s with
  | S n, String c s => String c (string_take n s)
  | _, _ => ""
  end.
Fixpoint string_drop (n : nat) (s : string) : string :=
  match n, s with
  | S n, String _ s => string_drop n s
  | _, _ => s
  end.

(** [strings.Split(s, sep)] for a one-byte separator: always at least one part. *)
Fixpoint split_on (sep : ascii) (s : string) : list string :=
  match s with
  | EmptyString => [""%string]
  | String c s =>
      if Ascii.eqb c sep then ""%string :: split_on sep s
      else match split_on sep s with
           | [] => [String c ""]
           | part :: parts => String c part :: parts
           end
  end.

(** [strings.Cut(s, sep)] for a one-byte separator. *)
Fixpoint cut (sep : ascii) (s : string) : string * string * bool :=
  match s with
  | EmptyString => (""%string, ""%string, false)
  | String c s =>
      if Ascii.eqb c sep then (""%string, s, true)
      else let '(before, after, found) := cut sep s in (String c before, after, found)
  end.

(** *** Unicode white space, as [unicode.IsSpace] on UTF-8 text *)
Definition bytes_of (l : list Z) : string :=
  fold_right (λ z s, String (chr z) s) ""%string l.

Definition space_runes : list string :=
  map bytes_of
    ([[9]; [10]; [11]; [12]; [13]; [32]; [194; 133]; [194; 160]; [225; 154; 128];
      [226; 128; 168]; [226; 128; 169]; [226; 128; 175]; [226; 129; 159]; [227; 128; 128]]
     ++ map (λ k, [226; 128; k]) (seqZ 128 11)).

(** Remove one white-space rune from the front, when there is one. *)
Fixpoint strip_any (ps : list string) (s : string) : option string :=
  match ps with
  | [] => None
  | p :: ps => match strip_prefix p s with Some r => Some r | None => strip_any ps s end
  end.
Fixpoint trim_left (fuel : nat) (runes : list string) (s : string) : string :=
  match fuel with
  | O => s
  | S fuel => match strip_any runes s with Some r => trim_left fuel runes r | None => s end
  end.
Definition trim_space (s : string) : string :=
  let l := trim_left (String.length s) space_runes s in
  string_rev (trim_left (String.length l) (map string_rev space_runes) (string_rev l)).

(** [strings.Fields]. *)
Fixpoint fields_go (fuel : nat) (cur : string) (s : string) : list string :=
  let flush rest := if cur =?s "" then rest else string_rev cur :: rest in
  match fuel with
  | O => flush []
  | S fuel =>
      match s with
      | EmptyString => flush []
      | String c s' =>
          match strip_any space_runes s with
          | Some r => flush (fields_go fuel "" r)
          | None => fields_go fuel (String c cur) s'
          end
      end
  end.
Definition fields (s : string) : list string := fields_go (S (String.length s)) "" s.

(** ** Numerals *)
Definition digit_val (c : ascii) : option Z :=
  if is_digit c then Some (bz c - 48)
  else if is_lower c then Some (bz c - 87)
  else if is_upper c then Some (bz c - 55)
  else None.

Fixpoint digits_go (base acc : Z) (s : string) : option Z :=
  match s with
  | EmptyString => Some acc
  | String c s =>
      match digit_val c with
      | Some d => if d <? base then digits_go base (acc * base + d) s else None
      | None => None
      end
  end.
Definition digits (base : Z) (s : string) : option Z :=
  match s with EmptyString => None | _ => digits_go base 0 s end.

(** [strconv.ParseUint(s, base, bits)]: [None] on any error. *)
Definition parse_uint (base bits : Z) (s : string) : option Z :=
  match digits base s with
  | Some n => if n <? 2 ^ bits then Some n else None
  | None => None
  end.

(** [strconv.ParseInt(s, base, bits)]. *)
Definition parse_int (base bits : Z) (s : string) : option Z :=
  let sign := match s with
              | String c r => if bz c =? 45 then (-1, r) else if bz c =? 43 then (1, r) else (1, s)
              | EmptyString => (1, s)
              end in
  match digits base sign.2 with
  | Some n => let z := sign.1 * n in
              if (- 2 ^ (bits - 1) <=? z) && (z <? 2 ^ (bits - 1)) then Some z else None
  | None => None
  end.

Definition digit_char (d : Z) : ascii := chr (48 + d).

(** [strconv.FormatUint(n, 10)]; [Z.log2] bounds the number of digits. *)
Fixpoint utoa_go (fuel : nat) (n : Z) (acc : string) : string :=
  match fuel with
  | O => acc
  | S fuel =>
      let acc := String (digit_char (n mod 10)) acc in
      if n <? 10 then acc else utoa_go fuel (n / 10) acc
  end.
Definition utoa (n : Z) : string := utoa_go (S (Z.to_nat (Z.log2 n))) n "".
Definition itoa (n : Z) : string := if n <? 0 then String "-" (utoa (- n)) else utoa n.

(** Fixed-width decimal field, as [fmt]'s [%0*d] and [time.Format] print it. *)
Fixpoint pad_dec (width : nat) (n : Z) (acc : string) : string :=
  match width with
  | O => acc
  | S w => pad_dec w (n / 10) (String (digit_char (n mod 10)) acc)
  end.

(** [hex.DecodeString]: the number of decoded bytes, [None] on error. *)
Definition is_hex (c : ascii) : bool :=
  is_digit c || in_range 97 102 c || in_range 65 70 c.
Definition hex_decoded_len (s : string) : option Z :=
  if all_bytes is_hex s && Z.even (blen s) then Some (blen s / 2) else None.

(** ** UTF-8 *)
Definition is_cont : ascii → bool := in_range 128 191.

(** Length in bytes of a valid encoding at the front of the input. *)
Definition utf8_head (s : string) : option nat :=
  match s with
  | EmptyString => None
  | String c1 r1 =>
      if bz c1 <? 128 then Some 1%nat else
      match r1 with
      | EmptyString => None
      | String c2 r2 =>
          if in_range 194 223 c1 then (if is_cont c2 then Some 2%nat else None) else
          match r2 with
          | EmptyString => None
          | String c3 r3 =>
              let lo := if bz c1 =? 224 then 160 else if bz c1 =? 240 then 144 else 128 in
              let hi := if bz c1 =? 237 then 159 else if bz c1 =? 244 then 143 else 191 in
              if in_range 224 239 c1
              then (if in_range lo hi c2 && is_cont c3 then Some 3%nat else None)
              else if in_range 240 244 c1 then
                match r3 with
                | EmptyString => None
                | String c4 _ =>
                    if in_range lo hi c2 && is_cont c3 && is_cont c4 then Some 4%nat else None
                end
              else None
          end
      end
  end.
(** [utf8.Valid], with the number of continuation bytes the last head announced. *)
Fixpoint utf8_ok (k : nat) (s : string) : bool :=
  match s with
  | EmptyString => Nat.eqb k 0
  | String c r =>
      match k with
      | S k => is_cont c && utf8_ok k r
      | O => match utf8_head s with
             | Some n => utf8_ok (Nat.pred n) r
             | None => false
             end
      end
  end.
Definition utf8_valid : string → bool := utf8_ok 0.

(** [utf8.AppendRune] of a code point below 0x110000. *)
Definition utf8_encode (r : Z) : string :=
  if r <? 128 then bytes_of [r]
  else if r <? 2048 then bytes_of [192 + r / 64; 128 + r mod 64]
  else if r <? 65536 then bytes_of [224 + r / 4096; 128 + r / 64 mod 64; 128 + r mod 64]
  else bytes_of [240 + r / 262144; 128 + r / 4096 mod 64; 128 + r / 64 mod 64; 128 + r mod 64].

(** ** Identifiers

    The repository's identifier patterns all read
    [^[first][rest]{0,63}$] (or another bound): one byte of the first class
    and at most [n] of the rest. *)
Definition ident (first rest : ascii → bool) (n : Z) (s : string) : bool :=
  match s with
  | EmptyString => false
  | String c r => first c && all_bytes rest r && (blen r <=? n)
  end.
Definition is_one_of (cs : list Z) (c : ascii) : bool := existsb (Z.eqb (bz c)) cs.

#[global] Arguments bz : simpl never.
#[global] Arguments chr : simpl never.
#[global] Arguments in_range : simpl never.
#[global] Arguments is_digit : simpl never.
#[global] Arguments is_hex : simpl never.
#[global] Arguments is_one_of : simpl never.
#[global] Arguments wrap64 : simpl never.
#[global] Arguments trim_space : simpl never.
#[global] Arguments utf8_head : simpl never.
#[global] Arguments blen : simpl never.
#[global] Arguments string_rev : simpl never.
