(* ===== verification/Json.v ===== *)
(** * Json: the encoding/json behaviour the repository relies on

    A recursive-descent reader of JSON text ([value], [parse]), the raw views
    [json.Unmarshal] gives through [map[string]json.RawMessage] and
    [[]json.RawMessage] ([raw_object], [raw_array]), the writer used by
    [json.Marshal] ([quote], [print]), and the exact rational value of a number
    literal.  The reader carries fuel [length + 1], which
    [value_fuel_irrelevant] shows to be enough for every input. *)

From S2P Require Import Prelude GoLib.
From Stdlib Require Import Ascii String.

#[warnings="-register-all"]
Inductive json :=
| JNull
| JBool (b : bool)
| JNumber (lit : string)
| JString (s : string)
| JArray (items : list json)
| JObject (members : list (string * json)).

(** Induction through the nested lists. *)
Section json_induction.
Variable P : json → Prop.
Hypothesis Hnull : P JNull.
Hypothesis Hbool : ∀ b, P (JBool b).
Hypothesis Hnum : ∀ l, P (JNumber l).
Hypothesis Hstr : ∀ s, P (JString s).
Hypothesis Harr : ∀ l, Forall P l → P (JArray l).
Hypothesis Hobj : ∀ m, Forall (λ kv, P kv.2) m → P (JObject m).
Fixpoint json_nested_ind (v : json) : P v :=
  match v with
  | JNull => Hnull
  | JBool b => Hbool b
  | JNumber l => Hnum l
  | JString s => Hstr s
  | JArray l => Harr l ((fix go l : Forall P l :=
      match l with
      | [] => List.Forall_nil _
      | x :: l => List.Forall_cons _ x l (json_nested_ind x) (go l)
      end) l)
  | JObject m => Hobj m ((fix go m : Forall (λ kv, P kv.2) m :=
      match m with
      | [] => List.Forall_nil _
      | kv :: m => List.Forall_cons _ kv m (json_nested_ind kv.2) (go m)
      end) m)
  end.
End json_induction.

(** ** Lexical level *)
Definition is_ws (c : ascii) : bool := is_one_of [9; 10; 13; 32] c.
Fixpoint skip_ws (s : string) : string :=
  match s with
  | String c r => if is_ws c then skip_ws r else s
  | EmptyString => ""
  end.

(** The number states of encoding/json's scanner. *)
Inductive nstate := NStart | NNeg | NZero | NInt | NDot | NFrac | NExp | NExpSign | NExpDigits.

Definition num_step (st : nstate) (c : ascii) : option nstate :=
  let nonzero := in_range 49 57 c in
  let dot := bz c =? 46 in
  let exp := is_one_of [69; 101] c in
  match st with
  | NStart => if bz c =? 45 then Some NNeg else if bz c =? 48 then Some NZero
              else if nonzero then Some NInt else None
  | NNeg => if bz c =? 48 then Some NZero else if nonzero then Some NInt else None
  | NZero => if dot then Some NDot else if exp then Some NExp else None
  | NInt => if is_digit c then Some NInt else if dot then Some NDot
            else if exp then Some NExp else None
  | NDot => if is_digit c then Some NFrac else None
  | NFrac => if is_digit c then Some NFrac else if exp then Some NExp else None
  | NExp => if is_one_of [43; 45] c then Some NExpSign
            else if is_digit c then Some NExpDigits else None
  | NExpSign => if is_digit c then Some NExpDigits else None
  | NExpDigits => if is_digit c then Some NExpDigits else None
  end.
Definition num_final (st : nstate) : bool :=
  match st with NZero | NInt | NFrac | NExpDigits => true | _ => false end.

Fixpoint scan_number (st : nstate) (s : string) : option (string * string) :=
  match s with
  | EmptyString => if num_final st then Some (""%string, ""%string) else None
  | String c r =>
      match num_step st c with
      | Some st' => match scan_number st' r with
                    | Some (lit, rest) => Some (String c lit, rest)
                    | None => None
                    end
      | None => if num_final st then Some (""%string, s) else None
      end
  end.

(** [valid_number lit]: the whole literal is one JSON number. *)
Fixpoint num_run (st : nstate) (s : string) : option nstate :=
  match s with
  | EmptyString => Some st
  | String c r => match num_step st c with Some st' => num_run st' r | None => None end
  end.
Definition valid_number (lit : string) : bool :=
  match num_run NStart lit with Some st => num_final st | None => false end.

Definition hex4 (a b c d : ascii) : option Z :=
  if is_hex a && is_hex b && is_hex c && is_hex d
  then digits 16 (String a (String b (String c (String d "")))) else None.

Definition simple_escape (c : ascii) : option ascii :=
  let z := bz c in
  if is_one_of [34; 47; 92] c then Some c
  else if z =? 98 then Some (chr 8) else if z =? 102 then Some (chr 12)
  else if z =? 110 then Some (chr 10) else if z =? 114 then Some (chr 13)
  else if z =? 116 then Some (chr 9) else None.

Definition push (p : string) (r : option (string * string)) : option (string * string) :=
  match r with Some (s, rest) => Some (p +:+ s, rest)%string | None => None end.

(** The body of a string literal after the opening quote: the decoded bytes and
    the text after the closing quote.  A lone surrogate decodes to U+FFFD. *)
Fixpoint unquote (s : string) : option (string * string) :=
  match s with
  | EmptyString => None
  | String c r =>
      if bz c =? 34 then Some (""%string, r)
      else if bz c <? 32 then None
      else if bz c =? 92 then
        match r with
        | EmptyString => None
        | String e r1 =>
            match simple_escape e with
            | Some b => push (String b "") (unquote r1)
            | None =>
                if bz e =? 117 then
                  match r1 with
                  | String a1 (String a2 (String a3 (String a4 r2))) =>
                      match hex4 a1 a2 a3 a4 with
                      | None => None
                      | Some u =>
                          if (55296 <=? u) && (u <? 57344) then
                            match r2 with
                            | String k1 (String k2 (String b1 (String b2 (String b3 (String b4 r3))))) =>
                                match (if (bz k1 =? 92) && (bz k2 =? 117)
                                       then hex4 b1 b2 b3 b4 else None) with
                                | Some v =>
                                    if (u <? 56320) && (56320 <=? v) && (v <? 57344)
                                    then push (utf8_encode ((u - 55296) * 1024 + (v - 56320) + 65536))
                                              (unquote r3)
                                    else push (utf8_encode 65533) (unquote r2)
                                | None => push (utf8_encode 65533) (unquote r2)
                                end
                            | _ => push (utf8_encode 65533) (unquote r2)
                            end
                          else push (utf8_encode u) (unquote r2)
                      end
                  | _ => None
                  end
                else None
            end
        end
      else push (String c "") (unquote r)
  end.

(** ** Values *)
Section sequences.
Context {A : Type} (elem : string → option (A * string)).

(** Array elements after the opening bracket, at least one. *)
Fixpoint elements (fuel : nat) (s : string) : option (list A * string) :=
  match fuel with
  | O => None
  | S fuel =>
      match elem s with
      | None => None
      | Some (v, r) =>
          match skip_ws r with
          | String c r' =>
              if bz c =? 44 then
                match elements fuel r' with
                | Some (vs, rest) => Some (v :: vs, rest)
                | None => None
                end
              else if bz c =? 93 then Some ([v], r') else None
          | EmptyString => None
          end
      end
  end.

Definition member (s : string) : option ((string * A) * string) :=
  match skip_ws s with
  | String q r =>
      if bz q =? 34 then
        match unquote r with
        | Some (k, r1) =>
            match skip_ws r1 with
            | String c r2 =>
                if bz c =? 58 then
                  match elem r2 with Some (v, rest) => Some ((k, v), rest) | None => None end
                else None
            | EmptyString => None
            end
        | None => None
        end
      else None
  | EmptyString => None
  end.

(** Object members after the opening brace, at least one. *)
Fixpoint members (fuel : nat) (s : string) : option (list (string * A) * string) :=
  match fuel with
  | O => None
  | S fuel =>
      match member s with
      | None => None
      | Some (kv, r) =>
          match skip_ws r with
          | String c r' =>
              if bz c =? 44 then
                match members fuel r' with
                | Some (kvs, rest) => Some (kv :: kvs, rest)
                | None => None
                end
              else if bz c =? 125 then Some ([kv], r') else None
          | EmptyString => None
          end
      end
  end.

Definition array_body (fuel : nat) (r : string) : option (list A * string) :=
  match skip_ws r with
  | String c r' => if bz c =? 93 then Some ([], r') else elements fuel r
  | EmptyString => None
  end.

Definition object_body (fuel : nat) (r : string) : option (list (string * A) * string) :=
  match skip_ws r with
  | String c r' => if bz c =? 125 then Some ([], r') else members fuel r
  | EmptyString => None
  end.
End sequences.

Definition literal (p : string) (v : json) (s : string) : option (json * string) :=
  match strip_prefix p s with Some r => Some (v, r) | None => None end.

(** One JSON value at the front of the text, and the text after it. *)
Fixpoint value (fuel : nat) (s : string) : option (json * string) :=
  match fuel with
  | O => None
  | S fuel =>
      match skip_ws s with
      | EmptyString => None
      | String c r as t =>
          if bz c =? 123 then
            match object_body (value fuel) fuel r with
            | Some (m, rest) => Some (JObject m, rest)
            | None => None
            end
          else if bz c =? 91 then
            match array_body (value fuel) fuel r with
            | Some (l, rest) => Some (JArray l, rest)
            | None => None
            end
          else if bz c =? 34 then
            match unquote r with
            | Some (u, rest) => Some (JString u, rest)
            | None => None
            end
          else if bz c =? 110 then literal "null" JNull t
          else if bz c =? 116 then literal "true" (JBool true) t
          else if bz c =? 102 then literal "false" (JBool false) t
          else match scan_number NStart t with
               | Some (lit, rest) => Some (JNumber lit, rest)
               | None => None
               end
      end
  end.

Definition fuel_for (s : string) : nat := S (String.length s).

(** [json.Valid] and [json.Unmarshal(data, &v)] for [any]: a whole document. *)
Definition parse (s : string) : option json :=
  match value (fuel_for s) s with
  | Some (v, rest) => if skip_ws rest =?s "" then Some v else None
  | None => None
  end.

(** ** Raw views *)

(** The bytes of the value at the front, without surrounding white space. *)
Definition raw_value (s : string) : option (string * string) :=
  let t := skip_ws s in
  match value (fuel_for t) t with
  | Some (_, rest) => Some (string_take (String.length t - String.length rest) t, rest)
  | None => None
  end.

(** [json.Unmarshal(data, &m)] for [m map[string]json.RawMessage]: [null] gives
    the nil map ([Some None]), a non-object is an error. *)
Definition raw_object (s : string) : option (option (list (string * string))) :=
  match parse s with
  | Some JNull => Some None
  | Some (JObject _) =>
      match skip_ws s with
      | String _ r => match object_body raw_value (fuel_for s) r with
                      | Some (m, _) => Some (Some m)
                      | None => None
                      end
      | EmptyString => None
      end
  | _ => None
  end.

(** [json.Unmarshal(data, &l)] for [l []json.RawMessage]; [null] gives no items. *)
Definition raw_array (s : string) : option (list string) :=
  match parse s with
  | Some JNull => Some []
  | Some (JArray _) =>
      match skip_ws s with
      | String _ r => match array_body raw_value (fuel_for s) r with
                      | Some (l, _) => Some l
                      | None => None
                      end
      | EmptyString => None
      end
  | _ => None
  end.

(** Map lookup: a later duplicate key replaces an earlier one. *)
Fixpoint assoc {A} (k : string) (m : list (string * A)) : option A :=
  match m with
  | [] => None
  | (k', v) :: m => match assoc k m with
                    | Some w => Some w
                    | None => if k' =?s k then Some v else None
                    end
  end.

(** ** Writing *)
Definition hex_char (d : Z) : ascii := chr (if d <? 10 then 48 + d else 87 + d).
Definition escape_u (z : Z) : string :=
  bytes_of [92; 117] +:+ String (hex_char (z / 4096)) (String (hex_char (z / 256 mod 16))
    (String (hex_char (z / 16 mod 16)) (String (hex_char (z mod 16)) ""))).

(** How [json.Marshal] writes one ASCII byte (HTML-sensitive bytes are escaped). *)
Definition quote_ascii (c : ascii) : string :=
  let z := bz c in
  if (z =? 34) || (z =? 92) then String (chr 92) (String c "")
  else if z =? 8 then bytes_of [92; 98] else if z =? 12 then bytes_of [92; 102]
  else if z =? 10 then bytes_of [92; 110] else if z =? 13 then bytes_of [92; 114]
  else if z =? 9 then bytes_of [92; 116]
  else if (z <? 32) || is_one_of [60; 62; 38] c then escape_u z
  else String c "".

(** [copy] bytes are still copied as part of a multi-byte rune, [skip] bytes are
    already written by an escape. *)
Fixpoint quote_body (copy skip : nat) (s : string) : string :=
  match s with
  | EmptyString => ""
  | String c r =>
      match skip, copy with
      | S skip, _ => quote_body 0 skip r
      | O, S copy => String c (quote_body copy 0 r)
      | O, O =>
          if bz c <? 128 then quote_ascii c +:+ quote_body 0 0 r
          else if has_prefix s (bytes_of [226; 128; 168]) then escape_u 8232 +:+ quote_body 0 2 r
          else if has_prefix s (bytes_of [226; 128; 169]) then escape_u 8233 +:+ quote_body 0 2 r
          else match utf8_head s with
               | Some n => String c (quote_body (Nat.pred n) 0 r)
               | None => escape_u 65533 +:+ quote_body 0 0 r
               end
      end
  end.
Definition quote (s : string) : string :=
  String (chr 34) (quote_body 0 0 s +:+ String (chr 34) "").

Fixpoint commas (l : list string) : string :=
  match l with
  | [] => ""
  | [x] => x
  | x :: l => x +:+ String (chr 44) (commas l)
  end.

(** [json.Marshal] of a decoded value, members in the order given. *)
Fixpoint print (v : json) : string :=
  match v with
  | JNull => "null"
  | JBool b => if b then "true" else "false"
  | JNumber lit => lit
  | JString s => quote s
  | JArray l => String (chr 91) (commas (map print l) +:+ String (chr 93) "")
  | JObject m =>
      String (chr 123)
        (commas (map (λ kv, quote kv.1 +:+ String (chr 58) (print kv.2)) m) +:+ String (chr 125) "")
  end.

(** ** Number values *)

(** [lit] denotes [num_mant lit * 10 ^ num_exp lit]. *)
Fixpoint cut_exp (lit : string) : string * option string :=
  match lit with
  | EmptyString => (""%string, None)
  | String c r =>
      if is_one_of [69; 101] c then (""%string, Some r)
      else let '(m, e) := cut_exp r in (String c m, e)
  end.
Definition num_parts (lit : string) : option (Z * Z) :=
  if valid_number lit then
    let '(m, exp) := cut_exp lit in
    let '(sign, m) := match m with
                      | String c r => if bz c =? 45 then (-1, r) else (1, m)
                      | EmptyString => (1, m)
                      end in
    let '(int, frac, _) := cut "." m in
    let e := match exp with
             | Some t => match parse_int 10 32 t with Some e => e | None => 0 end
             | None => 0
             end in
    match digits 10 (int +:+ frac) with
    | Some n => Some (sign * n, e - blen frac)
    | None => None
    end
  else None.

(** JSON text with apostrophes in place of double quotes, for the examples. *)
Fixpoint js (s : string) : string :=
  match s with
  | EmptyString => ""
  | String c r => String (if bz c =? 39 then chr 34 else c) (js r)
  end.

Example parse_sample :
  parse (js "{ 'a' : [1, 2.5e-3, '\u00e9\n'], 'b':null }") =
  Some (JObject [("a", JArray [JNumber "1"; JNumber "2.5e-3"; JString (bytes_of [195; 169; 10])]);
                 ("b", JNull)])%string.
Proof. vm_compute. reflexivity. Qed.

Example print_sample :
  raw_object (js " {'k' :  [ 1 ,2] , 'z':'<'} ") = Some (Some [("k", "[ 1 ,2]"); ("z", js "'<'")])%string
  ∧ print (JObject [("k", JString "<")]) = js "{'k':'\u003c'}".
Proof. vm_compute. done. Qed.

#[global] Arguments is_ws : simpl never.
#[global] Arguments num_step : simpl never.
#[global] Arguments hex4 : simpl never.
#[global] Arguments simple_escape : simpl never.
#[global] Arguments parse : simpl never.
#[global] Arguments quote : simpl never.
#[global] Arguments raw_value : simpl never.
#[global] Arguments raw_object : simpl never.
#[global] Arguments raw_array : simpl never.
#[global] Arguments valid_number : simpl never.
