(* ===== verification/JsonFacts.v ===== *)
(** * JsonFacts: the JSON reader is total on its fuel and inverts the writer *)

From S2P Require Import Prelude GoLib Json.
From Stdlib Require Import Ascii String.

(** ** String algebra *)
Lemma sapp_assoc (a b c : string) : ((a +:+ b) +:+ c = a +:+ (b +:+ c))%string.
Proof. induction a; cbn; congruence. Qed.
Lemma sapp_nil_r (a : string) : (a +:+ "" = a)%string.
Proof. induction a; cbn; congruence. Qed.
Lemma slength_app (a b : string) :
  String.length (a +:+ b) = (String.length a + String.length b)%nat.
Proof. induction a; cbn; congruence. Qed.
(** ** Consumption: every reader leaves strictly less text *)
Definition shorter {A} (s : string) (r : option (A * string)) : Prop :=
  ∀ a rest, r = Some (a, rest) → (String.length rest < String.length s)%nat.

Lemma skip_ws_length s : (String.length (skip_ws s) ≤ String.length s)%nat.
Proof. induction s as [|c s IH]; cbn; [lia|]. destruct (is_ws c); cbn; lia. Qed.

Lemma strip_prefix_app p s r : strip_prefix p s = Some r ↔ s = (p +:+ r)%string.
Proof.
  revert s; induction p as [|a p IH]; intros s; cbn.
  - split; congruence.
  - destruct s as [|b s]; [by split|].
    destruct (Ascii.eqb_spec a b) as [->|Hne].
    + rewrite IH. split; [by intros ->|by intros [= ->]].
    + split; [done|]. intros [= ? ?]. congruence.
Qed.

Lemma scan_number_length st s lit rest :
  scan_number st s = Some (lit, rest) →
  (String.length rest ≤ String.length s)%nat ∧ s = (lit +:+ rest)%string.
Proof.
  revert st lit rest; induction s as [|c s IH]; intros st lit rest; cbn.
  - destruct (num_final st); [|done]. intros [= <- <-]. auto.
  - destruct (num_step st c) as [st'|] eqn:E.
    + destruct (scan_number st' s) as [[l r]|] eqn:E2; [|done].
      intros [= <- <-]. destruct (IH _ _ _ E2) as [? ->]. cbn. split; [lia|done].
    + destruct (num_final st); [|done]. intros [= <- <-]. split; cbn; [lia|done].
Qed.

Lemma scan_start_shorter s : shorter s (scan_number NStart s).
Proof.
  intros lit rest H. destruct s as [|c s]; [done|]. cbn [scan_number num_final] in H.
  destruct (num_step NStart c); [|done].
  destruct (scan_number n s) as [[l r]|] eqn:E; [|done].
  injection H as <- <-. apply scan_number_length in E as [? _]. cbn. lia.
Qed.

Lemma push_some p r a rest :
  push p r = Some (a, rest) → ∃ a', r = Some (a', rest) ∧ a = (p +:+ a')%string.
Proof. destruct r as [[? ?]|]; cbn; [|done]. intros [= <- <-]. eauto. Qed.

Lemma unquote_shorter s : shorter s (unquote s).
Proof.
  remember (String.length s) as n eqn:Hn. revert s Hn.
  induction (lt_wf n) as [n _ IH]; intros s -> a rest.
  assert (IH' : ∀ t, (String.length t < String.length s)%nat → shorter t (unquote t)).
  { intros t Ht. by apply (IH _ Ht). }
  clear IH. destruct s as [|c s]; [done|]. cbn [unquote].
  assert (Hp : ∀ p t, (String.length t < S (String.length s))%nat →
    push p (unquote t) = Some (a, rest) → (String.length rest < S (String.length s))%nat).
  { intros p t Ht (a' & Ha & _)%push_some.
    apply (IH' t) in Ha; [lia|cbn; lia]. }
  cbn [String.length].
  repeat case_match; try done; intros Heq; simplify_eq; subst; cbn [String.length] in *;
    try (eapply Hp in Heq; [exact Heq|cbn [String.length] in *; lia]); lia.
Qed.

Section consumption.
Context {A : Type} (elem : string → option (A * string)).
Hypothesis elem_shorter : ∀ s, shorter s (elem s).

Lemma elements_shorter fuel s : shorter s (elements elem fuel s).
Proof.
  revert s; induction fuel as [|f IH]; intros s l rest; cbn; [done|].
  destruct (elem s) as [[v r]|] eqn:E; [|done]. apply elem_shorter in E.
  pose proof (skip_ws_length r). destruct (skip_ws r) as [|c r'] eqn:Ew; [done|]. cbn in *.
  destruct (bz c =? 44).
  - destruct (elements elem f r') as [[vs rr]|] eqn:E2; [|done].
    intros [= <- <-]. apply IH in E2. lia.
  - destruct (bz c =? 93); [|done]. intros [= <- <-]. lia.
Qed.

Lemma member_shorter s : shorter s (member elem s).
Proof.
  intros kv rest. unfold member. pose proof (skip_ws_length s).
  destruct (skip_ws s) as [|q r]; [done|]. cbn in *. destruct (bz q =? 34); [|done].
  destruct (unquote r) as [[k r1]|] eqn:E; [|done]. apply unquote_shorter in E.
  pose proof (skip_ws_length r1). destruct (skip_ws r1) as [|c r2]; [done|]. cbn in *.
  destruct (bz c =? 58); [|done].
  destruct (elem r2) as [[v r3]|] eqn:E2; [|done]. apply elem_shorter in E2.
  intros [= <- <-]. lia.
Qed.

Lemma members_shorter fuel s : shorter s (members elem fuel s).
Proof.
  revert s; induction fuel as [|f IH]; intros s l rest; cbn; [done|].
  destruct (member elem s) as [[v r]|] eqn:E; [|done]. apply member_shorter in E.
  pose proof (skip_ws_length r). destruct (skip_ws r) as [|c r'] eqn:Ew; [done|]. cbn in *.
  destruct (bz c =? 44).
  - destruct (members elem f r') as [[vs rr]|] eqn:E2; [|done].
    intros [= <- <-]. apply IH in E2. lia.
  - destruct (bz c =? 125); [|done]. intros [= <- <-]. lia.
Qed.

Lemma array_body_shorter fuel s : shorter s (array_body elem fuel s).
Proof.
  intros l rest. unfold array_body. pose proof (skip_ws_length s).
  destruct (skip_ws s) as [|c r]; [done|]. cbn in *.
  destruct (bz c =? 93); [intros [= <- <-]; lia|]. apply elements_shorter.
Qed.

Lemma object_body_shorter fuel s : shorter s (object_body elem fuel s).
Proof.
  intros l rest. unfold object_body. pose proof (skip_ws_length s).
  destruct (skip_ws s) as [|c r]; [done|]. cbn in *.
  destruct (bz c =? 125); [intros [= <- <-]; lia|]. apply members_shorter.
Qed.
End consumption.

Lemma literal_shorter p v s : p ≠ ""%string → shorter s (literal p v s).
Proof.
  intros Hp a rest. unfold literal. destruct (strip_prefix p s) as [r|] eqn:E; [|done].
  intros [= <- <-]. apply strip_prefix_app in E as ->.
  destruct p; [done|]. cbn. rewrite slength_app. lia.
Qed.

Lemma value_shorter fuel s : shorter s (value fuel s).
Proof.
  revert s; induction fuel as [|f IH]; intros s v rest; [done|].
  cbn [value]. pose proof (skip_ws_length s) as Hw.
  destruct (skip_ws s) as [|c r] eqn:Es; [done|].
  assert (Hlen : ∀ n, (n < S (String.length r) → n < String.length s)%nat)
    by (cbn in Hw; lia).
  intros Heq. apply Hlen. repeat case_match; try done; simplify_eq.
  - eapply (object_body_shorter _ IH) in H0. lia.
  - eapply (array_body_shorter _ IH) in H1. lia.
  - apply unquote_shorter in H2. lia.
  - eapply literal_shorter in Heq; [exact Heq|done].
  - eapply literal_shorter in Heq; [exact Heq|done].
  - eapply literal_shorter in Heq; [exact Heq|done].
  - match goal with H : scan_number _ _ = _ |- _ => apply scan_start_shorter in H; exact H end.
Qed.

(** ** Fuel *)
Section fuel.
Context {A : Type} (e1 e2 : string → option (A * string)) (n : nat).
Hypothesis e1_shorter : ∀ s, shorter s (e1 s).
Hypothesis agree : ∀ s, (String.length s ≤ n)%nat → e1 s = e2 s.

Lemma elements_fuel f1 f2 s :
  (String.length s ≤ n)%nat → (String.length s < f1)%nat → (String.length s < f2)%nat →
  elements e1 f1 s = elements e2 f2 s.
Proof.
  revert f2 s; induction f1 as [|f1 IH]; intros f2 s Hn H1 H2; [lia|].
  destruct f2 as [|f2]; [lia|]. cbn. rewrite <-agree by done.
  destruct (e1 s) as [[v r]|] eqn:E; [|done]. apply e1_shorter in E.
  pose proof (skip_ws_length r). destruct (skip_ws r) as [|c r']; [done|]. cbn in *.
  by rewrite (IH f2 r') by lia.
Qed.

Lemma member_fuel s : (String.length s ≤ n)%nat → member e1 s = member e2 s.
Proof.
  intros Hn. unfold member. pose proof (skip_ws_length s).
  destruct (skip_ws s) as [|q r]; [done|]. cbn in *. destruct (bz q =? 34); [|done].
  destruct (unquote r) as [[k r1]|] eqn:E; [|done]. apply unquote_shorter in E.
  pose proof (skip_ws_length r1). destruct (skip_ws r1) as [|c r2]; [done|]. cbn in *.
  destruct (bz c =? 58); [|done]. by rewrite agree by lia.
Qed.

Lemma members_fuel f1 f2 s :
  (String.length s ≤ n)%nat → (String.length s < f1)%nat → (String.length s < f2)%nat →
  members e1 f1 s = members e2 f2 s.
Proof.
  revert f2 s; induction f1 as [|f1 IH]; intros f2 s Hn H1 H2; [lia|].
  destruct f2 as [|f2]; [lia|]. cbn. rewrite <-member_fuel by done.
  destruct (member e1 s) as [[v r]|] eqn:E; [|done].
  apply (member_shorter _ e1_shorter) in E.
  pose proof (skip_ws_length r). destruct (skip_ws r) as [|c r']; [done|]. cbn in *.
  by rewrite (IH f2 r') by lia.
Qed.
End fuel.

(** Any fuel above the length of the text gives the same answer: the bound in
    [fuel_for] never cuts a document short. *)
Lemma value_fuel_irrelevant f1 f2 s :
  (String.length s < f1)%nat → (String.length s < f2)%nat → value f1 s = value f2 s.
Proof.
  revert f2 s; induction f1 as [|f1 IH]; intros f2 s H1 H2; [lia|].
  destruct f2 as [|f2]; [lia|]. cbn [value]. pose proof (skip_ws_length s) as Hw.
  destruct (skip_ws s) as [|c r]; [done|]. cbn in Hw.
  assert (Hag : ∀ t, (String.length t ≤ String.length r)%nat → value f1 t = value f2 t)
    by (intros; apply IH; lia).
  assert (Ho : object_body (value f1) f1 r = object_body (value f2) f2 r).
  { unfold object_body. pose proof (skip_ws_length r). destruct (skip_ws r); [done|].
    by rewrite (members_fuel _ _ _ (value_shorter f1) Hag f1 f2) by lia. }
  assert (Ha : array_body (value f1) f1 r = array_body (value f2) f2 r).
  { unfold array_body. pose proof (skip_ws_length r). destruct (skip_ws r); [done|].
    by rewrite (elements_fuel _ _ _ (value_shorter f1) Hag f1 f2) by lia. }
  by rewrite Ho, Ha.
Qed.

(** ** Round trip *)

(** Text that may follow a value: it cannot extend a number literal. *)
Definition delimited (rest : string) : Prop :=
  match rest with
  | EmptyString => True
  | String c _ => ∀ st, num_step st c = None
  end.

Lemma scan_number_run st lit rest :
  delimited rest →
  match num_run st lit with Some st' => num_final st' | None => false end = true →
  scan_number st (lit +:+ rest) = Some (lit, rest).
Proof.
  intros Hd. revert st; induction lit as [|c lit IH]; intros st Hr; cbn in *.
  - destruct rest as [|c r]; cbn; [by rewrite Hr|]. by rewrite Hd, Hr.
  - destruct (num_step st c); [|done]. by rewrite IH.
Qed.

(** What [json.Marshal] writes for one ASCII byte is read back as that byte. *)
Lemma unquote_quote_ascii c r :
  bz c < 128 → unquote (quote_ascii c +:+ r) = push (String c "") (unquote r).
Proof.
  intros Hc. destruct c as [[] [] [] [] [] [] [] []]; try (exfalso; revert Hc; vm_compute; done);
    reflexivity.
Qed.

Lemma unquote_plain c r : 128 ≤ bz c → unquote (String c r) = push (String c "") (unquote r).
Proof.
  intros Hc. cbn [unquote]. repeat case_match; to_prop; try lia; done.
Qed.

Lemma unquote_line_sep z r :
  z = 8232 ∨ z = 8233 → unquote (escape_u z +:+ r) = push (utf8_encode z) (unquote r).
Proof. by intros [-> | ->]. Qed.

Lemma is_cont_high c : is_cont c = true → 128 ≤ bz c.
Proof. unfold is_cont, in_range. intros; to_prop; lia. Qed.

Lemma unquote_quote_body s : ∀ copy skip rest,
  (copy = 0 ∨ skip = 0)%nat → utf8_ok (copy + skip) s = true →
  unquote (quote_body copy skip s +:+ String (chr 34) rest) = Some (string_drop skip s, rest).
Proof.
  induction s as [|c s IH]; intros copy skip rest Hcs Hok.
  { cbn in Hok. apply Nat.eqb_eq in Hok. by assert (skip = 0)%nat as -> by lia. }
  destruct skip as [|skip].
  2:{ assert (copy = 0)%nat as -> by lia. cbn in *. to_prop. by apply IH; [left|]. }
  rewrite Nat.add_0_r in Hok. destruct copy as [|copy].
  2:{ cbn [quote_body utf8_ok string_drop String.append] in *. to_prop.
      rewrite unquote_plain by (by apply is_cont_high).
      rewrite IH; [done|by right|by rewrite Nat.add_0_r]. }
  cbn [quote_body string_drop]. destruct (bz c <? 128) eqn:Hc; to_prop.
  - rewrite sapp_assoc, unquote_quote_ascii by done.
    rewrite IH; [done|by left|].
    revert Hok. cbn [utf8_ok]. unfold utf8_head. by rewrite (proj2 (Z.ltb_lt _ _) Hc).
  - assert (Hsep : ∀ z, (z = 8232 ∨ z = 8233) →
      has_prefix (String c s) (utf8_encode z) = true →
      unquote ((escape_u z +:+ quote_body 0 2 s) +:+ String (chr 34) rest)
      = Some (String c s, rest)).
    { intros z Hz Hp. unfold has_prefix in Hp.
      destruct (strip_prefix _ _) as [r|] eqn:E; [|done]. apply strip_prefix_app in E.
      rewrite sapp_assoc, unquote_line_sep, IH; [ |by left| |done].
      - rewrite E. destruct Hz as [-> | ->]; cbn in E |- *; injection E as -> ->; done.
      - revert Hok. rewrite E. destruct Hz as [-> | ->]; injection E as -> ->; done. }
    destruct (has_prefix _ (bytes_of [226; 128; 168])) eqn:Hp1; [by apply Hsep; [left|]|].
    destruct (has_prefix _ (bytes_of [226; 128; 169])) eqn:Hp2; [by apply Hsep; [right|]|].
    cbn [utf8_ok] in Hok. destruct (utf8_head (String c s)) as [n|]; [|done].
    cbn [String.append]. rewrite unquote_plain, IH by (done || (by right) || (by rewrite Nat.add_0_r)).
    done.
Qed.

Lemma unquote_quote s rest :
  utf8_valid s = true →
  unquote (quote_body 0 0 s +:+ String (chr 34) rest) = Some (s, rest).
Proof. intros H. rewrite unquote_quote_body; [done|by left|done]. Qed.

(** Values [json.Marshal] can write without replacing bytes. *)
Fixpoint json_wf (v : json) : bool :=
  match v with
  | JNull | JBool _ => true
  | JNumber lit => valid_number lit
  | JString s => utf8_valid s
  | JArray l => forallb json_wf l
  | JObject m => forallb (λ kv, utf8_valid kv.1 && json_wf kv.2) m
  end.

(** The first byte of a printed value: not white space, not a closing bracket. *)
Definition starts_value (s : string) : Prop :=
  match s with
  | EmptyString => False
  | String c _ => is_ws c = false ∧ bz c ≠ 93 ∧ bz c ≠ 125
  end.

Lemma number_start lit : valid_number lit = true → starts_value lit ∧
  match lit with String c _ => bz c = 45 ∨ 48 ≤ bz c ≤ 57 | _ => False end.
Proof.
  unfold valid_number. destruct lit as [|c lit]; cbn [num_run]; [done|].
  destruct (num_step NStart c) eqn:E; [|done]. intros _. revert E. unfold num_step, starts_value.
  unfold is_ws, is_one_of, in_range. cbn [existsb].
  destruct (Z.eqb_spec (bz c) 45); [intros _; split; [|lia]; repeat split; lia|].
  destruct (Z.eqb_spec (bz c) 48); [intros _; split; [|lia]; repeat split; lia|].
  destruct ((49 <=? bz c) && (bz c <=? 57)) eqn:E; [|done]. intros _. to_prop.
  split; [|lia]. repeat split; lia.
Qed.

Lemma print_start v : json_wf v = true → starts_value (print v).
Proof.
  destruct v; cbn; try (intros; repeat split; vm_compute; done).
  - intros _. by destruct b.
  - intros H. by apply number_start.
Qed.

Lemma starts_skip s rest : starts_value s → skip_ws (s +:+ rest) = (s +:+ rest)%string.
Proof. destruct s; cbn; [done|]. by intros (-> & _). Qed.

Lemma delimited_comma r : delimited (String (chr 44) r).
Proof. by intros []. Qed.
Lemma delimited_bracket r : delimited (String (chr 93) r).
Proof. by intros []. Qed.
Lemma delimited_brace r : delimited (String (chr 125) r).
Proof. by intros []. Qed.
#[export] Hint Resolve delimited_comma delimited_bracket delimited_brace : epoch.

(** [elem] reads [a] from the text [t], for texts of length at most [N]. *)
Definition reads_text {A} (elem : string → option (A * string)) (N : nat) (t : string) (a : A) : Prop :=
  ∀ rest, delimited rest → (String.length (t +:+ rest) ≤ N)%nat → elem (t +:+ rest)%string = Some (a, rest).
(** [elem] reads back what [pr] wrote. *)
Definition reads {A} (elem : string → option (A * string)) (N : nat) (pr : A → string) (x : A) :=
  reads_text elem N (pr x) x.

Lemma elements_texts {A} (elem : string → option (A * string)) N ps (l : list A) rest fuel :
  ps ≠ [] → Forall2 (reads_text elem N) ps l →
  (String.length (commas ps +:+ String (chr 93) rest) ≤ N)%nat → (List.length ps ≤ fuel)%nat →
  elements elem fuel (commas ps +:+ String (chr 93) rest) = Some (l, rest).
Proof.
  intros Hne Hall. revert fuel. induction Hall as [|p x ps l Hx Hl IH]; intros fuel Hlen Hf; [done|].
  destruct fuel as [|fuel]; [cbn in Hf; lia|]. cbn in Hf. destruct Hl as [|p2 y ps l Hy Hl].
  - cbn in *. by rewrite Hx by auto with epoch.
  - change (commas (p :: p2 :: ps)) with (p +:+ String (chr 44) (commas (p2 :: ps)))%string in *.
    rewrite sapp_assoc in *. cbn [String.append elements] in *.
    rewrite Hx by auto with epoch. cbn [skip_ws].
    change (is_ws (chr 44)) with false. change (bz (chr 44) =? 44) with true. cbn iota.
    rewrite IH; [done|done| |cbn in *; lia].
    rewrite slength_app in Hlen. cbn [String.length] in Hlen. lia.
Qed.
Lemma Forall_texts {A B} (R : string → B → Prop) (pr : A → string) (val : A → B) l :
  Forall (λ x, R (pr x) (val x)) l → Forall2 R (map pr l) (map val l).
Proof. induction 1; cbn; by constructor. Qed.
Lemma elements_commas {A} (elem : string → option (A * string)) N pr l rest fuel :
  l ≠ [] → Forall (reads elem N pr) l →
  (String.length (commas (map pr l) +:+ String (chr 93) rest) ≤ N)%nat →
  (List.length l ≤ fuel)%nat →
  elements elem fuel (commas (map pr l) +:+ String (chr 93) rest) = Some (l, rest).
Proof.
  intros Hne Hall Hlen Hf. rewrite <-(map_id l) at 2. apply (elements_texts elem N); [by destruct l| |done|by rewrite length_map].
  by apply Forall_texts.
Qed.

Definition print_member {A} (pr : A → string) (kv : string * A) : string :=
  quote kv.1 +:+ String (chr 58) (pr kv.2).

Lemma member_print {A} (elem : string → option (A * string)) N pr k v rest :
  utf8_valid k = true → reads elem N pr v → delimited rest →
  (String.length (print_member pr (k, v) +:+ rest) ≤ N)%nat →
  member elem (print_member pr (k, v) +:+ rest) = Some ((k, v), rest).
Proof.
  intros Hk Hv Hd Hlen. revert Hlen. unfold print_member, quote. cbn [fst snd].
  cbn [String.append]. rewrite !sapp_assoc. cbn [String.append String.length]. intros Hlen.
  unfold member. cbn [skip_ws]. change (is_ws (chr 34)) with false.
  change (bz (chr 34) =? 34) with true. cbn iota. rewrite unquote_quote by done.
  cbn [skip_ws]. change (is_ws (chr 58)) with false. change (bz (chr 58) =? 58) with true. cbn iota.
  rewrite Hv; [done|done|]. rewrite slength_app in Hlen. cbn [String.length] in Hlen. lia.
Qed.

Lemma members_texts {A} (elem : string → option (A * string)) N ps m rest fuel :
  ps ≠ [] → Forall2 (reads_text (member elem) N) ps m →
  (String.length (commas ps +:+ String (chr 125) rest) ≤ N)%nat → (List.length ps ≤ fuel)%nat →
  members elem fuel (commas ps +:+ String (chr 125) rest) = Some (m, rest).
Proof.
  intros Hne Hall. revert fuel. induction Hall as [|p x ps m Hx Hl IH]; intros fuel Hlen Hf; [done|].
  destruct fuel as [|fuel]; [cbn in Hf; lia|]. cbn in Hf. destruct Hl as [|p2 y ps m Hy Hl].
  - cbn [commas members] in *. by rewrite Hx by auto with epoch.
  - change (commas (p :: p2 :: ps)) with (p +:+ String (chr 44) (commas (p2 :: ps)))%string in *.
    rewrite sapp_assoc in *. cbn [String.append members] in *.
    rewrite Hx by auto with epoch. cbn [skip_ws].
    change (is_ws (chr 44)) with false. change (bz (chr 44) =? 44) with true. cbn iota.
    rewrite IH; [done|done| |cbn in *; lia].
    rewrite slength_app in Hlen. cbn [String.length] in Hlen. lia.
Qed.
Lemma members_commas {A} (elem : string → option (A * string)) N pr m rest fuel :
  m ≠ [] → Forall (λ kv, utf8_valid kv.1 = true ∧ reads elem N pr kv.2) m →
  (String.length (commas (map (print_member pr) m) +:+ String (chr 125) rest) ≤ N)%nat →
  (List.length m ≤ fuel)%nat →
  members elem fuel (commas (map (print_member pr) m) +:+ String (chr 125) rest) = Some (m, rest).
Proof.
  intros Hne Hall Hlen Hf. rewrite <-(map_id m) at 2. apply (members_texts elem N); [by destruct m| |done|by rewrite length_map].
  apply Forall_texts. eapply Forall_impl; [exact Hall|]. intros [k v] [Hk Hv] r Hd Hl. by apply (member_print _ N).
Qed.

Lemma commas_length {A} (pr : A → string) (l : list A) rest :
  Forall (λ x, pr x ≠ ""%string) l →
  (List.length l ≤ String.length (commas (map pr l) +:+ rest))%nat.
Proof.
  intros Hne. rewrite slength_app. cut (List.length l ≤ String.length (commas (map pr l)))%nat; [lia|].
  induction Hne as [|x l Hx _ IH]; [done|].
  assert (0 < String.length (pr x))%nat by (destruct (pr x); [done|cbn; lia]).
  destruct l as [|y l]; [cbn; lia|].
  change (commas (map pr (x :: y :: l))) with
    (pr x +:+ String (chr 44) (commas (map pr (y :: l))))%string.
  rewrite slength_app. cbn [String.length List.length] in *. lia.
Qed.

Lemma quote_nonempty kv (pr : json → string) : print_member pr kv ≠ ""%string.
Proof. done. Qed.

Lemma starts_nonempty s : starts_value s → s ≠ ""%string.
Proof. by intros H ->. Qed.

(** A nonempty list of printed items starts with its first item. *)
Lemma commas_start {A} (pr : A → string) (x : A) (l : list A) :
  starts_value (pr x) → starts_value (commas (map pr (x :: l))).
Proof. destruct l; [done|]. cbn. destruct (pr x); [done|]. by cbn. Qed.

Ltac read_char z :=
  cbn [skip_ws]; change (is_ws (chr z)) with false; cbn iota;
  change (bz (chr z)) with z; cbn [Z.eqb Pos.eqb]; cbn iota.

Lemma value_print v : json_wf v = true → ∀ f N, (N < f)%nat → reads (value f) N print v.
Proof.
  induction v as [| | | |l IH|m IH] using json_nested_ind; intros Hwf f N Hf rest Hd Hlen;
    (destruct f as [|f]; [lia|]).
  - done.
  - by destruct b.
  - cbn [print value] in *. pose proof (number_start _ Hwf) as [Hs Hc].
    rewrite (starts_skip _ _ Hs). destruct l as [|c l]; [done|].
    cbn [String.append]. destruct Hs as (_ & ? & ?).
    repeat (rewrite (proj2 (Z.eqb_neq _ _)) by lia).
    change (String c (l +:+ rest)) with (String c l +:+ rest)%string.
    rewrite scan_number_run; [done|done|]. exact Hwf.
  - cbn [print value] in *. unfold quote. cbn [String.append]. read_char 34.
    rewrite sapp_assoc. cbn [String.append]. by rewrite unquote_quote.
  - cbn [print value String.append String.length] in *. read_char 91. rewrite sapp_assoc in *.
    cbn [String.append] in *. destruct l as [|x l]; [done|].
    cbn [json_wf] in Hwf. rewrite forallb_forall in Hwf.
    assert (Hst : Forall (λ v, starts_value (print v)) (x :: l)).
    { apply Forall_forall. intros y Hy. apply print_start, Hwf. by apply list_elem_of_In. }
    pose proof (commas_start print x l (Forall_inv Hst)) as Hx.
    unfold array_body. rewrite starts_skip by done.
    destruct (commas (map print (x :: l))) as [|c t] eqn:Ec; [done|]. cbn [String.append].
    rewrite (proj2 (Z.eqb_neq (bz c) 93)) by apply Hx.
    change (String c (t +:+ String (chr 93) rest))
      with (String c t +:+ String (chr 93) rest)%string.
    rewrite <-Ec in *.
    rewrite (elements_commas _ (String.length (commas (map print (x :: l)) +:+ String (chr 93) rest)));
      [done|done| |done|].
    + apply Forall_forall. intros y Hy. rewrite Forall_forall in IH.
      apply IH; [done|apply Hwf; by apply list_elem_of_In|lia].
    + opose proof (commas_length print (x :: l) (String (chr 93) rest) _); [|lia].
      eapply Forall_impl; [exact Hst|]. intros ? Hs. by apply starts_nonempty in Hs.
  - cbn [print value String.append String.length] in *. read_char 123. rewrite sapp_assoc in *.
    cbn [String.append] in *. destruct m as [|kv m]; [done|].
    cbn [json_wf] in Hwf. rewrite forallb_forall in Hwf.
    change (map (λ kv, _) ?m) with (map (print_member print) m) in *.
    assert (Hx : starts_value (commas (map (print_member print) (kv :: m)))).
    { apply commas_start. by repeat split. }
    unfold object_body. rewrite starts_skip by done.
    destruct (commas (map _ (kv :: m))) as [|c t] eqn:Ec; [done|]. cbn [String.append].
    rewrite (proj2 (Z.eqb_neq (bz c) 125)) by apply Hx.
    change (String c (t +:+ String (chr 125) rest))
      with (String c t +:+ String (chr 125) rest)%string.
    rewrite <-Ec in *.
    rewrite (members_commas _ (String.length (commas (map (print_member print) (kv :: m)) +:+ String (chr 125) rest)));
      [done|done| |done|].
    + apply Forall_forall. intros y Hy. rewrite Forall_forall in IH.
      assert (Hwy := Hwf y (proj1 (list_elem_of_In _ _) Hy)). to_prop.
      split; [done|]. apply (IH y); [done|done|lia].
    + opose proof (commas_length (print_member print) (kv :: m) (String (chr 125) rest) _); [|lia].
      apply Forall_forall. intros; apply quote_nonempty.
Qed.

(** [json.Unmarshal] reads back every value [json.Marshal] wrote. *)
Lemma parse_print v : json_wf v = true → parse (print v) = Some v.
Proof.
  intros Hwf. unfold parse, fuel_for.
  pose proof (value_print v Hwf (S (String.length (print v))) (String.length (print v))
                (Nat.lt_succ_diag_r _) ""%string I) as H.
  rewrite sapp_nil_r in H. by rewrite H.
Qed.

(** ** Marshalled text is valid UTF-8 *)
Lemma utf8_head_app s r n : utf8_head s = Some n → utf8_head (s +:+ r) = Some n.
Proof.
  unfold utf8_head. destruct s as [|c1 [|c2 [|c3 [|c4 s]]]]; cbn; intros H;
    repeat case_match; try done; simplify_eq; congruence.
Qed.

Lemma utf8_ok_app a b k : utf8_ok k a = true → utf8_ok k (a +:+ b) = utf8_ok 0 b.
Proof.
  revert k; induction a as [|c a IH]; intros k H; cbn [String.append].
  - cbn in H. by apply Nat.eqb_eq in H as ->.
  - destruct k as [|k]; cbn [utf8_ok] in *; to_prop.
    + destruct (utf8_head (String c a)) as [n|] eqn:E; [|done].
      apply (utf8_head_app _ b) in E. cbn [String.append] in E. rewrite E. by apply IH.
    + rewrite H. cbn. by apply IH.
Qed.

Lemma utf8_ascii s : all_bytes (λ c, bz c <? 128) s = true → utf8_ok 0 s = true.
Proof.
  induction s as [|c s IH]; [done|]. cbn [all_bytes utf8_ok]. intros H. to_prop.
  unfold utf8_head. rewrite (proj2 (Z.ltb_lt _ _) H). by apply IH.
Qed.

Lemma quote_ascii_ok c : bz c < 128 → utf8_ok 0 (quote_ascii c) = true.
Proof.
  intros Hc. destruct c as [[] [] [] [] [] [] [] []];
    first [reflexivity | exfalso; revert Hc; vm_compute; done].
Qed.

(** A multi-byte rune keeps its head when its continuation bytes are copied. *)
Lemma utf8_head_copy c s n :
  utf8_head (String c s) = Some n → 128 ≤ bz c →
  utf8_head (String c (quote_body (Nat.pred n) 0 s)) = Some n.
Proof.
  unfold utf8_head. intros H Hc. rewrite (proj2 (Z.ltb_ge _ _) Hc) in H |- *.
  destruct s as [|c2 s]; [done|]. destruct (in_range 194 223 c).
  { destruct (is_cont c2) eqn:E; [|done]. injection H as <-. cbn [Nat.pred quote_body]. by rewrite E. }
  destruct s as [|c3 s]; [done|]. destruct (in_range 224 239 c).
  { destruct (in_range _ _ c2 && is_cont c3) eqn:E; [|done]. injection H as <-.
    cbn [Nat.pred quote_body]. by rewrite E. }
  destruct (in_range 240 244 c); [|done]. destruct s as [|c4 s]; [done|].
  destruct (in_range _ _ c2 && is_cont c3 && is_cont c4) eqn:E; [|done]. injection H as <-.
  cbn [Nat.pred quote_body]. by rewrite E.
Qed.

Lemma quote_body_ok s : ∀ copy skip,
  (copy = 0 ∨ skip = 0)%nat → utf8_ok (copy + skip) s = true →
  utf8_ok copy (quote_body copy skip s) = true.
Proof.
  induction s as [|c s IH]; intros copy skip Hcs Hok.
  { cbn in *. apply Nat.eqb_eq in Hok. by assert (copy = 0)%nat as -> by lia. }
  destruct skip as [|skip].
  2:{ assert (copy = 0)%nat as -> by lia. cbn in *. to_prop. apply IH; [by left|done]. }
  rewrite Nat.add_0_r in Hok. destruct copy as [|copy].
  2:{ cbn [quote_body utf8_ok] in *. to_prop. rewrite H. cbn.
      apply IH; [by right|by rewrite Nat.add_0_r]. }
  cbn [quote_body]. destruct (bz c <? 128) eqn:Hc; to_prop.
  - rewrite utf8_ok_app by (by apply quote_ascii_ok). apply IH; [by left|].
    revert Hok. cbn [utf8_ok]. unfold utf8_head. by rewrite (proj2 (Z.ltb_lt _ _) Hc).
  - cbn [utf8_ok] in Hok. destruct (utf8_head (String c s)) as [n|] eqn:Hn; [|done].
    assert (Hsep : ∀ z, has_prefix (String c s) (utf8_encode z) = true → z = 8232 ∨ z = 8233 →
      utf8_ok 0 (escape_u z +:+ quote_body 0 2 s) = true).
    { intros z Hp Hz. rewrite utf8_ok_app by (by destruct Hz as [-> | ->]).
      apply IH; [by left|]. unfold has_prefix in Hp.
      destruct (strip_prefix _ _) as [r|] eqn:E; [|done]. apply strip_prefix_app in E.
      destruct Hz as [-> | ->]; injection E as -> ->; vm_compute in Hn; by injection Hn as <-. }
    destruct (has_prefix _ (bytes_of [226; 128; 168])) eqn:Hp1; [by apply Hsep; [|left]|].
    destruct (has_prefix _ (bytes_of [226; 128; 169])) eqn:Hp2; [by apply Hsep; [|right]|].
    cbn [utf8_ok]. rewrite utf8_head_copy by done.
    apply IH; [by right|by rewrite Nat.add_0_r].
Qed.

Lemma num_run_ascii st lit st' :
  num_run st lit = Some st' → all_bytes (λ c, bz c <? 128) lit = true.
Proof.
  revert st; induction lit as [|c lit IH]; intros st; cbn; [done|].
  destruct (num_step st c) eqn:E; [|done]. intros H. rewrite (IH _ H), andb_true_r.
  apply Z.ltb_lt. revert E. unfold num_step, is_one_of, is_digit, in_range. cbn [existsb].
  destruct st; repeat case_match; intros; to_prop; try done; try lia;
    repeat match goal with H : _ || _ = true |- _ => apply orb_true_iff in H as [?|?] end; to_prop; try lia; done.
Qed.

Lemma utf8_commas (l : list string) : Forall (λ s, utf8_ok 0 s = true) l → utf8_ok 0 (commas l) = true.
Proof.
  induction 1 as [|x l Hx Hl IH]; [done|]. destruct l as [|y l]; [done|].
  change (commas (x :: y :: l)) with (x +:+ String (chr 44) (commas (y :: l)))%string.
  by rewrite utf8_ok_app.
Qed.

Lemma quote_utf8 s : utf8_valid s = true → utf8_ok 0 (quote s) = true.
Proof.
  intros H. unfold quote. change (utf8_ok 0 (quote_body 0 0 s +:+ String (chr 34) "") = true).
  rewrite utf8_ok_app; [done|]. apply quote_body_ok; [by left|done].
Qed.

Lemma print_utf8 v : json_wf v = true → utf8_valid (print v) = true.
Proof.
  unfold utf8_valid. induction v as [| | | |l IH|m IH] using json_nested_ind; cbn [json_wf print]; intros Hwf.
  - done.
  - by destruct b.
  - apply utf8_ascii. unfold valid_number in Hwf.
    destruct (num_run NStart l) eqn:E; [|done]. by eapply num_run_ascii.
  - by apply quote_utf8.
  - change (utf8_ok 0 (commas (map print l) +:+ String (chr 93) "") = true).
    rewrite utf8_ok_app; [done|]. apply utf8_commas, Forall_fmap. rewrite Forall_forall in *.
    rewrite forallb_forall in Hwf. intros x Hx. apply IH; [done|]. by apply Hwf, list_elem_of_In.
  - change (utf8_ok 0 (commas (map (print_member print) m) +:+ String (chr 125) "") = true).
    rewrite utf8_ok_app; [done|]. apply utf8_commas, Forall_fmap. rewrite Forall_forall in *.
    rewrite forallb_forall in Hwf. intros x Hx. specialize (Hwf x (proj1 (list_elem_of_In _ _) Hx)).
    to_prop. unfold print_member, compose. rewrite utf8_ok_app by (by apply quote_utf8).
    by apply IH.
Qed.

(** ** Raw views of written values *)
Lemma string_take_app a b : string_take (String.length a) (a +:+ b) = a.
Proof. induction a as [|c a IH]; cbn; [by destruct b|]. by rewrite IH. Qed.
Lemma string_drop_app a b : string_drop (String.length a) (a +:+ b) = b.
Proof. by induction a as [|c a IH]; cbn. Qed.

Lemma raw_value_print N v : json_wf v = true → reads raw_value N id (print v).
Proof.
  intros Hwf rest Hd _. unfold raw_value, id. rewrite starts_skip by (by apply print_start).
  unfold fuel_for. rewrite (value_print v Hwf _ _ (Nat.lt_succ_diag_r _) rest Hd) by lia.
  do 2 f_equal. rewrite slength_app.
  replace (String.length (print v) + String.length rest - String.length rest)%nat
    with (String.length (print v)) by lia. apply string_take_app.
Qed.

Definition raw_members (m : list (string * json)) : list (string * string) :=
  map (λ kv, (kv.1, print kv.2)) m.
Lemma raw_object_print m :
  json_wf (JObject m) = true → raw_object (print (JObject m)) = Some (Some (raw_members m)).
Proof.
  intros Hwf. unfold raw_object. rewrite parse_print by done.
  cbn [print]. change (map (λ kv, _) m) with (map (print_member print) m).
  cbn [String.append]. read_char 123. cbn [json_wf] in Hwf. rewrite forallb_forall in Hwf.
  destruct m as [|kv m]; [done|].
  assert (Hm : map (print_member print) (kv :: m) = map (print_member id) (raw_members (kv :: m))).
  { unfold raw_members. rewrite map_map. done. }
  assert (Hx : starts_value (commas (map (print_member print) (kv :: m)))).
  { apply commas_start. by repeat split. }
  unfold object_body. rewrite starts_skip by done.
  destruct (commas (map _ (kv :: m))) as [|c t] eqn:Ec; [done|]. cbn [String.append].
  rewrite (proj2 (Z.eqb_neq (bz c) 125)) by apply Hx.
  change (String c (t +:+ ?r)) with (String c t +:+ r)%string. rewrite <-Ec, Hm.
  rewrite (members_commas _ (String.length (commas (map (print_member id) (raw_members (kv :: m)))
             +:+ String (chr 125) ""))); [done|done| |done|].
  - apply Forall_forall. intros [k raw] Hin. apply list_elem_of_fmap in Hin as ([k' v] & [= -> ->] & Hin).
    assert (Hwy := Hwf _ (proj1 (list_elem_of_In _ _) Hin)). cbn in Hwy. to_prop.
    split; [done|]. by apply raw_value_print.
  - opose proof (commas_length (print_member id) (raw_members (kv :: m)) (String (chr 125) "") _).
    { apply Forall_forall. done. }
    unfold fuel_for. cbn [String.length]. rewrite <-Hm, Ec in *. cbn in *. lia.
Qed.

(** ** Map lookup *)
Lemma assoc_in {A} k (v : A) m : assoc k m = Some v → (k, v) ∈ m.
Proof.
  induction m as [|[k' v'] m IH]; cbn; [done|].
  destruct (assoc k m); [intros [= ->]; right; by apply IH|].
  destruct (String.eqb_spec k' k) as [->|]; [|done]. intros [= ->]. left.
Qed.
Lemma assoc_declared {A} k (m : list (string * A)) v : assoc k m = Some v → k ∈ m.*1.
Proof. intros Ha%assoc_in. apply list_elem_of_fmap. by exists (k, v). Qed.
Lemma assoc_none {A} k (m : list (string * A)) : assoc k m = None ↔ k ∉ m.*1.
Proof.
  induction m as [|[k' v'] m IH]; cbn; [split; [intros _ H; inversion H|done]|].
  rewrite not_elem_of_cons, <-IH. destruct (assoc k m); [naive_solver|].
  destruct (String.eqb_spec k' k); naive_solver.
Qed.
Lemma assoc_unique {A} k (v : A) m : NoDup m.*1 → (k, v) ∈ m → assoc k m = Some v.
Proof.
  induction m as [|[k' v'] m IH]; cbn; [intros _ H; inversion H|].
  intros [Hk Hnd]%NoDup_cons [[= <- <-]|Hin]%elem_of_cons.
  - by rewrite (proj2 (assoc_none k m) Hk), String.eqb_refl.
  - by rewrite (IH Hnd Hin).
Qed.
Lemma assoc_app {A} k (m1 m2 : list (string * A)) :
  assoc k (m1 ++ m2) = match assoc k m2 with Some v => Some v | None => assoc k m1 end.
Proof.
  induction m1 as [|[k' v] m1 IH]; cbn; [by destruct (assoc k m2)|].
  rewrite IH. by destruct (assoc k m2).
Qed.
