(* ===== verification/GoTime.v ===== *)
(** * GoTime: instants, durations and RFC 3339 text, as package time treats them

    An instant ([time.Time]) is its number of nanoseconds since the Unix epoch;
    [Before], [Equal] and [Add] are integer comparison and addition.  A
    [time.Duration] is a signed 64-bit number of nanoseconds, so [Sub] saturates
    and duration arithmetic wraps.  [parse_rfc3339nano] is
    [time.Parse(time.RFC3339Nano, s)] and [format_rfc3339nano] is
    [t.UTC().Format(time.RFC3339Nano)] for the years 0 to 9999. *)

From S2P Require Import Prelude GoLib Json JsonFacts.
From Stdlib Require Import Ascii String.

Definition nsec_per_sec : Z := 1000000000.
Definition millisecond : Z := 1000000.
Definition secs (n : Z) : Z := n * nsec_per_sec.

(** [t.Sub(u)]: saturates at the ends of [time.Duration]. *)
Definition time_sub (t u : Z) : Z := Z.max (- 2 ^ 63) (Z.min (2 ^ 63 - 1) (t - u)).

(** [time.Time{}.IsZero]: 1 January of year 1, 00:00:00 UTC. *)
Definition zero_time : Z := secs (-62135596800).
Definition is_zero (t : Z) : bool := t =? zero_time.

(** ** Calendar *)
Definition is_leap (y : Z) : bool :=
  (y mod 4 =? 0) && (negb (y mod 100 =? 0) || (y mod 400 =? 0)).
Definition days_in (m y : Z) : Z :=
  if m =? 2 then (if is_leap y then 29 else 28)
  else if existsb (Z.eqb m) [4; 6; 9; 11] then 30 else 31.
Definition days_before_month (m y : Z) : Z :=
  fold_right Z.add 0 (map (λ k, days_in k y) (seqZ 1 (m - 1))).
Definition days_before_year (y : Z) : Z :=
  365 * (y - 1) + (y - 1) / 4 - (y - 1) / 100 + (y - 1) / 400.
(** Days from 1970-01-01 to the given date. *)
Definition days_of_civil (y m d : Z) : Z :=
  days_before_year y + days_before_month m y + (d - 1) - 719162.

(** The date of a day number: (year, month, day). *)
Definition civil_of_days (days : Z) : Z * Z * Z :=
  let z := days + 719468 in
  let era := z / 146097 in
  let doe := z mod 146097 in
  let yoe := (doe - doe / 1460 + doe / 36524 - doe / 146096) / 365 in
  let doy := doe - (365 * yoe + yoe / 4 - yoe / 100) in
  let mp := (5 * doy + 2) / 153 in
  let d := doy - (153 * mp + 2) / 5 + 1 in
  let m := if mp <? 10 then mp + 3 else mp - 9 in
  (yoe + era * 400 + (if m <=? 2 then 1 else 0), m, d).

(** [time.Date(y, m, d, 0, 0, 0, 0, time.UTC)]. *)
Definition utc_midnight (y m d : Z) : Z := secs (days_of_civil y m d * 86400).

(** ** Parsing *)
Definition dig (c : ascii) : option Z := if is_digit c then Some (bz c - 48) else None.

Definition two_digits (s : string) : option (Z * string) :=
  match s with
  | String a (String b r) =>
      match dig a, dig b with Some x, Some y => Some (10 * x + y, r) | _, _ => None end
  | _ => None
  end.
(** The hour field accepts a single digit. *)
Definition hour_digits (s : string) : option (Z * string) :=
  match two_digits s with
  | Some r => Some r
  | None => match s with
            | String a r => match dig a with Some x => Some (x, r) | None => None end
            | EmptyString => None
            end
  end.
Definition four_digits (s : string) : option (Z * string) :=
  match two_digits s with
  | Some (h, r) => match two_digits r with Some (l, r) => Some (100 * h + l, r) | None => None end
  | None => None
  end.
Definition lit (c : ascii) (s : string) : option string :=
  match s with String a r => if Ascii.eqb a c then Some r else None | EmptyString => None end.

Fixpoint span_digits (s : string) : string * string :=
  match s with
  | String c r => if is_digit c then let '(d, rest) := span_digits r in (String c d, rest) else (""%string, s)
  | EmptyString => (""%string, ""%string)
  end.

(** Nanoseconds of a fraction: at most nine digits count. *)
Definition nanos (ds : string) : Z :=
  let ds := string_take 9 ds in
  match digits 10 ds with Some n => n * 10 ^ (9 - blen ds) | None => 0 end.

(** An optional fraction introduced by a period or a comma. *)
Definition fraction (s : string) : Z * string :=
  match s with
  | String c r =>
      if is_one_of [46; 44] c then
        let '(ds, rest) := span_digits r in
        if ds =?s "" then (0, s) else (nanos ds, rest)
      else (0, s)
  | EmptyString => (0, s)
  end.

(** Zone offset in seconds east of UTC. *)
Definition zone (s : string) : option (Z * string) :=
  match s with
  | EmptyString => None
  | String c r =>
      if bz c =? 90 then Some (0, r) else
      match two_digits r with
      | Some (hh, r) =>
          match lit ":" r with
          | Some r =>
              match two_digits r with
              | Some (mm, r) =>
                  if (24 <? hh) || (60 <? mm) then None
                  else if bz c =? 43 then Some ((hh * 60 + mm) * 60, r)
                  else if bz c =? 45 then Some (- ((hh * 60 + mm) * 60), r)
                  else None
              | None => None
              end
          | None => None
          end
      | None => None
      end
  end.

Notation "'let!' x ':=' c 'in' k" := (match c with Some x => k | None => None end)
  (at level 10, x pattern, c at level 99, k at level 200).

Definition parse_rfc3339nano (s : string) : option Z :=
  let! (y, s) := four_digits s in
  let! s := lit "-" s in
  let! (mo, s) := two_digits s in
  let! s := lit "-" s in
  let! (d, s) := two_digits s in
  let! s := lit "T" s in
  let! (h, s) := hour_digits s in
  let! s := lit ":" s in
  let! (mi, s) := two_digits s in
  let! s := lit ":" s in
  let! (sec, s) := two_digits s in
  let '(ns, s) := fraction s in
  let! (off, s) := zone s in
  if (s =?s "") && (1 <=? mo) && (mo <=? 12) && (1 <=? d) && (d <=? days_in mo y)
     && (h <=? 23) && (mi <=? 59) && (sec <=? 59)
  then Some (secs (days_of_civil y mo d * 86400 + h * 3600 + mi * 60 + sec - off) + ns)
  else None.

(** ** Formatting *)
Fixpoint drop_zeros (s : string) : string :=
  match s with
  | String c r => if bz c =? 48 then drop_zeros r else s
  | EmptyString => ""
  end.
Definition format_fraction (ns : Z) : string :=
  let ds := string_rev (drop_zeros (string_rev (pad_dec 9 ns ""))) in
  if ds =?s "" then "" else String "." ds.

Definition format_rfc3339nano (t : Z) : string :=
  let s := t / nsec_per_sec in
  let '(y, m, d) := civil_of_days (s / 86400) in
  let sod := s mod 86400 in
  pad_dec 4 y (String "-" (pad_dec 2 m (String "-" (pad_dec 2 d (String "T"
    (pad_dec 2 (sod / 3600) (String ":" (pad_dec 2 (sod / 60 mod 60) (String ":"
      (pad_dec 2 (sod mod 60) (format_fraction (t mod nsec_per_sec) +:+ "Z"))))))))))).

Example format_sample :
  format_rfc3339nano 946681200000000000 = "1999-12-31T23:00:00Z"%string
  ∧ parse_rfc3339nano "1999-12-31T23:00:00.25-01:00" = Some 946684800250000000
  ∧ format_rfc3339nano 946684800250000000 = "2000-01-01T00:00:00.25Z"%string
  ∧ parse_rfc3339nano "2001-02-29T00:00:00Z" = None
  ∧ parse_rfc3339nano "2000-02-29T1:00:00,5Z" = Some 951786000500000000
  ∧ utc_midnight 1 1 1 = zero_time.
Proof. vm_compute. done. Qed.

(** ** Formatting then parsing gives the instant back *)
Lemma rev_app_spec s acc : rev_app s acc = (string_rev s +:+ acc)%string.
Proof.
  unfold string_rev. revert acc; induction s as [|c s IH]; intros acc; cbn [rev_app]; [done|].
  rewrite IH, (IH (String c "")), sapp_assoc. done.
Qed.
Lemma string_rev_cons c s : string_rev (String c s) = (string_rev s +:+ String c "")%string.
Proof. unfold string_rev at 1. cbn. apply rev_app_spec. Qed.
Lemma string_rev_app a b : string_rev (a +:+ b) = (string_rev b +:+ string_rev a)%string.
Proof.
  induction a as [|c a IH]; cbn; [by rewrite sapp_nil_r|].
  by rewrite !string_rev_cons, IH, sapp_assoc.
Qed.
Lemma string_rev_involutive s : string_rev (string_rev s) = s.
Proof. induction s as [|c s IH]; [done|]. by rewrite string_rev_cons, string_rev_app, IH. Qed.

Fixpoint zeros (k : nat) : string :=
  match k with O => "" | S k => String "0" (zeros k) end.
Lemma zeros_snoc k : (zeros k +:+ "0" = zeros (S k))%string.
Proof. induction k; cbn in *; congruence. Qed.
Lemma zeros_rev k : string_rev (zeros k) = zeros k.
Proof. induction k as [|k IH]; [done|]. cbn [zeros]. by rewrite string_rev_cons, IH, zeros_snoc. Qed.
Lemma zeros_length k : String.length (zeros k) = k.
Proof. induction k; cbn; congruence. Qed.

Lemma bz_bound c : 0 ≤ bz c < 256.
Proof. destruct c as [[] [] [] [] [] [] [] []]; vm_compute; split; congruence. Qed.
Lemma bz_inj a b : bz a = bz b → a = b.
Proof.
  unfold bz. intros H%N2Z.inj. rewrite <-(ascii_N_embedding a), <-(ascii_N_embedding b). congruence.
Qed.
Lemma drop_zeros_spec s : ∃ k, s = (zeros k +:+ drop_zeros s)%string.
Proof.
  induction s as [|c s [k IH]]; cbn; [by exists 0%nat|].
  destruct (Z.eqb_spec (bz c) 48) as [E|E]; [|by exists 0%nat].
  exists (S k). cbn. rewrite <-IH. f_equal. by apply bz_inj.
Qed.

Lemma digit_cases d (P : Z → Prop) :
  0 ≤ d < 10 → P 0 → P 1 → P 2 → P 3 → P 4 → P 5 → P 6 → P 7 → P 8 → P 9 → P d.
Proof.
  intros H **.
  assert (d = 0 ∨ d = 1 ∨ d = 2 ∨ d = 3 ∨ d = 4 ∨ d = 5 ∨ d = 6 ∨ d = 7 ∨ d = 8 ∨ d = 9) as Hd by lia.
  by decompose [or] Hd; subst.
Qed.
Lemma dig_digit_char d : 0 ≤ d < 10 → dig (digit_char d) = Some d.
Proof. intros H. by apply (digit_cases d). Qed.
Lemma digit_val_digit_char d : 0 ≤ d < 10 → digit_val (digit_char d) = Some d.
Proof. intros H. by apply (digit_cases d). Qed.
Lemma is_digit_digit_char d : 0 ≤ d < 10 → is_digit (digit_char d) = true.
Proof. intros H. by apply (digit_cases d). Qed.

Lemma two_digits_pad n r : 0 ≤ n < 100 → two_digits (pad_dec 2 n r) = Some (n, r).
Proof.
  intros Hn. cbn [pad_dec two_digits].
  pose proof (Z.mod_pos_bound n 10). pose proof (Z.mod_pos_bound (n / 10) 10).
  rewrite !dig_digit_char by lia. do 2 f_equal.
  rewrite (Z.mod_small (n / 10)) by (split; [apply Z.div_pos; lia|apply Z.div_lt_upper_bound; lia]).
  pose proof (Z.div_mod n 10). lia.
Qed.
Lemma four_digits_pad n r : 0 ≤ n < 10000 → four_digits (pad_dec 4 n r) = Some (n, r).
Proof.
  intros Hn. unfold four_digits.
  assert (pad_dec 4 n r = pad_dec 2 (n / 100) (pad_dec 2 (n mod 100) r)) as ->.
  { cbn [pad_dec]. rewrite !Z.div_div by lia. cbn.
    replace (n mod 100 / 10 mod 10) with (n / 10 mod 10);
      [replace (n mod 100 mod 10) with (n mod 10); [done|]|];
      Z.div_mod_to_equations; lia. }
  pose proof (Z.mod_pos_bound n 100). pose proof (Z.div_mod n 100).
  rewrite two_digits_pad, two_digits_pad;
    [do 2 f_equal; lia|lia|split; [apply Z.div_pos; lia|apply Z.div_lt_upper_bound; lia]].
Qed.

Lemma digits_go_pad w n acc r :
  0 ≤ n < 10 ^ Z.of_nat w →
  digits_go 10 acc (pad_dec w n r) = digits_go 10 (acc * 10 ^ Z.of_nat w + n) r.
Proof.
  revert n r; induction w as [|w IH]; intros n r Hn; cbn [pad_dec].
  { f_equal. cbn in *. lia. }
  rewrite Nat2Z.inj_succ, Z.pow_succ_r in * by lia.
  rewrite IH by (split; [apply Z.div_pos; lia|apply Z.div_lt_upper_bound; lia]).
  cbn [digits_go]. pose proof (Z.mod_pos_bound n 10). rewrite digit_val_digit_char by lia.
  rewrite (proj2 (Z.ltb_lt _ _)) by lia. f_equal. pose proof (Z.div_mod n 10). lia.
Qed.
Lemma digits_go_zeros acc k s :
  digits_go 10 acc (zeros k +:+ s) = digits_go 10 (acc * 10 ^ Z.of_nat k) s.
Proof.
  revert acc; induction k as [|k IH]; intros acc; [cbn; f_equal; lia|].
  cbn [zeros String.append digits_go]. change (digit_val "0") with (Some 0).
  change (0 <? 10) with true. cbn iota. rewrite IH. f_equal.
  rewrite Nat2Z.inj_succ, Z.pow_succ_r by lia. lia.
Qed.
Lemma digits_go_app acc a b :
  digits_go 10 acc (a +:+ b) =
  match digits_go 10 acc a with Some v => digits_go 10 v b | None => None end.
Proof.
  revert acc; induction a as [|c a IH]; intros acc; cbn; [done|].
  destruct (digit_val c) as [d|]; [|done]. by destruct (d <? 10).
Qed.

Lemma pad_dec_app w n r : pad_dec w n r = (pad_dec w n "" +:+ r)%string.
Proof.
  revert n r; induction w as [|w IH]; intros n r; cbn [pad_dec]; [done|].
  rewrite IH, (IH _ (String _ "")), sapp_assoc. done.
Qed.
Lemma pad_dec_length w n : String.length (pad_dec w n "") = w.
Proof.
  revert n; induction w as [|w IH]; intros n; cbn [pad_dec]; [done|].
  rewrite pad_dec_app, slength_app, IH. cbn. lia.
Qed.
Lemma pad_dec_digits w n : all_bytes is_digit (pad_dec w n "") = true.
Proof.
  cut (∀ r, all_bytes is_digit r = true → all_bytes is_digit (pad_dec w n r) = true); [by auto|].
  revert n; induction w as [|w IH]; intros n r Hr; cbn [pad_dec]; [done|].
  apply IH. cbn. pose proof (Z.mod_pos_bound n 10). by rewrite is_digit_digit_char by lia.
Qed.
Lemma span_digits_all ds r :
  all_bytes is_digit ds = true → match r with String c _ => is_digit c = false | _ => True end →
  span_digits (ds +:+ r) = (ds, r).
Proof.
  intros Hd Hr. induction ds as [|c ds IH]; cbn in *.
  - destruct r as [|c r]; cbn; [done|]. by rewrite Hr.
  - to_prop. by rewrite H, IH.
Qed.
Lemma string_take_all n s : (String.length s ≤ n)%nat → string_take n s = s.
Proof. revert n; induction s as [|c s IH]; intros [|n] H; cbn in *; [done..|lia|]. rewrite IH; [done|lia]. Qed.

(** The trimmed fraction digits and the zeros cut from them. *)
Lemma trimmed_fraction ns : 0 ≤ ns < nsec_per_sec → ∃ ds k,
  string_rev (drop_zeros (string_rev (pad_dec 9 ns ""))) = ds ∧
  pad_dec 9 ns "" = (ds +:+ zeros k)%string.
Proof.
  intros _. destruct (drop_zeros_spec (string_rev (pad_dec 9 ns ""))) as [k Hk].
  eexists _, k. split; [done|]. rewrite <-(string_rev_involutive (pad_dec 9 ns "")) at 1.
  rewrite Hk at 1. by rewrite string_rev_app, zeros_rev.
Qed.

Lemma fraction_format ns r :
  0 ≤ ns < nsec_per_sec → fraction (format_fraction ns +:+ String "Z" r) = (ns, String "Z" r).
Proof.
  intros Hns. unfold format_fraction. destruct (trimmed_fraction ns Hns) as (ds & k & -> & Hk).
  pose proof (digits_go_pad 9 ns 0 "") as Hv. rewrite Hk, digits_go_app in Hv.
  specialize (Hv ltac:(unfold nsec_per_sec in Hns; cbn; lia)).
  assert (Hds : all_bytes is_digit ds = true).
  { pose proof (pad_dec_digits 9 ns) as Hd. rewrite Hk, all_bytes_app in Hd. by to_prop. }
  assert (Hlen : (String.length ds + k = 9)%nat).
  { rewrite <-(pad_dec_length 9 ns), Hk, slength_app, zeros_length. done. }
  destruct (String.eqb_spec ds "") as [->|Hne].
  - cbn [digits_go] in Hv. rewrite <-(sapp_nil_r (zeros k)), digits_go_zeros in Hv.
    injection Hv as Hv. by assert (ns = 0) as -> by lia.
  - cbn [String.append fraction]. change (is_one_of [46; 44] ".") with true. cbn iota.
    rewrite span_digits_all by done. rewrite (proj2 (String.eqb_neq _ _) Hne).
    f_equal. unfold nanos. rewrite string_take_all by lia.
    unfold digits. destruct ds as [|c ds]; [done|].
    destruct (digits_go 10 0 (String c ds)) as [v|]; [|done].
    rewrite <-(sapp_nil_r (zeros k)), digits_go_zeros in Hv. injection Hv as Hv.
    replace (9 - blen (String c ds)) with (Z.of_nat k) by (unfold blen; lia). lia.
Qed.

(** ** The supported interval: 1990 to 2099 *)
Definition supported (t : Z) : bool :=
  (utc_midnight 1990 1 1 <=? t) && (t <? utc_midnight 2100 1 1).

Definition civil_ok (days : Z) : bool :=
  let '(y, m, d) := civil_of_days days in
  (0 <=? y) && (y <? 10000) && (1 <=? m) && (m <=? 12) && (1 <=? d) && (d <=? days_in m y)
  && (days_of_civil y m d =? days).
Fixpoint all_from (n : nat) (z : Z) (p : Z → bool) : bool :=
  match n with O => true | S n => p z && all_from n (z + 1) p end.
Lemma all_from_spec n z p k : all_from n z p = true → z ≤ k < z + Z.of_nat n → p k = true.
Proof.
  revert z; induction n as [|n IH]; intros z H Hk; [lia|]. cbn [all_from] in H. to_prop.
  destruct (decide (k = z)) as [->|]; [done|]. apply (IH (z + 1)); [done|lia].
Qed.
Lemma civil_supported days : 7305 ≤ days < 47482 → civil_ok days = true.
Proof.
  intros H. apply (all_from_spec (Z.to_nat 40177) 7305); [vm_compute; reflexivity|lia].
Qed.

Lemma days_in_le m y : days_in m y ≤ 31.
Proof. unfold days_in. repeat case_match; lia. Qed.

Lemma parse_format t : supported t = true → parse_rfc3339nano (format_rfc3339nano t) = Some t.
Proof.
  unfold supported. change (utc_midnight 1990 1 1) with 631152000000000000.
  change (utc_midnight 2100 1 1) with 4102444800000000000. intros H. to_prop.
  unfold format_rfc3339nano. set (s := t / nsec_per_sec).
  assert (Ht : t = secs s + t mod nsec_per_sec ∧ 0 ≤ t mod nsec_per_sec < nsec_per_sec).
  { unfold s, secs, nsec_per_sec. Z.div_mod_to_equations; lia. }
  assert (Hs : 631152000 ≤ s < 4102444800) by (unfold secs, nsec_per_sec in *; lia).
  pose proof (civil_supported (s / 86400)) as Hc. unfold civil_ok in Hc.
  destruct (civil_of_days (s / 86400)) as [[y m] d].
  specialize (Hc ltac:(Z.div_mod_to_equations; lia)). to_prop.
  pose proof (days_in_le m y).
  assert (Hsod : 0 ≤ s mod 86400 < 86400) by (apply Z.mod_pos_bound; lia).
  set (sod := s mod 86400) in *.
  unfold parse_rfc3339nano. rewrite four_digits_pad by lia.
  cbn [lit Ascii.eqb Bool.eqb]. rewrite two_digits_pad by lia. cbn [lit Ascii.eqb Bool.eqb].
  rewrite two_digits_pad by lia. cbn [lit Ascii.eqb Bool.eqb].
  unfold hour_digits. rewrite two_digits_pad by (Z.div_mod_to_equations; lia).
  cbn [lit Ascii.eqb Bool.eqb]. rewrite two_digits_pad by (Z.div_mod_to_equations; lia).
  cbn [lit Ascii.eqb Bool.eqb]. rewrite two_digits_pad by (Z.div_mod_to_equations; lia).
  rewrite fraction_format by apply Ht. cbn [zone]. change (bz "Z" =? 90) with true. cbn iota.
  rewrite String.eqb_refl.
  repeat (rewrite (proj2 (Z.leb_le _ _)) by (Z.div_mod_to_equations; lia)). cbn [andb].
  f_equal. rewrite (proj1 Ht) at 2. f_equal. f_equal.
  subst sod. Z.div_mod_to_equations. lia.
Qed.
