(* ===== verification/Sha256.v ===== *)
(** * Sha256: crypto/sha256 and encoding/hex, as the artifact checks use them

    SHA-256 (FIPS 180-4) on byte strings, with 32-bit words as integers reduced modulo
    2^32, and the lower-case hexadecimal text of a digest.  Executable, so that examples
    check real digests. *)

From S2P Require Import Prelude GoLib.
From Stdlib Require Import Ascii String.

Definition mask32 (z : Z) : Z := Z.land z 4294967295.
Definition add32 (a b : Z) : Z := mask32 (a + b).
Definition rotr (n x : Z) : Z := Z.lor (Z.shiftr x n) (mask32 (Z.shiftl x (32 - n))).
Definition not32 (x : Z) : Z := Z.lxor x 4294967295.

Definition Ch (x y z : Z) : Z := Z.lxor (Z.land x y) (Z.land (not32 x) z).
Definition Maj (x y z : Z) : Z := Z.lxor (Z.lxor (Z.land x y) (Z.land x z)) (Z.land y z).
Definition Sigma0 (x : Z) : Z := Z.lxor (Z.lxor (rotr 2 x) (rotr 13 x)) (rotr 22 x).
Definition Sigma1 (x : Z) : Z := Z.lxor (Z.lxor (rotr 6 x) (rotr 11 x)) (rotr 25 x).
Definition sigma0 (x : Z) : Z := Z.lxor (Z.lxor (rotr 7 x) (rotr 18 x)) (Z.shiftr x 3).
Definition sigma1 (x : Z) : Z := Z.lxor (Z.lxor (rotr 17 x) (rotr 19 x)) (Z.shiftr x 10).

(** The constants are the leading 32 bits of the fractional parts of the cube roots (the
    round constants) and square roots (the initial state) of the first primes, computed
    here by bisection on integers. *)
Definition is_prime (n : Z) : bool :=
  forallb (λ d, negb (n mod d =? 0)) (map Z.of_nat (List.seq 2 (Z.to_nat n - 2))).
Definition primes : list Z := Eval vm_compute in List.filter is_prime (map Z.of_nat (List.seq 2 310)).
Fixpoint bisect (steps : nat) (below : Z → bool) (lo hi : Z) : Z :=
  match steps with
  | O => lo
  | S steps => let mid := (lo + hi) / 2 in if below mid then bisect steps below mid hi else bisect steps below lo mid
  end.
Definition root_fraction (k p : Z) : Z :=
  mask32 (bisect 48 (λ r, r ^ k <=? p * 2 ^ (32 * k)) 0 (2 ^ 48)).
Definition round_constants : list Z := Eval vm_compute in map (root_fraction 3) primes.

Record working := { wa : Z; wb : Z; wc : Z; wd : Z; we : Z; wf : Z; wg : Z; wh : Z }.
Definition initial_hash : working :=
  Eval vm_compute in
  let h i := root_fraction 2 (nth i primes 0) in
  {| wa := h 0%nat; wb := h 1%nat; wc := h 2%nat; wd := h 3%nat; we := h 4%nat; wf := h 5%nat; wg := h 6%nat;
     wh := h 7%nat |}.

Definition hash_round (s : working) (kw : Z * Z) : working :=
  let t1 := add32 (add32 (add32 (wh s) (Sigma1 (we s))) (Ch (we s) (wf s) (wg s))) (add32 kw.1 kw.2) in
  let t2 := add32 (Sigma0 (wa s)) (Maj (wa s) (wb s) (wc s)) in
  {| wa := add32 t1 t2; wb := wa s; wc := wb s; wd := wc s; we := add32 (wd s) t1; wf := we s; wg := wf s; wh := wg s |}.

(** The message schedule, newest word first. *)
Fixpoint extend (n : nat) (recent : list Z) : list Z :=
  match n with
  | O => recent
  | S n =>
      let w i := nth i recent 0 in
      extend n (add32 (add32 (sigma1 (w 1%nat)) (w 6%nat)) (add32 (sigma0 (w 14%nat)) (w 15%nat)) :: recent)
  end.
Definition schedule (block : list Z) : list Z := rev (extend 48 (rev block)).
Definition hash_block (s : working) (block : list Z) : working :=
  let t := fold_left hash_round (combine round_constants (schedule block)) s in
  {| wa := add32 (wa s) (wa t); wb := add32 (wb s) (wb t); wc := add32 (wc s) (wc t); wd := add32 (wd s) (wd t);
     we := add32 (we s) (we t); wf := add32 (wf s) (wf t); wg := add32 (wg s) (wg t); wh := add32 (wh s) (wh t) |}.

(** Big-endian words of a byte list, sixteen to a block. *)
Fixpoint be_words (l : list Z) : list Z :=
  match l with
  | a :: b :: c :: d :: l => (a * 16777216 + b * 65536 + c * 256 + d) :: be_words l
  | _ => []
  end.
Fixpoint hash_words (fuel : nat) (s : working) (ws : list Z) : working :=
  match fuel, ws with
  | S fuel, _ :: _ => hash_words fuel (hash_block s (take 16 ws)) (drop 16 ws)
  | _, _ => s
  end.

Fixpoint string_bytes (s : string) : list Z :=
  match s with EmptyString => [] | String c s => bz c :: string_bytes s end.
Definition be_bytes (width : nat) (n : Z) : list Z :=
  map (λ i, Z.shiftr n (8 * Z.of_nat i) mod 256) (rev (seq 0 width)).
Definition padded (msg : list Z) : list Z :=
  let n := Z.of_nat (List.length msg) in
  msg ++ [128] ++ repeat 0 (Z.to_nat ((55 - n) mod 64)) ++ be_bytes 8 (8 * n).
Definition Sum256 (s : string) : list Z :=
  let ws := be_words (padded (string_bytes s)) in
  let r := hash_words (List.length ws) initial_hash ws in
  List.concat (map (be_bytes 4) [wa r; wb r; wc r; wd r; we r; wf r; wg r; wh r]).

Definition hex_digit (n : Z) : ascii := chr (if n <? 10 then 48 + n else 87 + n).
Fixpoint EncodeToString (bs : list Z) : string :=
  match bs with
  | [] => ""
  | b :: bs => String (hex_digit (b / 16)) (String (hex_digit (b mod 16)) (EncodeToString bs))
  end.
Definition sha256_hex (s : string) : string := EncodeToString (Sum256 s).

(** The test vectors of FIPS 180-4: empty, one block, two blocks. *)
Example sha256_vectors :
  sha256_hex "" = "e3b0c44298fc1c149afbf4c8996fb92427ae41e4649b934ca495991b7852b855"%string ∧
  sha256_hex "abc" = "ba7816bf8f01cfea414140de5dae2223b00361a396177a9cb410ff61f20015ad"%string ∧
  sha256_hex "abcdbcdecdefdefgefghfghighijhijkijkljklmklmnlmnomnopnopq" =
    "248d6a61d20638b8e5c026930c3e6039a33ce45964ff2167f6ecedd419db06c1"%string.
Proof. vm_compute. split_and!; reflexivity. Qed.

Lemma Sum256_length s : List.length (Sum256 s) = 32%nat.
Proof. reflexivity. Qed.
