(* ===== verification/GoText.v ===== *)
(** * GoText: slash-separated paths and words

    [path.IsAbs], [path.Clean], [path.Base] (on Linux [filepath] agrees with them)
    and the facts about [strings.Fields] and [strings.Cut] that the boot-identity
    and privilege parsers rely on. *)

From S2P Require Import Prelude GoLib Json JsonFacts GoTime.
From Stdlib Require Import Ascii String.

(** ** Paths *)
Definition is_abs (p : string) : bool := has_prefix p "/".

(** [strings.Join(parts, sep)]. *)
Fixpoint join_slash (parts : list string) : string :=
  match parts with
  | [] => ""
  | [p] => p
  | p :: parts => p +:+ String "/" (join_slash parts)
  end.

(** The elements of [Clean], built from the front; [acc] is the output reversed. *)
Fixpoint clean_parts (rooted : bool) (acc parts : list string) : list string :=
  match parts with
  | [] => rev acc
  | p :: parts =>
      if (p =?s "") || (p =?s ".") then clean_parts rooted acc parts
      else if p =?s ".." then
        match acc with
        | q :: acc' => if q =?s ".." then clean_parts rooted (".." :: acc)%string parts
                       else clean_parts rooted acc' parts
        | [] => if rooted then clean_parts rooted [] parts
                else clean_parts rooted [".."]%string parts
        end
      else clean_parts rooted (p :: acc) parts
  end.
Definition path_clean (p : string) : string :=
  if p =?s "" then "." else
  let rooted := is_abs p in
  let body := join_slash (clean_parts rooted [] (split_on "/" p)) in
  if rooted then String "/" body else if body =?s "" then "." else body.

Definition last_part (p : string) : string := List.last (split_on "/" p) ""%string.
Fixpoint trim_slashes (fuel : nat) (rev_p : string) : string :=
  match fuel, rev_p with
  | S f, String c r => if Ascii.eqb c "/" then trim_slashes f r else rev_p
  | _, _ => rev_p
  end.
Definition path_base (p : string) : string :=
  if p =?s "" then "." else
  let q := string_rev (trim_slashes (String.length p) (string_rev p)) in
  if q =?s "" then "/" else last_part q.

(** [filepath.Join]: empty leading elements are dropped. *)
Fixpoint path_join (elems : list string) : string :=
  match elems with
  | [] => ""
  | e :: rest => if e =?s "" then path_join rest else path_clean (join_slash elems)
  end.

(** [filepath.Rel]: the elements after the common prefix; [None] is its error. *)
Definition path_elems (p : string) : list string :=
  if p =?s "" then [] else
  if p =?s "/" then [""%string] else split_on "/" p.
Fixpoint drop_common (base targ : list string) : list string * list string :=
  match base, targ with
  | b :: base', t :: targ' => if b =?s t then drop_common base' targ' else (base, targ)
  | _, _ => (base, targ)
  end.
Definition path_rel (basepath targpath : string) : option string :=
  let base := path_clean basepath in
  let targ := path_clean targpath in
  if targ =?s base then Some "."%string else
  let base := if base =?s "." then ""%string else base in
  if negb (Bool.eqb (is_abs base) (is_abs targ)) then None else
  match drop_common (path_elems base) (path_elems targ) with
  | ([], rest) => Some (join_slash rest)
  | (b :: up, []) => Some (join_slash (map (λ _, ".."%string) (b :: up)))
  | (b :: up, rest) =>
      if b =?s ".." then None else Some (join_slash (map (λ _, ".."%string) (b :: up) ++ rest))
  end.

Example path_rel_samples :
  map (λ p, path_rel p.1 p.2) [("/a", "/a/b/c"); ("/a/b", "/a"); ("/", "/x"); ("/x", "/"); ("/a/b", "/a/c/d");
                                ("..", "x"); (".", "../x"); ("/a", "b")]%string
  = [Some "b/c"; Some ".."; Some "x"; Some ".."; Some "../c/d"; None; Some "../x"; None]%string
  ∧ map path_join [["/run"; "id"]; ["/run/"; "id"; "vsock.sock"]; [""; "x"]; [""; ""]]%string
    = ["/run/id"; "/run/id/vsock.sock"; "x"; ""]%string.
Proof. vm_compute. done. Qed.

Example path_samples :
  map path_clean ["/a/./b//c/../d"; "/"; ""; "a/../.."; "/../x/"; "/usr/bin/sh"]%string
  = ["/a/b/d"; "/"; "."; ".."; "/x"; "/usr/bin/sh"]%string
  ∧ map path_base ["/usr/bin/sh"; "/"; ""; "a/b//"]%string = ["sh"; "/"; "."; "b"]%string.
Proof. vm_compute. done. Qed.

(** A clean path is a fixed point of [path.Clean]. *)
Definition clean_abs (p : string) : bool := is_abs p && (path_clean p =?s p).

(** The elements of a cleaned rooted path name no directory twice over. *)
Definition plain_part (p : string) : Prop := p ≠ ""%string ∧ p ≠ "."%string ∧ p ≠ ".."%string.
Lemma clean_parts_plain parts acc :
  Forall plain_part acc → Forall plain_part (clean_parts true acc parts).
Proof.
  revert acc. induction parts as [|p parts IH]; intros acc Hacc; cbn [clean_parts].
  { by apply Forall_rev. }
  destruct (String.eqb_spec p ""); [by apply IH|]. destruct (String.eqb_spec p "."); [by apply IH|].
  cbn [orb]. destruct (String.eqb_spec p "..").
  - destruct acc as [|q acc]; [by apply IH|]. apply Forall_cons in Hacc as [(_ & _ & Hq) Hacc].
    rewrite (proj2 (String.eqb_neq _ _) Hq). by apply IH.
  - apply IH. by constructor.
Qed.

(** *** Splitting at slashes *)
Definition no_slash (s : string) : Prop := all_bytes (λ c, negb (Ascii.eqb c "/")) s = true.
Lemma split_join p : join_slash (split_on "/" p) = p ∧ Forall no_slash (split_on "/" p) ∧ split_on "/" p ≠ [].
Proof.
  unfold no_slash. induction p as [|c p (IH1 & IH2 & IH3)]; cbn [split_on].
  { split_and!; [done|repeat constructor|done]. }
  destruct (Ascii.eqb_spec c "/") as [->|Hc].
  - split_and!; [|by constructor|done]. destruct (split_on "/" p); [done|]. cbn. by rewrite <-IH1.
  - destruct (split_on "/" p) as [|q qs]; [done|]. apply Forall_cons in IH2 as [Hq Hqs].
    split_and!; [|constructor; [cbn; rewrite Hq, andb_true_r|done]|done].
    + destruct qs; cbn in *; by rewrite <-IH1.
    + by destruct (Ascii.eqb_spec c "/").
Qed.

Lemma split_no_slash p : no_slash p → split_on "/" p = [p].
Proof.
  unfold no_slash. induction p as [|c p IH]; cbn; [done|]. intros H. to_prop.
  rewrite H, IH by done. done.
Qed.
Lemma split_cons p q : no_slash p → split_on "/" (p +:+ String "/" q) = p :: split_on "/" q.
Proof.
  unfold no_slash. induction p as [|c p IH]; cbn; [done|]. intros H. to_prop.
  rewrite H, IH by done. done.
Qed.
Lemma split_join_inv parts : parts ≠ [] → Forall no_slash parts → split_on "/" (join_slash parts) = parts.
Proof.
  intros Hne H. induction H as [|p parts Hp Hps IH]; [done|]. destruct parts as [|q parts].
  - by apply split_no_slash.
  - change (join_slash (p :: q :: parts)) with (p +:+ String "/" (join_slash (q :: parts)))%string.
    by rewrite split_cons, IH.
Qed.

Lemma clean_parts_no_slash parts acc :
  Forall no_slash acc → Forall no_slash parts → Forall no_slash (clean_parts true acc parts).
Proof.
  revert acc. induction parts as [|p parts IH]; intros acc Hacc Hp; cbn [clean_parts].
  { by apply Forall_rev. }
  apply Forall_cons in Hp as [Hp Hps]. destruct (_ || _); [by apply IH|].
  destruct (p =?s ".."); [|by apply IH; [constructor|]].
  destruct acc as [|q acc]; [by apply IH|]. apply Forall_cons in Hacc as [? Hacc].
  destruct (q =?s ".."); apply IH; try done. by repeat constructor.
Qed.

(** A clean absolute path names its elements one by one: none is empty, [.] or [..]. *)
Lemma clean_abs_spec p : clean_abs p = true →
  ∃ parts, p = String "/" (join_slash parts) ∧ Forall plain_part parts ∧ Forall no_slash parts.
Proof.
  unfold clean_abs, path_clean. intros H. to_prop.
  destruct (String.eqb_spec p "") as [->|]; [done|]. rewrite H in H0.
  exists (clean_parts true [] (split_on "/" p)). split; [done|]. split.
  - by apply clean_parts_plain.
  - apply clean_parts_no_slash; [constructor|]. apply split_join.
Qed.

(** A file in an absolute directory keeps its name, so different names are different files. *)
Lemma split_app p q : split_on "/" (p +:+ String "/" q) = split_on "/" p ++ split_on "/" q.
Proof.
  induction p as [|c p IH]; [done|]. cbn [String.append split_on]. rewrite IH. destruct (Ascii.eqb c "/"); [done|].
  by destruct (split_on "/" p) as [|x xs] eqn:E; [by destruct (split_join p) as (_ & _ & ?)|].
Qed.
Lemma clean_parts_snoc rooted parts acc name : plain_part name → clean_parts rooted acc (parts ++ [name]) = clean_parts rooted acc parts ++ [name].
Proof.
  intros (H1 & H2 & H3). revert acc. induction parts as [|p parts IH]; intros acc; cbn [app clean_parts].
  - by rewrite (proj2 (String.eqb_neq _ _) H1), (proj2 (String.eqb_neq _ _) H2), (proj2 (String.eqb_neq _ _) H3).
  - destruct (_ || _); [apply IH|]. destruct (p =?s ".."); [|apply IH]. destruct acc as [|q acc]; [destruct rooted; apply IH|].
    destruct (q =?s ".."); apply IH.
Qed.
Lemma join_name dir name : is_abs dir = true → no_slash name → plain_part name → last_part (path_join [dir; name]) = name.
Proof.
  intros Hd Hs Hp. destruct dir as [|c dir]; [done|]. cbn [path_join String.eqb join_slash]. unfold path_clean.
  cbn [String.append String.eqb]. assert (Ha : is_abs (String c (dir +:+ String "/" name)) = true).
  { revert Hd. unfold is_abs, has_prefix. cbn [strip_prefix]. by destruct (Ascii.eqb _ c). }
  rewrite Ha. change (String c (dir +:+ String "/" name)) with (String c dir +:+ String "/" name)%string.
  rewrite split_app, (split_no_slash name Hs), clean_parts_snoc by done. set (l := clean_parts true [] _). unfold last_part.
  change (split_on "/" (String "/" ?b)) with (""%string :: split_on "/" b). rewrite split_join_inv.
  - exact (List.last_last (""%string :: l) name ""%string).
  - by destruct l.
  - apply Forall_app. split; [|by constructor]. apply clean_parts_no_slash; [constructor|apply split_join].
Qed.

(** ** Words *)
Definition no_space (s : string) : Prop := all_bytes (λ c, in_range 33 126 c) s = true.

Lemma strip_any_printable s c : in_range 33 126 c = true → strip_any space_runes (String c s) = None.
Proof.
  intros H. assert (Hall : ∀ r, r ∈ space_runes → strip_prefix r (String c s) = None).
  { intros r Hr. assert (Hh : match r with String d _ => in_range 33 126 d = false | _ => False end).
    { revert r Hr. apply Forall_forall. vm_compute. by repeat constructor. }
    destruct r as [|d r]; [done|]. cbn. destruct (Ascii.eqb_spec d c); [congruence|done]. }
  induction space_runes as [|r rs IH]; [done|]. cbn. rewrite (Hall r) by set_solver.
  apply IH. set_solver.
Qed.

Lemma fields_go_word f cur w s :
  no_space w → (String.length w <= f)%nat →
  fields_go f cur (w +:+ s) = fields_go (f - String.length w) (string_rev w +:+ cur) s.
Proof.
  unfold no_space. revert f cur. induction w as [|c w IH]; intros f cur Hw Hf.
  { cbn. by rewrite Nat.sub_0_r. }
  cbn in Hw, Hf. apply andb_true_iff in Hw as [Hc Hw]. destruct f as [|f]; [lia|].
  cbn [String.append fields_go]. rewrite strip_any_printable by done. rewrite IH by (done || lia).
  rewrite string_rev_cons, sapp_assoc. done.
Qed.

Fixpoint words (l : list string) : string := match l with [] => "" | [w] => w | w :: l => w +:+ " " +:+ words l end.
Lemma string_rev_nonempty s : s ≠ ""%string → string_rev s ≠ ""%string.
Proof. intros H E. apply H. by rewrite <-(string_rev_involutive s), E. Qed.

Lemma fields_words l :
  Forall (λ w, w ≠ ""%string ∧ no_space w) l → fields (words l) = l.
Proof.
  intros Hl. unfold fields.
  cut (∀ f, (String.length (words l) < f)%nat → fields_go f "" (words l) = l); [auto|].
  induction Hl as [|w l [Hne Hw] Hl IH]; intros f Hf.
  { destruct f; done. }
  pose proof (string_rev_nonempty _ Hne) as Hr. apply String.eqb_neq in Hr.
  destruct l as [|v l].
  - cbn [words] in *. rewrite <-(sapp_nil_r w), fields_go_word by (done || lia).
    rewrite !sapp_nil_r. destruct (f - String.length w)%nat; cbn [fields_go];
      by rewrite Hr, string_rev_involutive.
  - change (words (w :: v :: l)) with (w +:+ " " +:+ words (v :: l))%string in *.
    rewrite !slength_app in Hf. change (String.length " ") with 1%nat in Hf.
    rewrite fields_go_word by (done || lia). rewrite sapp_nil_r.
    destruct (f - String.length w)%nat as [|f'] eqn:Ef; [lia|].
    change (" " +:+ words (v :: l))%string with (String " " (words (v :: l))). cbn [fields_go].
    assert (strip_any space_runes (String " " (words (v :: l))) = Some (words (v :: l))) as -> by done.
    rewrite Hr, string_rev_involutive. f_equal. apply IH. lia.
Qed.
