(* ===== verification/JsonUtil.v ===== *)
(** * JsonUtil: internal/jsonutil, bounded and unambiguous decoding

    [Decode] rejects invalid UTF-8, nesting beyond [MaxDepth], duplicate object
    keys, unbounded numbers, trailing data and unknown (or differently cased)
    struct fields before anything is stored.  The reflection that drives
    [exactFields] and [json.Decoder.Decode] is a [decoder]: the Go type, its zero
    value and the way a raw value is stored over an old one. *)

From S2P Require Import Prelude GoLib GoTime Json JsonFacts.
From Stdlib Require Import Ascii String.

Definition MaxDepth : Z := 64.

Definition ValidateNumber (n : string) : result unit :=
  fail_if 256 <? blen n with Errorf "JSON numeric literal exceeds 256 characters" [] ;;
  match (cut_exp n).2 with
  | None => Ok tt
  | Some text =>
      match parse_int 10 32 text with
      | Some e => fail_if (e <? -1024) || (1024 <? e)
                    with Errorf "JSON numeric exponent exceeds +/-1024" [] ;; Ok tt
      | None => Err (Errorf "JSON numeric exponent exceeds +/-1024" [])
      end
  end.

(** The members of one object: each key is new, each value is checked. *)
Definition check_members (check : json → result unit) :
    list string → list (string * json) → result unit :=
  fix go seen ms :=
    match ms with
    | [] => Ok tt
    | (name, x) :: ms =>
        fail_if existsb (String.eqb name) seen with Errorf "duplicate JSON key %q" [name] ;;
        do? check x ;;
        go (name :: seen) ms
    end.

(** The token walk [value(d, depth)] over a syntactically valid document. *)
Fixpoint check_value (depth : Z) (v : json) : result unit :=
  fail_if MaxDepth <? depth with Errorf "JSON nesting exceeds %d" [] ;;
  match v with
  | JNumber n => ValidateNumber n
  | JArray items => each (check_value (depth + 1)) items
  | JObject ms => check_members (check_value (depth + 1)) [] ms
  | JNull | JBool _ | JString _ => Ok tt
  end.

(** ** Go types, as reflection sees them *)
#[warnings="-register-all"]
Inductive gotype :=
| TAny | TString | TBool | TInt (bits : Z) | TUint (bits : Z) | TTime | TRaw | TBytes
| TPtr (t : gotype)
| TSlice (t : gotype)
| TMap (t : gotype)
| TStruct (fields : list (string * gotype)).

Definition is_null (data : string) : bool := trim_space data =?s "null".
Definition starts_brace (data : string) : bool :=
  match trim_space data with String c _ => bz c =? 123 | EmptyString => false end.

Fixpoint exactFields (typ : gotype) (data : string) : result unit :=
  let struct find :=
    if negb (starts_brace data) then Ok tt else
    match raw_object data with
    | Some (Some m) => each (λ kv : string * string, find kv.1 kv.2) m
    | Some None => Ok tt
    | None => Err (Errorf "json: cannot unmarshal object" [])
    end in
  match typ with
  | TPtr t => exactFields t data
  | _ =>
      if is_null data then Ok tt else
      match typ with
      | TStruct fs =>
          struct (λ name raw,
            (fix find fs := match fs with
                            | [] => Err (Errorf "unknown JSON field %q" [name])
                            | (n, t) :: fs =>
                                if n =?s name
                                then map_err (Wrapf "field %s: %w" [name]) (exactFields t raw)
                                else find fs
                            end) fs)
      | TTime => struct (λ name _, Err (Errorf "unknown JSON field %q" [name]))
      | TSlice t =>
          match raw_array data with
          | Some items => each (λ item, map_err (Wrapf "item %d: %w" []) (exactFields t item)) items
          | None => Ok tt
          end
      | TMap t =>
          match raw_object data with
          | Some (Some m) =>
              each (λ kv : string * string, map_err (Wrapf "key %s: %w" [kv.1]) (exactFields t kv.2)) m
          | _ => Ok tt
          end
      | _ => Ok tt
      end
  end.

(** ** Destinations *)
Record decoder (A : Type) := {
  go_type : gotype;
  zero : A;
  store : A → string → result A
}.
Arguments go_type {A} _.
Arguments zero {A} _.
Arguments store {A} _ _ _.
Arguments Build_decoder {A} _ _ _.

Definition type_error {A} (t : string) : result A :=
  Err (Errorf "json: cannot unmarshal value into Go value of type %s" [t]).

Definition dec_any : decoder json :=
  Build_decoder TAny JNull (λ _ raw, match parse raw with
                                     | Some v => Ok v
                                     | None => type_error "any"
                                     end).
Definition dec_raw : decoder string := Build_decoder TRaw ""%string (λ _ raw, Ok raw).
Definition dec_string : decoder string :=
  Build_decoder TString ""%string (λ old raw, match parse raw with
                                       | Some (JString s) => Ok s
                                       | Some JNull => Ok old
                                       | _ => type_error "string"
                                       end).
Definition dec_bool : decoder bool :=
  Build_decoder TBool false (λ old raw, match parse raw with
                                        | Some (JBool b) => Ok b
                                        | Some JNull => Ok old
                                        | _ => type_error "bool"
                                        end).
Definition dec_number (t : gotype) (read : string → option Z) : decoder Z :=
  Build_decoder t 0 (λ old raw, match parse raw with
                                | Some (JNumber n) =>
                                    match read n with Some z => Ok z | None => type_error "number" end
                                | Some JNull => Ok old
                                | _ => type_error "number"
                                end).
Definition dec_int (bits : Z) : decoder Z := dec_number (TInt bits) (parse_int 10 bits).
Definition dec_uint (bits : Z) : decoder Z := dec_number (TUint bits) (parse_uint 10 bits).
(** [Time.UnmarshalJSON] reads the bytes between the quotes as they are: escapes are not
    undone. *)
Definition between_quotes (raw : string) : string := string_drop 1 (string_take (String.length raw - 1) raw).
Definition dec_time : decoder Z :=
  Build_decoder TTime zero_time (λ old raw, match parse raw with
                                       | Some (JString _) =>
                                           match parse_rfc3339nano (between_quotes raw) with
                                           | Some t => Ok t
                                           | None => type_error "time.Time"
                                           end
                                       | Some JNull => Ok old
                                       | _ => type_error "time.Time"
                                       end).
Definition dec_ptr {A} (d : decoder A) : decoder (option A) :=
  Build_decoder (TPtr (go_type d)) None
    (λ old raw, match parse raw with
                | Some JNull => Ok None
                | _ => let? v := store d (default (zero d) old) raw in Ok (Some v)
                end).
Definition dec_slice {A} (d : decoder A) : decoder (list A) :=
  Build_decoder (TSlice (go_type d)) []
    (λ _ raw, match raw_array raw with
              | Some items => traverse (store d (zero d)) items
              | None => type_error "slice"
              end).
Definition dec_map {A} (d : decoder A) : decoder (list (string * A)) :=
  Build_decoder (TMap (go_type d)) []
    (λ old raw, match raw_object raw with
              | Some (Some m) =>
                  traverse (λ kv : string * string, let? v := store d (zero d) kv.2 in Ok (kv.1, v)) m
              | Some None => Ok []
              | None => type_error "map"
              end).

(** The members a struct destination sees; [null] stores nothing. *)
Definition struct_fields (raw : string) : result (list (string * string)) :=
  match raw_object raw with
  | Some (Some m) => Ok m
  | Some None => Ok []
  | None => type_error "struct"
  end.
Definition get_field {A} (d : decoder A) (name : string) (old : A) (fs : list (string * string)) : result A :=
  match assoc name fs with
  | Some raw => store d old raw
  | None => Ok old
  end.

Definition Decode {A} (d : decoder A) (old : A) (data : string) : result A :=
  fail_if negb (utf8_valid data) with Errorf "JSON must contain valid UTF-8" [] ;;
  match value (fuel_for data) data with
  | None => Err (Errorf "JSON value: %w" [])
  | Some (v, rest) =>
      do? check_value 0 v ;;
      fail_if skip_ws rest <>?s "" with Errorf "JSON contains trailing data" [] ;;
      do? exactFields (go_type d) data ;;
      map_err (Wrapf "JSON decode: %w" []) (store d old data)
  end.

(** ** Integers survive the encoder *)
Lemma digits_go_utoa f n a acc :
  0 <= n < 2 ^ Z.of_nat f → ∃ k, 0 <= k ∧
  digits_go 10 a (utoa_go f n acc) = digits_go 10 (a * 10 ^ k + n) acc.
Proof.
  revert n acc; induction f as [|f IH]; intros n acc Hn.
  { exists 0. split; [lia|]. cbn in *. f_equal. lia. }
  rewrite Nat2Z.inj_succ, Z.pow_succ_r in Hn by lia. cbn [utoa_go].
  pose proof (Z.mod_pos_bound n 10). pose proof (Z.div_mod n 10).
  assert (Hd : ∀ b, digits_go 10 b (String (digit_char (n mod 10)) acc)
                    = digits_go 10 (b * 10 + n mod 10) acc).
  { intros b. cbn [digits_go]. rewrite digit_val_digit_char by lia.
    by rewrite (proj2 (Z.ltb_lt _ _)) by lia. }
  destruct (Z.ltb_spec n 10).
  - exists 1. split; [lia|]. rewrite Hd. f_equal. rewrite Z.mod_small by lia. lia.
  - destruct (IH (n / 10) (String (digit_char (n mod 10)) acc)) as (k & Hk & ->).
    { split; [apply Z.div_pos; lia|]. apply Z.div_lt_upper_bound; lia. }
    exists (k + 1). split; [lia|]. rewrite Hd. f_equal. rewrite Z.pow_add_r by lia. lia.
Qed.

Lemma num_run_utoa st f n acc :
  st = NStart ∨ st = NNeg → 0 < n < 2 ^ Z.of_nat f → all_bytes is_digit acc = true →
  num_run st (utoa_go f n acc) = Some NInt.
Proof.
  intros Hst. revert n acc; induction f as [|f IH]; intros n acc Hn Hacc; [cbn in *; lia|].
  rewrite Nat2Z.inj_succ, Z.pow_succ_r in Hn by lia. cbn [utoa_go].
  pose proof (Z.mod_pos_bound n 10). pose proof (Z.div_mod n 10).
  destruct (Z.ltb_spec n 10).
  - rewrite Z.mod_small by lia. cbn [num_run].
    replace (num_step st (digit_char n)) with (Some NInt).
    { clear -Hacc. induction acc as [|c acc IHa]; [done|]. cbn [all_bytes num_run num_step] in *.
      apply andb_true_iff in Hacc as [Hc ?]. unfold num_step. rewrite Hc. by apply IHa. }
    assert (Hc : 1 <= n < 10) by lia. clear -Hst Hc.
    assert (n = 1 ∨ n = 2 ∨ n = 3 ∨ n = 4 ∨ n = 5 ∨ n = 6 ∨ n = 7 ∨ n = 8 ∨ n = 9) by lia.
    destruct Hst; subst st; repeat destruct H as [->|H]; subst; reflexivity.
  - apply IH.
    + split; [apply Z.div_str_pos; lia|]. apply Z.div_lt_upper_bound; lia.
    + cbn. by rewrite is_digit_digit_char by lia.
Qed.

Lemma utoa_fuel n : 0 <= n → 0 <= n < 2 ^ Z.of_nat (S (Z.to_nat (Z.log2 n))).
Proof.
  intros Hn. split; [done|]. rewrite Nat2Z.inj_succ, Z2Nat.id by apply Z.log2_nonneg.
  destruct (decide (n = 0)) as [->|]; [done|]. apply Z.log2_spec. lia.
Qed.
Lemma utoa_nonempty n : ∃ c r, utoa n = String c r.
Proof.
  unfold utoa. generalize (Z.to_nat (Z.log2 n)). intros f. cbn [utoa_go].
  destruct (n <? 10); [by eexists _, _|].
  generalize (n / 10). generalize (digit_char (n mod 10)). generalize ""%string.
  induction f as [|f IH]; intros acc c m; cbn [utoa_go]; [by eexists _, _|].
  destruct (m <? 10); [by eexists _, _|apply IH].
Qed.
Lemma digits_utoa n : 0 <= n → digits 10 (utoa n) = Some n.
Proof.
  intros Hn. destruct (digits_go_utoa _ n 0 "" (utoa_fuel n Hn)) as (k & _ & Hd).
  unfold digits. fold (utoa n) in Hd. destruct (utoa_nonempty n) as (c & r & Hu). rewrite Hu in *.
  by rewrite Hd.
Qed.
Lemma valid_number_itoa n : valid_number (itoa n) = true.
Proof.
  unfold valid_number, itoa. destruct (Z.ltb_spec n 0).
  - change (num_run NStart (String "-" (utoa (- n)))) with (num_run NNeg (utoa (- n))).
    unfold utoa. rewrite num_run_utoa; [done|by right| |done].
    pose proof (utoa_fuel (- n)). lia.
  - destruct (decide (n = 0)) as [->|]; [done|].
    unfold utoa. rewrite num_run_utoa; [done|by left| |done].
    pose proof (utoa_fuel n). lia.
Qed.
Lemma parse_int_itoa n :
  parse_int 10 64 (itoa n) = if int64_ok n then Some n else None.
Proof.
  unfold parse_int, itoa, int64_ok. change (64 - 1) with 63. destruct (Z.ltb_spec n 0).
  - cbn [bz]. change (bz "-" =? 45) with true. cbn iota beta. cbn [fst snd].
    rewrite digits_utoa by lia. by replace (-1 * - n) with n by lia.
  - assert (Hs : ∀ c r, utoa n = String c r → (bz c =? 45) = false ∧ (bz c =? 43) = false).
    { intros c r Hu. pose proof (digits_utoa n) as Hd. rewrite Hu in Hd.
      specialize (Hd ltac:(lia)). cbn in Hd.
      destruct (Z.eqb_spec (bz c) 45) as [Ec|]; [|destruct (Z.eqb_spec (bz c) 43) as [Ec|]; [|done]].
      - by rewrite (bz_inj c "-" Ec) in Hd.
      - by rewrite (bz_inj c "+" Ec) in Hd. }
    destruct (utoa_nonempty n) as (c & r & Hu). destruct (Hs c r Hu) as [H1 H2].
    rewrite Hu, H1, H2. cbn [fst snd]. rewrite <-Hu, digits_utoa by lia.
    by rewrite Z.mul_1_l.
Qed.
Lemma dec_int_itoa old n :
  store (dec_int 64) old (itoa n) = if int64_ok n then Ok n else type_error "number".
Proof.
  change (store (dec_int 64) old (itoa n)) with
    (match parse (print (JNumber (itoa n))) with
     | Some (JNumber n) => match parse_int 10 64 n with Some z => Ok z | None => type_error "number" end
     | Some JNull => Ok old
     | _ => type_error "number"
     end).
  rewrite parse_print by apply valid_number_itoa. rewrite parse_int_itoa. by destruct (int64_ok n).
Qed.

(** ** What an accepted document looks like *)

(** Nesting height: a scalar has height 0. *)
Fixpoint height (v : json) : Z :=
  match v with
  | JArray l => 1 + fold_right Z.max (-1) (map height l)
  | JObject m => 1 + fold_right Z.max (-1) (map (λ kv, height kv.2) m)
  | _ => 0
  end.

(** [P] holds of the value and of everything inside it. *)
Definition list_all {A} (Q : A → Prop) : list A → Prop :=
  fix go l := match l with [] => True | x :: l => Q x ∧ go l end.
Fixpoint json_all (P : json → Prop) (v : json) : Prop :=
  P v ∧ match v with
        | JArray l => list_all (json_all P) l
        | JObject m => list_all (λ kv, json_all P kv.2) m
        | _ => True
        end.

Definition unique_keys : json → Prop :=
  json_all (λ v, match v with JObject m => NoDup (m.*1) | _ => True end).
Definition bounded_numbers : json → Prop :=
  json_all (λ v, match v with JNumber n => ValidateNumber n = Ok tt | _ => True end).
Definition valid_numbers : json → Prop :=
  json_all (λ v, match v with JNumber n => valid_number n = true | _ => True end).

Lemma list_all_Forall {A} (Q : A → Prop) l : list_all Q l ↔ Forall Q l.
Proof. induction l; cbn; [by split|]. by rewrite Forall_cons, IHl. Qed.

Lemma height_nonneg v : 0 ≤ height v.
Proof.
  assert (∀ l : list Z, -1 ≤ fold_right Z.max (-1) l) by (induction l; cbn; lia).
  destruct v; cbn; try lia.
  - specialize (H (map height items)). lia.
  - specialize (H (map (λ kv, height kv.2) members)). lia.
Qed.

Lemma existsb_eqb_in k l : existsb (String.eqb k) l = false ↔ k ∉ l.
Proof.
  rewrite <-not_true_iff_false, existsb_exists. setoid_rewrite String.eqb_eq.
  setoid_rewrite list_elem_of_In. naive_solver.
Qed.

Lemma check_members_spec check m seen :
  check_members check seen m = Ok tt ↔
  (∀ k, k ∈ seen → k ∉ m.*1) ∧ NoDup m.*1 ∧ Forall (λ kv, check kv.2 = Ok tt) m.
Proof.
  revert seen; induction m as [|[k x] m IH]; intros seen; cbn.
  { split; [|done]. intros _. split_and!; [|constructor..]. intros ? _ H; inversion H. }
  destruct (existsb (String.eqb k) seen) eqn:Ek.
  { split; [done|]. intros [Hs _]. exfalso. apply not_false_iff_true in Ek. apply Ek.
    apply existsb_eqb_in. intros Hin. apply (Hs _ Hin). left. }
  apply existsb_eqb_in in Ek. rewrite rbind_ok, NoDup_cons, Forall_cons.
  setoid_rewrite IH. setoid_rewrite not_elem_of_cons. setoid_rewrite elem_of_cons. cbn. split.
  - intros ([] & ? & Hs & ? & ?). split_and!; [|by apply Hs; left|done..].
    intros k' Hk'. split; [by intros ->|]. apply Hs. by right.
  - intros (Hs & [? ?] & ? & ?). exists tt. split_and!; [done| |done..].
    intros k' [->|Hk']; [done|]. by apply (Hs k').
Qed.

(** The walk accepts exactly the documents of bounded depth, with unique keys in
    every object and bounded number literals. *)
Lemma check_value_spec v d :
  check_value d v = Ok tt ↔ d + height v ≤ MaxDepth ∧ unique_keys v ∧ bounded_numbers v.
Proof.
  unfold MaxDepth. revert d.
  induction v as [| |n| |l IH|m IH] using json_nested_ind; intros d; cbn [check_value];
    unfold MaxDepth; destruct (Z.ltb_spec 64 d) as [Hd|Hd];
    try (split; [done|]; intros [Hh _];
         match type of Hh with context [height ?v] => pose proof (height_nonneg v) end; lia).
  1-4: unfold unique_keys, bounded_numbers; cbn; naive_solver lia.
  - rewrite each_ok. unfold unique_keys, bounded_numbers. cbn [height json_all].
    rewrite !list_all_Forall.
    assert (Hall : Forall (λ v, check_value (d + 1) v = Ok tt) l ↔
      d + (1 + fold_right Z.max (-1) (map height l)) ≤ 64
      ∧ Forall unique_keys l ∧ Forall bounded_numbers l).
    { induction IH as [|x l Hx _ IHl]; cbn [map fold_right];
        [split; [intros _; split; [lia|done]|constructor]|].
      rewrite !Forall_cons, IHl, Hx.
      split; [intros [(? & ? & ?) (? & ? & ?)]|intros (? & [? ?] & [? ?])]; split_and!; (done || lia). }
    rewrite Hall. naive_solver.
  - rewrite check_members_spec. unfold unique_keys, bounded_numbers. cbn [height json_all].
    rewrite !list_all_Forall.
    assert (Hall : Forall (λ kv, check_value (d + 1) kv.2 = Ok tt) m ↔
      d + (1 + fold_right Z.max (-1) (map (λ kv, height kv.2) m)) ≤ 64
      ∧ Forall (λ kv, unique_keys kv.2) m ∧ Forall (λ kv, bounded_numbers kv.2) m).
    { induction IH as [|[k x] l Hx _ IHl]; cbn [map fold_right];
        [split; [intros _; split; [lia|done]|constructor]|].
      rewrite !Forall_cons, IHl. cbn [snd] in *. rewrite Hx.
      split; [intros [(? & ? & ?) (? & ? & ?)]|intros (? & [? ?] & [? ?])]; split_and!; (done || lia). }
    rewrite Hall. split; [naive_solver|]. intros (? & [? ?] & ? & ?). split_and!; try done.
    intros k Hk. inversion Hk.
Qed.

(** Number literals that come out of the reader are JSON numbers. *)
Lemma scan_number_valid st s lit rest :
  scan_number st s = Some (lit, rest) →
  match num_run st lit with Some st' => num_final st' | None => false end = true.
Proof.
  revert st lit rest; induction s as [|c s IH]; intros st lit rest; cbn.
  - destruct (num_final st) eqn:E; [|done]. by intros [= <- <-].
  - destruct (num_step st c) as [st'|] eqn:E.
    + destruct (scan_number st' s) as [[l r]|] eqn:E2; [|done].
      intros [= <- <-]. cbn. rewrite E. by eapply IH.
    + destruct (num_final st) eqn:Ef; [|done]. by intros [= <- <-].
Qed.

Section element_property.
Context {A : Type} (elem : string → option (A * string)) (P : A → Prop).
Hypothesis elem_ok : ∀ s v r, elem s = Some (v, r) → P v.

Lemma elements_all f s l r : elements elem f s = Some (l, r) → Forall P l.
Proof.
  revert s l r; induction f as [|f IH]; intros s l r; cbn; [done|].
  destruct (elem s) as [[v t]|] eqn:E; [|done].
  destruct (skip_ws t) as [|c t']; [done|]. destruct (bz c =? 44).
  - destruct (elements elem f t') as [[vs u]|] eqn:E2; [|done]. intros [= <- <-]. eauto.
  - destruct (bz c =? 93); [|done]. intros [= <- <-]. eauto.
Qed.

Lemma members_all f s m r : members elem f s = Some (m, r) → Forall (λ kv, P kv.2) m.
Proof.
  revert s m r; induction f as [|f IH]; intros s m r; cbn; [done|].
  destruct (member elem s) as [[[k v] t]|] eqn:E; [|done].
  assert (P v).
  { revert E. unfold member. repeat case_match; try done. intros; simplify_eq. eauto. }
  destruct (skip_ws t) as [|c t']; [done|]. destruct (bz c =? 44).
  - destruct (members elem f t') as [[vs u]|] eqn:E2; [|done]. intros [= <- <-]. eauto.
  - destruct (bz c =? 125); [|done]. intros [= <- <-]. eauto.
Qed.
End element_property.

Lemma value_valid_numbers f s v r : value f s = Some (v, r) → valid_numbers v.
Proof.
  unfold valid_numbers. revert s v r; induction f as [|f IH]; intros s v r; cbn [value]; [done|].
  destruct (skip_ws s) as [|c t]; [done|].
  destruct (bz c =? 123).
  { unfold object_body. destruct (skip_ws t) as [|b t']; [done|]. destruct (bz b =? 125).
    - intros [= <- <-]. done.
    - destruct (members _ _ _) as [[m u]|] eqn:E; [|done]. intros [= <- <-]. split; [done|].
      apply list_all_Forall. by apply (members_all _ _ IH) in E. }
  destruct (bz c =? 91).
  { unfold array_body. destruct (skip_ws t) as [|b t']; [done|]. destruct (bz b =? 93).
    - intros [= <- <-]. done.
    - destruct (elements _ _ _) as [[m u]|] eqn:E; [|done]. intros [= <- <-]. split; [done|].
      apply list_all_Forall. by apply (elements_all _ _ IH) in E. }
  unfold literal. repeat case_match; try done; intros; simplify_eq; try (by split).
  split; [|done]. by eapply scan_number_valid.
Qed.

Lemma decode_any_iff data v :
  Decode dec_any JNull data = Ok v ↔
  utf8_valid data = true ∧ parse data = Some v ∧
  height v ≤ MaxDepth ∧ unique_keys v ∧ bounded_numbers v.
Proof.
  pose proof (check_value_spec v 0) as Hc. rewrite Z.add_0_l in Hc. rewrite <-Hc. clear Hc.
  assert (Hex : exactFields TAny data = Ok tt) by (cbn; by destruct (is_null data)).
  unfold Decode. cbn [go_type dec_any store]. rewrite Hex. unfold parse.
  destruct (utf8_valid data); cbn [negb]; [|naive_solver].
  destruct (value (fuel_for data) data) as [[w rest]|]; [|naive_solver].
  destruct (skip_ws rest =?s "") eqn:Er; cbn [negb rbind map_err].
  - destruct (check_value 0 w) as [[]|] eqn:Ew; cbn; naive_solver congruence.
  - destruct (check_value 0 w) as [[]|] eqn:Ew; cbn; naive_solver.
Qed.

(** A decoded value: the facts every client of [Decode] can rely on. *)
Definition decoded (v : json) : Prop := unique_keys v ∧ bounded_numbers v ∧ valid_numbers v.
Lemma decode_any_decoded data v : Decode dec_any JNull data = Ok v → decoded v.
Proof.
  intros (_ & Hp & _ & ? & ?)%decode_any_iff. split_and!; [done..|].
  unfold parse in Hp. destruct (value _ _) as [[w r]|] eqn:E; [|done].
  case_match; [|done]. injection Hp as ->. by eapply value_valid_numbers.
Qed.

(** C40.  [jsonutil.Decode] into [any] accepts exactly the valid UTF-8 documents
    that are one JSON value nested at most 64 levels deep, with no duplicate key
    in any object and only bounded number literals, and returns that value. *)
Theorem decode_any_spec data v :
  Decode dec_any JNull data = Ok v ↔
  utf8_valid data = true ∧ parse data = Some v ∧
  height v ≤ MaxDepth ∧ unique_keys v ∧ bounded_numbers v.
Proof. apply decode_any_iff. Qed.

(** Whatever [json.Marshal] writes for a representable value within the
    limits, [jsonutil.Decode] reads back unchanged. *)
Theorem decode_marshal v :
  json_wf v = true → height v ≤ MaxDepth → unique_keys v → bounded_numbers v →
  Decode dec_any JNull (print v) = Ok v.
Proof.
  intros. apply decode_any_iff.
  split_and!; [by apply print_utf8|by apply parse_print|done..].
Qed.

Definition sample_value : json :=
  JObject [("n", JNumber "-1.5e3"); ("tags", JArray [JString "<&>"; JNull; JBool true])]%string.
Lemma decode_marshal_witness :
  Decode dec_any JNull (print sample_value) = Ok sample_value ∧
  print sample_value = js "{'n':-1.5e3,'tags':['\u003c\u0026\u003e',null,true]}".
Proof.
  split; [|vm_compute; reflexivity].
  apply decode_marshal; [vm_compute; reflexivity|vm_compute; discriminate| |].
  - cbn. split_and!; try done. repeat (constructor; [set_solver|]). constructor.
  - cbn. split_and!; done.
Defined.

(** ** Struct destinations read back what the encoder wrote *)
Fixpoint field_type (fs : list (string * gotype)) (name : string) : option gotype :=
  match fs with
  | [] => None
  | (n, t) :: fs => if n =?s name then Some t else field_type fs name
  end.

Lemma exactFields_struct fs m :
  json_wf (JObject m) = true →
  Forall (λ kv, ∃ t, field_type fs kv.1 = Some t ∧ exactFields t (print kv.2) = Ok tt) m →
  exactFields (TStruct fs) (print (JObject m)) = Ok tt.
Proof.
  intros Hwf Hall. cbn [exactFields]. destruct (is_null _); [done|].
  destruct (negb _); [done|]. rewrite raw_object_print by done.
  apply each_ok. unfold raw_members. apply Forall_forall.
  intros [k raw] ([k' v] & [= -> ->] & Hin)%list_elem_of_fmap.
  rewrite Forall_forall in Hall. destruct (Hall _ Hin) as (t & Hf & Ht). cbn [fst snd] in *.
  clear -Hf Ht. induction fs as [|[n t'] fs IH]; cbn [field_type] in Hf; [done|].
  destruct (n =?s k'); [injection Hf as ->; by rewrite Ht|by apply IH].
Qed.

Lemma decode_print {A} (d : decoder A) old v :
  json_wf v = true → is_ok (check_value 0 v) = true → exactFields (go_type d) (print v) = Ok tt →
  Decode d old (print v) = map_err (Wrapf "JSON decode: %w" []) (store d old (print v)).
Proof.
  intros Hwf Hc He. unfold Decode. rewrite print_utf8 by done. cbn [negb].
  pose proof (value_print v Hwf (S (String.length (print v))) (String.length (print v))
                (Nat.lt_succ_diag_r _) ""%string I) as Hv.
  rewrite sapp_nil_r in Hv. unfold fuel_for. rewrite Hv by lia.
  destruct (check_value 0 v) as [[]|]; [|done]. cbn [rbind skip_ws String.eqb negb]. by rewrite He.
Qed.

Lemma struct_fields_print m :
  json_wf (JObject m) = true → struct_fields (print (JObject m)) = Ok (raw_members m).
Proof. intros H. unfold struct_fields. by rewrite raw_object_print. Qed.

Lemma dec_string_print old s : utf8_valid s = true → store dec_string old (print (JString s)) = Ok s.
Proof. intros H. cbn [store dec_string]. by rewrite parse_print. Qed.
Lemma dec_bool_print old b : store dec_bool old (print (JBool b)) = Ok b.
Proof. cbn [store dec_bool]. by rewrite parse_print. Qed.
Lemma dec_int_print old n : int64_ok n = true → store (dec_int 64) old (print (JNumber (itoa n))) = Ok n.
Proof. intros H. cbn [print]. by rewrite dec_int_itoa, H. Qed.

(** Integers within 64 bits are within the number limits. *)
Lemma utoa_go_length f n acc : (String.length (utoa_go f n acc) ≤ f + String.length acc)%nat.
Proof.
  revert n acc. induction f as [|f IH]; intros n acc; cbn [utoa_go]; [lia|]. cbv zeta.
  destruct (n <? 10); [cbn; lia|]. etrans; [apply IH|]. cbn. lia.
Qed.
Lemma utoa_go_digits f n acc : 0 ≤ n → all_bytes is_digit acc = true → all_bytes is_digit (utoa_go f n acc) = true.
Proof.
  revert n acc. induction f as [|f IH]; intros n acc Hn Ha; cbn [utoa_go]; [done|]. cbv zeta.
  pose proof (Z.mod_pos_bound n 10). assert (all_bytes is_digit (String (digit_char (n mod 10)) acc) = true).
  { cbn [all_bytes]. by rewrite is_digit_digit_char, Ha by lia. }
  destruct (n <? 10); [done|]. apply IH; [|done]. apply Z.div_pos; lia.
Qed.
Lemma cut_exp_digits s : all_bytes (λ c, is_digit c || (bz c =? 45)) s = true → (cut_exp s).2 = None.
Proof.
  induction s as [|c s IH]; [done|]. cbn [all_bytes cut_exp]. intros [Hc Hs]%andb_true_iff.
  assert (is_one_of [69; 101] c = false) as ->.
  { unfold is_digit, in_range, is_one_of in *. cbn [existsb]. lia. }
  specialize (IH Hs). destruct (cut_exp s) as [m e]. exact IH.
Qed.
Lemma all_bytes_impl (p q : ascii → bool) s : (∀ c, p c = true → q c = true) → all_bytes p s = true → all_bytes q s = true.
Proof. intros Hpq. induction s as [|c s IH]; [done|]. cbn. intros [? ?]%andb_true_iff. apply andb_true_iff. auto. Qed.
Lemma check_int d n : d ≤ MaxDepth → int64_ok n = true → check_value d (JNumber (itoa n)) = Ok tt.
Proof.
  intros Hd Hn. unfold int64_ok in Hn. to_prop. assert (E63 : 2 ^ 63 = 9223372036854775808) by reflexivity.
  cbn [check_value]. rewrite (proj2 (Z.ltb_ge _ _) Hd). unfold ValidateNumber.
  assert (Hlen : ∀ k, 0 ≤ k ≤ 2 ^ 63 → (String.length (utoa k) ≤ 65)%nat).
  { intros k Hk. unfold utoa. etrans; [apply utoa_go_length|]. cbn [String.length].
    assert (Z.log2 k ≤ 63) by (etrans; [apply Z.log2_le_mono, Hk|done]). lia. }
  assert (Hdig : ∀ k, 0 ≤ k → all_bytes (λ c, is_digit c || (bz c =? 45)) (utoa k) = true).
  { intros k Hk. apply (all_bytes_impl is_digit); [by intros c ->|]. by apply utoa_go_digits. }
  rewrite (proj2 (Z.ltb_ge _ _)).
  - rewrite cut_exp_digits; [done|]. unfold itoa. destruct (Z.ltb_spec n 0); [|by apply Hdig].
    cbn [all_bytes]. apply andb_true_iff. split; [done|]. apply Hdig. lia.
  - unfold blen, itoa. destruct (Z.ltb_spec n 0); cbn [String.length].
    + pose proof (Hlen (- n)). lia.
    + pose proof (Hlen n). lia.
Qed.

(** *** Text without anything to escape *)
Definition plain_char (c : ascii) : bool := in_range 32 126 c && negb (is_one_of [34; 92; 60; 62; 38] c).
Definition plain (s : string) : Prop := all_bytes plain_char s = true.
Lemma plain_app a b : plain (a +:+ b) ↔ plain a ∧ plain b.
Proof. unfold plain. by rewrite all_bytes_app, andb_true_iff. Qed.
Lemma plain_ascii s : plain s → all_bytes (λ c, bz c <? 128) s = true.
Proof. apply all_bytes_impl. intros c. unfold plain_char, in_range. lia. Qed.
Lemma plain_utf8 s : plain s → utf8_valid s = true.
Proof. intros Hs. by apply utf8_ascii, plain_ascii. Qed.
Lemma quote_body_plain s : plain s → quote_body 0 0 s = s.
Proof.
  induction s as [|c s IH]; [done|]. intros [Hc Hs]%andb_true_iff. cbn [quote_body]. rewrite IH by exact Hs.
  unfold plain_char, is_one_of in Hc. cbn [existsb] in Hc. unfold in_range in Hc.
  rewrite (proj2 (Z.ltb_lt (bz c) 128)) by lia. unfold quote_ascii, is_one_of. cbn [existsb].
  repeat match goal with |- context [bz c =? ?k] => rewrite (proj2 (Z.eqb_neq (bz c) k)) by lia end.
  by rewrite (proj2 (Z.ltb_ge (bz c) 32)) by lia.
Qed.
Lemma quote_between s : plain s → between_quotes (quote s) = s.
Proof.
  intros Hs. unfold quote, between_quotes. rewrite quote_body_plain by done. cbn [String.length Nat.sub].
  rewrite Nat.sub_0_r, slength_app. cbn [String.length]. rewrite Nat.add_1_r. cbn [string_take string_drop]. apply string_take_app.
Qed.
Lemma plain_digits s : all_bytes is_digit s = true → plain s.
Proof. apply all_bytes_impl. intros c. unfold plain_char, is_one_of. cbn [existsb]. unfold is_digit, in_range. lia. Qed.
Lemma plain_pad w n r : plain r → plain (pad_dec w n r).
Proof. intros Hr. rewrite pad_dec_app. apply plain_app. split; [apply plain_digits, pad_dec_digits|done]. Qed.
Lemma plain_rev s : plain s → plain (string_rev s).
Proof.
  induction s as [|c s IH]; [done|]. rewrite string_rev_cons. intros [Hc Hs]%andb_true_iff. apply plain_app.
  split; [by apply IH|]. unfold plain. cbn. by rewrite Hc.
Qed.
Lemma plain_drop_zeros s : plain s → plain (drop_zeros s).
Proof.
  induction s as [|c s IH]; [done|]. intros Hs. cbn [drop_zeros]. destruct (bz c =? 48); [|done].
  apply andb_true_iff in Hs as [_ Hs]. auto.
Qed.
Lemma plain_fraction ns : plain (format_fraction ns).
Proof.
  unfold format_fraction. set (ds := string_rev _). assert (Hd : plain ds).
  { apply plain_rev, plain_drop_zeros, plain_rev. by apply plain_pad. }
  clearbody ds. destruct (ds =?s ""); [done|]. exact Hd.
Qed.
Lemma plain_format t : plain (format_rfc3339nano t).
Proof.
  unfold format_rfc3339nano. destruct (civil_of_days _) as [[y m] d].
  repeat first [apply plain_pad | apply plain_app; split; [apply plain_fraction|done]
               | apply andb_true_iff; split; [reflexivity|]].
Qed.
Lemma format_utf8 t : utf8_valid (format_rfc3339nano t) = true.
Proof. apply plain_utf8, plain_format. Qed.
Lemma dec_time_print old t : supported t = true → store dec_time old (print (JString (format_rfc3339nano t))) = Ok t.
Proof.
  intros Ht. cbn [store dec_time]. rewrite parse_print by apply format_utf8.
  cbn [print]. by rewrite quote_between, parse_format by (done || apply plain_format).
Qed.
