(* ===== verification/JsonText.v ===== *)
(** * JsonText: the text json.Marshal writes, with json.RawMessage inside it

    A json.RawMessage is not decoded and written again: [json.Marshal] copies its bytes,
    without the space between tokens and with what HTML or JavaScript could misread escaped
    ([compact]), so that the escapes of its strings stay as they are.  Messages that carry
    one are therefore built as text: [obj] and [arr] put member and item texts together,
    and [indent] is what [json.MarshalIndent] makes of the result.  [compact_text t v] says
    that [t] is such a text of the value [v]; it is preserved by every constructor, and
    compacting any valid document gives one ([compact_value]). *)

From S2P Require Import Prelude GoLib Json JsonFacts GoTime GoText JsonUtil.
From Stdlib Require Import Ascii String.

Definition newline : ascii := chr 10.

(** ** Definitions *)
(** Each byte that does not start a rune is replaced; [copy] bytes still belong to one. *)
Fixpoint to_valid (copy : nat) (s : string) : string :=
  match s with
  | EmptyString => ""
  | String c r =>
      match copy with
      | S copy => String c (to_valid copy r)
      | O => match utf8_head s with
             | Some n => String c (to_valid (Nat.pred n) r)
             | None => utf8_encode 65533 +:+ to_valid 0 r
             end
      end
  end.

(** The scanner counts open brackets and refuses deeper nesting. *)
Fixpoint nesting (v : json) : Z :=
  match v with
  | JArray l => 1 + fold_right Z.max 0 (map nesting l)
  | JObject m => 1 + fold_right Z.max 0 (map (λ kv, nesting kv.2) m)
  | _ => 0
  end.
Definition max_nesting : Z := 10000.
(** [json.Valid]. *)
Definition json_Valid (s : string) : bool :=
  match parse s with Some v => nesting v <=? max_nesting | None => false end.

(** A valid document written again: the space between tokens goes, what HTML or JavaScript
    could misread is escaped, everything else stays as it is. *)
Inductive text_state := Outside | Inside | Escaped.
Definition text_step (st : text_state) (c : ascii) : text_state :=
  match st with
  | Outside => if bz c =? 34 then Inside else Outside
  | Inside => if bz c =? 34 then Outside else if bz c =? 92 then Escaped else Inside
  | Escaped => Inside
  end.
Definition blank (st : text_state) (c : ascii) : bool := match st with Outside => is_ws c | _ => false end.
Fixpoint compact (st : text_state) (skip : nat) (s : string) : string :=
  match s with
  | EmptyString => ""
  | String c r =>
      let st' := text_step st c in
      match skip with
      | S skip => compact st' skip r
      | O =>
          if is_one_of [60; 62; 38] c then escape_u (bz c) +:+ compact st' 0 r
          else if has_prefix s (bytes_of [226; 128; 168]) then escape_u 8232 +:+ compact st' 2 r
          else if has_prefix s (bytes_of [226; 128; 169]) then escape_u 8233 +:+ compact st' 2 r
          else if blank st c then compact st' 0 r
          else String c (compact st' 0 r)
      end
  end.

(** [json.RawMessage.MarshalJSON]: nil is written as [null], invalid text fails to marshal. *)
Definition enc_raw (raw : string) : option string :=
  if raw =?s "" then Some "null"%string else if json_Valid raw then Some (compact Outside 0 raw) else None.
(** The same with [omitempty]: nothing for a message of length 0. *)
Definition omit_raw (k raw : string) : option (list (string * string)) :=
  if raw =?s "" then Some [] else let! t := enc_raw raw in Some [(k, t)].

(** Objects and arrays of texts. *)
Definition obj (ms : list (string * string)) : string :=
  String (chr 123) (commas (map (print_member id) ms) +:+ String (chr 125) "").
Definition arr (l : list string) : string := String (chr 91) (commas l +:+ String (chr 93) "").

(** [json.Indent] with two spaces: [pending] after an opening bracket, which an empty
    object or array does not break. *)
Fixpoint spaces (n : nat) : string := match n with O => "" | S n => "  " +:+ spaces n end.
Definition break_line (depth : nat) : string := String newline (spaces depth).
Fixpoint indent (st : text_state) (pending : bool) (depth : nat) (s : string) : string :=
  match s with
  | EmptyString => ""
  | String c r =>
      let st' := text_step st c in
      match st with
      | Outside =>
          if is_ws c then indent st pending depth r else
          let closes := is_one_of [93; 125] c in
          let '(before, depth) :=
            if pending then (if closes then (""%string, depth) else (break_line (S depth), S depth)) else (""%string, depth) in
          if is_one_of [91; 123] c then before +:+ String c (indent st' true depth r)
          else if bz c =? 44 then before +:+ String c (break_line depth +:+ indent st' false depth r)
          else if bz c =? 58 then before +:+ String c (String " " (indent st' false depth r))
          else if closes then
            if pending then String c (indent st' false depth r)
            else break_line (Nat.pred depth) +:+ String c (indent st' false (Nat.pred depth) r)
          else before +:+ String c (indent st' false depth r)
      | _ => String c (indent st' false depth r)
      end
  end.
Definition MarshalIndent (b : option string) : option string := option_map (indent Outside false 0) b.

(** ** Facts *)
(** *** How a string is written, rune by rune *)
Definition separator (s : string) : bool :=
  has_prefix s (bytes_of [226; 128; 168]) || has_prefix s (bytes_of [226; 128; 169]).
Definition rune (p : string) : Prop :=
  ∃ c r, p = String c r ∧ 128 ≤ bz c ∧ all_bytes is_cont r = true ∧ ∀ rest, separator (p +:+ rest) = false.
(** The text, its quoted form, and the text a reader of the quoted form gets. *)
Inductive quoted : string → string → string → Prop :=
| quoted_nil : quoted "" "" ""
| quoted_ascii c s q t : bz c < 128 → quoted s q t → quoted (String c s) (quote_ascii c +:+ q) (String c t)
| quoted_separator z s q t : z = 8232 ∨ z = 8233 → quoted s q t →
    quoted (utf8_encode z +:+ s) (escape_u z +:+ q) (utf8_encode z +:+ t)
| quoted_rune p s q t : rune p → quoted s q t → quoted (p +:+ s) (p +:+ q) (p +:+ t)
| quoted_bad c s q t : quoted s q t → quoted (String c s) (escape_u 65533 +:+ q) (utf8_encode 65533 +:+ t).

Lemma has_prefix_app p s r : has_prefix s p = true → has_prefix (s +:+ r) p = true.
Proof.
  unfold has_prefix. destruct (strip_prefix p s) as [t|] eqn:Es; [|done]. intros _. apply strip_prefix_app in Es.
  subst s. rewrite sapp_assoc. by rewrite (proj2 (strip_prefix_app p _ (t +:+ r)) eq_refl).
Qed.
(** A rune of several bytes, apart from what follows. *)
Lemma head_rune c s n : 128 ≤ bz c → utf8_head (String c s) = Some n → separator (String c s) = false →
  ∃ p s', String c s = (p +:+ s')%string ∧ rune p ∧ (String.length s' < String.length (String c s))%nat ∧
    quote_body 0 0 (String c s) = (p +:+ quote_body 0 0 s')%string ∧ to_valid 0 (String c s) = (p +:+ to_valid 0 s')%string.
Proof.
  intros Hc Hn Hsep. unfold separator in Hsep. apply orb_false_iff in Hsep as [Hs1 Hs2].
  cbn [quote_body to_valid]. rewrite (proj2 (Z.ltb_ge _ _) Hc), Hs1, Hs2, Hn.
  assert (Hrune : ∀ r s', s = (r +:+ s')%string → (2 ≤ String.length r)%nat ∨ bz c ≠ 226 → all_bytes is_cont r = true →
                          rune (String c r)).
  { intros r s' -> Hr Hcont. exists c, r. split_and!; [done|done|done|]. intros rest. unfold separator.
    apply orb_false_iff. unfold has_prefix in Hs1, Hs2 |- *. cbn [strip_prefix bytes_of map fold_right] in Hs1, Hs2 |- *.
    destruct r as [|c2 [|c3 r]]; cbn [String.append strip_prefix String.length] in *;
      destruct (Ascii.eqb_spec (chr 226) c) as [He|He]; try done;
      try (exfalso; destruct Hr as [?|Hr]; [lia|]; apply Hr; by rewrite <-He).
    by destruct (Ascii.eqb (chr 128) c2), (Ascii.eqb (chr 168) c3), (Ascii.eqb (chr 169) c3). }
  unfold utf8_head in Hn. rewrite (proj2 (Z.ltb_ge _ _) Hc) in Hn.
  destruct s as [|c2 s]; [done|]. destruct (in_range 194 223 c) eqn:E2.
  { destruct (is_cont c2) eqn:Ec; [|done]. injection Hn as <-. cbn [Nat.pred quote_body to_valid].
    exists (String c (String c2 "")), s. split_and!; [done| |cbn; lia|done|done].
    apply (Hrune _ s); [done| |cbn; by rewrite Ec]. right. unfold in_range in E2. lia. }
  destruct s as [|c3 s]; [done|]. destruct (in_range 224 239 c).
  { destruct (in_range _ _ c2 && is_cont c3) eqn:Ec; [|done]. injection Hn as <-. cbn [Nat.pred quote_body to_valid].
    exists (String c (String c2 (String c3 ""))), s. split_and!; [done| |cbn; lia|done|done].
    apply (Hrune _ s); [done|left; cbn; lia|]. cbn. apply andb_true_iff in Ec as [Ec ->].
    assert (is_cont c2 = true) as ->; [|done]. revert Ec. unfold is_cont, in_range. repeat case_match; lia. }
  destruct (in_range 240 244 c); [|done]. destruct s as [|c4 s]; [done|].
  destruct (in_range _ _ c2 && is_cont c3 && is_cont c4) eqn:Ec; [|done]. injection Hn as <-.
  cbn [Nat.pred quote_body to_valid].
  exists (String c (String c2 (String c3 (String c4 "")))), s. split_and!; [done| |cbn; lia|done|done].
  apply (Hrune _ s); [done|left; cbn; lia|]. cbn. apply andb_true_iff in Ec as [[Ec ->]%andb_true_iff ->].
  assert (is_cont c2 = true) as ->; [|done]. revert Ec. unfold is_cont, in_range. repeat case_match; lia.
Qed.
Lemma quote_body_skip k s : quote_body 0 k s = quote_body 0 0 (string_drop k s).
Proof. revert s. induction k as [|k IH]; intros [|c s]; [done..|apply IH]. Qed.
Lemma separator_split s : separator s = true → ∃ z r, (z = 8232 ∨ z = 8233) ∧ s = (utf8_encode z +:+ r)%string.
Proof.
  unfold separator, has_prefix. destruct (strip_prefix (bytes_of [226; 128; 168]) s) as [r|] eqn:E1.
  { apply strip_prefix_app in E1. intros _. exists 8232, r. by split; [left|]. }
  destruct (strip_prefix (bytes_of [226; 128; 169]) s) as [r|] eqn:E2; [|done].
  apply strip_prefix_app in E2. intros _. exists 8233, r. by split; [right|].
Qed.
Lemma quoted_total s : quoted s (quote_body 0 0 s) (to_valid 0 s).
Proof.
  remember (String.length s) as n eqn:Hn. revert s Hn.
  induction (lt_wf n) as [n _ IH]. intros s ->. destruct s as [|c s]; [constructor|].
  assert (Hrec : ∀ s', (String.length s' < String.length (String c s))%nat → quoted s' (quote_body 0 0 s') (to_valid 0 s'))
    by (intros s' Hl; by apply (IH _ Hl)). clear IH.
  destruct (Z.ltb_spec (bz c) 128) as [Hc|Hc].
  { cbn [quote_body to_valid]. unfold utf8_head. rewrite (proj2 (Z.ltb_lt _ _) Hc). constructor; [done|]. apply Hrec. cbn. lia. }
  destruct (separator (String c s)) eqn:Hsep.
  - apply separator_split in Hsep as (z & r & Hz & E). rewrite E in Hrec |- *. rewrite slength_app in Hrec.
    destruct Hz as [-> | ->]; [apply (quoted_separator 8232 r (quote_body 0 0 r) (to_valid 0 r))
                              |apply (quoted_separator 8233 r (quote_body 0 0 r) (to_valid 0 r))];
      try (by (left + right)); apply Hrec; cbn; lia.
  - destruct (utf8_head (String c s)) as [m|] eqn:Hm.
    + destruct (head_rune c s m Hc Hm Hsep) as (p & s' & E & Hp & Hl & -> & ->). rewrite E.
      apply quoted_rune; [done|by apply Hrec].
    + cbn [quote_body to_valid]. rewrite Hm, (proj2 (Z.ltb_ge _ _) Hc). unfold separator in Hsep.
      apply orb_false_iff in Hsep as [-> ->]. constructor. apply Hrec. cbn. lia.
Qed.

(** *** Reading what was written *)
Lemma unquote_high p r : all_bytes (λ c, 128 <=? bz c) p = true → unquote (p +:+ r) = push p (unquote r).
Proof.
  induction p as [|c p IH]; cbn [String.append all_bytes].
  - intros _. by destruct (unquote r) as [[? ?]|].
  - intros [Hc Hp]%andb_true_iff. rewrite unquote_plain by lia. rewrite (IH Hp). by destruct (unquote r) as [[? ?]|].
Qed.
Lemma rune_high p : rune p → all_bytes (λ c, 128 <=? bz c) p = true.
Proof.
  intros (c & r & -> & Hc & Hr & _). cbn. rewrite (proj2 (Z.leb_le _ _) Hc). revert Hr. apply all_bytes_impl.
  intros x Hx%is_cont_high. lia.
Qed.
Lemma unquote_quoted s q t rest : quoted s q t → unquote (q +:+ String (chr 34) rest) = Some (t, rest).
Proof.
  induction 1 as [|c s q t Hc _ IH|z s q t Hz _ IH|p s q t Hp _ IH|c s q t _ IH]; [done|rewrite sapp_assoc..].
  - by rewrite unquote_quote_ascii, IH by done.
  - by rewrite unquote_line_sep, IH by done.
  - by rewrite unquote_high, IH by (by apply rune_high).
  - change (unquote (escape_u 65533 +:+ (q +:+ String (chr 34) rest)))
      with (push (utf8_encode 65533) (unquote (q +:+ String (chr 34) rest))). by rewrite IH.
Qed.
(** Any string survives being written and read, with its bad bytes replaced. *)
Lemma unquote_quote_any s rest : unquote (quote_body 0 0 s +:+ String (chr 34) rest) = Some (to_valid 0 s, rest).
Proof. apply (unquote_quoted s), quoted_total. Qed.

(** *** Writing it again changes nothing *)
Lemma compact_ascii c r : bz c < 128 → compact Inside 0 (quote_ascii c +:+ r) = (quote_ascii c +:+ compact Inside 0 r)%string.
Proof.
  intros Hc. destruct c as [[] [] [] [] [] [] [] []]; try (exfalso; revert Hc; vm_compute; done); reflexivity.
Qed.
Lemma compact_cont p r : all_bytes is_cont p = true → compact Inside 0 (p +:+ r) = (p +:+ compact Inside 0 r)%string.
Proof.
  induction p as [|c p IH]; cbn [String.append all_bytes]; [done|]. intros [Hc Hp]%andb_true_iff. cbn [compact].
  unfold is_cont, in_range in Hc. unfold is_one_of. cbn [existsb].
  rewrite !(proj2 (Z.eqb_neq (bz c) _)) by lia. cbn [orb].
  assert (Hno : ∀ x y, has_prefix (String c (p +:+ r)) (bytes_of [226; x; y]) = false).
  { intros x y. unfold has_prefix. cbn [strip_prefix bytes_of map fold_right]. destruct (Ascii.eqb_spec (chr 226) c) as [<-|]; [|done].
    revert Hc. vm_compute. done. }
  rewrite !Hno. cbn [blank text_step]. rewrite !(proj2 (Z.eqb_neq (bz c) _)) by lia. by rewrite IH.
Qed.
Lemma compact_quoted s q t rest : quoted s q t →
  compact Inside 0 (q +:+ String (chr 34) rest) = (q +:+ String (chr 34) (compact Outside 0 rest))%string.
Proof.
  induction 1 as [|c s q t Hc _ IH|z s q t Hz _ IH|p s q t Hp _ IH|c s q t _ IH]; [done|rewrite !sapp_assoc, <-IH..].
  - by apply compact_ascii.
  - by destruct Hz as [-> | ->].
  - destruct Hp as (c & r & -> & Hc & Hr & Hsep). specialize (Hsep (q +:+ String (chr 34) rest)%string).
    unfold separator in Hsep. apply orb_false_iff in Hsep as [Hs1 Hs2]. cbn [String.append] in Hs1, Hs2 |- *. cbn [compact].
    rewrite Hs1, Hs2. unfold is_one_of. cbn [existsb blank text_step]. rewrite !(proj2 (Z.eqb_neq (bz c) _)) by lia. cbn [orb].
    by rewrite compact_cont.
  - done.
Qed.

(** Text between tokens that writing again leaves alone. *)
Definition settled (p : string) : Prop := ∀ rest, compact Outside 0 (p +:+ rest) = (p +:+ compact Outside 0 rest)%string.
Lemma settled_app p q : settled p → settled q → settled (p +:+ q).
Proof. intros Hp Hq rest. by rewrite !sapp_assoc, Hp, Hq. Qed.
Definition token_char (c : ascii) : bool := in_range 33 126 c && negb (is_one_of [34; 60; 62; 38] c).
Lemma settled_token s : all_bytes token_char s = true → settled s.
Proof.
  induction s as [|c s IH]; [done|]. intros [Hc Hs]%andb_true_iff rest. cbn [String.append compact].
  unfold token_char, in_range, is_one_of in Hc. cbn [existsb] in Hc.
  assert (Hno : ∀ x y, has_prefix (String c (s +:+ rest)) (bytes_of [226; x; y]) = false).
  { intros x y. unfold has_prefix. cbn [strip_prefix bytes_of map fold_right]. destruct (Ascii.eqb_spec (chr 226) c) as [<-|]; [|done].
    revert Hc. vm_compute. done. }
  unfold is_one_of. cbn [existsb blank text_step]. rewrite !Hno, !(proj2 (Z.eqb_neq (bz c) _)) by lia. cbn [orb].
  unfold is_ws, is_one_of. cbn [existsb]. rewrite !(proj2 (Z.eqb_neq (bz c) _)) by lia. cbn [orb]. by rewrite (IH Hs).
Qed.
Lemma settled_quote s : settled (quote s).
Proof.
  intros rest. unfold quote. cbn [String.append]. rewrite sapp_assoc.
  change (compact Outside 0 (String (chr 34) (quote_body 0 0 s +:+ (String (chr 34) "" +:+ rest))))
    with (String (chr 34) (compact Inside 0 (quote_body 0 0 s +:+ String (chr 34) rest))).
  rewrite (compact_quoted s _ (to_valid 0 s)) by apply quoted_total. by rewrite sapp_assoc.
Qed.
Lemma settled_commas l : Forall settled l → settled (commas l).
Proof.
  induction 1 as [|p l Hp Hl IH]; [done|]. destruct l as [|q l]; [exact Hp|].
  change (commas (p :: q :: l)) with (p +:+ (String (chr 44) "" +:+ commas (q :: l)))%string.
  apply settled_app; [done|]. apply settled_app; [by apply settled_token|done].
Qed.
Lemma number_tokens st lit st' : num_run st lit = Some st' → all_bytes token_char lit = true.
Proof.
  revert st. induction lit as [|c lit IH]; intros st; [done|]. cbn [num_run all_bytes].
  destruct (num_step st c) as [st1|] eqn:Es; [|done]. intros Hr. apply andb_true_iff. split; [|by eapply IH]. revert Es. clear.
  unfold num_step, token_char, is_one_of, is_digit, in_range. cbn [existsb]. destruct st; repeat case_match; intros; try done; lia.
Qed.
Lemma settled_print v : json_wf v = true → settled (print v).
Proof.
  induction v as [|b|lit|s|l IH|m IH] using json_nested_ind; intros Hv.
  - by apply settled_token.
  - by destruct b; apply settled_token.
  - cbn in Hv. unfold valid_number in Hv. destruct (num_run NStart lit) eqn:E; [|done]. by eapply settled_token, number_tokens.
  - apply settled_quote.
  - cbn [print]. change (String (chr 91) ?r) with (String (chr 91) "" +:+ r)%string.
    apply settled_app; [by apply settled_token|]. apply settled_app; [|by apply settled_token].
    apply settled_commas, Forall_fmap. cbn in Hv. apply Is_true_true_2, forallb_True in Hv. rewrite Forall_forall in IH, Hv |- *. intros x Hx. apply IH; [done|].
    by apply Is_true_true, Hv.
  - cbn [print]. apply (settled_app (String (chr 123) "")); [by apply settled_token|]. apply settled_app; [|by apply settled_token].
    apply settled_commas, Forall_fmap. cbn in Hv. apply Is_true_true_2, forallb_True in Hv. rewrite Forall_forall in IH, Hv |- *. intros [k x] Hx.
    apply settled_app; [apply settled_quote|]. apply (settled_app (String (chr 58) "")); [by apply settled_token|].
    apply (IH _ Hx). specialize (Hv _ Hx). cbn in Hv |- *. apply Is_true_true in Hv. by apply andb_true_iff in Hv as [_ ?].
Qed.


(** *** Single lines *)
Definition no_newline (s : string) : Prop := all_bytes (λ c, negb (Ascii.eqb c newline)) s = true.
Lemma no_newline_app a b : no_newline (a +:+ b) ↔ no_newline a ∧ no_newline b.
Proof. unfold no_newline. by rewrite all_bytes_app, andb_true_iff. Qed.
Lemma not_newline c : bz c ≠ 10 → Ascii.eqb c newline = false.
Proof. intros H. destruct (Ascii.eqb_spec c newline) as [->|]; [|done]. by destruct H. Qed.
Lemma no_newline_cons c s : no_newline (String c s) ↔ Ascii.eqb c newline = false ∧ no_newline s.
Proof. unfold no_newline. cbn. by rewrite andb_true_iff, negb_true_iff. Qed.
Lemma no_newline_range lo hi d : 10 < lo → in_range lo hi d = true → Ascii.eqb d newline = false.
Proof. intros Hlo Hin. apply not_newline. unfold in_range in Hin. to_prop. lia. Qed.

Lemma utf8_head_tail c s n :
  utf8_head (String c s) = Some n → no_newline (string_take (Nat.pred n) s).
Proof.
  unfold utf8_head, is_cont. destruct (bz c <? 128); [by intros [= <-]|].
  destruct s as [|c2 s]; [done|]. destruct (in_range 194 223 c).
  { destruct (in_range 128 191 c2) eqn:E; [|done]. intros [= <-]. cbn. apply no_newline_cons.
    split; [by eapply no_newline_range; [|exact E]; lia|by destruct s]. }
  destruct s as [|c3 s]; [done|].
  set (lo := if bz c =? 224 then 160 else if bz c =? 240 then 144 else 128).
  assert (Hlo : 128 <= lo) by (unfold lo; repeat case_match; lia).
  destruct (in_range 224 239 c).
  { destruct (in_range lo _ c2) eqn:E; cbn [andb]; [|done].
    destruct (in_range 128 191 c3) eqn:E3; [|done]. intros [= <-]. cbn.
    rewrite !no_newline_cons. split; [by eapply no_newline_range; [|exact E]; lia|].
    split; [by eapply no_newline_range; [|exact E3]; lia|by destruct s]. }
  destruct (in_range 240 244 c); [|done]. destruct s as [|c4 s]; [done|].
  destruct (in_range lo _ c2) eqn:E; cbn [andb]; [|done].
  destruct (in_range 128 191 c3) eqn:E3; cbn [andb]; [|done].
  destruct (in_range 128 191 c4) eqn:E4; [|done]. intros [= <-]. cbn.
  rewrite !no_newline_cons. split; [by eapply no_newline_range; [|exact E]; lia|].
  split; [by eapply no_newline_range; [|exact E3]; lia|]. split; [by eapply no_newline_range; [|exact E4]; lia|by destruct s].
Qed.

Lemma quote_ascii_newline c : no_newline (quote_ascii c).
Proof. unfold no_newline. destruct c as [[] [] [] [] [] [] [] []]; vm_compute; reflexivity. Qed.

Lemma quote_body_newline s : ∀ copy skip,
  no_newline (string_take copy s) → no_newline (quote_body copy skip s).
Proof.
  induction s as [|c s IH]; intros copy skip Hc; cbn [quote_body]; [done|].
  destruct skip as [|skip]; [|by apply IH].
  destruct copy as [|copy].
  - destruct (Z.ltb_spec (bz c) 128) as [Hlt|Hge].
    + apply no_newline_app. split; [apply quote_ascii_newline|by apply IH].
    + destruct (has_prefix _ _); [apply no_newline_app; split; [vm_compute; done|by apply IH]|].
      destruct (has_prefix _ _); [apply no_newline_app; split; [vm_compute; done|by apply IH]|].
      destruct (utf8_head _) as [n|] eqn:En; [|apply no_newline_app; split; [vm_compute; done|by apply IH]].
      apply no_newline_cons. split; [apply not_newline; lia|]. apply IH. by apply utf8_head_tail in En.
  - cbn in Hc. apply no_newline_cons in Hc as [Hc Hs]. apply no_newline_cons. split; [done|by apply IH].
Qed.

Lemma quote_newline s : no_newline (quote s).
Proof.
  unfold quote. apply no_newline_cons. split; [done|]. apply no_newline_app.
  split; [by apply quote_body_newline|done].
Qed.
Lemma number_newline lit : valid_number lit = true → no_newline lit.
Proof.
  unfold valid_number. destruct (num_run NStart lit) as [st|] eqn:E; [|done]. intros _.
  revert E. generalize NStart. induction lit as [|c lit IH]; intros st0 E; [done|]. cbn in E.
  destruct (num_step st0 c) as [st1|] eqn:Es; [|done]. apply no_newline_cons. split; [|by eapply IH].
  destruct (Ascii.eqb_spec c newline) as [->|]; [|done]. by destruct st0.
Qed.
Lemma commas_newline l : Forall no_newline l → no_newline (commas l).
Proof.
  induction 1 as [|x l Hx Hl IH]; [done|]. destruct l as [|y l]; [done|].
  change (commas (x :: y :: l)) with (x +:+ String (chr 44) (commas (y :: l)))%string.
  by rewrite no_newline_app, no_newline_cons.
Qed.
Lemma print_newline v : json_wf v = true → no_newline (print v).
Proof.
  induction v as [| | | |l IH|m IH] using json_nested_ind; intros Hwf; cbn [print].
  - done.
  - by destruct b.
  - by apply number_newline.
  - apply quote_newline.
  - cbn in Hwf. rewrite forallb_forall in Hwf. rewrite no_newline_cons, no_newline_app.
    split; [done|]. split; [|done]. apply commas_newline, Forall_forall.
    intros s (v & -> & Hv)%list_elem_of_fmap. rewrite Forall_forall in IH.
    apply IH; [done|]. by apply Hwf, list_elem_of_In.
  - cbn in Hwf. rewrite forallb_forall in Hwf. rewrite no_newline_cons, no_newline_app.
    split; [done|]. split; [|done]. apply commas_newline, Forall_forall.
    intros s (kv & -> & Hv)%list_elem_of_fmap. rewrite Forall_forall in IH.
    specialize (Hwf _ (proj1 (list_elem_of_In _ _) Hv)). to_prop.
    rewrite no_newline_app, no_newline_cons. split; [apply quote_newline|]. split; [done|by apply IH].
Qed.

(** *** Strings inside a document *)
(** The low surrogate that a text starts with, if any. *)
Definition low_start (s : string) : option Z :=
  match s with
  | String k1 (String k2 (String b1 (String b2 (String b3 (String b4 _))))) =>
      match (if (bz k1 =? 92) && (bz k2 =? 117) then hex4 b1 b2 b3 b4 else None) with
      | Some v => if (56320 <=? v) && (v <? 57344) then Some v else None
      | None => None
      end
  | _ => None
  end.
(** A hexadecimal escape: a surrogate pair, a lone surrogate, or a character. *)
Lemma unquote_hex a1 a2 a3 a4 u r : hex4 a1 a2 a3 a4 = Some u →
  unquote (String (chr 92) (String (chr 117) (String a1 (String a2 (String a3 (String a4 r)))))) =
  if (55296 <=? u) && (u <? 57344) then
    match (if u <? 56320 then low_start r else None) with
    | Some v => push (utf8_encode ((u - 55296) * 1024 + (v - 56320) + 65536)) (unquote (string_drop 6 r))
    | None => push (utf8_encode 65533) (unquote r)
    end
  else push (utf8_encode u) (unquote r).
Proof.
  intros Hu. cbn [unquote]. change (bz (chr 92)) with 92. change (bz (chr 117)) with 117. cbn [Z.eqb Pos.eqb Z.ltb Z.compare Pos.compare Pos.compare_cont].
  change (simple_escape (chr 117)) with (@None ascii). cbn iota. rewrite Hu.
  destruct ((55296 <=? u) && (u <? 57344)); [|done].
  destruct r as [|k1 [|k2 [|b1 [|b2 [|b3 [|b4 r]]]]]]; try (by destruct (u <? 56320)). cbn [low_start string_drop].
  destruct (if (bz k1 =? 92) && (bz k2 =? 117) then hex4 b1 b2 b3 b4 else None) as [v|]; [|by destruct (u <? 56320)].
  destruct (u <? 56320); cbn [andb]; [|done]. by destruct ((56320 <=? v) && (v <? 57344)).
Qed.
Lemma hex4_ascii a b c d u : hex4 a b c d = Some u → is_hex a && is_hex b && is_hex c && is_hex d = true.
Proof. unfold hex4. by destruct (_ && _ && _ && _). Qed.

(** Bytes that [compact] copies. *)
Definition kept (c : ascii) : bool := negb (is_one_of [34; 60; 62; 38; 92; 226] c).
Lemma no_separator c r x y : bz c ≠ 226 → has_prefix (String c r) (bytes_of [226; x; y]) = false.
Proof.
  intros Hc. unfold has_prefix. cbn [strip_prefix bytes_of map fold_right].
  destruct (Ascii.eqb_spec (chr 226) c) as [<-|]; [|done]. by destruct Hc.
Qed.
Lemma compact_kept c r : kept c = true → compact Inside 0 (String c r) = String c (compact Inside 0 r).
Proof.
  unfold kept, is_one_of. cbn [existsb]. intros Hc. cbn [compact]. rewrite !no_separator by lia.
  unfold is_one_of. cbn [existsb blank text_step]. rewrite !(proj2 (Z.eqb_neq (bz c) _)) by lia. done.
Qed.
(** The same for the byte after a backslash. *)
Lemma compact_escaped c r : negb (is_one_of [60; 62; 38; 226] c) = true → compact Escaped 0 (String c r) = String c (compact Inside 0 r).
Proof.
  unfold is_one_of. cbn [existsb]. intros Hc. cbn [compact]. rewrite !no_separator by lia.
  unfold is_one_of. cbn [existsb blank text_step]. rewrite !(proj2 (Z.eqb_neq (bz c) _)) by lia. done.
Qed.
Lemma compact_backslash c r : negb (is_one_of [60; 62; 38; 226] c) = true →
  compact Inside 0 (String (chr 92) (String c r)) = String (chr 92) (String c (compact Inside 0 r)).
Proof.
  intros Hc. change (compact Inside 0 (String (chr 92) (String c r))) with (String (chr 92) (compact Escaped 0 (String c r))).
  by rewrite compact_escaped.
Qed.
Lemma hex_kept c : is_hex c = true → kept c = true.
Proof. unfold is_hex, kept, is_digit, in_range, is_one_of. cbn [existsb]. lia. Qed.
Lemma compact_hex a b c d r : is_hex a && is_hex b && is_hex c && is_hex d = true →
  compact Inside 0 (String (chr 92) (String (chr 117) (String a (String b (String c (String d r)))))) =
  String (chr 92) (String (chr 117) (String a (String b (String c (String d (compact Inside 0 r)))))).
Proof.
  intros [[[Ha Hb]%andb_true_iff Hc]%andb_true_iff Hd]%andb_true_iff.
  rewrite compact_backslash by done. by rewrite !compact_kept by (by apply hex_kept).
Qed.
Lemma compact_quote r : compact Inside 0 (String (chr 34) r) = String (chr 34) (compact Outside 0 r).
Proof. done. Qed.
Lemma compact_open r : compact Outside 0 (String (chr 34) r) = String (chr 34) (compact Inside 0 r).
Proof. done. Qed.

(** [q] is the text between quotes of a string [u], as [compact] leaves it. *)
Record body_text (q u : string) : Prop := {
  bt_line : no_newline q;
  bt_value rest : unquote (q +:+ String (chr 34) rest) = Some (u, rest);
  bt_settled rest : compact Inside 0 (q +:+ String (chr 34) rest) = (q +:+ String (chr 34) (compact Outside 0 rest))%string
}.
(** The compacted body of the string that starts [s] and ends before [r]; what decides how
    the text before it is read does not change. *)
Definition compacts (s u r q : string) : Prop :=
  compact Inside 0 s = (q +:+ String (chr 34) (compact Outside 0 r))%string ∧ body_text q u ∧
  (∀ rest, low_start (q +:+ String (chr 34) rest) = low_start s) ∧
  (∀ p rest, all_bytes is_cont p = true → has_prefix (q +:+ String (chr 34) rest) p = has_prefix s p).

Lemma has_prefix_cons c s d p : has_prefix (String c s) (String d p) = Ascii.eqb d c && has_prefix s p.
Proof. unfold has_prefix. cbn [strip_prefix]. by destruct (Ascii.eqb d c). Qed.
(** Neither text starts with a continuation byte. *)
Lemma no_cont c s d s' p : is_cont c = false → is_cont d = false → all_bytes is_cont p = true →
  has_prefix (String c s) p = has_prefix (String d s') p.
Proof.
  intros Hc Hd Hp. destruct p as [|x p]; [done|]. rewrite !has_prefix_cons. cbn in Hp. apply andb_true_iff in Hp as [Hx _].
  destruct (Ascii.eqb_spec x c) as [->|]; [congruence|]. destruct (Ascii.eqb_spec x d) as [->|]; [congruence|done].
Qed.
Lemma low_start_none c s : bz c ≠ 92 → low_start (String c s) = None.
Proof. intros Hc. destruct s as [|? [|? [|? [|? [|? ?]]]]]; try done. cbn. by rewrite (proj2 (Z.eqb_neq _ _) Hc). Qed.
Lemma low_start_escape e s : bz e ≠ 117 → low_start (String (chr 92) (String e s)) = None.
Proof.
  intros He. destruct s as [|? [|? [|? [|? ?]]]]; try done. cbn -[chr bz]. by rewrite (proj2 (Z.eqb_neq _ _) He), andb_false_r.
Qed.

Lemma compacts_quote r : compacts (String (chr 34) r) "" r "".
Proof.
  split; [done|]. split; [by split|]. split.
  - intros rest. cbn [String.append]. by rewrite !low_start_none by done.
  - intros p rest Hp. by apply no_cont.
Qed.
(** A byte that is copied. *)
Lemma compacts_plain c s u r q : 32 ≤ bz c → bz c ≠ 34 → bz c ≠ 92 → is_one_of [60; 62; 38] c = false →
  separator (String c s) = false → compacts s u r q → compacts (String c s) (String c u) r (String c q).
Proof.
  intros H32 H34 H92 Hh Hsep (Hc & [Hl Hv Hs] & Hlow & Hpre).
  assert (Hcopy : ∀ x, separator (String c x) = false → compact Inside 0 (String c x) = String c (compact Inside 0 x)).
  { intros x [Hs1 Hs2]%orb_false_iff. cbn [compact]. rewrite Hh, Hs1, Hs2. cbn [blank text_step].
    by rewrite !(proj2 (Z.eqb_neq (bz c) _)) by lia. }
  assert (Hsep' : ∀ rest, separator (String c (q +:+ String (chr 34) rest)) = false).
  { intros rest. revert Hsep. unfold separator. cbn [bytes_of map fold_right]. rewrite !has_prefix_cons.
    by rewrite !Hpre by done. }
  split; [by rewrite Hcopy, Hc|]. split; [split|split].
  - apply no_newline_cons. split; [apply not_newline; lia|done].
  - intros rest. cbn [String.append unquote]. rewrite (proj2 (Z.eqb_neq _ _) H34), (proj2 (Z.ltb_ge _ _) H32), (proj2 (Z.eqb_neq _ _) H92).
    by rewrite Hv.
  - intros rest. cbn [String.append]. by rewrite Hcopy, Hs.
  - intros rest. cbn [String.append]. by rewrite !low_start_none.
  - intros p rest Hp. destruct p as [|x p]; [done|]. cbn [String.append all_bytes] in *. rewrite !has_prefix_cons.
    apply andb_true_iff in Hp as [_ Hp]. by rewrite Hpre.
Qed.
(** A byte that HTML could misread. *)
Lemma compacts_html c s u r q : is_one_of [60; 62; 38] c = true →
  compacts s u r q → compacts (String c s) (String c u) r (escape_u (bz c) +:+ q).
Proof.
  intros Hh (Hc & [Hl Hv Hs] & Hlow & Hpre).
  assert (Hcase : c = chr 60 ∨ c = chr 62 ∨ c = chr 38).
  { unfold is_one_of in Hh. cbn [existsb] in Hh. rewrite !orb_true_iff, !Z.eqb_eq in Hh.
    destruct Hh as [Hh|[Hh|[Hh|[=]]]]; [left|right; left|right; right]; by apply bz_inj. }
  split; [|split; [split|split]].
  - cbn [compact]. rewrite Hh. assert (text_step Inside c = Inside) as -> by (by destruct Hcase as [->|[->| ->]]).
    by rewrite Hc, sapp_assoc.
  - apply no_newline_app. split; [|done]. by destruct Hcase as [->|[->| ->]].
  - intros rest. rewrite sapp_assoc. destruct Hcase as [->|[->| ->]];
      (change (unquote (escape_u (bz (chr ?z)) +:+ ?x)) with (push (String (chr z) "") (unquote x)); by rewrite Hv).
  - intros rest. rewrite !sapp_assoc, <-Hs. by destruct Hcase as [->|[->| ->]].
  - intros rest. rewrite sapp_assoc. rewrite low_start_none by (by destruct Hcase as [->|[->| ->]]).
    by destruct Hcase as [->|[->| ->]].
  - intros p rest Hp. rewrite sapp_assoc. apply no_cont; [done| |done]. by destruct Hcase as [->|[->| ->]].
Qed.
(** A line or paragraph separator. *)
Lemma compacts_separator z s u r q : z = 8232 ∨ z = 8233 →
  compacts s u r q → compacts (utf8_encode z +:+ s) (utf8_encode z +:+ u) r (escape_u z +:+ q).
Proof.
  intros Hz (Hc & [Hl Hv Hs] & Hlow & Hpre). split; [|split; [split|split]].
  - rewrite sapp_assoc, <-Hc. by destruct Hz as [-> | ->].
  - apply no_newline_app. split; [|done]. by destruct Hz as [-> | ->].
  - intros rest. rewrite sapp_assoc, unquote_line_sep by done. by rewrite Hv.
  - intros rest. rewrite !sapp_assoc, <-Hs. by destruct Hz as [-> | ->].
  - intros rest. rewrite sapp_assoc. transitivity (@None Z); [by destruct Hz as [-> | ->]|].
    symmetry. destruct Hz as [-> | ->]; by apply (low_start_none (chr 226)).
  - intros p rest Hp. rewrite sapp_assoc. destruct Hz as [-> | ->]; by apply no_cont.
Qed.
(** A backslash and the character it stands for. *)
Lemma compacts_escape e b s u r q : simple_escape e = Some b →
  compacts s u r q → compacts (String (chr 92) (String e s)) (String b u) r (String (chr 92) (String e q)).
Proof.
  intros He (Hc & [Hl Hv Hs] & Hlow & Hpre).
  assert (Hr : is_one_of [34; 47; 92; 98; 102; 110; 114; 116] e = true).
  { revert He. unfold simple_escape, is_one_of. cbn [existsb]. repeat case_match; try done; lia. }
  assert (Hcopy : ∀ x, compact Inside 0 (String (chr 92) (String e x)) = String (chr 92) (String e (compact Inside 0 x))).
  { intros x. apply compact_backslash. revert Hr. unfold is_one_of. cbn [existsb]. lia. }
  assert (Hu : bz e ≠ 117 ∧ bz e ≠ 10) by (revert Hr; unfold is_one_of; cbn [existsb]; lia).
  split; [by rewrite Hcopy, Hc|]. split; [split|split].
  - rewrite !no_newline_cons. split; [done|]. split; [apply not_newline; lia|done].
  - intros rest. cbn [String.append unquote]. change (bz (chr 92)) with 92. cbn [Z.eqb Pos.eqb Z.ltb Z.compare Pos.compare Pos.compare_cont].
    rewrite He. by rewrite Hv.
  - intros rest. cbn [String.append]. by rewrite Hcopy, Hs.
  - intros rest. cbn [String.append]. by rewrite !low_start_escape by lia.
  - intros p rest Hp. by apply no_cont.
Qed.
(** A hexadecimal escape that does not start a pair, and a pair. *)
Lemma compacts_hex a b c d z s u r q : hex4 a b c d = Some z →
  ((55296 <=? z) && (z <? 57344) = true → (if z <? 56320 then low_start s else None) = None) →
  compacts s u r q →
  compacts (String (chr 92) (String (chr 117) (String a (String b (String c (String d s))))))
    (utf8_encode (if (55296 <=? z) && (z <? 57344) then 65533 else z) +:+ u) r
    (String (chr 92) (String (chr 117) (String a (String b (String c (String d q)))))).
Proof.
  intros Hz Hlone (Hc & [Hl Hv Hs] & Hlow & Hpre). pose proof (hex4_ascii _ _ _ _ _ Hz) as Hhex.
  split; [by rewrite compact_hex, Hc|]. split; [split|split].
  - rewrite !no_newline_cons. apply andb_true_iff in Hhex as [[[Ha Hb]%andb_true_iff Hcc]%andb_true_iff Hd].
    assert (Hx : ∀ x, is_hex x = true → Ascii.eqb x newline = false).
    { intros x Hx. apply not_newline. revert Hx. unfold is_hex, is_digit, in_range. lia. }
    split_and!; first [done|by apply Hx].
  - intros rest. cbn [String.append]. rewrite (unquote_hex _ _ _ _ _ _ Hz), Hlow.
    destruct ((55296 <=? z) && (z <? 57344)); [rewrite Hlone by done|]; by rewrite Hv.
  - intros rest. cbn [String.append]. by rewrite compact_hex, Hs.
  - done.
  - intros p rest Hp. by apply no_cont.
Qed.
Lemma compacts_pair a b c d z a' b' c' d' v s u r q : hex4 a b c d = Some z → hex4 a' b' c' d' = Some v →
  55296 ≤ z < 56320 → 56320 ≤ v < 57344 → compacts s u r q →
  let pair x := String (chr 92) (String (chr 117) (String a (String b (String c (String d
                 (String (chr 92) (String (chr 117) (String a' (String b' (String c' (String d' x))))))))))) in
  compacts (pair s) (utf8_encode ((z - 55296) * 1024 + (v - 56320) + 65536) +:+ u) r (pair q).
Proof.
  intros Hz Hv Hhigh Hlow' (Hc & [Hl Hu Hs] & Hlow & Hpre) pair. unfold pair.
  pose proof (hex4_ascii _ _ _ _ _ Hz) as Hhex. pose proof (hex4_ascii _ _ _ _ _ Hv) as Hhex'.
  split; [by rewrite !compact_hex, Hc|]. split; [split|split].
  - rewrite !no_newline_cons. apply andb_true_iff in Hhex as [[[? ?]%andb_true_iff ?]%andb_true_iff ?].
    apply andb_true_iff in Hhex' as [[[? ?]%andb_true_iff ?]%andb_true_iff ?].
    assert (Hx : ∀ x, is_hex x = true → Ascii.eqb x newline = false).
    { intros x Hx. apply not_newline. revert Hx. unfold is_hex, is_digit, in_range. lia. }
    split_and!; first [done|by apply Hx].
  - intros rest. cbn [String.append]. rewrite (unquote_hex _ _ _ _ _ _ Hz).
    rewrite (proj2 (Z.leb_le _ _)), (proj2 (Z.ltb_lt z 57344)), (proj2 (Z.ltb_lt z 56320)) by lia. cbn [andb low_start].
    change ((bz (chr 92) =? 92) && (bz (chr 117) =? 117)) with true. cbn iota. rewrite Hv.
    rewrite (proj2 (Z.leb_le _ _)), (proj2 (Z.ltb_lt v 57344)) by lia. cbn [andb string_drop]. by rewrite Hu.
  - intros rest. cbn [String.append]. by rewrite !compact_hex, Hs.
  - done.
  - intros p rest Hp. by apply no_cont.
Qed.

Lemma low_start_some s v : low_start s = Some v → ∃ a b c d r, hex4 a b c d = Some v ∧ 56320 ≤ v < 57344 ∧
  s = String (chr 92) (String (chr 117) (String a (String b (String c (String d r))))).
Proof.
  destruct s as [|k1 [|k2 [|b1 [|b2 [|b3 [|b4 r]]]]]]; try done. cbn [low_start].
  destruct ((bz k1 =? 92) && (bz k2 =? 117)) eqn:Ek; [|done]. destruct (hex4 b1 b2 b3 b4) as [x|] eqn:Ex; [|done].
  destruct ((56320 <=? x) && (x <? 57344)) eqn:El; [|done]. intros [= ->]. to_prop.
  assert (k1 = chr 92 ∧ k2 = chr 117) as [-> ->] by (split; by apply bz_inj). exists b1, b2, b3, b4, r. done.
Qed.
(** Every string literal compacts to one with the same value. *)
Lemma unquote_compact s u r : unquote s = Some (u, r) → ∃ q, compacts s u r q.
Proof.
  remember (String.length s) as n eqn:Hn. revert s u Hn. induction (lt_wf n) as [n _ IH]. intros s u -> Hu.
  assert (Hrec : ∀ s' u', (String.length s' < String.length s)%nat → unquote s' = Some (u', r) → ∃ q, compacts s' u' r q)
    by (intros s' u' Hl Hu'; by apply (IH _ Hl s' u')). clear IH.
  assert (Hpush : ∀ w s', (String.length s' < String.length s)%nat → push w (unquote s') = Some (u, r) →
    ∃ u' q, u = (w +:+ u')%string ∧ compacts s' u' r q).
  { intros w s' Hl (u' & Hu' & ->)%push_some. destruct (Hrec s' u' Hl Hu') as [q Hq]. by exists u', q. }
  clear Hrec. destruct s as [|c s]; [done|]. destruct (Z.eqb_spec (bz c) 92) as [E92|E92].
  - assert (c = chr 92) as -> by (by apply bz_inj). destruct s as [|e s]; [done|].
    destruct (simple_escape e) as [b|] eqn:Ee.
    { cbn [unquote] in Hu. change (bz (chr 92)) with 92 in Hu. cbn [Z.eqb Pos.eqb Z.ltb Z.compare Pos.compare Pos.compare_cont] in Hu.
      rewrite Ee in Hu. apply Hpush in Hu as (u' & q & -> & Hq); [|cbn; lia]. eexists. by apply compacts_escape. }
    destruct (Z.eqb_spec (bz e) 117) as [E117|E117].
    2:{ cbn [unquote] in Hu. change (bz (chr 92)) with 92 in Hu. cbn [Z.eqb Pos.eqb Z.ltb Z.compare Pos.compare Pos.compare_cont] in Hu.
        rewrite Ee, (proj2 (Z.eqb_neq _ _) E117) in Hu. done. }
    assert (e = chr 117) as -> by (by apply bz_inj).
    assert (Hshape : ∃ a b c d z x, s = String a (String b (String c (String d x))) ∧ hex4 a b c d = Some z).
    { cbn [unquote] in Hu. change (bz (chr 92)) with 92 in Hu. change (bz (chr 117)) with 117 in Hu.
      cbn [Z.eqb Pos.eqb Z.ltb Z.compare Pos.compare Pos.compare_cont] in Hu. rewrite Ee in Hu.
      destruct s as [|a [|b [|c [|d x]]]]; try done. destruct (hex4 a b c d) as [z|] eqn:Ez; [|done]. by exists a, b, c, d, z, x. }
    destruct Hshape as (a & b & c & d & z & x & -> & Hz). rewrite (unquote_hex _ _ _ _ _ _ Hz) in Hu.
    destruct ((55296 <=? z) && (z <? 57344)) eqn:Esur.
    + destruct (if z <? 56320 then low_start x else None) as [v|] eqn:Elow.
      * destruct (Z.ltb_spec z 56320); [|done]. apply low_start_some in Elow as (a' & b' & c' & d' & y & Hv & Hr & ->).
        cbn [string_drop] in Hu. apply Hpush in Hu as (u' & q & -> & Hq); [|cbn; lia]. to_prop.
        eexists. by eapply compacts_pair; [..|exact Hq].
      * apply Hpush in Hu as (u' & q & -> & Hq); [|cbn; lia]. eexists.
        pose proof (compacts_hex a b c d z x u' r q Hz) as Hh. rewrite Esur in Hh. by apply Hh.
    + apply Hpush in Hu as (u' & q & -> & Hq); [|cbn; lia]. eexists.
      pose proof (compacts_hex a b c d z x u' r q Hz) as Hh. rewrite Esur in Hh. by apply Hh.
  - cbn [unquote] in Hu. destruct (Z.eqb_spec (bz c) 34) as [E34|E34].
    { injection Hu as <- <-. assert (c = chr 34) as -> by (by apply bz_inj). eexists. apply compacts_quote. }
    destruct (Z.ltb_spec (bz c) 32) as [|E32]; [done|]. rewrite (proj2 (Z.eqb_neq _ _) E92) in Hu.
    destruct (separator (String c s)) eqn:Hsep.
    + apply separator_split in Hsep as (z & x & Hz & Ex).
      assert (Hu' : push (utf8_encode z) (unquote x) = Some (u, r)).
      { rewrite <-Hu. destruct Hz as [-> | ->]; injection Ex as -> ->;
          (rewrite (unquote_plain (chr 128)), (unquote_plain (chr _)) by (vm_compute; discriminate));
          by destruct (unquote x) as [[? ?]|]. }
      apply Hpush in Hu' as (u' & q & -> & Hq); [|rewrite Ex, slength_app; destruct Hz as [-> | ->]; cbn; lia].
      rewrite Ex. eexists. by apply compacts_separator.
    + apply Hpush in Hu as (u' & q & -> & Hq); [|cbn; lia]. destruct (is_one_of [60; 62; 38] c) eqn:Eh.
      * eexists. by apply compacts_html.
      * eexists. by apply compacts_plain.
Qed.

(** *** Documents *)
(** [t] is the text [json.Marshal] may write for [v]: one line that starts with the value,
    is read as it in any context, and does not change when it is compacted again. *)
Record compact_text (t : string) (v : json) : Prop := {
  ct_start : starts_value t;
  ct_line : no_newline t;
  ct_settled : settled t;
  ct_value N f : (N < f)%nat → reads_text (value f) N t v
}.
(** The same for a member of an object. *)
Definition member_text (p : string) (kv : string * json) : Prop :=
  ∃ q t, p = String (chr 34) (q +:+ String (chr 34) (String (chr 58) t)) ∧ body_text q kv.1 ∧ compact_text t kv.2.

Lemma print_text v : json_wf v = true → compact_text (print v) v.
Proof.
  intros Hv. split; [by apply print_start|by apply print_newline|by apply settled_print|].
  intros N f Hf. by apply value_print.
Qed.
Lemma quote_body_text k : utf8_valid k = true → body_text (quote_body 0 0 k) k.
Proof.
  intros Hk. split; [by apply quote_body_newline|intros rest; by apply unquote_quote|].
  intros rest. apply (compact_quoted k _ (to_valid 0 k)), quoted_total.
Qed.
Lemma print_member_shape k t :
  print_member id (k, t) = String (chr 34) (quote_body 0 0 k +:+ String (chr 34) (String (chr 58) t)).
Proof. unfold print_member, quote, id. cbn [fst snd String.append]. by rewrite sapp_assoc. Qed.
Lemma print_member_text k t v : utf8_valid k = true → compact_text t v → member_text (print_member id (k, t)) (k, v).
Proof.
  intros Hk Ht. exists (quote_body 0 0 k), t. split; [apply print_member_shape|by split; [apply quote_body_text|]].
Qed.
Lemma member_text_reads {A} (elem : string → option (A * string)) N q t k (a : A) : body_text q k → reads_text elem N t a →
  reads_text (member elem) N (String (chr 34) (q +:+ String (chr 34) (String (chr 58) t))) (k, a).
Proof.
  intros [_ Hv _] Ha rest Hd Hlen. cbn [String.append] in *. rewrite !sapp_assoc in *. cbn [String.append] in *.
  unfold member. cbn [skip_ws]. change (is_ws (chr 34)) with false. change (bz (chr 34) =? 34) with true. cbn iota.
  rewrite Hv. cbn [skip_ws]. change (is_ws (chr 58)) with false. change (bz (chr 58) =? 58) with true. cbn iota.
  rewrite Ha; [done|done|]. cbn [String.length] in Hlen. rewrite slength_app in Hlen. cbn [String.length] in Hlen. lia.
Qed.
Lemma member_text_facts p kv : member_text p kv → starts_value p ∧ no_newline p ∧ settled p ∧
  ∀ N f, (N < f)%nat → reads_text (member (value f)) N p kv.
Proof.
  destruct kv as [k v]. intros (q & t & -> & Hq & Ht). split_and!.
  - by repeat split.
  - rewrite no_newline_cons, no_newline_app, !no_newline_cons. split_and!; try done; [apply (bt_line _ _ Hq)|apply (ct_line _ _ Ht)].
  - intros rest. cbn [String.append]. rewrite !sapp_assoc. cbn [String.append]. rewrite compact_open, (bt_settled _ _ Hq).
    change (String (chr 58) (t +:+ rest)) with (String (chr 58) "" +:+ (t +:+ rest))%string.
    by rewrite settled_token, (ct_settled _ _ Ht) by done.
  - intros N f Hf. apply member_text_reads; [done|]. by apply (ct_value _ _ Ht).
Qed.

(** Lists of such texts between brackets. *)
Lemma commas_lead p ps : starts_value p → starts_value (commas (p :: ps)).
Proof. intros Hp. pose proof (commas_start id p ps Hp) as Hc. by rewrite map_id in Hc. Qed.
Lemma commas_count ps rest : Forall starts_value ps → (List.length ps ≤ String.length (commas ps +:+ rest))%nat.
Proof.
  intros Hs. pose proof (commas_length id ps rest) as Hl. rewrite map_id in Hl. apply Hl.
  eapply Forall_impl; [exact Hs|]. intros p Hp. by apply starts_nonempty.
Qed.
Section bracketed.
Context {A : Type} (text : string → A → Prop) (ps : list string) (l : list A).
Hypothesis text_facts : ∀ p x, text p x → starts_value p ∧ no_newline p ∧ settled p.
Hypothesis Htexts : Forall2 text ps l.
Lemma texts_facts : Forall (λ p, starts_value p ∧ no_newline p ∧ settled p) ps.
Proof. eapply Forall2_Forall_l; [exact Htexts|]. apply Forall_forall. intros x _ p. apply text_facts. Qed.
Lemma bracketed_line o c : Ascii.eqb (chr o) newline = false → Ascii.eqb (chr c) newline = false →
  no_newline (String (chr o) (commas ps +:+ String (chr c) "")).
Proof.
  intros Ho Hc. rewrite no_newline_cons, no_newline_app, no_newline_cons. split_and!; try done.
  apply commas_newline. eapply Forall_impl; [apply texts_facts|]. by intros p (_ & ? & _).
Qed.
Lemma bracketed_settled o c : token_char (chr o) = true → token_char (chr c) = true →
  settled (String (chr o) (commas ps +:+ String (chr c) "")).
Proof.
  intros Ho Hc. apply (settled_app (String (chr o) "")); [apply settled_token; cbn; by rewrite Ho|].
  apply settled_app; [|apply settled_token; cbn; by rewrite Hc]. apply settled_commas.
  eapply Forall_impl; [apply texts_facts|]. by intros p (_ & _ & ?).
Qed.
End bracketed.

Lemma text_facts p v : compact_text p v → starts_value p ∧ no_newline p ∧ settled p.
Proof. by intros []. Qed.
Lemma member_facts p kv : member_text p kv → starts_value p ∧ no_newline p ∧ settled p.
Proof. by intros (? & ? & ? & _)%member_text_facts. Qed.

Lemma arr_text ps l : Forall2 compact_text ps l → compact_text (arr ps) (JArray l).
Proof.
  intros Hl. unfold arr. split; [by repeat split|by eapply bracketed_line; [exact text_facts|exact Hl|..]
    |by eapply bracketed_settled; [exact text_facts|exact Hl|..]|].
  intros N f Hf rest Hd Hlen. destruct f as [|f]; [lia|]. cbn [String.append value]. read_char 91.
  cbn [String.append String.length] in Hlen. rewrite sapp_assoc in *. cbn [String.append] in *.
  destruct Hl as [|p v ps l Hp Hl]; [done|].
  pose proof (commas_lead p ps (ct_start _ _ Hp)) as Hx. unfold array_body. rewrite starts_skip by done.
  destruct (commas (p :: ps)) as [|c t] eqn:Ec; [done|]. cbn [String.append].
  rewrite (proj2 (Z.eqb_neq (bz c) 93)) by apply Hx.
  change (String c (t +:+ String (chr 93) rest)) with (String c t +:+ String (chr 93) rest)%string. rewrite <-Ec in *.
  rewrite (elements_texts _ (String.length (commas (p :: ps) +:+ String (chr 93) rest)) _ (v :: l)); [done|done| |done|].
  - constructor; [apply (ct_value _ _ Hp); lia|]. eapply Forall2_impl; [exact Hl|]. intros p' v' Hp'. apply (ct_value _ _ Hp'). lia.
  - pose proof (commas_count (p :: ps) (String (chr 93) rest)) as Hc. etrans; [apply Hc|lia].
    constructor; [apply Hp|]. clear -Hl. induction Hl as [|p' v' ? ? Hp' _ IH]; constructor; [apply Hp'|done].
Qed.
Lemma object_text ps m : Forall2 member_text ps m →
  compact_text (String (chr 123) (commas ps +:+ String (chr 125) "")) (JObject m).
Proof.
  intros Hl. split; [by repeat split|by eapply bracketed_line; [exact member_facts|exact Hl|..]
    |by eapply bracketed_settled; [exact member_facts|exact Hl|..]|].
  intros N f Hf rest Hd Hlen. destruct f as [|f]; [lia|]. cbn [String.append value]. read_char 123.
  cbn [String.append String.length] in Hlen. rewrite sapp_assoc in *. cbn [String.append] in *.
  destruct Hl as [|p v ps m Hp Hl]; [done|].
  destruct (member_facts _ _ Hp) as (Hst & _). pose proof (commas_lead p ps Hst) as Hx. unfold object_body. rewrite starts_skip by done.
  destruct (commas (p :: ps)) as [|c t] eqn:Ec; [done|]. cbn [String.append].
  rewrite (proj2 (Z.eqb_neq (bz c) 125)) by apply Hx.
  change (String c (t +:+ String (chr 125) rest)) with (String c t +:+ String (chr 125) rest)%string. rewrite <-Ec in *.
  rewrite (members_texts _ (String.length (commas (p :: ps) +:+ String (chr 125) rest)) _ (v :: m)); [done|done| |done|].
  - constructor; [apply member_text_facts; [done|lia]|]. eapply Forall2_impl; [exact Hl|].
    intros p' v' Hp'. apply member_text_facts; [done|lia].
  - pose proof (commas_count (p :: ps) (String (chr 125) rest)) as Hc. etrans; [apply Hc|lia].
    constructor; [done|]. clear -Hl. induction Hl as [|p' v' ? ? Hp' _ IH]; constructor; [by apply (member_facts _ _ Hp')|done].
Qed.

(** *** Compacting a document *)
Lemma compact_skip s : compact Outside 0 s = compact Outside 0 (skip_ws s).
Proof.
  induction s as [|c s IH]; [done|]. cbn [skip_ws]. destruct (is_ws c) eqn:Ew; [|done]. rewrite <-IH. cbn [compact blank].
  assert (Hc : bz c = 9 ∨ bz c = 10 ∨ bz c = 13 ∨ bz c = 32).
  { revert Ew. unfold is_ws, is_one_of. cbn [existsb]. lia. }
  rewrite Ew, !no_separator by lia. unfold is_one_of. cbn [existsb text_step].
  by rewrite !(proj2 (Z.eqb_neq (bz c) _)) by lia.
Qed.
(** One token at the front. *)
Lemma compact_token s c r : skip_ws s = String c r → token_char c = true → compact Outside 0 s = String c (compact Outside 0 r).
Proof.
  intros Hs Hc. rewrite compact_skip, Hs. apply (settled_token (String c "")). cbn. by rewrite Hc.
Qed.
Lemma token_of c z : bz c = z → token_char (chr z) = true → bz (chr z) = z → token_char c = true ∧ c = chr z.
Proof. intros Hc Ht Hz. assert (c = chr z) as -> by (apply bz_inj; congruence). done. Qed.
Section sequences_compact.
Variable elem : string → option (json * string).
Hypothesis elem_compact : ∀ s v r, elem s = Some (v, r) →
  ∃ p, compact Outside 0 s = (p +:+ compact Outside 0 r)%string ∧ compact_text p v.
Lemma elements_compact n s l r : elements elem n s = Some (l, r) →
  ∃ ps, compact Outside 0 s = (commas ps +:+ String (chr 93) (compact Outside 0 r))%string ∧ Forall2 compact_text ps l.
Proof.
  revert s l. induction n as [|n IH]; intros s l; cbn [elements]; [done|].
  destruct (elem s) as [[v r1]|] eqn:Ev; [|done]. destruct (elem_compact _ _ _ Ev) as (p & Hp & Ht).
  destruct (skip_ws r1) as [|c r2] eqn:Ew; [done|]. destruct (Z.eqb_spec (bz c) 44) as [E|_].
  - apply token_of in E as [Hc ->]; [|done..]. rewrite (compact_token _ _ _ Ew Hc) in Hp.
    destruct (elements elem n r2) as [[vs r3]|] eqn:Er; [|done]. intros [= <- <-].
    destruct (IH _ _ Er) as (ps & Hps & Hall). exists (p :: ps). split; [|by constructor].
    destruct Hall as [|p2 ? ? ? ? ?].
    { destruct n; [done|]. cbn [elements] in Er. by repeat case_match. }
    rewrite Hp, Hps. change (commas (p :: p2 :: ?l)) with (p +:+ String (chr 44) (commas (p2 :: l)))%string. by rewrite sapp_assoc.
  - destruct (Z.eqb_spec (bz c) 93) as [E|_]; [|done]. apply token_of in E as [Hc ->]; [|done..].
    rewrite (compact_token _ _ _ Ew Hc) in Hp. intros [= <- <-]. exists [p]. split; [done|]. constructor; [done|constructor].
Qed.
Lemma member_compact s kv r : member elem s = Some (kv, r) →
  ∃ p, compact Outside 0 s = (p +:+ compact Outside 0 r)%string ∧ member_text p kv.
Proof.
  unfold member. destruct (skip_ws s) as [|c r1] eqn:Es; [done|]. destruct (Z.eqb_spec (bz c) 34) as [E|_]; [|done].
  assert (c = chr 34) as -> by (by apply bz_inj). destruct (unquote r1) as [[k r2]|] eqn:Ek; [|done].
  destruct (skip_ws r2) as [|c r3] eqn:Ew; [done|]. destruct (Z.eqb_spec (bz c) 58) as [E'|_]; [|done].
  apply token_of in E' as [Hc ->]; [|done..]. destruct (elem r3) as [[v r4]|] eqn:Ev; [|done]. intros [= <- <-].
  destruct (unquote_compact _ _ _ Ek) as (q & Hq & Hb & _). destruct (elem_compact _ _ _ Ev) as (t & Ht & Htext).
  exists (String (chr 34) (q +:+ String (chr 34) (String (chr 58) t))). split; [|by exists q, t].
  rewrite compact_skip, Es, compact_open, Hq, (compact_token _ _ _ Ew Hc), Ht. cbn [String.append]. rewrite !sapp_assoc. done.
Qed.
Lemma members_compact n s m r : members elem n s = Some (m, r) →
  ∃ ps, compact Outside 0 s = (commas ps +:+ String (chr 125) (compact Outside 0 r))%string ∧ Forall2 member_text ps m.
Proof.
  revert s m. induction n as [|n IH]; intros s m; cbn [members]; [done|].
  destruct (member elem s) as [[kv r1]|] eqn:Ev; [|done]. destruct (member_compact _ _ _ Ev) as (p & Hp & Ht).
  destruct (skip_ws r1) as [|c r2] eqn:Ew; [done|]. destruct (Z.eqb_spec (bz c) 44) as [E|_].
  - apply token_of in E as [Hc ->]; [|done..]. rewrite (compact_token _ _ _ Ew Hc) in Hp.
    destruct (members elem n r2) as [[vs r3]|] eqn:Er; [|done]. intros [= <- <-].
    destruct (IH _ _ Er) as (ps & Hps & Hall). exists (p :: ps). split; [|by constructor].
    destruct Hall as [|p2 ? ? ? ? ?].
    { destruct n; [done|]. cbn [members] in Er. by repeat case_match. }
    rewrite Hp, Hps. change (commas (p :: p2 :: ?l)) with (p +:+ String (chr 44) (commas (p2 :: l)))%string. by rewrite sapp_assoc.
  - destruct (Z.eqb_spec (bz c) 125) as [E|_]; [|done]. apply token_of in E as [Hc ->]; [|done..].
    rewrite (compact_token _ _ _ Ew Hc) in Hp. intros [= <- <-]. exists [p]. split; [done|]. constructor; [done|constructor].
Qed.
End sequences_compact.

Lemma string_text q u : body_text q u → compact_text (String (chr 34) (q +:+ String (chr 34) "")) (JString u).
Proof.
  intros [Hl Hv Hs]. split; [by repeat split| | |].
  - rewrite no_newline_cons, no_newline_app. by split_and!.
  - intros rest. cbn [String.append]. rewrite !sapp_assoc. cbn [String.append]. by rewrite compact_open, Hs.
  - intros N f Hf rest Hd _. destruct f as [|f]; [lia|]. cbn [String.append value]. read_char 34.
    rewrite sapp_assoc. cbn [String.append]. by rewrite Hv.
Qed.
Lemma leaf_text v : match v with JNull | JBool _ => True | JNumber lit => valid_number lit = true | _ => False end →
  compact_text (print v) v.
Proof. intros Hv. apply print_text. by destruct v. Qed.
(** The value at the front of a text, and what is left, after compaction. *)
Lemma compact_value f s v r : value f s = Some (v, r) →
  ∃ p, compact Outside 0 s = (p +:+ compact Outside 0 r)%string ∧ compact_text p v.
Proof.
  revert s v r. induction f as [|f IH]; intros s v r; cbn [value]; [done|].
  destruct (skip_ws s) as [|c t] eqn:Es; [done|]. destruct (Z.eqb_spec (bz c) 123) as [E|_].
  { apply token_of in E as [Hc ->]; [|done..]. rewrite (compact_token _ _ _ Es Hc). unfold object_body.
    destruct (skip_ws t) as [|d t'] eqn:Et; [done|]. destruct (Z.eqb_spec (bz d) 125) as [E|_].
    - apply token_of in E as [Hd ->]; [|done..]. rewrite (compact_token _ _ _ Et Hd). intros [= <- <-].
      exists "{}"%string. split; [done|]. apply (object_text []). constructor.
    - destruct (members _ _ _) as [[m r']|] eqn:Em; [|done]. intros [= <- <-].
      destruct (members_compact _ IH _ _ _ _ Em) as (ps & -> & Hps). eexists. split; [|by apply object_text].
      cbn [String.append]. by rewrite sapp_assoc. }
  destruct (Z.eqb_spec (bz c) 91) as [E|_].
  { apply token_of in E as [Hc ->]; [|done..]. rewrite (compact_token _ _ _ Es Hc). unfold array_body.
    destruct (skip_ws t) as [|d t'] eqn:Et; [done|]. destruct (Z.eqb_spec (bz d) 93) as [E|_].
    - apply token_of in E as [Hd ->]; [|done..]. rewrite (compact_token _ _ _ Et Hd). intros [= <- <-].
      exists "[]"%string. split; [done|]. apply (arr_text []). constructor.
    - destruct (elements _ _ _) as [[l r']|] eqn:Em; [|done]. intros [= <- <-].
      destruct (elements_compact _ IH _ _ _ _ Em) as (ps & -> & Hps). eexists. split; [|by apply arr_text].
      unfold arr. cbn [String.append]. by rewrite sapp_assoc. }
  destruct (Z.eqb_spec (bz c) 34) as [E|_].
  { assert (c = chr 34) as -> by (by apply bz_inj). destruct (unquote t) as [[u r']|] eqn:Eu; [|done]. intros [= <- <-].
    destruct (unquote_compact _ _ _ Eu) as (q & Hq & Hb & _). eexists. split; [|by apply string_text].
    rewrite compact_skip, Es, compact_open, Hq. cbn [String.append]. by rewrite sapp_assoc. }
  rewrite compact_skip, Es. assert (Hlit : ∀ p w, literal p w (String c t) = Some (v, r) → all_bytes token_char p = true →
    compact Outside 0 (String c t) = (p +:+ compact Outside 0 r)%string ∧ w = v).
  { intros p w. unfold literal. destruct (strip_prefix p _) as [r'|] eqn:Ep; [|done]. apply strip_prefix_app in Ep as ->.
    intros [= <- <-] Hp. by rewrite settled_token. }
  destruct (bz c =? 110); [intros Hl; apply Hlit in Hl as [-> <-]; [|done]; eexists; split; [done|by apply (leaf_text JNull)]|].
  destruct (bz c =? 116); [intros Hl; apply Hlit in Hl as [-> <-]; [|done]; eexists; split; [done|by apply (leaf_text (JBool true))]|].
  destruct (bz c =? 102); [intros Hl; apply Hlit in Hl as [-> <-]; [|done]; eexists; split; [done|by apply (leaf_text (JBool false))]|].
  destruct (scan_number NStart (String c t)) as [[lit r']|] eqn:En; [|done]. intros [= <- <-].
  assert (Hv : valid_number lit = true) by (by apply scan_number_valid in En). apply scan_number_length in En as [_ ->].
  exists lit. split; [|by apply (leaf_text (JNumber lit))]. unfold valid_number in Hv.
  destruct (num_run NStart lit) as [st|] eqn:Er; [|done]. by rewrite (settled_token lit) by (by eapply number_tokens).
Qed.

(** *** Texts of messages *)
Lemma text_parse t v : compact_text t v → parse t = Some v.
Proof.
  intros Ht. unfold parse, fuel_for. pose proof (ct_value _ _ Ht (String.length t) _ (Nat.lt_succ_diag_r _) ""%string I) as Hv.
  rewrite sapp_nil_r in Hv. by rewrite Hv.
Qed.
Lemma compact_parse raw v : parse raw = Some v → compact_text (compact Outside 0 raw) v.
Proof.
  unfold parse. destruct (value _ raw) as [[w r]|] eqn:Ev; [|done]. destruct (String.eqb_spec (skip_ws r) "") as [Er|]; [|done].
  intros [= ->]. destruct (compact_value _ _ _ _ Ev) as (p & Hp & Ht). rewrite (compact_skip r), Er in Hp. cbn [compact] in Hp.
  rewrite sapp_nil_r in Hp. by rewrite Hp.
Qed.
Lemma text_compact t v : compact_text t v → compact Outside 0 t = t.
Proof. intros Ht. pose proof (ct_settled _ _ Ht ""%string) as Hs. cbn [compact] in Hs. by rewrite !sapp_nil_r in Hs. Qed.
Lemma raw_value_text N t v : compact_text t v → reads_text raw_value N t t.
Proof.
  intros Ht rest Hd _. unfold raw_value. rewrite starts_skip by apply (ct_start _ _ Ht). unfold fuel_for.
  rewrite (ct_value _ _ Ht _ _ (Nat.lt_succ_diag_r _) rest Hd) by lia. do 2 f_equal. rewrite slength_app.
  replace (String.length t + String.length rest - String.length rest)%nat with (String.length t) by lia. apply string_take_app.
Qed.

(** Compaction keeps text valid UTF-8. *)
Lemma compact_continuation st c r : is_cont c = true → compact st 0 (String c r) = String c (compact (text_step st c) 0 r).
Proof.
  unfold is_cont, in_range. intros Hc. cbn [compact]. rewrite !no_separator by lia. unfold is_one_of. cbn [existsb].
  rewrite !(proj2 (Z.eqb_neq (bz c) _)) by lia. cbn [orb].
  assert (blank st c = false) as ->; [|done]. destruct st; [|done..]. unfold blank, is_ws, is_one_of. cbn [existsb]. lia.
Qed.
Lemma cont_range lo hi c : 128 ≤ lo → hi ≤ 191 → in_range lo hi c = true → is_cont c = true.
Proof. unfold is_cont, in_range. lia. Qed.
Lemma head_kept c s n st : utf8_head (String c s) = Some n → 128 ≤ bz c → utf8_head (String c (compact st 0 s)) = Some n.
Proof.
  unfold utf8_head. intros Hn Hc. rewrite (proj2 (Z.ltb_ge _ _) Hc) in Hn |- *.
  destruct s as [|c2 s]; [done|]. destruct (in_range 194 223 c).
  { destruct (is_cont c2) eqn:E; [|done]. by rewrite compact_continuation, E. }
  destruct s as [|c3 s]; [done|]. set (lo := if bz c =? 224 then 160 else _) in *. set (hi := if bz c =? 237 then 159 else _) in *.
  assert (Hb : 128 ≤ lo ∧ hi ≤ 191) by (unfold lo, hi; repeat case_match; lia). clearbody lo hi.
  destruct (in_range 224 239 c).
  { destruct (in_range lo hi c2 && is_cont c3) eqn:E; [|done]. pose proof E as [E2 E3]%andb_true_iff.
    rewrite compact_continuation, compact_continuation, E by (done || (eapply cont_range; [..|exact E2]; lia)). done. }
  destruct (in_range 240 244 c); [|done]. destruct s as [|c4 s]; [done|].
  destruct (in_range lo hi c2 && is_cont c3 && is_cont c4) eqn:E; [|done].
  pose proof E as [[E2 E3]%andb_true_iff E4]%andb_true_iff.
  rewrite !compact_continuation, E by (done || (eapply cont_range; [..|exact E2]; lia)). done.
Qed.
Lemma compact_utf8_go s : ∀ k st, utf8_ok k s = true → utf8_ok k (compact st 0 s) = true.
Proof.
  remember (String.length s) as n eqn:Hn. revert s Hn. induction (lt_wf n) as [n _ IH]. intros s -> k st Hok.
  assert (Hrec : ∀ s' k st, (String.length s' < String.length s)%nat → utf8_ok k s' = true → utf8_ok k (compact st 0 s') = true)
    by (intros s' k' st' Hl; by apply (IH _ Hl)). clear IH.
  destruct s as [|c s]; [done|]. destruct k as [|k].
  2:{ cbn [utf8_ok] in Hok. apply andb_true_iff in Hok as [Hc Hs]. rewrite compact_continuation by done. cbn [utf8_ok].
      rewrite Hc. apply Hrec; [cbn; lia|done]. }
  destruct (separator (String c s)) eqn:Hsep.
  { apply separator_split in Hsep as (z & r & Hz & E). rewrite E in Hrec, Hok |- *.
    rewrite utf8_ok_app in Hok by (by destruct Hz as [-> | ->]). rewrite slength_app in Hrec.
    assert (∃ st', compact st 0 (utf8_encode z +:+ r) = (escape_u z +:+ compact st' 0 r)%string) as [st' ->]
      by (destruct Hz as [-> | ->]; by eexists).
    rewrite utf8_ok_app by (by destruct Hz as [-> | ->]). apply Hrec; [destruct Hz as [-> | ->]; cbn; lia|done]. }
  unfold separator in Hsep. apply orb_false_iff in Hsep as [Hs1 Hs2]. cbn [compact]. rewrite Hs1, Hs2.
  cbn [utf8_ok] in Hok. destruct (utf8_head (String c s)) as [m|] eqn:Hm; [|done].
  destruct (Z.ltb_spec (bz c) 128) as [Hlt|Hge].
  - assert (m = 1%nat) as -> by (revert Hm; unfold utf8_head; rewrite (proj2 (Z.ltb_lt _ _) Hlt); congruence). cbn [Nat.pred] in Hok.
    assert (Hx : ∀ st', utf8_ok 0 (compact st' 0 s) = true) by (intros; apply Hrec; [cbn; lia|done]).
    destruct (is_one_of [60; 62; 38] c) eqn:Eh; [|destruct (blank st c); [done|]].
    + rewrite utf8_ok_app; [done|]. apply utf8_ascii. unfold is_one_of in Eh. cbn [existsb] in Eh.
      assert (bz c = 60 ∨ bz c = 62 ∨ bz c = 38) as [-> | [-> | ->]] by lia; done.
    + cbn [utf8_ok]. unfold utf8_head. rewrite (proj2 (Z.ltb_lt _ _) Hlt). by cbn [Nat.pred].
  - assert (is_one_of [60; 62; 38] c = false) as -> by (unfold is_one_of; cbn [existsb]; lia).
    assert (blank st c = false) as -> by (destruct st; [|done..]; unfold blank, is_ws, is_one_of; cbn [existsb]; lia).
    cbn [utf8_ok]. rewrite (head_kept _ _ _ _ Hm) by done. apply Hrec; [cbn; lia|done].
Qed.
Lemma compact_utf8 raw : utf8_valid raw = true → utf8_valid (compact Outside 0 raw) = true.
Proof. apply compact_utf8_go. Qed.

(** A document in UTF-8, and the members of a message. *)
Definition doc (t : string) (v : json) : Prop := compact_text t v ∧ utf8_valid t = true.
Definition doc_member (kt : string * string) (kv : string * json) : Prop :=
  kt.1 = kv.1 ∧ utf8_valid kt.1 = true ∧ doc kt.2 kv.2.
Definition docs : list (string * string) → list (string * json) → Prop := Forall2 doc_member.

Lemma doc_print v : json_wf v = true → doc (print v) v.
Proof. intros Hv. split; [by apply print_text|by apply print_utf8]. Qed.
Lemma doc_compact raw v : parse raw = Some v → utf8_valid raw = true → doc (compact Outside 0 raw) v.
Proof. intros Hp Hu. split; [by apply compact_parse|by apply compact_utf8]. Qed.
Lemma doc_parse t v : doc t v → parse t = Some v.
Proof. intros [Ht _]. by apply text_parse. Qed.
Lemma doc_nonempty t v : doc t v → t ≠ ""%string.
Proof. intros [Ht _]. apply starts_nonempty, (ct_start _ _ Ht). Qed.
Lemma doc_null v : doc "null" v → v = JNull.
Proof. intros Hp%doc_parse. by injection Hp. Qed.

Lemma docs_print m : json_wf (JObject m) = true → docs (raw_members m) m.
Proof.
  cbn [json_wf]. rewrite forallb_forall. intros Hm.
  induction m as [|[k v] m IH]; constructor; [|apply IH; intros x Hx; apply Hm; by right].
  pose proof (Hm (k, v) ltac:(by left)) as Hkv. cbn in Hkv. to_prop. split_and!; [done..|by apply doc_print].
Qed.
Lemma docs_app a b va vb : docs a va → docs b vb → docs (a ++ b) (va ++ vb).
Proof. apply Forall2_app. Qed.
Lemma docs_keys ms vs : docs ms vs → ms.*1 = vs.*1.
Proof. induction 1 as [|kt kv ms vs (Hk & _) _ IH]; [done|]. cbn. by rewrite Hk, IH. Qed.
Lemma print_obj m : print (JObject m) = obj (raw_members m).
Proof. unfold obj, raw_members. rewrite map_map. done. Qed.

(** A message of such members is a document, and a destination sees exactly their texts. *)
Lemma doc_obj ms vs : docs ms vs → doc (obj ms) (JObject vs).
Proof.
  intros Hm. split.
  - unfold obj. apply object_text. induction Hm as [|[k t] [k' v] ms vs (Hk & Hu & Ht & _) _ IH]; constructor; [|done].
    cbn in *. subst k'. by apply print_member_text.
  - unfold utf8_valid, obj. change (utf8_ok 0 (commas (map (print_member id) ms) +:+ String (chr 125) "") = true).
    rewrite utf8_ok_app; [done|]. apply utf8_commas, Forall_fmap.
    induction Hm as [|[k t] [k' v] ms vs (_ & Hu & _ & Ht) _ IH]; constructor; [|done].
    unfold print_member, compose. cbn in *. rewrite utf8_ok_app by (by apply quote_utf8). exact Ht.
Qed.
Lemma doc_arr l vs : Forall2 doc l vs → doc (arr l) (JArray vs).
Proof.
  intros Hl. split.
  - apply arr_text. eapply Forall2_impl; [exact Hl|]. by intros t v [Ht _].
  - unfold utf8_valid, arr. change (utf8_ok 0 (commas l +:+ String (chr 93) "") = true).
    rewrite utf8_ok_app; [done|]. apply utf8_commas. eapply Forall2_Forall_l; [exact Hl|].
    apply Forall_forall. by intros v _ t [_ Ht].
Qed.
Lemma raw_object_obj ms vs : docs ms vs → raw_object (obj ms) = Some (Some ms).
Proof.
  intros Hm. unfold raw_object. rewrite (doc_parse _ _ (doc_obj _ _ Hm)). unfold obj. cbn [String.append]. read_char 123.
  destruct Hm as [|[k t] [k' v] ms vs Hk Hm]; [done|].
  set (ps := map (print_member id) ((k, t) :: ms)).
  assert (Hx : starts_value (commas ps)) by (apply commas_start; by repeat split).
  unfold object_body. rewrite starts_skip by done. destruct (commas ps) as [|c r] eqn:Ec; [done|]. cbn [String.append].
  rewrite (proj2 (Z.eqb_neq (bz c) 125)) by apply Hx.
  change (String c (r +:+ ?x)) with (String c r +:+ x)%string. rewrite <-Ec.
  rewrite (members_texts _ (String.length (commas ps +:+ String (chr 125) "")) _ ((k, t) :: ms)); [done|done| |done|].
  - assert (Hid : (k, t) :: ms = map id ((k, t) :: ms)) by (by rewrite map_id). rewrite Hid. apply Forall_texts.
    eapply Forall2_Forall_l; [by apply Forall2_cons; split; [exact Hk|exact Hm]|]. apply Forall_forall.
    intros [k2 v2] _ [k1 t1] (_ & Hu & Ht & _). cbn [fst snd] in Hu, Ht. rewrite print_member_shape.
    apply member_text_reads; [by apply quote_body_text|by eapply raw_value_text].
  - pose proof (commas_length (print_member id) ((k, t) :: ms) (String (chr 125) "")) as Hl. fold ps in Hl.
    unfold ps at 1. rewrite length_map. unfold fuel_for. cbn [String.length]. rewrite Ec in Hl |- *.
    etrans; [apply Hl, Forall_forall; done|]. cbn. lia.
Qed.
Lemma struct_fields_obj ms vs : docs ms vs → struct_fields (obj ms) = Ok ms.
Proof. intros Hm. unfold struct_fields. by rewrite (raw_object_obj _ _ Hm). Qed.
Lemma exactFields_obj fs ms vs : docs ms vs →
  Forall (λ kt, ∃ t, field_type fs kt.1 = Some t ∧ exactFields t kt.2 = Ok tt) ms →
  exactFields (TStruct fs) (obj ms) = Ok tt.
Proof.
  intros Hm Hall. cbn [exactFields]. destruct (is_null _); [done|].
  destruct (negb _); [done|]. rewrite (raw_object_obj _ _ Hm). apply each_ok. eapply Forall_impl; [exact Hall|].
  intros [k raw] (t & Hf & Ht). cbn [fst snd] in *.
  clear -Hf Ht. induction fs as [|[n t'] fs IH]; cbn [field_type] in Hf; [done|].
  destruct (n =?s k); [injection Hf as ->; by rewrite Ht|by apply IH].
Qed.
Lemma decode_doc {A} (d : decoder A) old t v : doc t v → is_ok (check_value 0 v) = true → exactFields (go_type d) t = Ok tt →
  JsonUtil.Decode d old t = map_err (Wrapf "JSON decode: %w" []) (store d old t).
Proof.
  intros [Ht Hu] Hc He. unfold JsonUtil.Decode. rewrite Hu. cbn [negb].
  pose proof (ct_value _ _ Ht (String.length t) _ (Nat.lt_succ_diag_r _) ""%string I) as Hv.
  rewrite sapp_nil_r in Hv. unfold fuel_for. rewrite Hv by lia.
  destruct (check_value 0 v) as [[]|]; [|done]. cbn [rbind skip_ws String.eqb negb]. by rewrite He.
Qed.

(** A value the strict decoder accepts is far within the limit. *)
Lemma nesting_height v : nesting v ≤ height v + 1.
Proof.
  induction v as [| | | |l IH|m IH] using json_nested_ind; cbn [nesting height]; try lia;
    (induction IH as [|x l Hx _ IHl]; cbn [map fold_right] in *; lia).
Qed.
Lemma nesting_checked d v : 0 ≤ d → check_value d v = Ok tt → nesting v ≤ max_nesting.
Proof. rewrite check_value_spec. pose proof (nesting_height v). unfold MaxDepth, max_nesting. lia. Qed.

(** What [json.Marshal] writes for a raw message: a document of the same value, and a
    document as it is. *)
Lemma enc_raw_doc t v : doc t v → nesting v ≤ max_nesting → enc_raw t = Some t.
Proof.
  intros Hd Hh. unfold enc_raw. rewrite (proj2 (String.eqb_neq _ _) (doc_nonempty _ _ Hd)).
  unfold json_Valid. rewrite (doc_parse _ _ Hd), (proj2 (Z.leb_le _ _) Hh). destruct Hd as [Ht _]. by rewrite (text_compact _ _ Ht).
Qed.
Lemma enc_raw_valid raw v : raw ≠ ""%string → parse raw = Some v → nesting v ≤ max_nesting → utf8_valid raw = true →
  enc_raw raw = Some (compact Outside 0 raw) ∧ doc (compact Outside 0 raw) v.
Proof.
  intros Hne Hp Hh Hu. unfold enc_raw, json_Valid. rewrite (proj2 (String.eqb_neq _ _) Hne), Hp, (proj2 (Z.leb_le _ _) Hh).
  split; [done|by apply doc_compact].
Qed.
Lemma omit_raw_some k raw t : raw ≠ ""%string → enc_raw raw = Some t → omit_raw k raw = Some [(k, t)].
Proof. intros Hne He. unfold omit_raw. by rewrite (proj2 (String.eqb_neq _ _) Hne), He. Qed.

(** Escapes stay as they are written, except where HTML could be misread. *)
Example enc_raw_sample :
  enc_raw (js " { 'a' : '\u0041\/ <' , 'b' : [ 1.0 , '\ud800' ] } ") = Some (js "{'a':'\u0041\/ \u003c','b':[1.0,'\ud800']}").
Proof. vm_compute. reflexivity. Qed.
Example indent_sample :
  indent Outside false 0 (obj [("a"%string, arr ["1"; "[]"]%string); ("b"%string, "null"%string)])
  = bytes_of ([123; 10; 32; 32; 34; 97; 34; 58; 32; 91; 10; 32; 32; 32; 32; 49; 44; 10; 32; 32; 32; 32; 91; 93;
               10; 32; 32; 93; 44; 10; 32; 32; 34; 98; 34; 58; 32; 110; 117; 108; 108; 10; 125]).
Proof. vm_compute. reflexivity. Qed.
