(* ===== verification/Assertions.v ===== *)
(** * Assertions: internal/scenario/assertions.go

    JSON Pointers, exact typed comparison, and the evaluation of a scenario's
    assertions against the observations of its steps. *)

From S2P Require Import Prelude GoLib Json JsonFacts JsonUtil.
From Stdlib Require Import Ascii String QArith.QArith.
#[local] Open Scope Z_scope.

Record Assertion := {
  a_id : string;
  a_step : string;
  a_pointer : string;
  a_op : string;
  a_value : string
}.

Record AssertionResult := {
  r_id : string;
  r_step : string;
  r_status : string;
  r_actual : string;
  r_message : string
}.

(** ** Numbers *)

(** [x.Cmp(y)] on [big.Rat]: both sides scaled to the smaller exponent. *)
Definition rat_cmp (x y : Z * Z) : Z :=
  let e := Z.min x.2 y.2 in
  match Z.compare (x.1 * 10 ^ (x.2 - e)) (y.1 * 10 ^ (y.2 - e)) with
  | Lt => -1 | Eq => 0 | Gt => 1
  end.

Definition compareNumbers (a b : string) : result Z :=
  do? each ValidateNumber [a; b] ;;
  match num_parts a with
  | None => Err (Errorf "invalid number %q" [a])
  | Some x =>
      match num_parts b with
      | None => Err (Errorf "invalid number %q" [b])
      | Some y => Ok (rat_cmp x y)
      end
  end.

(** ** Equality *)
Definition all_equal (eq : json → json → result bool) : list json → list json → result bool :=
  fix go x y :=
    match x, y with
    | a :: x, b :: y => let? same := eq a b in if same : bool then go x y else Ok false
    | _, _ => Ok true
    end.
Definition members_equal (eq : json → json → result bool) (y : list (string * json)) :
    list (string * json) → result bool :=
  fix go x :=
    match x with
    | [] => Ok true
    | (key, v) :: x =>
        match assoc key y with
        | None => Ok false
        | Some other => let? same := eq v other in if same : bool then go x else Ok false
        end
    end.

Fixpoint equal (a b : json) : result bool :=
  match a with
  | JNull => Ok (match b with JNull => true | _ => false end)
  | JBool x => Ok (match b with JBool y => eqb x y | _ => false end)
  | JString x => Ok (match b with JString y => x =?s y | _ => false end)
  | JNumber x =>
      match b with
      | JNumber y => let? cmp := compareNumbers x y in Ok (cmp =? 0)
      | _ => Ok false
      end
  | JArray x =>
      match b with
      | JArray y => if negb (List.length x =? List.length y)%nat then Ok false else all_equal equal x y
      | _ => Ok false
      end
  | JObject x =>
      match b with
      | JObject y => if negb (List.length x =? List.length y)%nat then Ok false else members_equal equal y x
      | _ => Ok false
      end
  end.

(** ** JSON Pointer *)
Fixpoint unescape (token : string) : result string :=
  match token with
  | EmptyString => Ok ""%string
  | String c r =>
      if negb (bz c =? 126) then let? out := unescape r in Ok (String c out)
      else match r with
           | EmptyString => Err (Errorf "invalid JSON Pointer escape" [])
           | String d r' =>
               if bz d =? 48 then let? out := unescape r' in Ok (String "~" out)
               else if bz d =? 49 then let? out := unescape r' in Ok (String "/" out)
               else Err (Errorf "invalid JSON Pointer escape" [])
           end
  end.

Definition pointerTokens (pointer : string) : result (list string) :=
  if pointer =?s "" then Ok [] else
  fail_if (4096 <? blen pointer) || negb (has_prefix pointer "/")
    with Errorf "invalid JSON Pointer %q" [pointer] ;;
  traverse unescape (split_on "/" (string_drop 1 pointer)).

(** One reference token: [Ok None] when there is no such value. *)
Definition resolve_token (v : json) (token : string) : result (option json) :=
  match v with
  | JObject m => Ok (assoc token m)
  | JArray l =>
      if token =?s "-" then Ok None else
      fail_if (token =?s "") || ((1 <? blen token) && has_prefix token "0")
        with Errorf "invalid JSON Pointer array index %q" [token] ;;
      fail_if negb (all_bytes is_digit token)
        with Errorf "invalid JSON Pointer array index %q" [token] ;;
      match parse_uint 10 64 token with
      | None => Ok None
      | Some index => Ok (if Z.of_nat (List.length l) <=? index then None else l !! Z.to_nat index)
      end
  | _ => Ok None
  end.

Fixpoint resolve_tokens (v : json) (tokens : list string) : result (option json) :=
  match tokens with
  | [] => Ok (Some v)
  | t :: tokens =>
      let? next := resolve_token v t in
      match next with
      | None => Ok None
      | Some w => resolve_tokens w tokens
      end
  end.

Definition resolvePointer (v : json) (pointer : string) : result (option json) :=
  let? tokens := pointerTokens pointer in
  resolve_tokens v tokens.

Definition allowed_pointers (op : string) : list string :=
  if op =?s "clock.read" then ["realtime"; "monotonic_ns"]
  else if op =?s "clock.set" then
    ["target"; "before"; "after"; "elapsed_ns"; "tolerance_ms"; "readback_valid"]
  else if op =?s "action.exec" then
    ["exit_code"; "stdout_json"; "stderr"; "stdout_truncated"; "stderr_truncated"; "before"; "after"]
  else if (op =?s "service.start") || (op =?s "service.stop") then
    ["service"; "running"; "before"; "after"; "stdout"; "stderr"]
  else [].
#[global] Arguments allowed_pointers : simpl never.

Definition mem (s : string) (l : list string) : bool := existsb (String.eqb s) l.

Definition availablePointer (op pointer : string) : result unit :=
  let? tokens := pointerTokens pointer in
  match tokens with
  | [] => Ok tt
  | t0 :: rest =>
      fail_if negb (mem t0 (allowed_pointers op))
        with Errorf "pointer %q references an unavailable %s observation" [pointer; op] ;;
      fail_if (0 <? List.length rest)%nat && (t0 <>?s "stdout_json")
              && (((t0 <>?s "before") && (t0 <>?s "after"))
                  || negb (List.length rest =? 1)%nat
                  || match rest with
                     | t1 :: _ => (t1 <>?s "realtime") && (t1 <>?s "monotonic_ns")
                     | [] => false
                     end)
        with Errorf "pointer %q references an unavailable typed observation" [pointer] ;;
      Ok tt
  end.

(** ** Evaluation *)

(** Object keys are written in sorted order. *)
Fixpoint insert_member (kv : string * json) (m : list (string * json)) : list (string * json) :=
  match m with
  | [] => [kv]
  | kv' :: m' => if String.leb kv.1 kv'.1 then kv :: m else kv' :: insert_member kv m'
  end.
Definition sort_members (m : list (string * json)) : list (string * json) :=
  fold_right insert_member [] m.
Fixpoint canonical (v : json) : json :=
  match v with
  | JArray l => JArray (map canonical l)
  | JObject m => JObject (sort_members (map (λ kv, (kv.1, canonical kv.2)) m))
  | _ => v
  end.
(** [json.Marshal] of a decoded [any]. *)
Definition marshal_any (v : json) : string := print (canonical v).

Definition ordering_ops : list string := ["gt"; "gte"; "lt"; "lte"]%string.
Definition cmp_holds (op : string) (cmp : Z) : bool :=
  if op =?s "gt" then 0 <? cmp
  else if op =?s "gte" then 0 <=? cmp
  else if op =?s "lt" then cmp <? 0
  else if op =?s "lte" then cmp <=? 0
  else false.

(** Does the comparison pass?  [actual] is what the pointer selected. *)
Definition assertion_pass (a : Assertion) (actual : option json) : result bool :=
  if a_op a =?s "exists" then Ok (match actual with Some _ => true | None => false end)
  else if a_op a =?s "absent" then Ok (match actual with Some _ => false | None => true end)
  else if mem (a_op a) ("eq" :: "ne" :: ordering_ops)%string then
    match actual with
    | None => Err (Errorf "assertion %q: required observation pointer %q unavailable"
                     [a_id a; a_pointer a])
    | Some actual =>
        let? expected := map_err (Wrapf "assertion %q: invalid expected value: %w" [a_id a])
                                 (Decode dec_any JNull (a_value a)) in
        if (a_op a =?s "eq") || (a_op a =?s "ne") then
          let? same := map_err (Wrapf "assertion %q: %w" [a_id a]) (equal actual expected) in
          Ok (if a_op a =?s "ne" then negb same else same)
        else
          match actual, expected with
          | JNumber x, JNumber y =>
              let? cmp := map_err (Wrapf "assertion %q: %w" [a_id a]) (compareNumbers x y) in
              Ok (cmp_holds (a_op a) cmp)
          | _, _ => Err (Errorf "assertion %q: ordering requires numeric observation and value" [a_id a])
          end
    end
  else Err (Errorf "assertion %q: unsupported operation %q" [a_id a; a_op a]).

Definition evaluate_one (observations : list (string * string)) (a : Assertion) : result AssertionResult :=
  match assoc (a_step a) observations with
  | None => Err (Errorf "assertion %q: required step observation %q unavailable" [a_id a; a_step a])
  | Some raw =>
      let? observation := map_err (Wrapf "assertion %q: malformed observation: %w" [a_id a])
                                  (Decode dec_any JNull raw) in
      let? actual := map_err (Wrapf "assertion %q: %w" [a_id a])
                             (resolvePointer observation (a_pointer a)) in
      let? pass := assertion_pass a actual in
      Ok {| r_id := a_id a; r_step := a_step a;
            r_status := if pass : bool then "PASS" else "FAIL";
            r_actual := match actual with Some v => marshal_any v | None => "" end;
            r_message := if pass then ""
                         else (a_op a +:+ " comparison at " +:+ a_pointer a +:+ " failed")%string |}
  end.

(** The results so far are returned with the error that stopped the loop. *)
Fixpoint Evaluate (assertions : list Assertion) (observations : list (string * string)) :
    list AssertionResult * option error :=
  match assertions with
  | [] => ([], None)
  | a :: assertions =>
      match evaluate_one observations a with
      | Err e => ([], Some e)
      | Ok r => let '(rs, e) := Evaluate assertions observations in (r :: rs, e)
      end
  end.

Definition sample_observation : string :=
  js "{'n':9007199254740993,'decimal':0.1,'array':[1,{'a':null}],'s':'1','a/b':{'~key':true},'':42}".
Definition sample_assertion (pointer op value : string) : Assertion :=
  {| a_id := "check"; a_step := "read"; a_pointer := pointer; a_op := op; a_value := js value |}.
Definition sample_status (pointer op value : string) : string :=
  match Evaluate [sample_assertion pointer op value] [("read", sample_observation)]%string with
  | ([r], None) => r_status r
  | _ => "ERROR"
  end.
Example evaluate_samples :
  map (λ t, sample_status t.1.1 t.1.2 t.2)
    [("/n", "eq", "9007199254740993"); ("/n", "eq", "9007199254740992");
     ("/n", "gt", "9007199254740992"); ("/decimal", "eq", "1e-1"); ("/s", "eq", "1");
     ("/array", "eq", "[1.0,{'a':null}]"); ("/a~1b/~0key", "eq", "true"); ("/", "eq", "42");
     ("/array/1/a", "exists", ""); ("/array/1/missing", "absent", ""); ("/array/1/a", "absent", "");
     ("/missing", "exists", ""); ("/array/-", "absent", ""); ("/array/01", "exists", "")]%string
  = ["PASS"; "FAIL"; "PASS"; "PASS"; "FAIL"; "PASS"; "PASS"; "PASS"; "PASS"; "PASS"; "FAIL";
     "FAIL"; "PASS"; "ERROR"]%string.
Proof. vm_compute. reflexivity. Qed.
