(* ===== verification/AssertionFacts.v ===== *)
(** * AssertionFacts: comparisons are exact, pointers follow RFC 6901, and the
    evaluation loop reports what the operations mean *)

From S2P Require Import Prelude GoLib Json JsonFacts GoTime GoText JsonUtil Assertions.
From Stdlib Require Import Ascii String QArith.QArith QArith.Qpower.
#[local] Open Scope Z_scope.

(** ** Exact numbers *)
Definition rat (p : Z * Z) : Q := (inject_Z p.1 * Qpower (inject_Z 10) p.2)%Q.
(** The rational number a literal denotes. *)
Definition num_q (lit : string) : option Q := rat <$> num_parts lit.

Definition sign_of (c : comparison) : Z := match c with Lt => -1 | Eq => 0 | Gt => 1 end.

Lemma rat_scale m e k : k ≤ e →
  (rat (m, e) == inject_Z (m * 10 ^ (e - k)) * Qpower (inject_Z 10) k)%Q.
Proof.
  intros Hk. unfold rat. cbn. rewrite inject_Z_mult, Zpower_Qpower by lia.
  rewrite <-Qmult_assoc, <-Qpower_plus by done. by replace (e - k + k) with e by lia.
Qed.

Lemma Qcompare_scale a b p :
  (0 < p)%Q → Qcompare (inject_Z a * p) (inject_Z b * p) = Z.compare a b.
Proof.
  intros Hp. destruct (Z.compare_spec a b) as [->|H|H].
  - by apply Qeq_alt.
  - apply Qlt_alt, Qmult_lt_r; [done|]. by rewrite <-Zlt_Qlt.
  - apply Qgt_alt, Qmult_lt_r; [done|]. by rewrite <-Zlt_Qlt.
Qed.

Lemma rat_cmp_spec x y : rat_cmp x y = sign_of (Qcompare (rat x) (rat y)).
Proof.
  destruct x as [m1 e1], y as [m2 e2]. unfold rat_cmp. cbn [fst snd].
  rewrite (rat_scale m1 e1 (Z.min e1 e2)), (rat_scale m2 e2 (Z.min e1 e2)) by lia.
  rewrite Qcompare_scale by (by apply Qpower_0_lt). by destruct (_ ?= _).
Qed.

(** *** Every JSON number literal has a value *)
Definition accepts (st : nstate) (s : string) : Prop :=
  match num_run st s with Some st' => num_final st' = true | None => False end.

Lemma digit_not_exp c : is_digit c = true → is_one_of [69; 101] c = false.
Proof. unfold is_digit, is_one_of, in_range. cbn [existsb]. lia. Qed.
Lemma minus_not_exp c : bz c = 45 → is_one_of [69; 101] c = false.
Proof. unfold is_one_of. cbn [existsb]. lia. Qed.

Lemma frac_digits s : accepts NFrac s → all_bytes is_digit (cut_exp s).1 = true.
Proof.
  unfold accepts. induction s as [|c s IH]; cbn [num_run cut_exp]; [done|].
  destruct (is_one_of [69; 101] c) eqn:Ee; [done|].
  destruct (num_step NFrac c) eqn:E; [|done]. intros H.
  destruct (cut_exp s) as [m e]. cbn in *.
  assert (is_digit c = true ∧ n = NFrac) as [-> ->]; [|by rewrite IH].
  unfold num_step in E. rewrite Ee in E. by destruct (is_digit c); simplify_eq.
Qed.

Lemma int_parts st s : (st = NInt ∨ st = NZero) → accepts st s →
  all_bytes is_digit (cut "." (cut_exp s).1).1.1 = true
  ∧ all_bytes is_digit (cut "." (cut_exp s).1).1.2 = true.
Proof.
  unfold accepts. revert st; induction s as [|c s IH]; intros st Hst; cbn [num_run cut_exp]; [done|].
  destruct (is_one_of [69; 101] c) eqn:Ee; [done|].
  destruct (num_step st c) as [st'|] eqn:E; [|done]. intros H.
  destruct (Z.eqb_spec (bz c) 46) as [Hdot|Hdot].
  - assert (c = "."%char) as -> by (rewrite <-(ascii_N_embedding c); unfold bz in Hdot;
      apply (N2Z.inj _ 46) in Hdot; by rewrite Hdot).
    assert (st' = NDot) as -> by (destruct Hst as [-> | ->]; vm_compute in E; congruence).
    destruct s as [|d s]; [done|]. cbn [num_run cut_exp] in *.
    destruct (num_step NDot d) eqn:E2; [|done].
    assert (is_digit d = true ∧ n = NFrac ∧ is_one_of [69; 101] d = false) as (Hd & -> & ->).
    { unfold num_step in E2. destruct (is_digit d) eqn:Ed; [|done]. split_and!; [done|congruence|].
      by apply digit_not_exp. }
    pose proof (frac_digits s H) as Hf. destruct (cut_exp s) as [m e]. cbn in *. by rewrite Hd.
  - assert (is_digit c = true ∧ st' = NInt) as [Hd ->].
    { unfold num_step in E. rewrite Ee, (proj2 (Z.eqb_neq _ _) Hdot) in E.
      destruct Hst as [-> | ->]; [|done]. by destruct (is_digit c); simplify_eq. }
    specialize (IH NInt (or_introl eq_refl) H). destruct (cut_exp s) as [m e]. cbn in *.
    destruct (Ascii.eqb_spec c ".") as [->|_]; [done|].
    destruct (cut "." m) as [[i f] b]. cbn in *. by rewrite Hd.
Qed.

Lemma digits_go_total acc s : all_bytes is_digit s = true → is_Some (digits_go 10 acc s).
Proof.
  revert acc; induction s as [|c s IH]; intros acc; cbn; [by eexists|]. intros H. to_prop.
  unfold digit_val. rewrite H. rewrite (proj2 (Z.ltb_lt _ _)); [by apply IH|].
  unfold is_digit, in_range in H. to_prop. lia.
Qed.


Lemma num_parts_total lit : valid_number lit = true → is_Some (num_parts lit).
Proof.
  intros Hv. unfold num_parts. rewrite Hv. unfold valid_number in Hv.
  assert (Hint : ∀ d s st, (st = NInt ∨ st = NZero) → num_step NNeg d = Some st → accepts st s →
    ∃ i f b, cut "." (cut_exp (String d s)).1 = (i, f, b) ∧ is_Some (digits 10 (i +:+ f))
             ∧ (bz d =? 45) = false).
  { intros d s st Hst Hd Hs. destruct (int_parts st s Hst Hs) as [Hi Hf]. cbn [cut_exp].
    assert (is_digit d = true ∧ is_one_of [69; 101] d = false ∧ Ascii.eqb d "." = false
            ∧ (bz d =? 45) = false) as (Hdd & -> & Hndot & Hneg).
    { clear -Hd. destruct d as [[] [] [] [] [] [] [] []]; vm_compute in Hd |- *; try done. }
    destruct (cut_exp s) as [m e]. cbn in *. rewrite Hndot.
    destruct (cut "." m) as [[i f] b]. cbn in *. eexists _, _, _. split; [done|]. split; [|done].
    apply (digits_go_total 0 (String d (i +:+ f))). cbn [all_bytes].
    by rewrite all_bytes_app, Hdd, Hi, Hf. }
  destruct lit as [|c lit]; [done|]. cbn [num_run] in Hv.
  destruct (num_step NStart c) as [st|] eqn:E; [|done].
  destruct (Z.eqb_spec (bz c) 45) as [Hc|Hc].
  - assert (st = NNeg) as -> by (unfold num_step in E; rewrite Hc in E; cbn in E; congruence).
    cbn [cut_exp]. rewrite (minus_not_exp _ Hc).
    destruct lit as [|d lit]; [done|]. cbn [num_run] in Hv.
    destruct (num_step NNeg d) as [st|] eqn:E2; [|done].
    destruct (Hint d lit st) as (i & f & b & Hcut & [n Hn] & _); [|done| |].
    { unfold num_step in E2. repeat case_match; simplify_eq; auto. }
    { unfold accepts. by destruct (num_run st lit). }
    destruct (cut_exp (String d lit)) as [m e]. cbn [fst] in Hcut. rewrite Hc. cbn iota.
    change (45 =? 45) with true. cbn iota. rewrite Hcut, Hn. by eexists.
  - assert (num_step NNeg c = Some st).
    { unfold num_step in *. by rewrite (proj2 (Z.eqb_neq _ _) Hc) in E. }
    destruct (Hint c lit st) as (i & f & b & Hcut & [n Hn] & Hneg); [|done| |].
    { unfold num_step in *. repeat case_match; simplify_eq; auto. }
    { unfold accepts. by destruct (num_run st lit). }
    assert (Hm : ∃ m', (cut_exp (String c lit)).1 = String c m').
    { cbn [cut_exp]. assert (is_one_of [69; 101] c = false) as ->.
      { clear -H. destruct c as [[] [] [] [] [] [] [] []]; vm_compute in H |- *; try done. }
      destruct (cut_exp lit). cbn. eauto. }
    destruct Hm as [m' Hm]. destruct (cut_exp (String c lit)) as [m e]. cbn [fst] in *. subst m.
    rewrite Hneg. rewrite Hcut, Hn. by eexists.
Qed.

Lemma compareNumbers_value a b qa qb :
  ValidateNumber a = Ok tt → ValidateNumber b = Ok tt → num_q a = Some qa → num_q b = Some qb →
  compareNumbers a b = Ok (sign_of (Qcompare qa qb)).
Proof.
  unfold num_q, compareNumbers. intros Ha Hb. cbn. rewrite Ha, Hb. cbn.
  destruct (num_parts a) as [x|]; [|done]. destruct (num_parts b) as [y|]; [|done].
  cbn. intros [= <-] [= <-]. by rewrite rat_cmp_spec.
Qed.

Lemma num_q_total lit : valid_number lit = true → is_Some (num_q lit).
Proof. intros [p Hp]%num_parts_total. unfold num_q. rewrite Hp. by eexists. Qed.

Lemma compareNumbers_total a b :
  ValidateNumber a = Ok tt → ValidateNumber b = Ok tt →
  valid_number a = true → valid_number b = true →
  ∃ qa qb, num_q a = Some qa ∧ num_q b = Some qb ∧
    compareNumbers a b = Ok (sign_of (Qcompare qa qb)).
Proof.
  intros Ha Hb [qa Hqa]%num_q_total [qb Hqb]%num_q_total. exists qa, qb.
  split_and!; [done..|]. by apply compareNumbers_value.
Qed.

(** ** Typed equality *)

(** The meaning of [eq]: types are kept apart, numbers compare as rationals,
    arrays pointwise and objects as finite maps. *)
#[warnings="-register-all"]
Inductive jeq : json → json → Prop :=
| jeq_null : jeq JNull JNull
| jeq_bool b : jeq (JBool b) (JBool b)
| jeq_string s : jeq (JString s) (JString s)
| jeq_number a b qa qb :
    num_q a = Some qa → num_q b = Some qb → (qa == qb)%Q → jeq (JNumber a) (JNumber b)
| jeq_array l1 l2 : Forall2 jeq l1 l2 → jeq (JArray l1) (JArray l2)
| jeq_object m1 m2 :
    (∀ k, option_Forall2 jeq (assoc k m1) (assoc k m2)) → jeq (JObject m1) (JObject m2).


(** Two key sets of the same size, one inside the other, are the same. *)
Lemma keys_pigeonhole {A B} (x : list (string * A)) (y : list (string * B)) :
  NoDup x.*1 → List.length x = List.length y → (∀ k, k ∈ x.*1 → k ∈ y.*1) →
  ∀ k, k ∈ y.*1 → k ∈ x.*1.
Proof.
  intros Hnd Hlen Hsub k. rewrite !list_elem_of_In.
  apply (NoDup_length_incl (l := x.*1)); [by apply NoDup_ListNoDup| |].
  - rewrite !length_fmap. lia.
  - intros k'. rewrite <-!list_elem_of_In. apply Hsub.
Qed.

Lemma decoded_array l : decoded (JArray l) → Forall decoded l.
Proof.
  unfold decoded, unique_keys, bounded_numbers, valid_numbers. cbn.
  rewrite !list_all_Forall. intros ([_ H1] & [_ H2] & [_ H3]). rewrite !Forall_forall in *.
  intros x Hx. split_and!; [by apply H1|by apply H2|by apply H3].
Qed.
Lemma decoded_object m : decoded (JObject m) → NoDup m.*1 ∧ Forall (λ kv, decoded kv.2) m.
Proof.
  unfold decoded, unique_keys, bounded_numbers, valid_numbers. cbn.
  rewrite !list_all_Forall. intros ([Hn H1] & [_ H2] & [_ H3]). split; [done|].
  rewrite !Forall_forall in *. intros x Hx.
  split_and!; [by apply H1|by apply H2|by apply H3].
Qed.
Lemma decoded_number n : decoded (JNumber n) → ValidateNumber n = Ok tt ∧ valid_number n = true.
Proof. unfold decoded, unique_keys, bounded_numbers, valid_numbers. cbn. naive_solver. Qed.

Section loops_meaning.
Context (eq : json → json → result bool) (R : json → json → Prop).

Lemma all_equal_meaning x y :
  List.length x = List.length y →
  Forall (λ a, ∀ b, b ∈ y → ∃ r, eq a b = Ok r ∧ (r = true ↔ R a b)) x →
  ∃ r, all_equal eq x y = Ok r ∧ (r = true ↔ Forall2 R x y).
Proof.
  revert y; induction x as [|a x IH]; intros [|b y] Hlen Hall; try done; cbn.
  { exists true. split; [done|]. split; [constructor|done]. }
  apply Forall_cons in Hall as [Ha Hx]. destruct (Ha b) as (r & -> & Hr); [left|]. cbn.
  destruct r.
  - destruct (IH y) as (r & -> & Hr'); [by injection Hlen| |].
    { eapply Forall_impl; [exact Hx|]. intros a' Ha' b' Hb'. apply Ha'. by right. }
    exists r. split; [done|]. rewrite Forall2_cons, Hr'. naive_solver.
  - exists false. split; [done|]. rewrite Forall2_cons. naive_solver.
Qed.

Lemma members_equal_meaning x y :
  Forall (λ kv, ∀ w, assoc kv.1 y = Some w → ∃ r, eq kv.2 w = Ok r ∧ (r = true ↔ R kv.2 w)) x →
  ∃ r, members_equal eq y x = Ok r ∧
    (r = true ↔ Forall (λ kv, ∃ w, assoc kv.1 y = Some w ∧ R kv.2 w) x).
Proof.
  induction 1 as [|[k v] x Hkv _ IH]; cbn.
  { exists true. split; [done|]. split; [constructor|done]. }
  setoid_rewrite Forall_cons. cbn in *. destruct (assoc k y) as [w|]; [|exists false; naive_solver].
  destruct (Hkv w eq_refl) as (r & -> & Hr). cbn. destruct r; [|exists false; naive_solver].
  destruct IH as (r & -> & Hr'). exists r. naive_solver.
Qed.
End loops_meaning.

Lemma equal_meaning a b :
  decoded a → decoded b → ∃ r, equal a b = Ok r ∧ (r = true ↔ jeq a b).
Proof.
  revert b. induction a as [|x|n|s|l IH|m IH] using json_nested_ind; intros b Ha Hb.
  - exists (match b with JNull => true | _ => false end). split; [done|].
    destruct b; split; (done || (intros; constructor) || inversion 1).
  - eexists. split; [done|]. destruct b as [|y| | | |]; try (split; [done|inversion 1]).
    rewrite eqb_true_iff. split; [intros ->; constructor|by inversion 1].
  - destruct b as [| |n'| | |]; try (exists false; split; [done|]; split; [done|inversion 1]).
    apply decoded_number in Ha as [? ?], Hb as [? ?].
    destruct (compareNumbers_total n n') as (qa & qb & Hqa & Hqb & Hc); [done..|].
    cbn. rewrite Hc. cbn. eexists. split; [done|]. rewrite Z.eqb_eq. split.
    + intros Hs. apply (jeq_number _ _ qa qb); [done..|].
      apply Qeq_alt. by destruct (qa ?= qb)%Q.
    + inversion 1; simplify_eq. by rewrite (proj1 (Qeq_alt _ _)).
  - eexists. split; [done|]. destruct b as [| | |s'| |]; try (split; [done|inversion 1]).
    rewrite String.eqb_eq. split; [intros ->; constructor|by inversion 1].
  - destruct b as [| | | |l'|]; try (exists false; split; [done|]; split; [done|inversion 1]).
    cbn. destruct (Nat.eqb_spec (List.length l) (List.length l')) as [Hlen|Hlen]; cbn.
    + destruct (all_equal_meaning equal jeq l l') as (r & Hr & Hiff); [done| |].
      { apply decoded_array in Ha, Hb. rewrite !Forall_forall in *. eauto. }
      exists r. split; [done|]. rewrite Hiff. split; [by constructor|by inversion 1].
    + exists false. split; [done|]. split; [done|]. inversion 1; subst.
      exfalso. by eapply Hlen, Forall2_length.
  - destruct b as [| | | | |m']; try (exists false; split; [done|]; split; [done|inversion 1]).
    apply decoded_object in Ha as [Hna Ha], Hb as [Hnb Hb]. cbn.
    assert (Hkeys : jeq (JObject m) (JObject m') → List.length m = List.length m').
    { inversion 1 as [| | | | |? ? Hk]; subst.
      assert (Hsame : ∀ k, k ∈ m.*1 ↔ k ∈ m'.*1).
      { intros k. specialize (Hk k). pose proof (assoc_none k m). pose proof (assoc_none k m').
        destruct Hk; [|naive_solver].
        split; intros _; apply dec_stable; naive_solver. }
      rewrite <-(length_fmap fst m), <-(length_fmap fst m').
      apply Permutation_length, NoDup_Permutation; done. }
    destruct (Nat.eqb_spec (List.length m) (List.length m')) as [Hlen|Hlen]; cbn;
      [|exists false; split; [done|]; split; [done|]; intros H%Hkeys; done].
    destruct (members_equal_meaning equal jeq m m') as (r & Hr & Hiff).
    { rewrite !Forall_forall in *. intros [k v] Hin w Hw. apply (IH (k, v)); [done..|by apply (Ha (k, v))|].
      apply assoc_in in Hw. by apply (Hb (k, w)). }
    exists r. split; [done|]. rewrite Hiff. rewrite Forall_forall. split.
    + intros Hall. constructor. intros k. destruct (assoc k m) as [v|] eqn:Ek.
      * apply assoc_in in Ek. destruct (Hall _ Ek) as (w & Hw & ?). cbn in *. rewrite Hw. by constructor.
      * apply assoc_none in Ek. rewrite (proj2 (assoc_none k m')); [constructor|].
        intros Hin. apply Ek. eapply (keys_pigeonhole m m'); [done..| |done].
        intros k' ([k0 v] & -> & Hkv)%list_elem_of_fmap. destruct (Hall _ Hkv) as (w & Hw & _).
        apply assoc_in in Hw. apply list_elem_of_fmap. by exists (k0, w).
    + inversion 1 as [| | | | |? ? Hk]; subst. intros [k v] Hin. specialize (Hk k).
      rewrite (assoc_unique k v m) in Hk by done. inversion Hk; subst. eauto.
Qed.

(** ** JSON Pointers *)

(** The RFC 6901 spelling of a reference token and of a token list. *)
Fixpoint escape (token : string) : string :=
  match token with
  | EmptyString => ""
  | String c r =>
      if bz c =? 126 then String "~" (String "0" (escape r))
      else if bz c =? 47 then String "~" (String "1" (escape r))
      else String c (escape r)
  end.
Fixpoint render (tokens : list string) : string :=
  match tokens with
  | [] => ""
  | t :: tokens => String "/" (escape t +:+ render tokens)
  end.


Lemma bz_char c d : bz c = bz d → c = d.
Proof.
  unfold bz. intros H%N2Z.inj. rewrite <-(ascii_N_embedding c), <-(ascii_N_embedding d). congruence.
Qed.

Lemma escape_no_slash t : no_slash (escape t).
Proof.
  unfold no_slash. induction t as [|c t IH]; cbn; [done|].
  destruct (bz c =? 126); [done|]. destruct (Z.eqb_spec (bz c) 47) as [|Hc]; [done|].
  cbn. rewrite IH, andb_true_r. destruct (Ascii.eqb_spec c "/") as [->|]; [|done].
  by exfalso; apply Hc.
Qed.

Lemma unescape_escape t : unescape (escape t) = Ok t.
Proof.
  induction t as [|c t IH]; cbn [escape]; [done|].
  destruct (Z.eqb_spec (bz c) 126) as [Hc|Hc].
  { cbn. change (bz "~" =? 126) with true. change (bz "0" =? 48) with true. cbn.
    rewrite IH. cbn. do 2 f_equal. symmetry. by apply bz_char. }
  destruct (Z.eqb_spec (bz c) 47) as [Hc'|Hc'].
  { cbn. change (bz "~" =? 126) with true. change (bz "1" =? 48) with false.
    change (bz "1" =? 49) with true. cbn. rewrite IH. cbn. do 2 f_equal. symmetry. by apply bz_char. }
  cbn. rewrite (proj2 (Z.eqb_neq _ _) Hc). cbn. by rewrite IH.
Qed.

Lemma escape_unescape t u : no_slash t → unescape t = Ok u → escape u = t.
Proof.
  unfold no_slash. remember (String.length t) as n eqn:Hn. revert t u Hn.
  induction (lt_wf n) as [n _ IH]; intros t u -> Hs Hu. destruct t as [|c t]; cbn in *; [by simplify_eq|].
  to_prop. destruct (Z.eqb_spec (bz c) 126) as [Hc|Hc]; cbn in Hu.
  - assert (c = "~"%char) as -> by (by apply bz_char). destruct t as [|d t]; [done|].
    cbn in *. to_prop.
    destruct (Z.eqb_spec (bz d) 48) as [Hd|Hd]; [|destruct (Z.eqb_spec (bz d) 49) as [Hd'|?]; [|done]];
      inv_ok Hu; injection Hu as <-; cbn;
      match goal with E : unescape t = Ok _ |- _ => apply (IH (String.length t)) in E; [|lia|done|done] end;
      f_equal; [assert (d = "0"%char) as -> by (by apply bz_char)|assert (d = "1"%char) as -> by (by apply bz_char)];
      congruence.
  - inv_ok Hu. injection Hu as <-. apply (IH (String.length t)) in E; [|lia|done|done]. cbn.
    rewrite (proj2 (Z.eqb_neq _ _) Hc). destruct (Z.eqb_spec (bz c) 47) as [Hc'|_]; [|congruence].
    exfalso. assert (c = "/"%char) as -> by (by apply bz_char). done.
Qed.

Lemma render_join t ts : render (t :: ts) = String "/" (join_slash (map escape (t :: ts))).
Proof.
  revert t; induction ts as [|u ts IH]; intros t; cbn; [by rewrite sapp_nil_r|].
  f_equal. specialize (IH u). cbn in IH. by rewrite IH.
Qed.

Lemma pointerTokens_render p ts :
  pointerTokens p = Ok ts ↔ p = render ts ∧ blen p ≤ 4096.
Proof.
  unfold pointerTokens. destruct (String.eqb_spec p "") as [->|Hp].
  { split; [intros [= <-]; done|]. intros [Hr _]. destruct ts; [done|]. by rewrite render_join in Hr. }
  destruct p as [|c p]; [done|]. split.
  - intros H. inv_ok H. to_prop. unfold has_prefix in *. cbn [strip_prefix] in *.
    destruct (Ascii.eqb_spec "/" c) as [<-|]; [|done]. split; [|done].
    cbn [string_drop] in H. apply traverse_ok in H. destruct (split_join p) as (Hj & Hns & Hne).
    assert (Hts : map escape ts = split_on "/" p).
    { clear Hj Hne. induction H as [|x y l k Hxy _ IH]; [done|].
      apply Forall_cons in Hns as [? ?]. cbn. by rewrite IH, (escape_unescape x y). }
    destruct ts as [|t ts]; [destruct (split_on "/" p); done|]. by rewrite render_join, Hts, Hj.
  - intros [Hr Hl]. destruct ts as [|t ts]; [done|]. rewrite render_join in Hr.
    remember (join_slash (map escape (t :: ts))) as J eqn:HJ. injection Hr as -> ->. subst J.
    unfold has_prefix. cbn [strip_prefix string_drop].
    rewrite (proj2 (Z.ltb_ge _ _) Hl), Ascii.eqb_refl. cbn [orb negb].
    rewrite split_join_inv; [|done|apply Forall_fmap, Forall_forall; intros; apply escape_no_slash].
    apply traverse_ok, Forall2_fmap_l, Forall_Forall2_diag, Forall_forall.
    intros; apply unescape_escape.
Qed.

(** An array index: decimal digits without leading zeros, of machine width. *)
Definition array_index (t : string) (i : nat) : Prop :=
  digits 10 t = Some (Z.of_nat i) ∧ all_bytes is_digit t = true ∧ Z.of_nat i < 2 ^ 64 ∧
  (has_prefix t "0" = true → blen t ≤ 1).

Inductive resolves : json → list string → json → Prop :=
| resolves_here v : resolves v [] v
| resolves_member m k v ts w :
    assoc k m = Some v → resolves v ts w → resolves (JObject m) (k :: ts) w
| resolves_item l t i v ts w :
    array_index t i → l !! i = Some v → resolves v ts w → resolves (JArray l) (t :: ts) w.

Lemma digits_go_nonneg acc s n : 0 ≤ acc → digits_go 10 acc s = Some n → 0 ≤ n.
Proof.
  revert acc; induction s as [|c s IH]; intros acc Ha; cbn; [by intros [= <-]|].
  destruct (digit_val c) as [d|] eqn:Ed; [|done]. destruct (d <? 10); [|done]. apply IH.
  assert (0 ≤ d); [|lia]. revert Ed. unfold digit_val, is_digit, is_lower, is_upper, in_range.
  repeat case_match; intros; simplify_eq; to_prop; lia.
Qed.

Lemma resolve_token_item l t v :
  resolve_token (JArray l) t = Ok (Some v) ↔ ∃ i, array_index t i ∧ l !! i = Some v.
Proof.
  unfold resolve_token, array_index. split.
  - destruct (t =?s "-"); [done|]. intros H. inv_ok H. to_prop.
    unfold parse_uint in H. destruct (digits 10 t) as [n|] eqn:En; [|done].
    destruct (n <? 2 ^ 64) eqn:Hn; [|done]. destruct (_ <=? n) eqn:Hl; [done|]. to_prop.
    assert (0 ≤ n) by (destruct t; [done|]; eapply digits_go_nonneg; [|exact En]; lia).
    exists (Z.to_nat n). rewrite Z2Nat.id by done. split_and!; try done; [|congruence].
    intros Hp. rewrite Hp, andb_true_r in *. to_prop. lia.
  - intros (i & (Hd & Ha & Hw & Hz) & Hi).
    destruct (String.eqb_spec t "-") as [->|_]; [done|].
    destruct (String.eqb_spec t "") as [->|_]; [done|]. cbn.
    rewrite Ha. destruct (has_prefix t "0") eqn:Hp; rewrite ?andb_true_r, ?andb_false_r.
    2: cbn. 1: rewrite (proj2 (Z.ltb_ge _ _)) by (by apply Hz); cbn.
    all: unfold parse_uint; rewrite Hd, (proj2 (Z.ltb_lt _ _) Hw);
      assert (i < List.length l)%nat by (by eapply lookup_lt_Some);
      rewrite (proj2 (Z.leb_gt _ _)), Nat2Z.id by lia; by rewrite Hi.
Qed.

Lemma resolve_tokens_spec v ts w : resolve_tokens v ts = Ok (Some w) ↔ resolves v ts w.
Proof.
  revert v; induction ts as [|t ts IH]; intros v; cbn [resolve_tokens].
  { split; [intros [= <-]; constructor|by inversion 1]. }
  rewrite rbind_ok. split.
  - intros (o & Ho & H). destruct o as [x|]; [|done]. apply IH in H.
    destruct v; cbn [resolve_token] in Ho; try done.
    + apply resolve_token_item in Ho as (i & ? & ?). by eapply resolves_item.
    + injection Ho as Ho. by eapply resolves_member.
  - inversion 1; subst.
    + exists (Some v0). split; [cbn; by f_equal|]. by apply IH.
    + exists (Some v0). split; [apply resolve_token_item; eauto|]. by apply IH.
Qed.

(** ** Evaluation *)

(** What an assertion claims about the value its pointer selects. *)
Definition q_order (op : string) (x y : Q) : Prop :=
  (op = "gt"%string ∧ (y < x)%Q) ∨ (op = "gte"%string ∧ (y <= x)%Q) ∨
  (op = "lt"%string ∧ (x < y)%Q) ∨ (op = "lte"%string ∧ (x <= y)%Q).

Definition claims (a : Assertion) (actual : option json) : Prop :=
  match actual with
  | None => a_op a = "absent"%string
  | Some v =>
      a_op a = "exists"%string ∨
      ∃ e, Decode dec_any JNull (a_value a) = Ok e ∧
        ((a_op a = "eq"%string ∧ jeq v e) ∨ (a_op a = "ne"%string ∧ ¬ jeq v e) ∨
         ∃ x y qx qy, v = JNumber x ∧ e = JNumber y ∧ num_q x = Some qx ∧ num_q y = Some qy
                      ∧ q_order (a_op a) qx qy)
  end.

Lemma cmp_holds_order op qx qy :
  mem op ordering_ops = true → cmp_holds op (sign_of (Qcompare qx qy)) = true ↔ q_order op qx qy.
Proof.
  intros Hm. unfold mem, ordering_ops in Hm. cbn [existsb] in Hm.
  assert (op = "gt" ∨ op = "gte" ∨ op = "lt" ∨ op = "lte")%string as Hop.
  { rewrite !orb_true_iff, !String.eqb_eq in Hm. naive_solver. }
  unfold q_order. destruct Hop as [-> | [-> | [-> | ->]]]; cbn;
    rewrite (Qgt_alt qx qy), (Qge_alt qx qy), (Qlt_alt qx qy), (Qle_alt qx qy);
    destruct (qx ?= qy)%Q; cbn; intuition congruence.
Qed.

Lemma assertion_pass_claims a actual r :
  (∀ v, actual = Some v → decoded v) →
  assertion_pass a actual = Ok r → (r = true ↔ claims a actual).
Proof.
  intros Hdec. unfold assertion_pass, claims.
  destruct (String.eqb_spec (a_op a) "exists") as [->|Hex].
  { intros [= <-]. destruct actual; naive_solver. }
  destruct (String.eqb_spec (a_op a) "absent") as [->|Hab].
  { intros [= <-]. destruct actual as [v|]; [|naive_solver].
    split; [done|]. unfold q_order. naive_solver. }
  destruct (mem (a_op a) _) eqn:Hm; [|done]. destruct actual as [v|]; [|done].
  intros H. inv_ok H. apply map_err_ok in E. rename a0 into e.
  pose proof (decode_any_decoded _ _ E) as He. specialize (Hdec v eq_refl).
  assert (Huniq : ∀ e', Decode dec_any JNull (a_value a) = Ok e' → e' = e) by congruence.
  destruct (String.eqb_spec (a_op a) "eq") as [Heq|Hneq]; cbn [orb] in H.
  { rewrite Heq in *. inv_ok H. apply map_err_ok in E0. injection H as <-.
    destruct (equal_meaning v e) as (b & Hb & Hiff); [done..|]. rewrite Hb in E0. injection E0 as ->.
    rewrite Hiff. unfold q_order. naive_solver. }
  destruct (String.eqb_spec (a_op a) "ne") as [Hne|Hnne]; cbn [orb] in H.
  { rewrite Hne in *. inv_ok H. apply map_err_ok in E0. injection H as <-.
    destruct (equal_meaning v e) as (b & Hb & Hiff); [done..|]. rewrite Hb in E0. injection E0 as ->.
    rewrite negb_true_iff, <-not_true_iff_false, Hiff. unfold q_order. naive_solver. }
  destruct v as [| |x| | |]; try done. destruct e as [| |y| | |]; try done.
  inv_ok H. apply map_err_ok in E0. injection H as <-.
  apply decoded_number in Hdec as [? ?], He as [? ?].
  destruct (compareNumbers_total x y) as (qx & qy & Hqx & Hqy & Hc); [done..|].
  rewrite Hc in E0. injection E0 as <-. rewrite cmp_holds_order; [naive_solver|].
  unfold mem in *. cbn [existsb] in Hm. by rewrite !(proj2 (String.eqb_neq _ _)) in Hm by done.
Qed.

Lemma resolves_decoded v ts w : resolves v ts w → decoded v → decoded w.
Proof.
  induction 1 as [|m k v ts w Hk _ IH|l t i v ts w _ Hl _ IH]; intros Hd; [done|..]; apply IH.
  - apply decoded_object in Hd as [_ Hd]. rewrite Forall_forall in Hd. by apply (Hd (k, v)), assoc_in.
  - apply decoded_array in Hd. rewrite Forall_forall in Hd. apply Hd. by eapply list_elem_of_lookup_2.
Qed.

(** What one result says: it names its assertion, and it is PASS exactly when the
    assertion holds of the value the pointer selects in the step's observation. *)
Definition result_means (obs : list (string * string)) (a : Assertion) (r : AssertionResult) : Prop :=
  r_id r = a_id a ∧ r_step r = a_step a ∧ (r_status r = "PASS" ∨ r_status r = "FAIL")%string ∧
  ∃ raw v actual,
    assoc (a_step a) obs = Some raw ∧ Decode dec_any JNull raw = Ok v ∧
    resolvePointer v (a_pointer a) = Ok actual ∧
    (r_status r = "PASS"%string ↔ claims a actual).

Lemma evaluate_one_means obs a r : evaluate_one obs a = Ok r → result_means obs a r.
Proof.
  unfold evaluate_one, result_means. destruct (assoc (a_step a) obs) as [raw|]; [|done].
  intros H. inv_ok H. injection H as <-. cbn. apply map_err_ok in E, E0.
  split_and!; [done..|by destruct a2; [left|right]|].
  exists raw, a0, a1. split_and!; [done..|].
  rewrite <-(assertion_pass_claims a a1 a2); [by destruct a2| |done].
  intros v ->. unfold resolvePointer in E0. apply rbind_ok in E0 as (ts & _ & Hts).
  apply resolve_tokens_spec in Hts. eapply resolves_decoded; [done|]. by eapply decode_any_decoded.
Qed.

Lemma evaluate_prefix asserts obs rs e :
  Evaluate asserts obs = (rs, e) →
  ∃ done_ rest, asserts = done_ ++ rest ∧ Forall2 (λ a r, evaluate_one obs a = Ok r) done_ rs ∧
    match e with
    | None => rest = []
    | Some e => ∃ a tl, rest = a :: tl ∧ evaluate_one obs a = Err e
    end.
Proof.
  revert rs; induction asserts as [|a asserts IH]; intros rs; cbn.
  { intros [= <- <-]. exists [], []. split_and!; [done|constructor|done]. }
  destruct (evaluate_one obs a) as [r|e'] eqn:Ea.
  - destruct (Evaluate asserts obs) as [rs' e'']. intros [= <- <-].
    destruct (IH rs' eq_refl) as (d & t & -> & Hd & He). exists (a :: d), t.
    split_and!; [done|by constructor|done].
  - intros [= <- <-]. exists [], (a :: asserts). split_and!; [done|constructor|eauto].
Qed.

(** * Properties *)

(** [compareNumbers] on two JSON number literals within the parser limits
    never fails and is the order of the exact rational numbers they denote. *)
Theorem compare_numbers_exact a b :
  ValidateNumber a = Ok tt → ValidateNumber b = Ok tt →
  valid_number a = true → valid_number b = true →
  ∃ qa qb, num_q a = Some qa ∧ num_q b = Some qb ∧
    compareNumbers a b = Ok (sign_of (Qcompare qa qb)).
Proof. apply compareNumbers_total. Qed.

Lemma compare_numbers_exact_witness :
  ∃ qa qb, num_q "9007199254740993" = Some qa ∧ num_q "90071992547409925e-1" = Some qb ∧
    compareNumbers "9007199254740993" "90071992547409925e-1" = Ok (sign_of (Qcompare qa qb)).
Proof. by apply compare_numbers_exact. Defined.

(** C38.  [equal] on two decoded values never fails, and answers [true] exactly
    when the values are equal with types kept apart, numbers compared as
    rationals, arrays pointwise and objects as finite maps, whatever the order of
    their members. *)
Theorem equal_spec a b :
  decoded a → decoded b → ∃ r, equal a b = Ok r ∧ (r = true ↔ jeq a b).
Proof. apply equal_meaning. Qed.

Definition sample_left : json := JObject [("x", JNumber "1.0"); ("y", JArray [JNull])]%string.
Definition sample_right : json := JObject [("y", JArray [JNull]); ("x", JNumber "10e-1")]%string.
Lemma equal_spec_witness :
  ∃ r, equal sample_left sample_right = Ok r ∧ (r = true ↔ jeq sample_left sample_right).
Proof.
  apply equal_spec; unfold decoded, unique_keys, bounded_numbers, valid_numbers; cbn; split_and!; try done;
    repeat (constructor; [set_solver|]); constructor.
Defined.

(** [pointerTokens] is the exact inverse of the RFC 6901 spelling: a pointer
    of at most 4096 bytes is accepted exactly when it is the escaped form of the
    tokens returned. *)
Theorem pointer_tokens_spec p ts :
  pointerTokens p = Ok ts ↔ p = render ts ∧ blen p ≤ 4096.
Proof. apply pointerTokens_render. Qed.

(** [resolvePointer] finds a value exactly when the pointer spells a path of
    object members and in-range canonical array indices that leads to it. *)
Theorem resolve_pointer_spec v p w :
  resolvePointer v p = Ok (Some w) ↔
  ∃ ts, p = render ts ∧ blen p ≤ 4096 ∧ resolves v ts w.
Proof.
  unfold resolvePointer. rewrite rbind_ok.
  setoid_rewrite pointerTokens_render. setoid_rewrite resolve_tokens_spec. naive_solver.
Qed.

(** C37.  When [Evaluate] returns no error there is one result per assertion, in
    order, and each is PASS exactly when its assertion holds of the value selected
    in its step's observation; otherwise it is FAIL. *)
Theorem evaluate_sound asserts obs rs :
  Evaluate asserts obs = (rs, None) → Forall2 (result_means obs) asserts rs.
Proof.
  intros (d & t & -> & Hd & ->)%evaluate_prefix. rewrite app_nil_r.
  eapply Forall2_impl; [exact Hd|]. intros. by apply evaluate_one_means.
Qed.

Definition sample_assertions : list Assertion :=
  [sample_assertion "/n" "gt" "9007199254740992"; sample_assertion "/array/1" "eq" "{'a':0}"].
Lemma evaluate_sound_witness :
  ∃ rs, Evaluate sample_assertions [("read", sample_observation)]%string = (rs, None) ∧
    map r_status rs = ["PASS"; "FAIL"]%string ∧
    Forall2 (result_means [("read", sample_observation)]%string) sample_assertions rs.
Proof.
  eexists. split; [vm_compute; reflexivity|]. split; [reflexivity|].
  apply evaluate_sound. vm_compute. reflexivity.
Defined.

(** When [Evaluate] fails, the results it returns are exactly those of the
    assertions before the first one that could not be evaluated. *)
Theorem evaluate_error_prefix asserts obs rs e :
  Evaluate asserts obs = (rs, Some e) →
  ∃ before a after, asserts = before ++ a :: after ∧ evaluate_one obs a = Err e ∧
    Evaluate before obs = (rs, None) ∧ Forall2 (result_means obs) before rs.
Proof.
  intros (d & t & -> & Hd & a & tl & -> & Ha)%evaluate_prefix. exists d, a, tl.
  split_and!; [done..| |].
  - induction Hd as [|x y l k Hxy _ IH]; [done|]. cbn. by rewrite Hxy, IH.
  - eapply Forall2_impl; [exact Hd|]. intros. by apply evaluate_one_means.
Qed.

Lemma evaluate_error_prefix_witness :
  ∃ rs e before a after,
    Evaluate (sample_assertions ++ [sample_assertion "/missing" "eq" "1"])
             [("read", sample_observation)]%string = (rs, Some e) ∧
    sample_assertions ++ [sample_assertion "/missing" "eq" "1"] = before ++ a :: after ∧
    evaluate_one [("read", sample_observation)]%string a = Err e ∧
    Evaluate before [("read", sample_observation)]%string = (rs, None) ∧
    Forall2 (result_means [("read", sample_observation)]%string) before rs.
Proof.
  eexists _, _.
  edestruct evaluate_error_prefix as (b & a & t & H);
    [|exists b, a, t; split; [|exact H]]; vm_compute; reflexivity.
Defined.
