(* ===== verification/Scenario.v ===== *)
(** * Scenario: internal/scenario/scenario.go

    Decoding and validation of a portable temporal experiment.  [Decode] is the
    strict reader of a scenario file, [Validate] the semantic check of the whole
    plan, which also fills the defaults and normalizes timestamps to UTC.  Go maps
    are [gmap]s (lookup) or member lists (iteration); where the code ranges over a
    map to find some offending key, the model reports the first in list order. *)

From S2P Require Import Prelude GoLib Json JsonFacts GoTime JsonUtil Assertions.
From Stdlib Require Import Ascii String.

Definition APIVersion : string := "epoch/v1alpha1".
Definition MaxFileSize : Z := 1048576.
Definition MaxInputSize : Z := 65536.
Definition MaxSteps : Z := 128.
Definition MaxAssertions : Z := 128.
Definition MaxTimeoutMS : Z := 600000.

(** ** Patterns *)
Definition identifier (s : string) : bool :=
  ident is_alnum (λ c, is_alnum c || is_one_of [46; 95; 45] c) 63 s.
Definition workloadIdentifier (s : string) : bool :=
  ident is_alnum (λ c, is_alnum c || is_one_of [95; 45] c) 63 s.

Fixpoint match_classes (ps : list (ascii → bool)) (s : string) : option string :=
  match ps, s with
  | [], _ => Some s
  | p :: ps, String c r => if p c then match_classes ps r else None
  | _ :: _, EmptyString => None
  end.
Definition is_char (z : Z) : ascii → bool := is_one_of [z].

Definition zone_text (s : string) : bool :=
  if s =?s "Z" then true else
  match match_classes [is_one_of [43; 45]] s with
  | None => false
  | Some r =>
      match match_classes [in_range 48 49; is_digit; is_char 58; in_range 48 53; is_digit] r,
            match_classes [is_char 50; in_range 48 51; is_char 58; in_range 48 53; is_digit] r with
      | Some t, _ => t =?s ""
      | None, Some t => t =?s ""
      | None, None => false
      end
  end.

Definition timestamp (s : string) : bool :=
  match match_classes
          [is_digit; is_digit; is_digit; is_digit; is_char 45; is_digit; is_digit; is_char 45;
           is_digit; is_digit; is_char 84; is_digit; is_digit; is_char 58; is_digit; is_digit;
           is_char 58; is_digit; is_digit] s with
  | None => false
  | Some r =>
      match match_classes [is_char 46] r with
      | None => zone_text r
      | Some r' => let '(ds, rest) := span_digits r' in
                   (1 <=? blen ds) && (blen ds <=? 9) && zone_text rest
      end
  end.

(** ** Data *)
Record Resources := { VCPUCount : Z; MemoryMiB : Z }.

Record Step := {
  s_id : string;
  s_op : string;
  s_at : string;
  s_action : string;
  s_service : string;
  s_input : string;
  s_timeout : Z;
  s_duration : Z;
  s_allow_live : bool;
  s_tolerance : Z;
  s_expected : option Z;
  s_present : list (string * string)
}.

Record Scenario := {
  sc_api : string;
  sc_name : string;
  sc_image : string;
  sc_workload : string;
  sc_resources : Resources;
  sc_timeout : Z;
  sc_boot_timeout : Z;
  sc_steps : list Step;
  sc_assertions : list Assertion
}.

Definition zero_step : Step :=
  {| s_id := ""; s_op := ""; s_at := ""; s_action := ""; s_service := ""; s_input := "";
     s_timeout := 0; s_duration := 0; s_allow_live := false; s_tolerance := 0;
     s_expected := None; s_present := [] |}.

(** ** Struct destinations *)
Definition dec_resources : decoder Resources :=
  Build_decoder (TStruct [("vcpu_count", TInt 64); ("memory_mib", TInt 64)]%string)
    {| VCPUCount := 0; MemoryMiB := 0 |}
    (λ old raw,
       let? fs := struct_fields raw in
       let? v := get_field (dec_int 64) "vcpu_count" (VCPUCount old) fs in
       let? m := get_field (dec_int 64) "memory_mib" (MemoryMiB old) fs in
       Ok {| VCPUCount := v; MemoryMiB := m |}).

Definition step_type : gotype :=
  TStruct [("id", TString); ("op", TString); ("at", TString); ("action", TString);
           ("service", TString); ("input", TRaw); ("timeout_ms", TInt 64);
           ("duration_ms", TInt 64); ("allow_live", TBool); ("tolerance_ms", TInt 64);
           ("expected_exit_code", TPtr (TInt 64))]%string.

(** The [plain] alias inside [UnmarshalJSON]: the fields, without the method. *)
Definition dec_plain_step : decoder Step :=
  Build_decoder step_type zero_step
    (λ old raw,
       let? fs := struct_fields raw in
       let? id := get_field dec_string "id" (s_id old) fs in
       let? op := get_field dec_string "op" (s_op old) fs in
       let? at_ := get_field dec_string "at" (s_at old) fs in
       let? action := get_field dec_string "action" (s_action old) fs in
       let? service := get_field dec_string "service" (s_service old) fs in
       let? input := get_field dec_raw "input" (s_input old) fs in
       let? timeout := get_field (dec_int 64) "timeout_ms" (s_timeout old) fs in
       let? duration := get_field (dec_int 64) "duration_ms" (s_duration old) fs in
       let? live := get_field dec_bool "allow_live" (s_allow_live old) fs in
       let? tolerance := get_field (dec_int 64) "tolerance_ms" (s_tolerance old) fs in
       let? expected := get_field (dec_ptr (dec_int 64)) "expected_exit_code" (s_expected old) fs in
       Ok {| s_id := id; s_op := op; s_at := at_; s_action := action; s_service := service;
             s_input := input; s_timeout := timeout; s_duration := duration;
             s_allow_live := live; s_tolerance := tolerance; s_expected := expected;
             s_present := s_present old |}).

Definition with_present (s : Step) (fs : list (string * string)) : Step :=
  {| s_id := s_id s; s_op := s_op s; s_at := s_at s; s_action := s_action s;
     s_service := s_service s; s_input := s_input s; s_timeout := s_timeout s;
     s_duration := s_duration s; s_allow_live := s_allow_live s; s_tolerance := s_tolerance s;
     s_expected := s_expected s; s_present := fs |}.

Definition Step_UnmarshalJSON (data : string) : result Step :=
  let? v := JsonUtil.Decode dec_plain_step zero_step data in
  match raw_object data with
  | None => Err (Errorf "json: cannot unmarshal" [])
  | Some None => Err (Errorf "step must be an object" [])
  | Some (Some fs) =>
      do? each (λ kv : string * string,
                  fail_if (kv.1 <>?s "input") && is_null kv.2
                    with Errorf "step field %s cannot be null" [kv.1] ;; Ok tt) fs ;;
      Ok (with_present v fs)
  end.

Definition dec_step : decoder Step :=
  Build_decoder step_type zero_step (λ _ raw, Step_UnmarshalJSON raw).

Definition dec_assertion : decoder Assertion :=
  Build_decoder (TStruct [("id", TString); ("step", TString); ("pointer", TString);
                          ("op", TString); ("value", TRaw)]%string)
    {| a_id := ""; a_step := ""; a_pointer := ""; a_op := ""; a_value := "" |}
    (λ old raw,
       let? fs := struct_fields raw in
       let? id := get_field dec_string "id" (a_id old) fs in
       let? step := get_field dec_string "step" (a_step old) fs in
       let? pointer := get_field dec_string "pointer" (a_pointer old) fs in
       let? op := get_field dec_string "op" (a_op old) fs in
       let? value := get_field dec_raw "value" (a_value old) fs in
       Ok {| a_id := id; a_step := step; a_pointer := pointer; a_op := op; a_value := value |}).

Definition zero_scenario : Scenario :=
  {| sc_api := ""; sc_name := ""; sc_image := ""; sc_workload := "";
     sc_resources := {| VCPUCount := 0; MemoryMiB := 0 |}; sc_timeout := 0; sc_boot_timeout := 0;
     sc_steps := []; sc_assertions := [] |}.

Definition dec_scenario : decoder Scenario :=
  Build_decoder
    (TStruct [("api_version", TString); ("name", TString); ("image", TString); ("workload", TString);
              ("resources", go_type dec_resources); ("timeout_ms", TInt 64);
              ("boot_timeout_ms", TInt 64); ("steps", TSlice step_type);
              ("assertions", TSlice (go_type dec_assertion))]%string)
    zero_scenario
    (λ old raw,
       let? fs := struct_fields raw in
       let? api := get_field dec_string "api_version" (sc_api old) fs in
       let? name := get_field dec_string "name" (sc_name old) fs in
       let? image := get_field dec_string "image" (sc_image old) fs in
       let? workload := get_field dec_string "workload" (sc_workload old) fs in
       let? resources := get_field dec_resources "resources" (sc_resources old) fs in
       let? timeout := get_field (dec_int 64) "timeout_ms" (sc_timeout old) fs in
       let? boot := get_field (dec_int 64) "boot_timeout_ms" (sc_boot_timeout old) fs in
       let? steps := get_field (dec_slice dec_step) "steps" (sc_steps old) fs in
       let? assertions := get_field (dec_slice dec_assertion) "assertions" (sc_assertions old) fs in
       Ok {| sc_api := api; sc_name := name; sc_image := image; sc_workload := workload;
             sc_resources := resources; sc_timeout := timeout; sc_boot_timeout := boot;
             sc_steps := steps; sc_assertions := assertions |}).

(** ** One step *)

(** The operation's own fields, besides [id] and [op]. *)
Definition op_fields (op : string) : option (list string) :=
  if op =?s "clock.read" then Some []
  else if op =?s "clock.set" then Some ["at"; "allow_live"; "tolerance_ms"]%string
  else if op =?s "action.exec" then Some ["action"; "input"; "timeout_ms"; "expected_exit_code"]%string
  else if op =?s "service.start" then Some ["service"; "input"; "timeout_ms"]%string
  else if op =?s "service.stop" then Some ["service"; "timeout_ms"]%string
  else if op =?s "wait" then Some ["duration_ms"]%string
  else None.
#[global] Arguments op_fields : simpl never.

(** [json.Marshal(s)] seen as raw members: [omitempty] drops zero values. *)
Definition opt_field {A} (b : bool) (k : string) (v : A) : list (string * A) :=
  if b then [(k, v)] else [].
Definition current_fields (s : Step) : list (string * string) :=
  [("id", quote (s_id s)); ("op", quote (s_op s))]%string
  ++ opt_field (s_at s <>?s "") "at" (quote (s_at s))
  ++ opt_field (s_action s <>?s "") "action" (quote (s_action s))
  ++ opt_field (s_service s <>?s "") "service" (quote (s_service s))
  ++ opt_field (s_input s <>?s "") "input" (s_input s)
  ++ opt_field (negb (s_timeout s =? 0)) "timeout_ms" (itoa (s_timeout s))
  ++ opt_field (negb (s_duration s =? 0)) "duration_ms" (itoa (s_duration s))
  ++ opt_field (s_allow_live s) "allow_live" "true"%string
  ++ opt_field (negb (s_tolerance s =? 0)) "tolerance_ms" (itoa (s_tolerance s))
  ++ match s_expected s with Some n => [("expected_exit_code", itoa n)]%string | None => [] end.

Definition positive_field (present : list (string * string)) (key : string) : result unit :=
  match assoc key present with
  | None => Ok tt
  | Some raw =>
      match store (dec_int 64) 0 raw with
      | Ok n => fail_if n <=? 0 with Errorf "%s must be positive" [key] ;; Ok tt
      | Err _ => Err (Errorf "%s must be positive" [key])
      end
  end.

Definition set_clock (s : Step) (at_ : string) (tolerance : Z) : Step :=
  {| s_id := s_id s; s_op := s_op s; s_at := at_; s_action := s_action s;
     s_service := s_service s; s_input := s_input s; s_timeout := s_timeout s;
     s_duration := s_duration s; s_allow_live := s_allow_live s; s_tolerance := tolerance;
     s_expected := s_expected s; s_present := s_present s |}.
Definition set_timeout (s : Step) (t : Z) : Step :=
  {| s_id := s_id s; s_op := s_op s; s_at := s_at s; s_action := s_action s;
     s_service := s_service s; s_input := s_input s; s_timeout := t;
     s_duration := s_duration s; s_allow_live := s_allow_live s; s_tolerance := s_tolerance s;
     s_expected := s_expected s; s_present := s_present s |}.

(** The operation-specific part of [Step.validate]. *)
Definition validate_op (s : Step) (runTimeout : Z) : result Step :=
  if s_op s =?s "clock.set" then
    match parse_rfc3339nano (s_at s) with
    | None => Err (Errorf "at must be RFC3339 with an explicit offset" [])
    | Some target =>
        fail_if negb (timestamp (s_at s)) with Errorf "at must be RFC3339 with an explicit offset" [] ;;
        fail_if (target <? utc_midnight 1990 1 1) || negb (target <? utc_midnight 2100 1 1)
          with Errorf "at must be >=1990-01-01 and <2100-01-01 UTC" [] ;;
        let tolerance := if s_tolerance s =? 0 then 1000 else s_tolerance s in
        fail_if 10000 <? tolerance with Errorf "tolerance_ms exceeds 10000" [] ;;
        Ok (set_clock s (format_rfc3339nano target) tolerance)
    end
  else if s_op s =?s "action.exec" then
    fail_if negb (workloadIdentifier (s_action s)) with Errorf "action must be a valid identifier" [] ;;
    fail_if match s_expected s with Some n => (n <? 0) || (255 <? n) | None => false end
      with Errorf "expected_exit_code must be 0..255" [] ;;
    Ok s
  else if (s_op s =?s "service.start") || (s_op s =?s "service.stop") then
    fail_if negb (workloadIdentifier (s_service s)) with Errorf "service must be a valid identifier" [] ;;
    Ok s
  else if s_op s =?s "wait" then
    fail_if (s_duration s <=? 0) || (runTimeout <=? s_duration s)
      with Errorf "duration_ms must be positive and less than the run timeout" [] ;;
    Ok s
  else Ok s.

Definition Step_validate (s : Step) (runTimeout : Z) : result Step :=
  match op_fields (s_op s) with
  | None => Err (Errorf "unsupported operation %q" [s_op s])
  | Some extra =>
      let allowed := "id"%string :: "op"%string :: extra in
      fail_if (s_input s <>?s "") && match parse (s_input s) with None => true | Some _ => false end
        with Errorf "json: error calling MarshalJSON for type json.RawMessage" [] ;;
      let present := s_present s ++ current_fields s in
      do? each (λ kv : string * string,
                  fail_if negb (mem kv.1 allowed)
                    with Errorf "field %q is invalid for %s" [kv.1; s_op s] ;; Ok tt) present ;;
      do? each (positive_field present) ["timeout_ms"; "duration_ms"; "tolerance_ms"]%string ;;
      fail_if MaxInputSize <? blen (s_input s) with Errorf "action input exceeds %d bytes" [] ;;
      do? (if s_input s =?s "" then Ok tt
           else map_err (Wrapf "input: %w" [])
                  (let? _ := JsonUtil.Decode dec_any JNull (s_input s) in Ok tt)) ;;
      let? s := validate_op s runTimeout in
      if mem "timeout_ms" allowed then
        let t := if s_timeout s =? 0 then Z.min 5000 runTimeout else s_timeout s in
        fail_if (t <? 1) || (runTimeout <? t) with Errorf "timeout_ms must fit within the run timeout" [] ;;
        Ok (set_timeout s t)
      else Ok s
  end.

(** ** The whole plan *)
Record plan_state := {
  p_steps : gmap string Step;
  p_services : gset string;
  p_clock_set : bool;
  p_waits : Z
}.
Definition plan_start : plan_state :=
  {| p_steps := ∅; p_services := ∅; p_clock_set := false; p_waits := 0 |}.

Definition plan_step (timeout : Z) (st : plan_state) (step : Step) : result (Step * plan_state) :=
  fail_if negb (identifier (s_id step)) with Errorf "step %d has invalid ID" [] ;;
  fail_if bool_decide (is_Some (p_steps st !! s_id step))
    with Errorf "duplicate step ID %q" [s_id step] ;;
  let? step := map_err (Wrapf "step %q: %w" [s_id step]) (Step_validate step timeout) in
  let op := s_op step in
  fail_if (op =?s "clock.set") && (0 <? size (p_services st))%nat && negb (s_allow_live step)
    with Errorf "step %q requires allow_live=true while services are running" [s_id step] ;;
  fail_if ((op =?s "action.exec") || (op =?s "service.start")) && negb (p_clock_set st)
    with Errorf "step %q requires an earlier clock.set readiness barrier" [s_id step] ;;
  fail_if (op =?s "service.start") && bool_decide (s_service step ∈ p_services st)
    with Errorf "service %q already running" [s_service step] ;;
  fail_if (op =?s "service.start") && (4 <? size ({[s_service step]} ∪ p_services st))%nat
    with Errorf "at most four simultaneous services are allowed" [] ;;
  fail_if (op =?s "service.stop") && negb (bool_decide (s_service step ∈ p_services st))
    with Errorf "service %q has not been started" [s_service step] ;;
  Ok (step,
      {| p_steps := <[s_id step := step]> (p_steps st);
         p_services := if op =?s "service.start" then {[s_service step]} ∪ p_services st
                       else if op =?s "service.stop" then p_services st ∖ {[s_service step]}
                       else p_services st;
         p_clock_set := p_clock_set st || (op =?s "clock.set");
         p_waits := if op =?s "wait" then wrap64 (p_waits st + s_duration step) else p_waits st |}).

Fixpoint plan_steps (timeout : Z) (st : plan_state) (steps : list Step) :
    result (list Step * plan_state) :=
  match steps with
  | [] => Ok ([], st)
  | step :: steps =>
      let? (step, st) := plan_step timeout st step in
      let? (steps, st) := plan_steps timeout st steps in
      Ok (step :: steps, st)
  end.

Definition validate_assertion (steps : gmap string Step) (a : Assertion) : result unit :=
  match steps !! a_step a with
  | None => Err (Errorf "assertion %q references unknown step %q" [a_id a; a_step a])
  | Some step =>
      fail_if s_op step =?s "wait"
        with Errorf "assertion %q references wait step without guest observation" [a_id a] ;;
      do? map_err (Wrapf "assertion %q: %w" [a_id a]) (availablePointer (s_op step) (a_pointer a)) ;;
      if (a_op a =?s "exists") || (a_op a =?s "absent") then
        fail_if 0 <? blen (a_value a)
          with Errorf "assertion %q operation %s does not accept value" [a_id a; a_op a] ;;
        Ok tt
      else if mem (a_op a) ("eq" :: "ne" :: ordering_ops)%string then
        fail_if blen (a_value a) =? 0 with Errorf "assertion %q requires value" [a_id a] ;;
        let? value := map_err (Wrapf "assertion %q value: %w" [a_id a])
                              (JsonUtil.Decode dec_any JNull (a_value a)) in
        fail_if (a_op a <>?s "eq") && (a_op a <>?s "ne")
                && match value with JNumber _ => false | _ => true end
          with Errorf "assertion %q ordering requires a number" [a_id a] ;;
        Ok tt
      else Err (Errorf "assertion %q has unsupported operation %q" [a_id a; a_op a])
  end.

Fixpoint validate_assertions (steps : gmap string Step) (seen : gset string) (l : list Assertion) :
    result unit :=
  match l with
  | [] => Ok tt
  | a :: l =>
      fail_if negb (identifier (a_id a)) || bool_decide (a_id a ∈ seen)
        with Errorf "invalid or duplicate assertion ID %q" [a_id a] ;;
      do? validate_assertion steps a ;;
      validate_assertions steps ({[a_id a]} ∪ seen) l
  end.

Definition Validate (s : Scenario) : result Scenario :=
  fail_if sc_api s <>?s APIVersion with Errorf "unsupported api_version %q" [sc_api s] ;;
  do? each (λ kv : string * string,
              fail_if negb (identifier kv.2)
                with Errorf "%s must be a safe identifier of 1..64 characters" [kv.1] ;; Ok tt)
       [("name", sc_name s); ("image", sc_image s); ("workload", sc_workload s)]%string ;;
  fail_if negb (workloadIdentifier (sc_image s)) || negb (workloadIdentifier (sc_workload s))
    with Errorf "image and workload identifiers cannot contain dots" [] ;;
  let r := if (VCPUCount (sc_resources s) =? 0) && (MemoryMiB (sc_resources s) =? 0)
           then {| VCPUCount := 1; MemoryMiB := 512 |} else sc_resources s in
  fail_if (VCPUCount r <? 1) || (2 <? VCPUCount r) || (MemoryMiB r <? 128) || (2048 <? MemoryMiB r)
    with Errorf "resources require 1..2 vCPUs and 128..2048 MiB" [] ;;
  let timeout := if sc_timeout s =? 0 then 120000 else sc_timeout s in
  let boot := if sc_boot_timeout s =? 0 then 30000 else sc_boot_timeout s in
  fail_if (timeout <? 1) || (MaxTimeoutMS <? timeout) || (boot <? 1) || (timeout <? boot)
    with Errorf "invalid scenario/boot timeout interval" [] ;;
  let nsteps := Z.of_nat (List.length (sc_steps s)) in
  fail_if (nsteps <? 1) || (MaxSteps <? nsteps) with Errorf "scenario requires 1..%d steps" [] ;;
  let nasserts := Z.of_nat (List.length (sc_assertions s)) in
  fail_if (nasserts <? 1) || (MaxAssertions <? nasserts)
    with Errorf "scenario requires 1..%d explicit assertions" [] ;;
  let? (steps, st) := plan_steps timeout plan_start (sc_steps s) in
  fail_if timeout <=? p_waits st
    with Errorf "combined waits must leave time in the scenario budget" [] ;;
  do? validate_assertions (p_steps st) ∅ (sc_assertions s) ;;
  Ok {| sc_api := sc_api s; sc_name := sc_name s; sc_image := sc_image s;
        sc_workload := sc_workload s; sc_resources := r; sc_timeout := timeout;
        sc_boot_timeout := boot; sc_steps := steps; sc_assertions := sc_assertions s |}.

(** ** Decoding a file *)
Definition required_key (m : list (string * string)) (e : string → error) (key : string) : result unit :=
  match assoc key m with
  | Some raw => fail_if is_null raw with e key ;; Ok tt
  | None => Err (e key)
  end.

Definition Decode (data : string) : result Scenario :=
  fail_if (blen data =? 0) || (MaxFileSize <? blen data)
    with Errorf "scenario must be 1..%d bytes" [] ;;
  let? s := JsonUtil.Decode dec_scenario zero_scenario data in
  match raw_object data with
  | None => Err (Errorf "json: cannot unmarshal" [])
  | Some None => Err (Errorf "scenario must be an object" [])
  | Some (Some fs) =>
      do? each (λ kv : string * string,
                  fail_if is_null kv.2 with Errorf "scenario field %s cannot be null" [kv.1] ;; Ok tt) fs ;;
      do? match assoc "resources" fs with
          | None => Ok tt
          | Some raw =>
              match raw_object raw with
              | None => Err (Errorf "json: cannot unmarshal" [])
              | Some rs =>
                  do? each (required_key (default [] rs)
                              (λ key, Errorf "resources.%s is required and cannot be null" [key]))
                           ["vcpu_count"; "memory_mib"]%string ;;
                  fail_if (VCPUCount (sc_resources s) =? 0) || (MemoryMiB (sc_resources s) =? 0)
                    with Errorf "resource values must be positive" [] ;;
                  Ok tt
              end
          end ;;
      do? each (λ key, match assoc key fs with
                       | Some raw => fail_if trim_space raw =?s "0"
                                       with Errorf "%s must be positive" [key] ;; Ok tt
                       | None => Ok tt
                       end) ["timeout_ms"; "boot_timeout_ms"]%string ;;
      match raw_array (default "" (assoc "assertions" fs)) with
      | None => Err (Wrapf "assertions: %w" [] (Errorf "json: cannot unmarshal" []))
      | Some items =>
          let? maps := traverse (λ raw, match raw_object raw with
                                        | Some m => Ok m
                                        | None => Err (Errorf "json: cannot unmarshal" [])
                                        end) items in
          do? each (λ m, match m with
                         | None => Err (Errorf "assertion must be an object" [])
                         | Some m => each (required_key m
                                       (λ key, Errorf "assertion.%s is required and cannot be null" [key]))
                                       ["id"; "step"; "pointer"; "op"]%string
                         end) maps ;;
          Validate s
      end
  end.

(** ** The example of the package's own tests *)
Definition valid_text : string :=
  js "{'api_version':'epoch/v1alpha1','name':'clock','image':'image-v1','workload':'clock-probe','steps':[{'id':'past','op':'clock.set','at':'1999-12-31T23:00:00-01:00'},{'id':'read','op':'action.exec','action':'observe'}],'assertions':[{'id':'year','step':'read','pointer':'/stdout_json/year_utc','op':'eq','value':2000}]}".

Example decode_valid :
  match Decode valid_text with
  | Ok s => (sc_timeout s =? 120000) && (sc_boot_timeout s =? 30000)
            && (VCPUCount (sc_resources s) =? 1) && (MemoryMiB (sc_resources s) =? 512)
            && match sc_steps s with
               | [a; b] => (s_at a =?s "2000-01-01T00:00:00Z") && (s_tolerance a =? 1000)
                           && (s_timeout b =? 5000)
               | _ => false
               end
  | Err _ => false
  end = true.
Proof. vm_compute. reflexivity. Qed.
