(* ===== verification/ScenarioFacts.v ===== *)
(** * ScenarioFacts: what a validated scenario promises

    [Validate] threads a plan state (known steps, running services, the clock
    barrier, the sum of waits) through the steps.  The theorems here restate its
    outcome without that state: over every prefix of the accepted plan, over the
    mathematical sum of the waits, and over each step and assertion. *)

From S2P Require Import Prelude GoLib Json JsonFacts GoTime JsonUtil Assertions Scenario.
From Stdlib Require Import Ascii String.

(** ** The plan seen from outside *)
Definition is_op (op : string) (s : Step) : bool := s_op s =?s op.

(** Services running after a sequence of steps. *)
Definition service_effect (r : gset string) (s : Step) : gset string :=
  if is_op "service.start" s then {[s_service s]} ∪ r
  else if is_op "service.stop" s then r ∖ {[s_service s]}
  else r.
Definition running (l : list Step) : gset string := fold_left service_effect l ∅.

(** The time the plan spends in [wait] steps, as a mathematical integer. *)
Definition wait_of (s : Step) : Z := if is_op "wait" s then s_duration s else 0.
Fixpoint total_wait (l : list Step) : Z :=
  match l with [] => 0 | s :: l => wait_of s + total_wait l end.

(** What the position of a step after [pre] must satisfy. *)
Record in_order (pre : list Step) (s : Step) : Prop := {
  io_barrier : (is_op "action.exec" s || is_op "service.start" s) = true →
               Exists (λ c, is_op "clock.set" c = true) pre;
  io_live : is_op "clock.set" s = true → running pre = ∅ ∨ s_allow_live s = true;
  io_start : is_op "service.start" s = true →
             (s_service s ∉ running pre) ∧ (size (running pre) < 4)%nat;
  io_stop : is_op "service.stop" s = true → s_service s ∈ running pre;
  io_fresh : s_id s ∉ map s_id pre
}.
Definition chronological (l : list Step) : Prop :=
  ∀ pre s post, l = pre ++ s :: post → in_order pre s.

(** One step on its own. *)
Definition foreign_fields_absent (s : Step) : Prop :=
  ∃ extra, op_fields (s_op s) = Some extra ∧
    ∀ k, k ∈ (s_present s ++ current_fields s).*1 → k ∈ "id"%string :: "op"%string :: extra.
Record step_wf (timeout : Z) (s : Step) : Prop := {
  sw_id : identifier (s_id s) = true;
  sw_fields : foreign_fields_absent s;
  sw_input : s_input s = ""%string ∨
             blen (s_input s) <= MaxInputSize ∧ is_ok (JsonUtil.Decode dec_any JNull (s_input s)) = true;
  sw_clock : is_op "clock.set" s = true →
             1 <= s_tolerance s <= 10000 ∧
             ∃ t, supported t = true ∧ s_at s = format_rfc3339nano t;
  sw_action : is_op "action.exec" s = true →
              workloadIdentifier (s_action s) = true ∧
              ∀ n, s_expected s = Some n → 0 <= n <= 255;
  sw_service : (is_op "service.start" s || is_op "service.stop" s) = true →
               workloadIdentifier (s_service s) = true;
  sw_timeout : (is_op "action.exec" s || is_op "service.start" s || is_op "service.stop" s) = true →
               1 <= s_timeout s <= timeout;
  sw_wait : is_op "wait" s = true → 0 < s_duration s < timeout
}.

(** ** Normalized timestamps match the pattern again *)
Lemma match_two p1 p2 n ps r :
  p1 = is_digit → p2 = is_digit →
  match_classes (p1 :: p2 :: ps) (pad_dec 2 n r) = match_classes ps r.
Proof.
  intros -> ->. cbn [pad_dec match_classes].
  pose proof (Z.mod_pos_bound n 10). pose proof (Z.mod_pos_bound (n / 10) 10).
  by rewrite !is_digit_digit_char by lia.
Qed.
Lemma match_four ps n r :
  match_classes (is_digit :: is_digit :: is_digit :: is_digit :: ps) (pad_dec 4 n r)
  = match_classes ps r.
Proof.
  change (pad_dec 4 n r) with (pad_dec 2 (n / 10 / 10) (pad_dec 2 n r)).
  by rewrite !match_two.
Qed.
Lemma match_char z c ps r :
  bz c = z → match_classes (is_char z :: ps) (String c r) = match_classes ps r.
Proof. intros <-. cbn [match_classes]. unfold is_char, is_one_of. cbn. by rewrite Z.eqb_refl. Qed.

Lemma timestamp_format t : timestamp (format_rfc3339nano t) = true.
Proof.
  unfold timestamp, format_rfc3339nano. destruct (civil_of_days _) as [[y m] d].
  rewrite match_four. repeat (rewrite match_char by done; rewrite match_two by done).
  lazymatch goal with |- context [match_classes [] ?r] =>
    change (match_classes [] r) with (Some r) end. cbv beta iota.
  set (ns := t mod nsec_per_sec). unfold format_fraction.
  assert (Hns : 0 <= ns < nsec_per_sec) by (apply Z.mod_pos_bound; unfold nsec_per_sec; lia).
  destruct (trimmed_fraction ns Hns) as (ds & k & -> & Hk).
  destruct (String.eqb_spec ds "") as [->|Hne]; [done|].
  cbn [String.append]. rewrite match_char by done. cbn [match_classes].
  assert (Hds : all_bytes is_digit ds = true).
  { pose proof (pad_dec_digits 9 ns) as Hd. rewrite Hk, all_bytes_app in Hd. by to_prop. }
  rewrite span_digits_all by done.
  pose proof (pad_dec_length 9 ns) as Hl. rewrite Hk, slength_app in Hl.
  destruct ds as [|c ds]; [done|]. cbn [String.length] in Hl. rewrite !(proj2 (Z.leb_le _ _)); [done|..];
    unfold blen; cbn [String.length]; lia.
Qed.

(** ** One step *)
Lemma assoc_opt {A} k b k' (v : A) :
  assoc k (opt_field b k' v) = if b && (k' =?s k) then Some v else None.
Proof. destruct b; cbn; done. Qed.
Lemma keys_opt {A} k b k' (v : A) : k ∈ (opt_field b k' v).*1 ↔ b = true ∧ k = k'.
Proof. destruct b; cbn; set_solver. Qed.

Definition duration_fields (s : Step) : list (string * Z) :=
  [("timeout_ms", s_timeout s); ("duration_ms", s_duration s); ("tolerance_ms", s_tolerance s)]%string.

Lemma assoc_current s k n :
  (k, n) ∈ duration_fields s →
  assoc k (current_fields s) = if n =? 0 then None else Some (itoa n).
Proof.
  unfold duration_fields, current_fields. rewrite !elem_of_cons, !pair_equal_spec, elem_of_nil.
  intros [[-> ->]|[[-> ->]|[[-> ->]|[]]]]; rewrite !assoc_app, !assoc_opt; cbn [assoc];
    destruct (s_expected s); cbn; rewrite !andb_false_r, ?andb_true_r; by destruct (_ =? 0).
Qed.

(** A set duration counts, whatever the source text said. *)
Lemma positive_current s p k n :
  (k, n) ∈ duration_fields s →
  positive_field (p ++ current_fields s) k =
  if n =? 0 then positive_field p k
  else if int64_ok n && (0 <? n) then Ok tt else Err (Errorf "%s must be positive" [k]).
Proof.
  intros Hin. unfold positive_field. rewrite assoc_app, (assoc_current s k n Hin).
  destruct (Z.eqb_spec n 0) as [->|]; [done|]. rewrite dec_int_itoa.
  destruct (int64_ok n); [|done]. cbn [andb].
  destruct (Z.leb_spec n 0), (Z.ltb_spec 0 n); (done || lia).
Qed.

(** Which step fields the validator may change: defaults, and the instant's spelling. *)
Record normalized (s s' : Step) : Prop := {
  nz_rest : s' = set_timeout (set_clock s (s_at s') (s_tolerance s')) (s_timeout s');
  nz_at : if is_op "clock.set" s
          then ∃ t, parse_rfc3339nano (s_at s) = Some t ∧ supported t = true ∧ s_at s' = format_rfc3339nano t
          else s_at s' = s_at s;
  nz_tolerance : s_tolerance s' = if is_op "clock.set" s && (s_tolerance s =? 0) then 1000 else s_tolerance s;
  nz_timeout : s_timeout s' = s_timeout s ∨ s_timeout s = 0 ∧ 1 <= s_timeout s' <= 5000 ∧
               (is_op "action.exec" s || is_op "service.start" s || is_op "service.stop" s) = true
}.

(** The six operations. *)
Lemma op_cases op extra : op_fields op = Some extra →
  op ∈ ["clock.read"; "clock.set"; "action.exec"; "service.start"; "service.stop"; "wait"]%string.
Proof.
  unfold op_fields. rewrite !elem_of_cons. intros H.
  repeat (case_match; [to_prop; naive_solver|]). done.
Qed.
Ltac case_op s extra E :=
  let H := fresh "Hop" in
  pose proof (op_cases _ extra E) as H; rewrite !elem_of_cons, elem_of_nil in H;
  destruct H as [H|[H|[H|[H|[H|[H|[]]]]]]].

Lemma mem_elem k l : mem k l = true ↔ k ∈ l.
Proof.
  unfold mem. rewrite existsb_exists, list_elem_of_In. setoid_rewrite String.eqb_eq. naive_solver.
Qed.

(** What the checks before the operation switch established. *)
Definition input_ok (s : Step) : Prop :=
  s_input s = ""%string ∨ blen (s_input s) <= MaxInputSize ∧ parse (s_input s) ≠ None ∧
    is_ok (JsonUtil.Decode dec_any JNull (s_input s)) = true.
Definition durations_ok (s : Step) : Prop :=
  each (positive_field (s_present s ++ current_fields s)) (duration_fields s).*1 = Ok tt.
Definition accepts_timeout (s : Step) : bool :=
  is_op "action.exec" s || is_op "service.start" s || is_op "service.stop" s.
Definition default_timeout (s : Step) (timeout : Z) : Z :=
  if s_timeout s =? 0 then Z.min 5000 timeout else s_timeout s.

Lemma validate_op_same s t s1 : validate_op s t = Ok s1 →
  ∃ a n, s1 = set_clock s a n ∧ (is_op "clock.set" s = false → a = s_at s ∧ n = s_tolerance s).
Proof.
  unfold validate_op, is_op. destruct (s_op s =?s "clock.set").
  { destruct (parse_rfc3339nano _); [|done]. intros H. inv_ok H. injection H as <-. by eexists _, _. }
  intros H. exists (s_at s), (s_tolerance s). split; [|done].
  repeat case_match; try done; injection H as <-; by destruct s.
Qed.

Lemma timeout_allowed s extra : op_fields (s_op s) = Some extra →
  mem "timeout_ms" ("id"%string :: "op"%string :: extra) = accepts_timeout s.
Proof.
  intros E. unfold accepts_timeout, is_op. case_op s extra E;
  rewrite Hop in E |- *; injection E as <-; reflexivity.
Qed.

Lemma step_validate_iff s t s' :
  Step_validate s t = Ok s' ↔
  foreign_fields_absent s ∧ input_ok s ∧ durations_ok s ∧
  ∃ s1, validate_op s t = Ok s1 ∧
    if accepts_timeout s
    then 1 <= default_timeout s t <= t ∧ s' = set_timeout s1 (default_timeout s t)
    else s' = s1.
Proof.
  unfold Step_validate, foreign_fields_absent, input_ok, durations_ok.
  destruct (op_fields (s_op s)) as [extra|] eqn:E; [|naive_solver].
  rewrite (timeout_allowed s extra E). cbn [duration_fields fmap list_fmap fst].
  split.
  - intros H. inv_ok H. destruct a, a0. apply each_ok in E1. rewrite Forall_forall in E1.
    split; [|split; [|split; [done|]]].
    + eexists. split; [done|]. intros k ([k' v] & -> & Hin)%list_elem_of_fmap.
      specialize (E1 _ Hin). cbn [fst] in *. apply mem_elem. by destruct (mem k' (_ :: _ :: extra)).
    + destruct (String.eqb_spec (s_input s) ""); [by left|right]. to_prop. cbn in *.
      split; [done|]. split; [by destruct (parse _)|].
      apply map_err_ok in E4. by destruct (JsonUtil.Decode dec_any JNull (s_input s)).
    + destruct (validate_op_same _ _ _ E5) as (a & n & -> & _). eexists. split; [done|].
      unfold default_timeout in *. cbn in H. destruct (accepts_timeout s); [|by injection H as <-].
      inv_ok H. to_prop. injection H as <-. split; [lia|done].
  - intros ((extra' & [= <-] & Hf) & Hi & -> & s1 & Ev & Ht).
    assert (Hne : ((s_input s <>?s "") && match parse (s_input s) with Some _ => false | None => true end) = false).
    { destruct Hi as [->|(_ & ? & _)]; [done|]. destruct (parse _); [|done]. by rewrite andb_false_r. }
    rewrite Hne. rewrite (proj2 (each_ok _ _)).
    2:{ apply Forall_forall. intros [k v] Hin. cbn [fst].
        rewrite (proj2 (mem_elem _ _)); [done|]. apply Hf, list_elem_of_fmap. by exists (k, v). }
    cbn [rbind]. rewrite (proj2 (Z.ltb_ge _ _)); [|destruct Hi as [->|[? _]]; [vm_compute; done|done]].
    replace (if s_input s =?s "" then _ else _) with (@Ok unit tt).
    2:{ destruct Hi as [Hi|(_ & _ & Hd)]; [by rewrite Hi|]. destruct (s_input s =?s ""); [done|].
        by destruct (JsonUtil.Decode dec_any JNull (s_input s)). }
    rewrite Ev. cbn [rbind]. destruct (accepts_timeout s) eqn:Ea; [|by subst].
    destruct Ht as [Hr ->]. unfold default_timeout in *.
    replace (s_timeout s1) with (s_timeout s) by (by destruct (validate_op_same _ _ _ Ev) as (? & ? & -> & _)).
    by rewrite (proj2 (Z.ltb_ge _ 1)), (proj2 (Z.ltb_ge _ _)) by lia.
Qed.

Definition default_tolerance (s : Step) : Z := if s_tolerance s =? 0 then 1000 else s_tolerance s.

(** The operation switch, one conjunct per operation. *)
Record op_checked (s : Step) (t : Z) (s1 : Step) : Prop := {
  oc_clock : is_op "clock.set" s = true →
    ∃ tm, parse_rfc3339nano (s_at s) = Some tm ∧ timestamp (s_at s) = true ∧ supported tm = true ∧
          default_tolerance s <= 10000 ∧
          s1 = set_clock s (format_rfc3339nano tm) (default_tolerance s);
  oc_other : is_op "clock.set" s = false → s1 = s;
  oc_action : is_op "action.exec" s = true →
    workloadIdentifier (s_action s) = true ∧ ∀ n, s_expected s = Some n → 0 <= n <= 255;
  oc_service : (is_op "service.start" s || is_op "service.stop" s) = true →
    workloadIdentifier (s_service s) = true;
  oc_wait : is_op "wait" s = true → 0 < s_duration s < t
}.

(** An operation is one string, so the others' tests fail. *)
Lemma is_op_other a b s : is_op a s = true → (a =?s b) = false → is_op b s = false.
Proof. unfold is_op. intros ->%String.eqb_eq H. done. Qed.
Ltac only_op H :=
  rewrite ?(is_op_other _ "clock.set" _ H eq_refl), ?(is_op_other _ "action.exec" _ H eq_refl),
    ?(is_op_other _ "service.start" _ H eq_refl), ?(is_op_other _ "service.stop" _ H eq_refl),
    ?(is_op_other _ "wait" _ H eq_refl), ?H.

Lemma validate_op_iff s t s1 : validate_op s t = Ok s1 ↔ op_checked s t s1.
Proof.
  unfold validate_op. fold (is_op "clock.set" s) (is_op "action.exec" s) (is_op "wait" s)
    (is_op "service.start" s) (is_op "service.stop" s).
  destruct (is_op "clock.set" s) eqn:Ec; [|destruct (is_op "action.exec" s) eqn:Ea];
    [..|destruct (is_op "service.start" s || is_op "service.stop" s) eqn:Es];
    [..|destruct (is_op "wait" s) eqn:Ew].
  - split.
    + destruct (parse_rfc3339nano (s_at s)) as [tm|] eqn:Et; [|done]. intros H. inv_ok H.
      injection H as <-. to_prop. split; only_op Ec; try done.
      intros _. exists tm. repeat split; try done. unfold supported. to_prop.
      by rewrite (proj2 (Z.leb_le _ _)), (proj2 (Z.ltb_lt _ _)).
    + intros [Hc _ _ _ _]. destruct (Hc Ec) as (tm & -> & -> & Hs & Ht & ->).
      unfold supported in Hs. apply andb_true_iff in Hs as [H1 H2].
      rewrite H2, Z.ltb_antisym, H1. cbn. unfold default_tolerance in *.
      by rewrite (proj2 (Z.ltb_ge _ _)).
  - split.
    + intros H. inv_ok H. injection H as <-. split; only_op Ea; try done. intros _. to_prop.
      split; [done|]. intros n Hn. rewrite Hn in *. to_prop. lia.
    + intros [_ Ho Hx _ _]. rewrite (Ho Ec). destruct (Hx Ea) as [-> He]. cbn.
      destruct (s_expected s) as [n|]; [|done]. specialize (He n eq_refl).
      by rewrite (proj2 (Z.ltb_ge _ _)), (proj2 (Z.ltb_ge _ _)) by lia.
  - assert (Hw : is_op "wait" s = false).
    { apply orb_true_iff in Es as [H|H]; by only_op H. }
    split.
    + intros H. inv_ok H. injection H as <-. split; rewrite ?Ec, ?Ea, ?Es, ?Hw; try done.
      intros _. by to_prop.
    + intros [_ Ho _ Hx _]. by rewrite (Ho Ec), (Hx Es).
  - split.
    + intros H. inv_ok H. injection H as <-. to_prop. split; only_op Ew; done.
    + intros [_ Ho _ _ Hx]. rewrite (Ho Ec). specialize (Hx Ew).
      by rewrite (proj2 (Z.leb_gt _ _)), (proj2 (Z.leb_gt _ _)) by lia.
  - split.
    + intros [= <-]. split; rewrite ?Ec, ?Ea, ?Es, ?Ew; done.
    + intros [_ Ho _ _ _]. by rewrite (Ho Ec).
Qed.

Lemma step_normalized s t s' : Step_validate s t = Ok s' → normalized s s'.
Proof.
  intros (_ & _ & _ & s1 & Hop & Ht)%step_validate_iff. apply validate_op_iff in Hop.
  assert (Hn : ∃ n, s' = set_timeout s1 n ∧
                 (n = s_timeout s ∨ s_timeout s = 0 ∧ 1 <= n <= 5000 ∧ accepts_timeout s = true)).
  { destruct (accepts_timeout s).
    - destruct Ht as [? ->]. eexists; split; [done|]. unfold default_timeout in *.
      destruct (Z.eqb_spec (s_timeout s) 0); [right|by left]. lia.
    - subst. exists (s_timeout s). destruct (is_op "clock.set" s) eqn:Ec.
      + destruct (oc_clock _ _ _ Hop Ec) as (tm & _ & _ & _ & _ & ->). by split; [|left].
      + rewrite (oc_other _ _ _ Hop Ec). split; [by destruct s|by left]. }
  clear Ht. destruct Hn as (n & -> & Hn). destruct (is_op "clock.set" s) eqn:Ec.
  - destruct (oc_clock _ _ _ Hop Ec) as (tm & ? & _ & ? & _ & ->).
    split; cbn; rewrite ?Ec; cbn; eauto.
  - rewrite (oc_other _ _ _ Hop Ec). split; cbn; rewrite ?Ec; done.
Qed.

Lemma current_keys s k : k ∈ (current_fields s).*1 ↔
  k ∈ ["id"; "op"]%string ∨ (k = "at"%string ∧ s_at s ≠ ""%string) ∨
  (k = "action"%string ∧ s_action s ≠ ""%string) ∨ (k = "service"%string ∧ s_service s ≠ ""%string) ∨
  (k = "input"%string ∧ s_input s ≠ ""%string) ∨ (k = "timeout_ms"%string ∧ s_timeout s ≠ 0) ∨
  (k = "duration_ms"%string ∧ s_duration s ≠ 0) ∨ (k = "allow_live"%string ∧ s_allow_live s = true) ∨
  (k = "tolerance_ms"%string ∧ s_tolerance s ≠ 0) ∨
  (k = "expected_exit_code"%string ∧ s_expected s ≠ None).
Proof.
  unfold current_fields. rewrite !fmap_app, !elem_of_app, !keys_opt, !negb_true_iff,
    !String.eqb_neq, !Z.eqb_neq.
  assert ((k ∈ (match s_expected s with
                | Some n => [("expected_exit_code"%string, itoa n)] | None => [] end).*1) ↔
          k = "expected_exit_code"%string ∧ s_expected s ≠ None) as ->.
  { destruct (s_expected s); cbn; set_solver. }
  cbn [fmap list_fmap fst]. naive_solver.
Qed.

(** A default only fills a field that the operation accepts. *)
Lemma normalized_keys s s' extra k :
  normalized s s' → op_fields (s_op s) = Some extra →
  k ∈ (current_fields s').*1 → k ∈ (current_fields s).*1 ∨ k ∈ extra.
Proof.
  intros Hn E Hk. destruct Hn as [Hr Ha Hto Hti]. rewrite Hr in Hk. clear Hr.
  rewrite current_keys in Hk |- *. cbn in Hk.
  assert (Hc : is_op "clock.set" s = true → extra = ["at"; "allow_live"; "tolerance_ms"]%string).
  { intros H%String.eqb_eq. rewrite H in E. by injection E. }
  assert (Ht : accepts_timeout s = true → "timeout_ms"%string ∈ extra).
  { intros H. rewrite <-(timeout_allowed s extra E) in H. apply mem_elem in H. set_solver. }
  destruct Hk as [H|[[-> H]|[[-> H]|[[-> H]|[[-> H]|[[-> H]|[[-> H]|[[-> H]|[[-> H]|[-> H]]]]]]]]]];
    [tauto| |tauto..| |tauto|tauto| |tauto].
  - destruct (is_op "clock.set" s); [right; rewrite Hc by done; set_solver|].
    rewrite Ha in H. tauto.
  - destruct Hti as [Hti|(_ & _ & Hti)]; [rewrite Hti in H; tauto|right; by apply Ht].
  - destruct (is_op "clock.set" s); [right; rewrite Hc by done; set_solver|].
    cbn in Hto. rewrite Hto in H. tauto.
Qed.

Lemma foreign_normalized s s' :
  normalized s s' → foreign_fields_absent s → foreign_fields_absent s'.
Proof.
  intros Hn (extra & E & Hf). exists extra.
  assert (Hp : s_op s' = s_op s ∧ s_present s' = s_present s) by (by rewrite (nz_rest _ _ Hn)).
  destruct Hp as [-> ->]. split; [done|]. intros k.
  rewrite fmap_app, elem_of_app. intros [Hk|Hk].
  - apply Hf. rewrite fmap_app, elem_of_app. by left.
  - destruct (normalized_keys _ _ _ _ Hn E Hk); [|set_solver].
    apply Hf. rewrite fmap_app, elem_of_app. by right.
Qed.

Lemma durations_normalized s s' : normalized s s' → durations_ok s → durations_ok s'.
Proof.
  unfold durations_ok. intros Hn. rewrite !each_ok, !Forall_forall.
  replace (s_present s') with (s_present s) by (by rewrite (nz_rest _ _ Hn)).
  intros Hd k Hk.
  assert (∃ n n', (k, n) ∈ duration_fields s ∧ (k, n') ∈ duration_fields s' ∧
                  (n' = n ∨ n = 0 ∧ 1 <= n' <= 5000)) as (n & n' & H1 & H2 & H3).
  { assert (Hdur : s_duration s' = s_duration s) by (by rewrite (nz_rest _ _ Hn)).
    pose proof (nz_tolerance _ _ Hn). pose proof (nz_timeout _ _ Hn).
    unfold duration_fields in *. cbn in Hk. rewrite !elem_of_cons, elem_of_nil in Hk.
    destruct Hk as [->|[->|[->|[]]]].
    - exists (s_timeout s), (s_timeout s'). split; [set_solver|]. split; [set_solver|]. naive_solver.
    - exists (s_duration s), (s_duration s'). split; [set_solver|]. split; [set_solver|]. auto.
    - exists (s_tolerance s), (s_tolerance s'). split; [set_solver|]. split; [set_solver|].
      destruct (is_op "clock.set" s); cbn in *; [|by left].
      destruct (Z.eqb_spec (s_tolerance s) 0); [right; lia|by left]. }
  assert (Hk' : k ∈ (duration_fields s).*1) by (apply list_elem_of_fmap; by exists (k, n)).
  specialize (Hd k Hk'). rewrite (positive_current s _ _ _ H1) in Hd.
  rewrite (positive_current s' _ _ _ H2).
  destruct H3 as [->|[-> Hr]]; [done|]. rewrite (proj2 (Z.eqb_neq _ _)) by lia.
  unfold int64_ok. rewrite !(proj2 (Z.leb_le _ _)), !(proj2 (Z.ltb_lt _ _)) by lia. done.
Qed.

(** What normalization keeps. *)
Lemma normalized_keep s s' : normalized s s' →
  s_id s' = s_id s ∧ s_op s' = s_op s ∧ s_action s' = s_action s ∧ s_service s' = s_service s ∧
  s_input s' = s_input s ∧ s_duration s' = s_duration s ∧ s_allow_live s' = s_allow_live s ∧
  s_expected s' = s_expected s.
Proof. intros H. by rewrite (nz_rest _ _ H). Qed.
Lemma normalized_op s s' op : normalized s s' → is_op op s' = is_op op s.
Proof. intros (_ & H & _)%normalized_keep. unfold is_op. by rewrite H. Qed.

Lemma durations_nonneg s k n : durations_ok s → (k, n) ∈ duration_fields s → 0 <= n.
Proof.
  unfold durations_ok. rewrite each_ok, Forall_forall. intros Hd Hin.
  assert (Hk : k ∈ (duration_fields s).*1) by (apply list_elem_of_fmap; by exists (k, n)).
  specialize (Hd k Hk). rewrite (positive_current s _ _ _ Hin) in Hd.
  destruct (Z.eqb_spec n 0); [lia|]. case_match; to_prop; [lia|done].
Qed.

Lemma step_validate_wf s t s' :
  identifier (s_id s) = true → Step_validate s t = Ok s' → step_wf t s'.
Proof.
  intros Hid H. pose proof (step_normalized _ _ _ H) as Hn.
  destruct (normalized_keep _ _ Hn) as (Ki & Ko & Ka & Ks & Kin & Kd & Kl & Ke).
  apply step_validate_iff in H as (Hf & Hi & Hd & s1 & Hop & Ht). apply validate_op_iff in Hop.
  split; rewrite ?(normalized_op _ _ _ Hn), ?Ki, ?Ka, ?Ks, ?Kin, ?Kd, ?Ke.
  - done.
  - by apply (foreign_normalized s).
  - destruct Hi as [?|(? & _ & ?)]; auto.
  - intros Hc. pose proof (nz_at _ _ Hn) as Ha. rewrite Hc in Ha. split; [|naive_solver].
    rewrite (nz_tolerance _ _ Hn), Hc. destruct (oc_clock _ _ _ Hop Hc) as (_ & _ & _ & _ & Htol & _).
    unfold default_tolerance in Htol. cbn [andb].
    assert (0 <= s_tolerance s) by (apply (durations_nonneg s "tolerance_ms"%string); [done|set_solver]).
    destruct (Z.eqb_spec (s_tolerance s) 0); lia.
  - apply (oc_action _ _ _ Hop).
  - apply (oc_service _ _ _ Hop).
  - intros Ha. unfold accepts_timeout in Ht. rewrite Ha in Ht. by destruct Ht as [? ->].
  - apply (oc_wait _ _ _ Hop).
Qed.

Lemma step_idempotent s t s' : Step_validate s t = Ok s' → Step_validate s' t = Ok s'.
Proof.
  intros H. pose proof (step_normalized _ _ _ H) as Hn.
  destruct (normalized_keep _ _ Hn) as (Ki & Ko & Ka & Ks & Kin & Kd & Kl & Ke).
  apply step_validate_iff in H as (Hf & Hi & Hd & s1 & Hop & Ht). apply validate_op_iff in Hop.
  apply step_validate_iff. split; [by apply (foreign_normalized s)|].
  split; [by unfold input_ok; rewrite Kin|]. split; [by apply (durations_normalized s)|].
  exists s'. split.
  - apply validate_op_iff. split; rewrite ?(normalized_op _ _ _ Hn), ?Ka, ?Ks, ?Kd, ?Ke.
    + intros Hc. pose proof (nz_at _ _ Hn) as Ha. rewrite Hc in Ha. destruct Ha as (tm & _ & Hs & Ha).
      destruct (oc_clock _ _ _ Hop Hc) as (_ & _ & _ & _ & Htol & _).
      assert (Hd' : default_tolerance s' = s_tolerance s' ∧ s_tolerance s' = default_tolerance s).
      { unfold default_tolerance. rewrite (nz_tolerance _ _ Hn), Hc. cbn.
        destruct (Z.eqb_spec (s_tolerance s) 0); [done|]. by rewrite (proj2 (Z.eqb_neq _ _)). }
      exists tm. rewrite Ha, parse_format, timestamp_format by done. destruct Hd' as [-> Hd'].
      repeat split; [done|by rewrite Hd'|]. rewrite <-Ha. by destruct s'.
    + done.
    + apply (oc_action _ _ _ Hop).
    + apply (oc_service _ _ _ Hop).
    + apply (oc_wait _ _ _ Hop).
  - unfold accepts_timeout in *. rewrite !(normalized_op _ _ _ Hn).
    destruct (is_op "action.exec" s || is_op "service.start" s || is_op "service.stop" s); [|done].
    destruct Ht as [Hr ->]. generalize dependent (default_timeout s t). intros d ? ?.
    unfold default_timeout. cbn. by rewrite (proj2 (Z.eqb_neq d 0)) by lia.
Qed.

(** ** The plan state describes the prefix already checked *)
Record reflects (timeout : Z) (pre : list Step) (st : plan_state) : Prop := {
  rf_steps : ∀ k s, p_steps st !! k = Some s ↔ s ∈ pre ∧ s_id s = k;
  rf_services : p_services st = running pre;
  rf_clock : p_clock_set st = true → Exists (λ c, is_op "clock.set" c = true) pre;
  rf_waits : p_waits st = total_wait pre;
  rf_bound : 0 <= total_wait pre <= Z.of_nat (List.length pre) * timeout
}.

Lemma total_wait_app a b : total_wait (a ++ b) = total_wait a + total_wait b.
Proof. induction a as [|s a IH]; cbn [app total_wait]; [done|]. rewrite IH. lia. Qed.
Lemma running_snoc l s : running (l ++ [s]) = service_effect (running l) s.
Proof. unfold running. by rewrite fold_left_app. Qed.

Lemma plan_step_spec t pre st s s' st' :
  plan_step t st s = Ok (s', st') → reflects t pre st →
  0 < t <= MaxTimeoutMS → Z.of_nat (List.length pre) < MaxSteps →
  normalized s s' ∧ step_wf t s' ∧ in_order pre s' ∧ reflects t (pre ++ [s']) st'.
Proof.
  unfold plan_step, MaxTimeoutMS, MaxSteps. intros H Hr Ht Hl. inv_ok H. injection H as -> <-.
  apply map_err_ok in E1. to_prop. pose proof (step_normalized _ _ _ E1) as Hn.
  pose proof (step_validate_wf _ _ _ E E1) as Hw.
  destruct (normalized_keep _ _ Hn) as (Ki & _). apply bool_decide_eq_false in E0.
  fold (is_op "clock.set" s') (is_op "action.exec" s') (is_op "service.start" s')
    (is_op "service.stop" s') (is_op "wait" s') in *.
  destruct Hr as [R1 R2 R3 R4 R5].
  assert (Hfresh : s_id s' ∉ map s_id pre).
  { intros (s0 & Heq & Hin)%list_elem_of_fmap. apply E0. exists s0. apply R1. by rewrite Ki in Heq. }
  split; [done|]. split; [done|]. split; [split|split]; cbn.
  - intros Hb. rewrite Hb in E3. apply R3. by destruct (p_clock_set st).
  - intros Hc. rewrite Hc in E2. rewrite <-R2. destruct (s_allow_live s'); [by right|left].
    rewrite andb_true_r in E2. apply Nat.ltb_ge in E2. apply leibniz_equiv, size_empty_iff. lia.
  - intros Hc. rewrite Hc in *. cbn [andb] in *. apply bool_decide_eq_false in E4. rewrite <-R2.
    split; [done|]. apply Nat.ltb_ge in E5. rewrite size_union, size_singleton in E5 by set_solver. lia.
  - intros Hc. rewrite Hc in E6. cbn in E6. apply negb_false_iff, bool_decide_eq_true in E6.
    by rewrite <-R2.
  - done.
  - intros k s0. destruct (decide (k = s_id s')) as [->|Hk].
    + rewrite lookup_insert_eq, elem_of_app, list_elem_of_singleton. split; [naive_solver|].
      intros [[Hin| ->] Heq]; [|done]. exfalso. apply Hfresh, list_elem_of_fmap. by exists s0.
    + rewrite lookup_insert_ne, R1, elem_of_app, list_elem_of_singleton by done. naive_solver.
  - rewrite running_snoc, R2. done.
  - intros [Hc|Hc]%orb_true_iff; apply Exists_app; [left; by apply R3|right]. by constructor.
  - rewrite total_wait_app. cbn. unfold wait_of. pose proof (sw_wait _ _ Hw) as Hwt.
    destruct (is_op "wait" s'); [|lia]. rewrite R4, Z.add_0_r, wrap64_id; [done|]. nia.
  - rewrite total_wait_app, List.length_app, Nat2Z.inj_add. cbn [total_wait List.length]. unfold wait_of.
    pose proof (sw_wait _ _ Hw) as Hwt. destruct (is_op "wait" s'); [|nia].
    specialize (Hwt eq_refl). nia.
Qed.

Lemma plan_steps_spec t pre st steps steps' st' :
  plan_steps t st steps = Ok (steps', st') → reflects t pre st →
  0 < t <= MaxTimeoutMS → Z.of_nat (List.length (pre ++ steps)) <= MaxSteps →
  Forall2 normalized steps steps' ∧ Forall (step_wf t) steps' ∧
  (∀ a s b, steps' = a ++ s :: b → in_order (pre ++ a) s) ∧ reflects t (pre ++ steps') st'.
Proof.
  revert pre st steps'. induction steps as [|s steps IH]; cbn [plan_steps]; intros pre st steps' H Hr Ht Hl.
  { injection H as <- <-. rewrite app_nil_r. split; [constructor|]. split; [constructor|].
    split; [by intros [] ? ?|done]. }
  apply rbind_ok in H as ([s' st1] & H1 & H). apply rbind_ok in H as ([l st2] & H2 & H).
  injection H as <- <-. rewrite List.length_app in Hl. cbn in Hl.
  destruct (plan_step_spec t pre st s s' st1 H1 Hr Ht ltac:(lia)) as (Hn & Hw & Ho & Hr1).
  destruct (IH (pre ++ [s']) st1 l H2 Hr1 Ht) as (Hns & Hws & Hos & Hr2).
  { rewrite !List.length_app. cbn. lia. }
  rewrite <-app_assoc in Hr2. split; [by constructor|]. split; [by constructor|]. split; [|done].
  intros [|a0 a] s0 b [= <- ->]; [by rewrite app_nil_r|].
  specialize (Hos _ _ _ eq_refl). by rewrite <-app_assoc in Hos.
Qed.

Lemma plan_start_reflects t : reflects t [] plan_start.
Proof. split; cbn; try done. intros k s. rewrite lookup_empty. set_solver. Qed.

Lemma plan_steps_idempotent t st steps steps' st' :
  plan_steps t st steps = Ok (steps', st') → plan_steps t st steps' = Ok (steps', st').
Proof.
  revert st steps'. induction steps as [|s steps IH]; cbn [plan_steps]; intros st steps' H.
  { by injection H as <- <-. }
  apply rbind_ok in H as ([s' st1] & H1 & H). apply rbind_ok in H as ([l st2] & H2 & H).
  injection H as <- <-. cbn [plan_steps].
  assert (plan_step t st s' = Ok (s', st1)) as ->; [|by cbn; rewrite (IH _ _ H2)].
  revert H1. unfold plan_step. intros H1. inv_ok H1. injection H1 as -> <-.
  apply map_err_ok in E1. pose proof (step_normalized _ _ _ E1) as Hn.
  destruct (normalized_keep _ _ Hn) as (Ki & _). rewrite Ki, E, E0, (step_idempotent _ _ _ E1).
  cbn [map_err rbind]. rewrite Ki in *. by rewrite E2, E3, E4, E5, E6.
Qed.

(** ** Assertions *)

(** The pointers an operation's result can answer. *)
Definition available (op pointer : string) : Prop :=
  ∃ tokens, pointerTokens pointer = Ok tokens ∧
    match tokens with
    | [] => True
    | t0 :: rest =>
        t0 ∈ allowed_pointers op ∧
        (rest = [] ∨ t0 = "stdout_json"%string ∨
         (t0 = "before"%string ∨ t0 = "after"%string) ∧
         (rest = ["realtime"%string] ∨ rest = ["monotonic_ns"%string]))
    end.

Record assertion_wf (steps : list Step) (a : Assertion) : Prop := {
  aw_id : identifier (a_id a) = true;
  aw_step : ∃ s, s ∈ steps ∧ s_id s = a_step a ∧ is_op "wait" s = false ∧ available (s_op s) (a_pointer a);
  aw_value :
    a_op a ∈ ["exists"; "absent"]%string ∧ a_value a = ""%string ∨
    ∃ v, JsonUtil.Decode dec_any JNull (a_value a) = Ok v ∧
      (a_op a ∈ ["eq"; "ne"]%string ∨ a_op a ∈ ordering_ops ∧ ∃ n, v = JNumber n)
}.

Lemma available_spec op pointer : availablePointer op pointer = Ok tt ↔ available op pointer.
Proof.
  unfold availablePointer, available. destruct (pointerTokens pointer) as [tokens|e]; cbn [rbind];
    [|naive_solver].
  transitivity (match tokens with
    | [] => True
    | t0 :: rest => t0 ∈ allowed_pointers op ∧
        (rest = [] ∨ t0 = "stdout_json"%string ∨ (t0 = "before"%string ∨ t0 = "after"%string) ∧
         (rest = ["realtime"%string] ∨ rest = ["monotonic_ns"%string]))
    end); [|naive_solver].
  destruct tokens as [|t0 rest]; [done|]. rewrite <-mem_elem.
  destruct (mem t0 (allowed_pointers op)); cbn [negb]; [|naive_solver].
  destruct rest as [|t1 [|t2 rest]]; [naive_solver|..].
  - change (0 <? List.length [t1])%nat with true. change (List.length [t1] =? 1)%nat with true.
    cbn [andb negb orb]. rewrite orb_false_r.
    destruct (String.eqb_spec t0 "stdout_json"), (String.eqb_spec t0 "before"), (String.eqb_spec t0 "after"),
      (String.eqb_spec t1 "realtime"), (String.eqb_spec t1 "monotonic_ns"); cbn; naive_solver.
  - change (0 <? List.length (t1 :: t2 :: rest))%nat with true.
    change (List.length (t1 :: t2 :: rest) =? 1)%nat with false. cbn [andb negb orb].
    rewrite orb_true_r. cbn [orb].
    destruct (String.eqb_spec t0 "stdout_json"); cbn; naive_solver.
Qed.

Lemma blen_zero s : blen s = 0 → s = ""%string.
Proof. unfold blen. destruct s; cbn; [done|lia]. Qed.

Lemma validate_assertion_spec t pre st a :
  reflects t pre st → identifier (a_id a) = true →
  validate_assertion (p_steps st) a = Ok tt → assertion_wf pre a.
Proof.
  intros Hr Hid. unfold validate_assertion. destruct (p_steps st !! a_step a) as [s|] eqn:Es; [|done].
  apply (rf_steps _ _ _ Hr) in Es as [Hin Hs]. intros H. inv_ok H. destruct a0.
  apply map_err_ok, available_spec in E0. split; [done|by exists s|].
  destruct (_ || _) eqn:Eo in H.
  - left. inv_ok H. to_prop. split.
    + rewrite !elem_of_cons. apply orb_true_iff in Eo as [Eo|Eo]; to_prop; auto.
    + apply blen_zero. unfold blen in *. lia.
  - right. destruct (mem _ _) eqn:Em in H; [|done]. inv_ok H. apply map_err_ok in E2. exists a0.
    split; [done|]. apply mem_elem in Em. rewrite !elem_of_cons in Em |- *.
    destruct (String.eqb_spec (a_op a) "eq"); [naive_solver|].
    destruct (String.eqb_spec (a_op a) "ne"); [naive_solver|]. right.
    split; [naive_solver|]. destruct a0; cbn in E3; naive_solver.
Qed.

Lemma validate_assertions_spec t pre st seen l :
  reflects t pre st → validate_assertions (p_steps st) seen l = Ok tt →
  Forall (assertion_wf pre) l ∧ NoDup (map a_id l) ∧ Forall (λ a, a_id a ∉ seen) l.
Proof.
  intros Hr. revert seen. induction l as [|a l IH]; cbn [validate_assertions map]; intros seen H.
  { repeat constructor. }
  inv_ok H. destruct a0. apply orb_false_iff in E as [E1 E2]. apply negb_false_iff in E1.
  apply bool_decide_eq_false in E2. destruct (IH _ H) as (H1 & H2 & H3).
  split; [constructor; [by apply (validate_assertion_spec t pre st)|done]|].
  rewrite Forall_forall in H3. split.
  - constructor; [|done]. intros (b & Hb & Hin)%list_elem_of_fmap. specialize (H3 b Hin). set_solver.
  - constructor; [done|]. apply Forall_forall. intros b Hin. specialize (H3 b Hin). set_solver.
Qed.

(** ** The whole scenario *)
Definition limits_wf (s : Scenario) : Prop :=
  sc_api s = APIVersion ∧ identifier (sc_name s) = true ∧
  workloadIdentifier (sc_image s) = true ∧ workloadIdentifier (sc_workload s) = true ∧
  1 <= VCPUCount (sc_resources s) <= 2 ∧ 128 <= MemoryMiB (sc_resources s) <= 2048 ∧
  1 <= sc_boot_timeout s <= sc_timeout s ∧ sc_timeout s <= MaxTimeoutMS ∧
  1 <= Z.of_nat (List.length (sc_steps s)) <= MaxSteps ∧
  1 <= Z.of_nat (List.length (sc_assertions s)) <= MaxAssertions.

(** Everything the loop and the checks around it established. *)
Lemma validate_inv s s' : Validate s = Ok s' →
  limits_wf s' ∧ Forall2 normalized (sc_steps s) (sc_steps s') ∧
  Forall (step_wf (sc_timeout s')) (sc_steps s') ∧ chronological (sc_steps s') ∧
  total_wait (sc_steps s') < sc_timeout s' ∧ sc_assertions s' = sc_assertions s ∧
  Forall (assertion_wf (sc_steps s')) (sc_assertions s') ∧ NoDup (map a_id (sc_assertions s')).
Proof.
  unfold Validate. intros H. inv_ok H. destruct a0 as [steps st]. inv_ok H. injection H as <-.
  to_prop. destruct a, a0. apply each_ok in E0. rewrite !Forall_cons in E0. cbn [snd] in E0.
  destruct E0 as (Hname & _).
  destruct (plan_steps_spec _ [] _ _ _ _ E6 (plan_start_reflects _)) as (Hn & Hw & Ho & Hr);
    [lia|cbn; lia|].
  destruct (validate_assertions_spec _ _ _ _ _ Hr E8) as (Ha & Hd & _).
  pose proof (Forall2_length _ _ _ Hn) as Hl.
  split; [unfold limits_wf; cbn; repeat split; try done; try lia; by destruct (identifier (sc_name s))|].
  split; [done|]. split; [done|]. split; [exact Ho|]. cbn [sc_steps sc_timeout].
  pose proof (rf_waits _ _ _ Hr) as Hwt. cbn [app] in Hwt. split; [by rewrite <-Hwt|]. done.
Qed.

(** C22.  Every accepted plan is in order: along every prefix, an action or service
    start comes after some [clock.set]; a clock change while services run is
    declared live; a service is started only when it is not running and fewer than
    four are, and stopped only when it is running; and step IDs are fresh. *)
Theorem validate_chronology s s' : Validate s = Ok s' → chronological (sc_steps s').
Proof. intros H. apply (validate_inv s s' H). Qed.

(** The limits of an accepted scenario: API version, identifiers, 1 to 2 vCPUs,
    128 to 2048 MiB, the timeouts, 1 to 128 steps and assertions; and the
    mathematical sum of all waits (the code adds in [int64]) leaves time in the
    scenario budget. *)
Theorem validate_limits s s' :
  Validate s = Ok s' → limits_wf s' ∧ total_wait (sc_steps s') < sc_timeout s'.
Proof. intros H. split; apply (validate_inv s s' H). Qed.

(** C39.  Each accepted step carries only the fields of its operation, in range, and is
    the submitted step with defaults filled in and its timestamp rewritten to
    canonical UTC for the same instant, between 1990 and 2100. *)
Theorem validate_steps s s' :
  Validate s = Ok s' →
  Forall (step_wf (sc_timeout s')) (sc_steps s') ∧ Forall2 normalized (sc_steps s) (sc_steps s').
Proof. intros H. split; apply (validate_inv s s' H). Qed.

(** Every accepted assertion can be evaluated against the plan: it has an ID of its
    own, names a declared step that is not a [wait], points at an observation that
    the step's operation produces, and has the expected value its operator needs
    (none for [exists]/[absent], a number for orderings). *)
Theorem validate_assertions_answerable s s' :
  Validate s = Ok s' →
  Forall (assertion_wf (sc_steps s')) (sc_assertions s') ∧ NoDup (map a_id (sc_assertions s')).
Proof. intros H. split; apply (validate_inv s s' H). Qed.

(** Validation is idempotent: a scenario that was validated (and so defaulted and
    normalized) once is accepted again and not changed again, which is what lets the
    engine validate the object the decoder already validated. *)
Theorem validate_idempotent s s' : Validate s = Ok s' → Validate s' = Ok s'.
Proof.
  intros H. pose proof (validate_inv s s' H) as (Hlim & Hn & _). revert H.
  unfold Validate. intros H. inv_ok H. destruct a0 as [steps st]. inv_ok H. injection H as <-.
  cbn [sc_api sc_name sc_image sc_workload sc_resources sc_timeout sc_boot_timeout sc_steps
       sc_assertions] in *.
  unfold limits_wf in Hlim. cbn in Hlim. destruct Hlim as (_ & _ & _ & _ & Hv & Hm & Hb & Ht & Hl & Ha).
  rewrite E, E0, E1. cbn [rbind].
  generalize dependent (if sc_timeout s =? 0 then 120000 else sc_timeout s). intros t.
  generalize dependent (if sc_boot_timeout s =? 0 then 30000 else sc_boot_timeout s). intros b.
  generalize dependent (if (VCPUCount (sc_resources s) =? 0) && (MemoryMiB (sc_resources s) =? 0)
                        then {| VCPUCount := 1; MemoryMiB := 512 |} else sc_resources s). intros r.
  intros. rewrite !(proj2 (Z.eqb_neq _ 0)) by lia. cbn [andb].
  rewrite !(proj2 (Z.ltb_ge _ _)) by lia. cbn [orb].
  rewrite (plan_steps_idempotent _ _ _ _ _ E6). cbn [rbind]. rewrite E7, E8. done.
Qed.

(** ** Witnesses: the example scenario of the package's tests *)
Definition valid_scenario : Scenario :=
  match JsonUtil.Decode dec_scenario zero_scenario valid_text with Ok s => s | Err _ => zero_scenario end.
Definition validated : Scenario :=
  match Validate valid_scenario with Ok s => s | Err _ => zero_scenario end.
Lemma validated_ok : Validate valid_scenario = Ok validated.
Proof. vm_compute. reflexivity. Qed.

Lemma validate_chronology_witness : chronological (sc_steps validated).
Proof. exact (validate_chronology valid_scenario validated validated_ok). Defined.
Lemma validate_limits_witness : limits_wf validated ∧ total_wait (sc_steps validated) < 120000.
Proof. exact (validate_limits valid_scenario validated validated_ok). Defined.
Lemma validate_steps_witness :
  Forall (step_wf 120000) (sc_steps validated) ∧
  Forall2 normalized (sc_steps valid_scenario) (sc_steps validated).
Proof. exact (validate_steps valid_scenario validated validated_ok). Defined.
Lemma validate_assertions_answerable_witness :
  Forall (assertion_wf (sc_steps validated)) (sc_assertions validated) ∧
  NoDup (map a_id (sc_assertions validated)).
Proof. exact (validate_assertions_answerable valid_scenario validated validated_ok). Defined.
Lemma validate_idempotent_witness : Validate validated = Ok validated.
Proof. exact (validate_idempotent valid_scenario validated validated_ok). Defined.

(** ** Explicit zero timeouts *)

(** The scenario file with a [timeout_ms] member spelled [text]. *)
Definition timeout_text (text : string) : string :=
  (js "{'timeout_ms':" +:+ text +:+ "," +:+ string_drop 1 valid_text)%string.
(** The explicit-zero check compares text: [timeout_ms: 0] is rejected, but
    [timeout_ms: -0], also an explicit zero, is accepted and silently becomes the
    120000 ms default. *)
Theorem explicit_zero_spelling :
  is_ok (Decode (timeout_text "0")) = false ∧
  match Decode (timeout_text "-0") with Ok s => sc_timeout s = 120000 | Err _ => False end.
Proof. vm_compute. done. Qed.
