(* ===== verification/Protocol.v ===== *)
(** * Protocol: internal/protocol/protocol.go

    The guest wire contract: requests and responses as JSON lines of bounded size,
    and the validation of the workload manifest installed in the guest image.  A
    [bufio.Reader] is its undelivered input, the error that ends the input and the
    buffer size; an [io.Writer] is a type class, so that the frame writer is proved
    against the documented contract of [Write] alone. *)

From S2P Require Import Prelude GoLib Json JsonFacts GoTime GoText JsonUtil JsonText.
From Stdlib Require Import Ascii String.

Definition Version : string := "epoch-guest/v1".
Definition WorkloadVersion : string := "epoch-workload/v1".
Definition MaxFrame : Z := 1048576.
Definition MaxInput : Z := 65536.
Definition MaxOutput : Z := 65536.
Definition GuestCID : Z := 3.

(** ** Messages *)
Record Request := {
  q_version : string; q_id : string; q_op : string; q_run : string; q_nonce : string;
  q_payload : string
}.
Record Error := { e_code : string; e_message : string; e_details : string }.
Record Response := {
  p_version : string; p_id : string; p_op : string; p_run : string; p_nonce : string;
  p_result : string; p_error : option Error
}.
Record ClockObservation := { Realtime : Z; MonotonicNS : Z }.
Record ClockSetRequest := { cs_at : string; cs_tolerance : Z; cs_allow_live : bool }.
Record ClockSetResult := {
  cr_target : Z; cr_before : ClockObservation; cr_after : ClockObservation;
  cr_elapsed : Z; cr_tolerance : Z; cr_valid : bool
}.
Record HelloResult := {
  h_agent_version : string; h_agent_sha : string; h_protocol : string; h_run : string;
  h_nonce : string; h_cid : Z; h_workload : string; h_workload_version : string;
  h_workload_sha : string; h_ready : bool
}.
Record ActionRequest := { aq_action : string; aq_input : string; aq_timeout : Z }.
Record ActionResult := {
  ar_exit : Z; ar_stdout_json : string; ar_stderr : string; ar_stdout_truncated : bool;
  ar_stderr_truncated : bool; ar_before : ClockObservation; ar_after : ClockObservation
}.
Record ServiceRequest := { sq_service : string; sq_timeout : Z; sq_input : string }.
Record ServiceResult := {
  sr_service : string; sr_running : bool; sr_before : ClockObservation;
  sr_after : ClockObservation; sr_stdout : string; sr_stderr : string
}.

(** *** Encoding *)

(** A message that holds a [json.RawMessage] is encoded as the text [json.Marshal] returns,
    the raw member compacted; the others as values.  [None] is a marshalling error. *)
Definition enc_int (n : Z) : json := JNumber (itoa n).
Definition omit_empty (k s : string) : list (string * json) :=
  if s =?s "" then [] else [(k, JString s)].

Definition enc_request (r : Request) : option string :=
  let! payload := enc_raw (q_payload r) in
  Some (obj (raw_members [("version", JString (q_version r)); ("id", JString (q_id r));
                          ("op", JString (q_op r)); ("run_id", JString (q_run r));
                          ("nonce", JString (q_nonce r))]%string ++ [("payload"%string, payload)])).
Definition enc_error (e : Error) : option string :=
  let! details := omit_raw "details" (e_details e) in
  Some (obj (raw_members [("code", JString (e_code e)); ("message", JString (e_message e))]%string ++ details)).
Definition enc_response (r : Response) : option string :=
  let! result := omit_raw "result" (p_result r) in
  let! err := match p_error r with
              | None => Some []
              | Some e => let! t := enc_error e in Some [("error"%string, t)]
              end in
  Some (obj (raw_members [("version", JString (p_version r)); ("id", JString (p_id r));
                          ("op", JString (p_op r)); ("run_id", JString (p_run r));
                          ("nonce", JString (p_nonce r))]%string ++ result ++ err)).
Definition enc_time (t : Z) : json := JString (format_rfc3339nano t).
Definition enc_clock (o : ClockObservation) : json :=
  JObject [("realtime", enc_time (Realtime o)); ("monotonic_ns", enc_int (MonotonicNS o))]%string.
Definition enc_clock_set (r : ClockSetResult) : json :=
  JObject [("target", enc_time (cr_target r)); ("before", enc_clock (cr_before r));
           ("after", enc_clock (cr_after r)); ("elapsed_ns", enc_int (cr_elapsed r));
           ("tolerance_ms", enc_int (cr_tolerance r)); ("readback_valid", JBool (cr_valid r))]%string.
Definition enc_hello (h : HelloResult) : json :=
  JObject [("agent_version", JString (h_agent_version h)); ("agent_sha256", JString (h_agent_sha h));
           ("protocol_version", JString (h_protocol h)); ("run_id", JString (h_run h));
           ("nonce", JString (h_nonce h)); ("cid", enc_int (h_cid h));
           ("workload_id", JString (h_workload h));
           ("workload_version", JString (h_workload_version h));
           ("workload_sha256", JString (h_workload_sha h)); ("ready", JBool (h_ready h))]%string.
Definition enc_action (r : ActionResult) : option string :=
  let! out := enc_raw (ar_stdout_json r) in
  Some (obj (raw_members [("exit_code", enc_int (ar_exit r))]%string ++ ("stdout_json"%string, out) ::
             raw_members [("stderr", JString (ar_stderr r)); ("stdout_truncated", JBool (ar_stdout_truncated r));
                          ("stderr_truncated", JBool (ar_stderr_truncated r));
                          ("before", enc_clock (ar_before r)); ("after", enc_clock (ar_after r))]%string)).
Definition enc_service (r : ServiceResult) : json :=
  JObject ([("service", JString (sr_service r)); ("running", JBool (sr_running r));
            ("before", enc_clock (sr_before r)); ("after", enc_clock (sr_after r))]%string
           ++ omit_empty "stdout" (sr_stdout r) ++ omit_empty "stderr" (sr_stderr r)).

(** *** Decoding *)
Definition dec_request : decoder Request :=
  Build_decoder
    (TStruct [("version", TString); ("id", TString); ("op", TString); ("run_id", TString);
              ("nonce", TString); ("payload", TRaw)]%string)
    {| q_version := ""; q_id := ""; q_op := ""; q_run := ""; q_nonce := ""; q_payload := "" |}
    (λ old raw,
       let? fs := struct_fields raw in
       let? version := get_field dec_string "version" (q_version old) fs in
       let? id := get_field dec_string "id" (q_id old) fs in
       let? op := get_field dec_string "op" (q_op old) fs in
       let? run := get_field dec_string "run_id" (q_run old) fs in
       let? nonce := get_field dec_string "nonce" (q_nonce old) fs in
       let? payload := get_field dec_raw "payload" (q_payload old) fs in
       Ok {| q_version := version; q_id := id; q_op := op; q_run := run; q_nonce := nonce;
             q_payload := payload |}).

Definition dec_error : decoder Error :=
  Build_decoder (TStruct [("code", TString); ("message", TString); ("details", TRaw)]%string)
    {| e_code := ""; e_message := ""; e_details := "" |}
    (λ old raw,
       let? fs := struct_fields raw in
       let? code := get_field dec_string "code" (e_code old) fs in
       let? message := get_field dec_string "message" (e_message old) fs in
       let? details := get_field dec_raw "details" (e_details old) fs in
       Ok {| e_code := code; e_message := message; e_details := details |}).

Definition zero_response : Response :=
  {| p_version := ""; p_id := ""; p_op := ""; p_run := ""; p_nonce := ""; p_result := "";
     p_error := None |}.
Definition dec_response : decoder Response :=
  Build_decoder
    (TStruct [("version", TString); ("id", TString); ("op", TString); ("run_id", TString);
              ("nonce", TString); ("result", TRaw); ("error", TPtr (go_type dec_error))]%string)
    zero_response
    (λ old raw,
       let? fs := struct_fields raw in
       let? version := get_field dec_string "version" (p_version old) fs in
       let? id := get_field dec_string "id" (p_id old) fs in
       let? op := get_field dec_string "op" (p_op old) fs in
       let? run := get_field dec_string "run_id" (p_run old) fs in
       let? nonce := get_field dec_string "nonce" (p_nonce old) fs in
       let? result := get_field dec_raw "result" (p_result old) fs in
       let? err := get_field (dec_ptr dec_error) "error" (p_error old) fs in
       Ok {| p_version := version; p_id := id; p_op := op; p_run := run; p_nonce := nonce;
             p_result := result; p_error := err |}).

Definition zero_clock : ClockObservation := {| Realtime := zero_time; MonotonicNS := 0 |}.
Definition dec_clock : decoder ClockObservation :=
  Build_decoder (TStruct [("realtime", TTime); ("monotonic_ns", TInt 64)]%string) zero_clock
    (λ old raw,
       let? fs := struct_fields raw in
       let? t := get_field dec_time "realtime" (Realtime old) fs in
       let? m := get_field (dec_int 64) "monotonic_ns" (MonotonicNS old) fs in
       Ok {| Realtime := t; MonotonicNS := m |}).
Definition zero_clock_set : ClockSetResult :=
  {| cr_target := zero_time; cr_before := zero_clock; cr_after := zero_clock;
     cr_elapsed := 0; cr_tolerance := 0; cr_valid := false |}.
Definition dec_clock_set : decoder ClockSetResult :=
  Build_decoder
    (TStruct [("target", TTime); ("before", go_type dec_clock); ("after", go_type dec_clock);
              ("elapsed_ns", TInt 64); ("tolerance_ms", TInt 64); ("readback_valid", TBool)]%string)
    zero_clock_set
    (λ old raw,
       let? fs := struct_fields raw in
       let? target := get_field dec_time "target" (cr_target old) fs in
       let? before := get_field dec_clock "before" (cr_before old) fs in
       let? after := get_field dec_clock "after" (cr_after old) fs in
       let? elapsed := get_field (dec_int 64) "elapsed_ns" (cr_elapsed old) fs in
       let? tolerance := get_field (dec_int 64) "tolerance_ms" (cr_tolerance old) fs in
       let? valid := get_field dec_bool "readback_valid" (cr_valid old) fs in
       Ok {| cr_target := target; cr_before := before; cr_after := after; cr_elapsed := elapsed;
             cr_tolerance := tolerance; cr_valid := valid |}).
Definition dec_clock_set_request : decoder ClockSetRequest :=
  Build_decoder (TStruct [("at", TString); ("tolerance_ms", TInt 64); ("allow_live", TBool)]%string)
    {| cs_at := ""; cs_tolerance := 0; cs_allow_live := false |}
    (λ old raw,
       let? fs := struct_fields raw in
       let? at_ := get_field dec_string "at" (cs_at old) fs in
       let? tolerance := get_field (dec_int 64) "tolerance_ms" (cs_tolerance old) fs in
       let? live := get_field dec_bool "allow_live" (cs_allow_live old) fs in
       Ok {| cs_at := at_; cs_tolerance := tolerance; cs_allow_live := live |}).
Definition dec_action_request : decoder ActionRequest :=
  Build_decoder (TStruct [("action", TString); ("input", TRaw); ("timeout_ms", TInt 64)]%string)
    {| aq_action := ""; aq_input := ""; aq_timeout := 0 |}
    (λ old raw,
       let? fs := struct_fields raw in
       let? action := get_field dec_string "action" (aq_action old) fs in
       let? input := get_field dec_raw "input" (aq_input old) fs in
       let? timeout := get_field (dec_int 64) "timeout_ms" (aq_timeout old) fs in
       Ok {| aq_action := action; aq_input := input; aq_timeout := timeout |}).
Definition dec_service_request : decoder ServiceRequest :=
  Build_decoder (TStruct [("service", TString); ("timeout_ms", TInt 64); ("input", TRaw)]%string)
    {| sq_service := ""; sq_timeout := 0; sq_input := "" |}
    (λ old raw,
       let? fs := struct_fields raw in
       let? service := get_field dec_string "service" (sq_service old) fs in
       let? timeout := get_field (dec_int 64) "timeout_ms" (sq_timeout old) fs in
       let? input := get_field dec_raw "input" (sq_input old) fs in
       Ok {| sq_service := service; sq_timeout := timeout; sq_input := input |}).
Definition zero_action : ActionResult :=
  {| ar_exit := 0; ar_stdout_json := ""; ar_stderr := ""; ar_stdout_truncated := false;
     ar_stderr_truncated := false; ar_before := zero_clock; ar_after := zero_clock |}.
Definition dec_action : decoder ActionResult :=
  Build_decoder
    (TStruct [("exit_code", TInt 64); ("stdout_json", TRaw); ("stderr", TString);
              ("stdout_truncated", TBool); ("stderr_truncated", TBool);
              ("before", go_type dec_clock); ("after", go_type dec_clock)]%string)
    zero_action
    (λ old raw,
       let? fs := struct_fields raw in
       let? code := get_field (dec_int 64) "exit_code" (ar_exit old) fs in
       let? out := get_field dec_raw "stdout_json" (ar_stdout_json old) fs in
       let? err := get_field dec_string "stderr" (ar_stderr old) fs in
       let? ot := get_field dec_bool "stdout_truncated" (ar_stdout_truncated old) fs in
       let? et := get_field dec_bool "stderr_truncated" (ar_stderr_truncated old) fs in
       let? before := get_field dec_clock "before" (ar_before old) fs in
       let? after := get_field dec_clock "after" (ar_after old) fs in
       Ok {| ar_exit := code; ar_stdout_json := out; ar_stderr := err; ar_stdout_truncated := ot;
             ar_stderr_truncated := et; ar_before := before; ar_after := after |}).
Definition zero_service : ServiceResult :=
  {| sr_service := ""; sr_running := false; sr_before := zero_clock; sr_after := zero_clock;
     sr_stdout := ""; sr_stderr := "" |}.
Definition dec_service : decoder ServiceResult :=
  Build_decoder
    (TStruct [("service", TString); ("running", TBool); ("before", go_type dec_clock);
              ("after", go_type dec_clock); ("stdout", TString); ("stderr", TString)]%string)
    zero_service
    (λ old raw,
       let? fs := struct_fields raw in
       let? service := get_field dec_string "service" (sr_service old) fs in
       let? running := get_field dec_bool "running" (sr_running old) fs in
       let? before := get_field dec_clock "before" (sr_before old) fs in
       let? after := get_field dec_clock "after" (sr_after old) fs in
       let? out := get_field dec_string "stdout" (sr_stdout old) fs in
       let? err := get_field dec_string "stderr" (sr_stderr old) fs in
       Ok {| sr_service := service; sr_running := running; sr_before := before; sr_after := after;
             sr_stdout := out; sr_stderr := err |}).
Definition zero_hello : HelloResult :=
  {| h_agent_version := ""; h_agent_sha := ""; h_protocol := ""; h_run := ""; h_nonce := "";
     h_cid := 0; h_workload := ""; h_workload_version := ""; h_workload_sha := ""; h_ready := false |}.
Definition dec_hello : decoder HelloResult :=
  Build_decoder
    (TStruct [("agent_version", TString); ("agent_sha256", TString); ("protocol_version", TString);
              ("run_id", TString); ("nonce", TString); ("cid", TUint 32); ("workload_id", TString);
              ("workload_version", TString); ("workload_sha256", TString); ("ready", TBool)]%string)
    zero_hello
    (λ old raw,
       let? fs := struct_fields raw in
       let? av := get_field dec_string "agent_version" (h_agent_version old) fs in
       let? asha := get_field dec_string "agent_sha256" (h_agent_sha old) fs in
       let? pv := get_field dec_string "protocol_version" (h_protocol old) fs in
       let? run := get_field dec_string "run_id" (h_run old) fs in
       let? nonce := get_field dec_string "nonce" (h_nonce old) fs in
       let? cid := get_field (dec_uint 32) "cid" (h_cid old) fs in
       let? wid := get_field dec_string "workload_id" (h_workload old) fs in
       let? wv := get_field dec_string "workload_version" (h_workload_version old) fs in
       let? wsha := get_field dec_string "workload_sha256" (h_workload_sha old) fs in
       let? ready := get_field dec_bool "ready" (h_ready old) fs in
       Ok {| h_agent_version := av; h_agent_sha := asha; h_protocol := pv; h_run := run;
             h_nonce := nonce; h_cid := cid; h_workload := wid; h_workload_version := wv;
             h_workload_sha := wsha; h_ready := ready |}).

(** ** The workload manifest *)
Definition Command : Type := list string.
Record Service := { sv_argv : list string; sv_readiness : string }.
Record WorkloadManifest := {
  m_api : string; m_id : string; m_version : string; m_uid : Z; m_gid : Z; m_dir : string;
  m_env : list (string * string);
  m_actions : list (string * Command);
  m_services : list (string * Service)
}.

(** The decoded form; [Command] is its argument vector. *)
Definition dec_command : decoder Command :=
  Build_decoder (TStruct [("argv", TSlice TString)]%string) []
    (λ old raw, let? fs := struct_fields raw in get_field (dec_slice dec_string) "argv" old fs).
Definition dec_service_spec : decoder Service :=
  Build_decoder (TStruct [("argv", TSlice TString); ("readiness_action", TString)]%string)
    {| sv_argv := []; sv_readiness := "" |}
    (λ old raw,
       let? fs := struct_fields raw in
       let? argv := get_field (dec_slice dec_string) "argv" (sv_argv old) fs in
       let? ready := get_field dec_string "readiness_action" (sv_readiness old) fs in
       Ok {| sv_argv := argv; sv_readiness := ready |}).
Definition dec_workload_manifest : decoder WorkloadManifest :=
  Build_decoder
    (TStruct [("api_version", TString); ("id", TString); ("version", TString); ("uid", TUint 32); ("gid", TUint 32);
              ("working_dir", TString); ("environment", TMap TString); ("actions", TMap (go_type dec_command));
              ("services", TMap (go_type dec_service_spec))]%string)
    {| m_api := ""; m_id := ""; m_version := ""; m_uid := 0; m_gid := 0; m_dir := ""; m_env := []; m_actions := [];
       m_services := [] |}
    (λ old raw,
       let? fs := struct_fields raw in
       let? api := get_field dec_string "api_version" (m_api old) fs in
       let? id := get_field dec_string "id" (m_id old) fs in
       let? version := get_field dec_string "version" (m_version old) fs in
       let? u := get_field (dec_uint 32) "uid" (m_uid old) fs in
       let? g := get_field (dec_uint 32) "gid" (m_gid old) fs in
       let? dir := get_field dec_string "working_dir" (m_dir old) fs in
       let? env := get_field (dec_map dec_string) "environment" (m_env old) fs in
       let? actions := get_field (dec_map dec_command) "actions" (m_actions old) fs in
       let? services := get_field (dec_map dec_service_spec) "services" (m_services old) fs in
       Ok {| m_api := api; m_id := id; m_version := version; m_uid := u; m_gid := g; m_dir := dir; m_env := env;
             m_actions := actions; m_services := services |}).

Definition ValidID (s : string) : bool :=
  ident is_alnum (λ c, is_alnum c || is_one_of [95; 45] c) 63 s.
Definition safeEnv (s : string) : bool :=
  match s with
  | EmptyString => false
  | String c r => (is_upper c || (bz c =? 95)) && all_bytes (λ c, is_upper c || is_digit c || (bz c =? 95)) r
  end.

Definition forbidden_launchers : list string := ["sh"; "bash"; "dash"; "zsh"; "sudo"; "su"]%string.
Definition check_command (id : string) (argv : list string) : result unit :=
  fail_if negb (ValidID id) || (64 <? List.length argv)%nat
          || match argv with
             | [] => true
             | exe :: _ => negb (is_abs exe) || (path_clean exe <>?s exe)
             end
    with Errorf "invalid command %q" [id] ;;
  fail_if match argv with exe :: _ => existsb (String.eqb (path_base exe)) forbidden_launchers | [] => false end
    with Errorf "shell/privilege launcher forbidden: %s" argv ;;
  each (λ arg, fail_if contains_byte 0 arg || (4096 <? blen arg)
                 with Errorf "invalid command argument" [] ;; Ok tt) argv.

Definition WorkloadManifest_Validate (m : WorkloadManifest) : result unit :=
  fail_if (m_api m <>?s WorkloadVersion) || negb (ValidID (m_id m)) || (m_version m =?s "")
          || (m_uid m =? 0) || (m_gid m =? 0)
    with Errorf "invalid workload identity/version or root workload identity" [] ;;
  fail_if negb (is_abs (m_dir m)) || (path_clean (m_dir m) <>?s m_dir m)
    with Errorf "workload working_dir must be a clean absolute guest path" [] ;;
  fail_if (List.length (m_actions m) =? 0)%nat || (128 <? List.length (m_actions m))%nat
          || (4 <? List.length (m_services m))%nat
    with Errorf "invalid workload action/service count" [] ;;
  do? each (λ c : string * Command, check_command c.1 c.2) (m_actions m) ;;
  do? each (λ s : string * Service,
              do? check_command s.1 (sv_argv s.2) ;;
              match assoc (sv_readiness s.2) (m_actions m) with
              | None => Err (Errorf "service %s has no declared readiness action" [s.1])
              | Some _ => Ok tt
              end) (m_services m) ;;
  fail_if (64 <? List.length (m_env m))%nat with Errorf "too many environment entries" [] ;;
  each (λ kv : string * string,
          fail_if negb (safeEnv kv.1) || contains_byte 0 kv.2 || (4096 <? blen kv.2)
                  || has_prefix kv.1 "LD_" || has_prefix kv.1 "DYLD_"
            with Errorf "invalid environment key/value %q" [kv.1] ;; Ok tt) (m_env m).

(** ** Frames *)
Definition ErrBufferFull : error := ErrSentinel "bufio.ErrBufferFull".
Definition err_quota : error := Errorf "protocol frame quota exceeded" [].

(** A buffered reader: input not yet consumed, the error that follows it, and the
    capacity of the buffer. *)
Record reader := { rd_data : string; rd_err : error; rd_size : nat }.
Definition rest_of (r : reader) (data : string) : reader :=
  {| rd_data := data; rd_err := rd_err r; rd_size := rd_size r |}.

(** [r.ReadSlice('\n')]: a line that fits the buffer, a full buffer, or what is
    left together with the error of the source. *)
Definition ReadSlice (r : reader) : string * option error * reader :=
  let '(line, rest, found) := cut newline (rd_data r) in
  if found && (String.length line <? rd_size r)%nat
  then ((line +:+ String newline "")%string, None, rest_of r rest)
  else if (rd_size r <=? String.length (rd_data r))%nat
  then (string_take (rd_size r) (rd_data r), Some ErrBufferFull,
        rest_of r (string_drop (rd_size r) (rd_data r)))
  else (rd_data r, Some (rd_err r), rest_of r "").

Fixpoint read_line (fuel : nat) (out : string) (r : reader) (limit : Z) : result string * reader :=
  match fuel with
  | O => (Err (Errorf "unreachable" []), r)
  | S fuel =>
      let '(part, err, r') := ReadSlice r in
      if limit <? blen out + blen part then (Err err_quota, r') else
      let out := (out +:+ part)%string in
      match err with
      | None => (Ok (string_take (String.length out - 1) out), r')
      | Some e =>
          if err_is "bufio.ErrBufferFull" e then read_line fuel out r' limit
          else if err_is "io.EOF" e && (0 <? blen out) then (Err ErrUnexpectedEOF, r')
          else (Err e, r')
      end
  end.
Definition ReadLine (r : reader) (limit : Z) : result string * reader :=
  read_line (S (String.length (rd_data r))) "" r limit.

(** [io.Writer] with the bytes it has delivered, and its documented contract. *)
Class Writer (W : Type) := {
  delivered : W → string;
  Write : W → string → nat * option error * W
}.
Class LawfulWriter (W : Type) `{Writer W} := {
  write_law w b n e w' : Write w b = (n, e, w') →
    (n ≤ String.length b)%nat ∧ delivered w' = (delivered w +:+ string_take n b)%string
}.

Section frames.
Context {W : Type} `{Writer W}.

Fixpoint write_all (fuel : nat) (w : W) (b : string) : option error * W :=
  match b, fuel with
  | EmptyString, _ => (None, w)
  | _, O => (Some (Errorf "unreachable" []), w)
  | _, S fuel =>
      let '(n, e, w) := Write w b in
      match e with
      | Some e => (Some e, w)
      | None => if (n =? 0)%nat then (Some ErrShortWrite, w) else write_all fuel w (string_drop n b)
      end
  end.

(** The value is given as [json.Marshal] writes it, [None] when that fails. *)
Definition WriteFrame (w : W) (b : option string) : option error * W :=
  match b with
  | None => (Some (Errorf "json: error calling MarshalJSON" []), w)
  | Some b =>
      if MaxFrame <? blen b + 1 then (Some err_quota, w)
      else write_all (S (String.length b)) w (b +:+ String newline "")
  end.
End frames.
