(* ===== verification/ProtocolFacts.v ===== *)
(** * ProtocolFacts: the wire contract

    Framing (a line is delivered exactly when it is complete and within the quota,
    and the bytes after it stay in the reader), the frame writer against the
    [io.Writer] contract, request and response round trips, and what a validated
    workload manifest excludes. *)

From S2P Require Import Prelude GoLib Json JsonFacts GoTime GoText JsonUtil JsonText Assertions Protocol.
From Stdlib Require Import Ascii String.

(** ** Lines *)
Lemma cut_spec sep s :
  let '(a, b, found) := cut sep s in
  all_bytes (λ c, negb (Ascii.eqb c sep)) a = true ∧
  s = (if found then a +:+ String sep b else a)%string.
Proof.
  induction s as [|c s IH]; cbn; [done|]. destruct (Ascii.eqb_spec c sep) as [->|Hc]; [done|].
  destruct (cut sep s) as [[a b] found]. cbn. destruct (Ascii.eqb_spec c sep); [done|].
  destruct IH as [-> ->]. by destruct found.
Qed.
Lemma cut_app sep a b :
  all_bytes (λ c, negb (Ascii.eqb c sep)) a = true → cut sep (a +:+ String sep b) = (a, b, true).
Proof.
  induction a as [|c a IH]; cbn; [by rewrite Ascii.eqb_refl|]. intros H. to_prop.
  by rewrite H, IH.
Qed.
Lemma cut_none sep a :
  all_bytes (λ c, negb (Ascii.eqb c sep)) a = true → cut sep a = (a, ""%string, false).
Proof. induction a as [|c a IH]; cbn; [done|]. intros H. to_prop. by rewrite H, IH. Qed.
Lemma take_drop n s : (string_take n s +:+ string_drop n s)%string = s.
Proof. revert n; induction s as [|c s IH]; intros [|n]; cbn; [done..|]. by rewrite IH. Qed.
Lemma take_length n s : (n ≤ String.length s)%nat → String.length (string_take n s) = n.
Proof. revert n; induction s as [|c s IH]; intros [|n] H; cbn in *; [done|lia|done|]. rewrite IH; lia. Qed.
Lemma drop_length n s : String.length (string_drop n s) = (String.length s - n)%nat.
Proof. revert n; induction s as [|c s IH]; intros [|n]; cbn; [done..|]. apply IH. Qed.
Lemma app_split a b c d :
  (a +:+ b = c +:+ d)%string → (String.length a ≤ String.length c)%nat →
  ∃ e, c = (a +:+ e)%string ∧ b = (e +:+ d)%string.
Proof.
  revert c; induction a as [|x a IH]; intros c H Hl; cbn in *; [by exists c|].
  destruct c as [|y c]; cbn in *; [lia|]. injection H as -> H.
  destruct (IH c H ltac:(lia)) as (e & -> & ->). by exists e.
Qed.

(** What [ReadLine] has to return for a given input. *)
Definition line_result (out : string) (r : reader) (limit : Z) : result string * reader → Prop :=
  λ res, let '(line, rest, found) := cut newline (rd_data r) in
    if found && (blen out + blen line + 1 <=? limit)
    then res = (Ok (out +:+ line)%string, rest_of r rest)
    else ∃ e r', res = (Err e, r').

Definition reader_ok (r : reader) : Prop :=
  (0 < rd_size r)%nat ∧ err_is "bufio.ErrBufferFull" (rd_err r) = false.

Lemma blen_app a b : blen (a +:+ b) = blen a + blen b.
Proof. unfold blen. rewrite slength_app. lia. Qed.
Lemma blen_take n s : blen (string_take n s) = Z.min (Z.of_nat n) (blen s).
Proof.
  unfold blen. destruct (decide (n ≤ String.length s)%nat); [rewrite take_length by done; lia|].
  rewrite string_take_all by lia. lia.
Qed.

Lemma read_line_result fuel out r limit :
  reader_ok r → (String.length (rd_data r) < fuel)%nat →
  line_result out r limit (read_line fuel out r limit).
Proof.
  revert out r. induction fuel as [|fuel IH]; intros out r [Hs He] Hf; [lia|].
  cbn [read_line]. unfold ReadSlice.
  pose proof (cut_spec newline (rd_data r)) as Hcut. unfold line_result.
  destruct (cut newline (rd_data r)) as [[line rest] found] eqn:Ec. destruct Hcut as [Hno Hd].
  destruct (found && (String.length line <? rd_size r)%nat) eqn:Efit.
  - apply andb_true_iff in Efit as [-> _]. cbn [andb]. rewrite blen_app. change (blen (String newline "")) with 1.
    rewrite Z.add_assoc. destruct (Z.ltb_spec limit (blen out + blen line + 1)).
    + rewrite (proj2 (Z.leb_gt _ _)) by lia. eauto.
    + rewrite (proj2 (Z.leb_le _ _)) by lia. do 2 f_equal.
      rewrite <-sapp_assoc, slength_app. cbn [String.length]. rewrite Nat.add_sub. apply string_take_app.
  - destruct (Nat.leb_spec (rd_size r) (String.length (rd_data r))) as [Hfull|Hshort].
    + set (part := string_take (rd_size r) (rd_data r)).
      assert (Hpl : String.length part = rd_size r) by (by apply take_length).
      assert (Hlong : found = true → (rd_size r ≤ String.length line)%nat).
      { intros ->. cbn in Efit. by apply Nat.ltb_ge in Efit. }
      assert (Hsplit : ∃ e, line = (part +:+ e)%string ∧
        string_drop (rd_size r) (rd_data r) = (if found then e +:+ String newline rest else e)%string).
      { destruct found.
        - apply app_split; [|rewrite Hpl; auto]. rewrite <-Hd. apply take_drop.
        - exists (string_drop (rd_size r) (rd_data r)). split; [|done]. rewrite <-Hd. symmetry. apply take_drop. }
      destruct Hsplit as (e & He1 & He2).
      assert (Hce : cut newline (string_drop (rd_size r) (rd_data r)) = (e, (if found then rest else ""%string), found)).
      { rewrite He1, all_bytes_app in Hno. apply andb_true_iff in Hno as [_ Hno]. rewrite He2.
        destruct found; [by apply cut_app|by apply cut_none]. }
      destruct (Z.ltb_spec limit (blen out + blen part)) as [Hq|Hq].
      * rewrite (proj2 (Z.leb_gt _ _)).
        -- rewrite andb_false_r. eauto.
        -- rewrite He1, blen_app. unfold blen in *. lia.
      * change (err_is "bufio.ErrBufferFull" ErrBufferFull) with true. cbn iota.
        specialize (IH (out +:+ part)%string (rest_of r (string_drop (rd_size r) (rd_data r)))).
        unfold line_result in IH. cbn [rest_of rd_data rd_size rd_err] in IH. rewrite Hce in IH.
        specialize (IH (conj Hs He)). rewrite drop_length in IH. specialize (IH ltac:(lia)).
        rewrite He1, sapp_assoc, !blen_app in *. rewrite <-!Z.add_assoc in *.
        destruct found; [|done]. cbn [andb] in *. by destruct (_ <=? limit).
    + assert (found = false) as ->.
      { destruct found; [|done]. cbn in Efit. apply Nat.ltb_ge in Efit.
        rewrite Hd, slength_app in Hshort. lia. }
      cbn [andb]. destruct (_ <? _); [eauto|]. rewrite He. clear Efit. case_match; eauto.
Qed.

Lemma read_line_ok r limit line r' :
  reader_ok r →
  ReadLine r limit = (Ok line, r') ↔
  ∃ rest, rd_data r = (line +:+ String newline rest)%string ∧ no_newline line ∧
          blen line + 1 <= limit ∧ r' = rest_of r rest.
Proof.
  intros Hr. pose proof (read_line_result (S (String.length (rd_data r))) "" r limit Hr) as H.
  specialize (H ltac:(lia)). fold (ReadLine r limit) in H. unfold line_result in H.
  pose proof (cut_spec newline (rd_data r)) as Hcut. unfold no_newline.
  destruct (cut newline (rd_data r)) as [[l rest] found] eqn:Ec. destruct Hcut as [Hno Hd].
  change (blen "") with 0 in H. rewrite Z.add_0_l in H.
  assert (Hdet : ∀ l2 rest2, rd_data r = (l2 +:+ String newline rest2)%string →
            all_bytes (λ c, negb (Ascii.eqb c newline)) l2 = true → l2 = l ∧ rest2 = rest ∧ found = true).
  { intros l2 rest2 H2 Hn2. rewrite H2, cut_app in Ec by done. by simplify_eq. }
  destruct (found && (blen l + 1 <=? limit)) eqn:Ef.
  - rewrite H. apply andb_true_iff in Ef as [-> Ef]. apply Z.leb_le in Ef. split.
    + intros [= <- <-]. by exists rest.
    + intros (rest2 & H2 & Hn2 & _ & ->). destruct (Hdet _ _ H2 Hn2) as (-> & -> & _). done.
  - destruct H as (e & r1 & ->). split; [done|]. intros (rest2 & H2 & Hn2 & Hl & _).
    destruct (Hdet _ _ H2 Hn2) as (-> & -> & ->). cbn in Ef. apply Z.leb_gt in Ef. lia.
Qed.

(** ** The frame writer *)
Section frame_writer.
Context {W : Type} `{LawfulWriter W}.

Lemma write_all_delivers fuel w b w' :
  write_all fuel w b = (None, w') → delivered w' = (delivered w +:+ b)%string.
Proof.
  revert w b. induction fuel as [|fuel IH]; intros w b Hw; (destruct b as [|c b]; cbn in Hw).
  1,3: injection Hw as <-; by rewrite sapp_nil_r.
  1: done.
  destruct (Write w (String c b)) as [[n e] w1] eqn:Ew. destruct (write_law _ _ _ _ _ Ew) as [_ Hd].
  destruct e; [done|]. destruct (n =? 0)%nat; [done|]. rewrite (IH _ _ Hw), Hd, sapp_assoc.
  by rewrite take_drop.
Qed.

(** Whatever happens, the bytes delivered are a prefix of the text. *)
Lemma write_all_prefix fuel w b e w' :
  write_all fuel w b = (e, w') → ∃ p q, b = (p +:+ q)%string ∧ delivered w' = (delivered w +:+ p)%string.
Proof.
  revert w b. induction fuel as [|fuel IH]; intros w b Hw; (destruct b as [|c b]; cbn in Hw).
  1,2,3: injection Hw as <- <-; eexists ""%string, _; (split; [done|by rewrite sapp_nil_r]).
  destruct (Write w (String c b)) as [[n e1] w1] eqn:Ew. destruct (write_law _ _ _ _ _ Ew) as [_ Hd].
  assert (Hstop : ∀ e0, (e0, w1) = (e, w') → ∃ p q, String c b = (p +:+ q)%string ∧
            delivered w' = (delivered w +:+ p)%string).
  { intros e0 [= -> ->]. exists (string_take n (String c b)), (string_drop n (String c b)).
    split; [by rewrite take_drop|done]. }
  destruct e1; [by eapply Hstop|]. destruct (n =? 0)%nat; [by eapply Hstop|].
  destruct (IH _ _ Hw) as (p & q & Hpq & Hd').
  exists (string_take n (String c b) +:+ p)%string, q. rewrite sapp_assoc, <-Hpq, take_drop.
  split; [done|]. by rewrite Hd', Hd, sapp_assoc.
Qed.
End frame_writer.

(** ** Round trips *)

(** A raw member as the encoder writes it: a compact document whose value may be nested
    [depth] levels below the message. *)
Definition raw_ok (depth : Z) (raw : string) (v : json) : Prop := doc raw v ∧ check_value depth v = Ok tt.
Lemma raw_ok_parse d raw v : raw_ok d raw v → (raw =?s "") = false ∧ parse raw = Some v.
Proof. intros [Hd _]. split; [by apply String.eqb_neq, (doc_nonempty _ v)|by apply doc_parse]. Qed.
Lemma raw_ok_enc d raw v : 0 ≤ d → raw_ok d raw v → enc_raw raw = Some raw.
Proof. intros Hd [Hr Hc]. apply (enc_raw_doc raw v); [done|]. by eapply nesting_checked. Qed.
Definition all_utf8 (l : list string) : Prop := Forall (λ s, utf8_valid s = true) l.
Lemma exact_leaf t raw : t = TString ∨ t = TRaw → exactFields t raw = Ok tt.
Proof. intros [-> | ->]; cbn; by destruct (is_null raw). Qed.
Lemma exact_int n raw : exactFields (TInt n) raw = Ok tt.
Proof. cbn. by destruct (is_null raw). Qed.
#[export] Hint Resolve exact_leaf exact_int : epoch.

(** A member by its text. *)
Lemma get_text {A} (d : decoder A) k old ms t : assoc k ms = Some t → get_field d k old ms = store d old t.
Proof. unfold get_field. by intros ->. Qed.
Lemma get_no_text {A} (d : decoder A) k old ms : assoc k ms = None → get_field d k old ms = Ok old.
Proof. unfold get_field. by intros ->. Qed.
Lemma get_raw {A} (d : decoder A) k old m v :
  assoc k m = Some v → get_field d k old (raw_members m) = store d old (print v).
Proof.
  intros H. unfold get_field. assert (assoc k (raw_members m) = Some (print v)) as ->; [|done].
  revert v H. induction m as [|[k' w] m IH]; intros v; cbn; [done|].
  fold (raw_members m). destruct (assoc k m) as [u|] eqn:E.
  - intros [= ->]. by rewrite (IH v).
  - assert (assoc k (raw_members m) = None) as ->.
    { apply assoc_none. unfold raw_members. apply assoc_none in E.
      intros ([x y] & -> & ([x' y'] & [= -> ->] & Hin)%list_elem_of_fmap)%list_elem_of_fmap.
      apply E, list_elem_of_fmap. by exists (x', y'). }
    destruct (k' =?s k); [by intros [= ->]|done].
Qed.
Lemma get_missing {A} (d : decoder A) k old m :
  assoc k m = None → get_field d k old (raw_members m) = Ok old.
Proof.
  intros E. unfold get_field. assert (assoc k (raw_members m) = None) as ->; [|done].
  apply assoc_none. unfold raw_members. apply assoc_none in E.
  intros ([x y] & -> & ([x' y'] & [= -> ->] & Hin)%list_elem_of_fmap)%list_elem_of_fmap.
  apply E, list_elem_of_fmap. by exists (x', y').
Qed.

(** Literal member names are pairwise different. *)
Ltac literal_keys := refine (bool_decide_eq_true_1 _ _); vm_compute; reflexivity.
Lemma check_object d m :
  d <= MaxDepth → NoDup m.*1 → Forall (λ kv, check_value (d + 1) kv.2 = Ok tt) m →
  check_value d (JObject m) = Ok tt.
Proof.
  intros Hd Hn Hall. cbn [check_value]. rewrite (proj2 (Z.ltb_ge _ _)) by done.
  apply check_members_spec. split; [|by split]. intros k Hk. by apply not_elem_of_nil in Hk.
Qed.

(** Read an object [m] that the encoder wrote back into its message. *)
Ltac check_message :=
  rewrite check_object; [done|done|literal_keys|repeat (apply Forall_cons_2; [done|]); apply Forall_nil_2].
Ltac exact_message m :=
  apply exactFields_struct; [done|]; unfold m;
  repeat (apply Forall_cons_2; [eexists; split; [reflexivity|cbn [fst snd]; first [assumption|by auto with epoch]]|]); apply Forall_nil_2.
(** The same for messages of texts: [ms] with the values [vs]. *)
Ltac docs_message :=
  repeat (apply Forall2_cons; split;
    [split_and!; [reflexivity|reflexivity|cbn [snd]; first [assumption|by apply doc_print]]|]); apply Forall2_nil; exact I.
Ltac exact_texts Hm :=
  eapply exactFields_obj; [exact Hm|];
  repeat (apply Forall_cons_2; [eexists; split; [reflexivity|cbn [fst snd]; first [assumption|by auto with epoch]]|]); apply Forall_nil_2.
Ltac read_texts Hm :=
  rewrite (struct_fields_obj _ _ Hm); cbn [rbind];
  repeat first [erewrite get_text by (cbn [assoc]; reflexivity) | rewrite get_no_text by reflexivity]; cbn [fst snd].

Lemma request_reads_back q payload old :
  all_utf8 [q_version q; q_id q; q_op q; q_run q; q_nonce q] → raw_ok 1 (q_payload q) payload →
  ∃ t v, enc_request q = Some t ∧ doc t v ∧ JsonUtil.Decode dec_request old t = Ok q.
Proof.
  intros Hu Hp. unfold all_utf8 in Hu. rewrite !Forall_cons in Hu. destruct Hu as (U1 & U2 & U3 & U4 & U5 & _).
  unfold enc_request. rewrite (raw_ok_enc 1 _ payload) by done. destruct Hp as [Hd Hc]. cbn [raw_members map fst snd app].
  set (ms := (_ :: _) : list (string * string)).
  set (vs := [("version", JString (q_version q)); ("id", JString (q_id q)); ("op", JString (q_op q));
              ("run_id", JString (q_run q)); ("nonce", JString (q_nonce q)); ("payload", payload)]%string).
  assert (Hm : docs ms vs) by docs_message.
  exists (obj ms), (JObject vs). split; [done|]. split; [by apply doc_obj|].
  rewrite (decode_doc _ _ _ _ (doc_obj _ _ Hm)); [|check_message|exact_texts Hm].
  cbn [store dec_request]. read_texts Hm. rewrite !dec_string_print by done. by destruct q.
Qed.
(** A raw member that may be absent. *)
Definition opt_raw (depth : Z) (raw : string) (v : option json) : Prop :=
  match v with None => raw = ""%string | Some v => raw_ok depth raw v end.
Lemma omit_raw_spec d k raw v : 0 ≤ d → opt_raw d raw v →
  omit_raw k raw = Some (match v with None => [] | Some _ => [(k, raw)] end).
Proof.
  unfold omit_raw, opt_raw. destruct v as [v|]; [|by intros _ ->].
  intros Hd Hr. rewrite (proj1 (raw_ok_parse _ _ _ Hr)). by rewrite (raw_ok_enc _ _ _ Hd Hr).
Qed.

(** An error member of a response, as the guest sends it. *)
Definition error_ok (e : Error) (details : option json) : Prop :=
  all_utf8 [e_code e; e_message e] ∧ opt_raw 2 (e_details e) details.
Lemma error_reads_back e details old :
  error_ok e details → e_details old = ""%string →
  ∃ t m, enc_error e = Some t ∧ doc t (JObject m) ∧ check_value 1 (JObject m) = Ok tt ∧
         exactFields (go_type dec_error) t = Ok tt ∧ store dec_error old t = Ok e.
Proof.
  intros [Hu Hd] Hold. unfold all_utf8 in Hu. rewrite !Forall_cons in Hu. destruct Hu as (U1 & U2 & _).
  unfold enc_error. rewrite (omit_raw_spec 2 _ _ _ ltac:(done) Hd).
  destruct details as [d|]; cbn [opt_raw] in Hd; cbn [raw_members map fst snd app]; set (ms := (_ :: _) : list (string * string)).
  - destruct Hd as [Hd Hc].
    assert (Hm : docs ms [("code", JString (e_code e)); ("message", JString (e_message e)); ("details", d)]%string) by docs_message.
    eexists _, _. split; [done|]. split; [by apply doc_obj|]. split_and!; [check_message|exact_texts Hm|].
    cbn [store dec_error]. read_texts Hm. rewrite !dec_string_print by done. by destruct e.
  - assert (Hm : docs ms [("code", JString (e_code e)); ("message", JString (e_message e))]%string) by docs_message.
    eexists _, _. split; [done|]. split; [by apply doc_obj|]. split_and!; [check_message|exact_texts Hm|].
    cbn [store dec_error]. read_texts Hm. rewrite !dec_string_print by done. cbn [rbind]. rewrite Hold, <-Hd. by destruct e.
Qed.

Definition response_ok (r : Response) (result details : option json) : Prop :=
  all_utf8 [p_version r; p_id r; p_op r; p_run r; p_nonce r] ∧ opt_raw 1 (p_result r) result ∧
  match p_error r with None => True | Some e => error_ok e details end.

Ltac read_response vs r :=
  let ms := fresh "ms" in let Hm := fresh "Hm" in
  match goal with |- ∃ t v, Some (obj ?l) = _ ∧ _ => set (ms := l) end;
  assert (Hm : docs ms vs) by docs_message;
  exists (obj ms), (JObject vs); split; [done|]; split; [by apply doc_obj|];
  rewrite (decode_doc _ _ _ _ (doc_obj _ _ Hm)); [|check_message|exact_texts Hm];
  cbn [store dec_response]; read_texts Hm; rewrite !dec_string_print by done;
  cbn [rbind store dec_raw dec_ptr from_option zero_response p_error p_result];
  repeat match goal with
  | H : doc ?t ?v |- context [parse ?t] => rewrite (doc_parse _ _ H)
  | H : store dec_error _ _ = Ok _ |- _ => rewrite H
  end;
  cbn [rbind map_err zero_response p_error p_result];
  repeat match goal with
  | H : p_result _ = _ |- _ => rewrite <-H
  | H : p_error _ = _ |- _ => rewrite <-H
  end; by destruct r.

Lemma response_reads_back r result details :
  response_ok r result details →
  ∃ t v, enc_response r = Some t ∧ doc t v ∧ JsonUtil.Decode dec_response zero_response t = Ok r.
Proof.
  intros (Hu & Hr & He). unfold all_utf8 in Hu. rewrite !Forall_cons in Hu.
  destruct Hu as (U1 & U2 & U3 & U4 & U5 & _).
  unfold enc_response. rewrite (omit_raw_spec 1 _ _ _ ltac:(done) Hr).
  set (vs := [("version", JString (p_version r)); ("id", JString (p_id r)); ("op", JString (p_op r));
              ("run_id", JString (p_run r)); ("nonce", JString (p_nonce r))]%string).
  destruct (p_error r) as [e|] eqn:Ee.
  - destruct (error_reads_back e details (JsonUtil.zero dec_error) He eq_refl) as (te & ve & -> & Hde & Hce & Hxe & Hse).
    destruct result as [v|]; cbn [opt_raw] in Hr; cbn [raw_members map fst snd app].
    + destruct Hr as [Hd Hc]. read_response (vs ++ [("result", v); ("error", JObject ve)]%string) r.
    + read_response (vs ++ [("error", JObject ve)]%string) r.
  - destruct result as [v|]; cbn [opt_raw] in Hr; cbn [raw_members map fst snd app].
    + destruct Hr as [Hd Hc]. read_response (vs ++ [("result", v)]%string) r.
    + read_response vs r.
Qed.

(** ** Claims *)

(** A line is read exactly when the input holds a complete line within the limit;
    what is returned is that line without its newline, and every byte after it stays
    in the reader, whatever the buffer size. *)
Theorem read_line_spec r limit line r' :
  reader_ok r →
  ReadLine r limit = (Ok line, r') ↔
  ∃ rest, rd_data r = (line +:+ String newline rest)%string ∧ no_newline line ∧
          blen line + 1 <= limit ∧ r' = rest_of r rest.
Proof. apply read_line_ok. Qed.
Lemma read_line_spec_witness :
  ReadLine {| rd_data := bytes_of [79; 75; 10; 123]; rd_err := ErrEOF; rd_size := 2 |} 3 =
  (Ok (bytes_of [79; 75]), {| rd_data := bytes_of [123]; rd_err := ErrEOF; rd_size := 2 |}).
Proof.
  apply (read_line_spec {| rd_data := bytes_of [79; 75; 10; 123]; rd_err := ErrEOF; rd_size := 2 |}).
  - split; [vm_compute; lia|reflexivity].
  - exists (bytes_of [123]). repeat split. vm_compute. discriminate.
Defined.

Lemma write_all_complete {W} `{LawfulWriter W} fuel (w : W) b :
  (∀ w b, b ≠ ""%string → ∃ n w', Write w b = (n, None, w') ∧ n ≠ 0%nat) →
  (String.length b ≤ fuel)%nat → ∃ w', write_all fuel w b = (None, w').
Proof.
  intros Hp. revert w b. induction fuel as [|fuel IH]; intros w b Hf;
    (destruct b as [|c b]; [by eexists|]); cbn [String.length] in Hf; [lia|].
  destruct (Hp w (String c b)) as (n & w1 & Hw & Hn); [done|]. cbn [write_all]. rewrite Hw.
  rewrite (proj2 (Nat.eqb_neq _ _) Hn). apply IH. rewrite drop_length. cbn [String.length]. lia.
Qed.

(** Writing a frame to any writer that honours the [io.Writer] contract: success
    means exactly one line was delivered, within the frame quota; a frame over the
    quota delivers nothing; a failed write has delivered a prefix; and a writer that
    always makes progress gets every frame within the quota. *)
Theorem write_frame_spec {W} `{LawfulWriter W} (w : W) b :
  let line := (b +:+ String newline "")%string in
  let '(e, w') := WriteFrame w (Some b) in
  (e = None → delivered w' = (delivered w +:+ line)%string ∧ blen line <= MaxFrame) ∧
  (MaxFrame < blen line → e = Some err_quota ∧ w' = w) ∧
  (∃ p q, line = (p +:+ q)%string ∧ delivered w' = (delivered w +:+ p)%string) ∧
  ((∀ w x, x ≠ ""%string → ∃ n w', Write w x = (n, None, w') ∧ n ≠ 0%nat) →
   blen line <= MaxFrame → e = None).
Proof.
  cbv zeta. destruct (WriteFrame w (Some b)) as [e w'] eqn:E. unfold WriteFrame in E.
  rewrite blen_app. change (blen (String newline "")) with 1.
  destruct (Z.ltb_spec MaxFrame (blen b + 1)) as [Hq|Hq].
  - injection E as <- <-. split; [done|]. split; [done|]. split; [|intros _ ?; lia].
    exists ""%string. eexists. split; [done|]. by rewrite sapp_nil_r.
  - split; [|split; [intros; lia|split]].
    + intros ->. by rewrite (write_all_delivers _ _ _ _ E).
    + by eapply write_all_prefix.
    + intros Hp _. destruct (write_all_complete (S (String.length b)) w
        (b +:+ String newline "")%string Hp) as (w1 & Hw1).
      { rewrite slength_app. cbn. lia. }
      rewrite Hw1 in E. by injection E.
Qed.

(** A writer that takes at most four bytes at a time. *)
#[export] Instance chunk_writer : Writer string :=
  {| delivered := id; Write := λ w b, (Nat.min 4 (String.length b), None, w +:+ string_take 4 b)%string |}.
#[export] Instance chunk_writer_lawful : LawfulWriter string.
Proof.
  constructor. intros w b n e w' Hw.
  assert (n = Nat.min 4 (String.length b) ∧ w' = w +:+ string_take 4 b)%string as [-> ->].
  { by injection Hw as <- <- <-. }
  split; [apply Nat.le_min_r|]. change (w +:+ string_take 4 b = w +:+ string_take (Nat.min 4 (String.length b)) b)%string.
  f_equal. destruct (Nat.min_spec 4 (String.length b)) as [[_ ->]|[Hl ->]]; [done|].
  rewrite !string_take_all; (done || lia).
Qed.
Lemma write_frame_spec_witness :
  ∃ w, WriteFrame (W := string) "" (Some "null"%string) = (None, w) ∧ w = ("null" +:+ String newline "")%string.
Proof.
  pose proof (write_frame_spec (W := string) ""%string "null") as H. cbv zeta in H.
  destruct (WriteFrame (W := string) "" (Some "null"%string)) as [e w] eqn:E. destruct H as (H1 & _ & _ & H4).
  assert (He : e = None).
  { apply H4; [|vm_compute; discriminate]. intros w0 [|c b] Hb; [done|]. by eexists _, _. }
  exists w. split; [by rewrite He|]. apply H1 in He as [He _]. exact He.
Defined.

(** A delivered frame is read back as its text. *)
Lemma frame_reads_back {W} `{LawfulWriter W} (w w' : W) b r more :
  no_newline b → WriteFrame w (Some b) = (None, w') → delivered w = ""%string →
  reader_ok r → rd_data r = (delivered w' +:+ more)%string →
  ReadLine r MaxFrame = (Ok b, rest_of r more).
Proof.
  intros Hb Hw Hz Hr Hd. unfold WriteFrame in Hw.
  destruct (Z.ltb_spec MaxFrame (blen b + 1)); [done|].
  apply read_line_ok; [done|]. exists more. apply write_all_delivers in Hw.
  split; [rewrite Hd, Hw, Hz; cbn; by rewrite sapp_assoc|]. split; [done|]. split; [lia|done].
Qed.
Lemma doc_line t v : doc t v → no_newline t.
Proof. intros [Ht _]. apply (ct_line _ _ Ht). Qed.

(** A request written by the client as one frame is read back by the agent's line
    reader and strict decoder as the same request, whatever follows it in the stream. *)
Theorem request_wire {W} `{LawfulWriter W} (w w' : W) q payload r more :
  all_utf8 [q_version q; q_id q; q_op q; q_run q; q_nonce q] → raw_ok 1 (q_payload q) payload →
  WriteFrame w (enc_request q) = (None, w') → delivered w = ""%string →
  reader_ok r → rd_data r = (delivered w' +:+ more)%string →
  ∃ line, ReadLine r MaxFrame = (Ok line, rest_of r more) ∧
          JsonUtil.Decode dec_request (JsonUtil.zero dec_request) line = Ok q.
Proof.
  intros Hu Hp Hw Hz Hr Hd.
  destruct (request_reads_back q payload (JsonUtil.zero dec_request) Hu Hp) as (t & v & Ht & Hdoc & Hq).
  exists t. split; [|done]. rewrite Ht in Hw. eapply frame_reads_back; [by eapply doc_line|done..].
Qed.

(** A response written by the agent as one frame is read back by the client's line
    reader and strict decoder as the same response, result and typed error included. *)
Theorem response_wire {W} `{LawfulWriter W} (w w' : W) p result details r more :
  response_ok p result details →
  WriteFrame w (enc_response p) = (None, w') → delivered w = ""%string →
  reader_ok r → rd_data r = (delivered w' +:+ more)%string →
  ∃ line, ReadLine r MaxFrame = (Ok line, rest_of r more) ∧
          JsonUtil.Decode dec_response zero_response line = Ok p.
Proof.
  intros Hu Hw Hz Hr Hd. destruct (response_reads_back p result details Hu) as (t & v & Ht & Hdoc & Hq).
  exists t. split; [|done]. rewrite Ht in Hw. eapply frame_reads_back; [by eapply doc_line|done..].
Qed.

Definition sample_request : Request :=
  {| q_version := Version; q_id := "1"; q_op := "clock.read"; q_run := "run"; q_nonce := "00";
     q_payload := "null" |}.
Definition sent {W} (r : option error * W) : W := r.2.
Definition sample_stream (data : string) : reader := {| rd_data := data; rd_err := ErrEOF; rd_size := 16 |}.
Lemma sample_stream_ok data : reader_ok (sample_stream data).
Proof. split; [vm_compute; lia|reflexivity]. Qed.
Lemma request_wire_witness :
  ∃ line, ReadLine (sample_stream (sent (WriteFrame (W := string) "" (enc_request sample_request)) +:+ "{"))
            MaxFrame = (Ok line, sample_stream "{") ∧
          JsonUtil.Decode dec_request (JsonUtil.zero dec_request) line = Ok sample_request.
Proof.
  apply (request_wire (W := string) ""%string (sent (WriteFrame (W := string) "" (enc_request sample_request)))
           sample_request JNull (sample_stream _) "{").
  - repeat constructor.
  - split; [by apply (doc_print JNull)|reflexivity].
  - vm_compute. reflexivity.
  - reflexivity.
  - apply sample_stream_ok.
  - reflexivity.
Defined.

Definition sample_response : Response :=
  {| p_version := Version; p_id := "1"; p_op := "clock.read"; p_run := "run"; p_nonce := "00";
     p_result := ""; p_error := Some {| e_code := "TIMEOUT"; e_message := "late"; e_details := "" |} |}.
Lemma response_wire_witness :
  ∃ line, ReadLine (sample_stream (sent (WriteFrame (W := string) "" (enc_response sample_response)) +:+ ""))
            MaxFrame = (Ok line, sample_stream "") ∧
          JsonUtil.Decode dec_response zero_response line = Ok sample_response.
Proof.
  apply (response_wire (W := string) ""%string (sent (WriteFrame (W := string) "" (enc_response sample_response)))
           sample_response None None (sample_stream _) "").
  - repeat split; repeat constructor.
  - vm_compute. reflexivity.
  - reflexivity.
  - apply sample_stream_ok.
  - reflexivity.
Defined.

(** ** Manifests *)
Record command_safe (id : string) (argv : list string) : Prop := {
  cm_id : ValidID id = true;
  cm_count : (1 ≤ List.length argv ≤ 64)%nat;
  cm_exe : ∃ exe args parts, argv = exe :: args ∧ exe = String "/" (join_slash parts) ∧
           Forall plain_part parts ∧ Forall no_slash parts ∧ path_base exe ∉ forbidden_launchers;
  cm_args : Forall (λ arg, contains_byte 0 arg = false ∧ blen arg <= 4096) argv
}.

Lemma check_command_safe id argv : check_command id argv = Ok tt → command_safe id argv.
Proof.
  unfold check_command. intros H. inv_ok H. apply orb_false_iff in E as [E E1].
  apply orb_false_iff in E as [E E2]. apply negb_false_iff in E. apply Nat.ltb_ge in E2.
  destruct argv as [|exe args]; [done|]. apply orb_false_iff in E1 as [Ea Eb].
  apply negb_false_iff in Ea, Eb. apply each_ok in H. split.
  - done.
  - cbn in *. lia.
  - destruct (clean_abs_spec exe) as (parts & ? & ? & ?); [unfold clean_abs; by rewrite Ea, Eb|].
    exists exe, args, parts. split_and!; [done..|]. by apply existsb_eqb_in.
  - eapply Forall_impl; [exact H|]. cbn. intros arg Ha. inv_ok Ha. to_prop. done.
Qed.

Lemma validated_manifest m :
  WorkloadManifest_Validate m = Ok tt →
  m_uid m ≠ 0 ∧ m_gid m ≠ 0 ∧
  Forall (λ c : string * Command, command_safe c.1 c.2) (m_actions m) ∧
  Forall (λ s : string * Service, command_safe s.1 (sv_argv s.2) ∧
            sv_readiness s.2 ∈ (m_actions m).*1) (m_services m) ∧
  (List.length (m_actions m) ≤ 128 ∧ List.length (m_services m) ≤ 4)%nat ∧
  Forall (λ kv : string * string, has_prefix kv.1 "LD_" = false ∧ has_prefix kv.1 "DYLD_" = false ∧
            contains_byte 0 kv.2 = false) (m_env m).
Proof.
  unfold WorkloadManifest_Validate. intros H. inv_ok H. to_prop. destruct a, a0.
  apply each_ok in E2, E3, H. rewrite Nat.ltb_ge in *.
  split; [done|]. split; [done|]. split; [|split; [|split; [lia|]]].
  - eapply Forall_impl; [exact E2|]. intros c. apply check_command_safe.
  - eapply Forall_impl; [exact E3|]. cbn. intros s Hs. inv_ok Hs. destruct a.
    split; [by apply check_command_safe|]. destruct (assoc _ (m_actions m)) as [cmd|] eqn:Ea; [|done].
    apply assoc_in in Ea. apply list_elem_of_fmap. by eexists (_, cmd).
  - eapply Forall_impl; [exact H|]. cbn. intros kv Hk. inv_ok Hk. to_prop. done.
Qed.
(** A validated workload manifest never runs as root and never names a shell or a
    privilege launcher: every command is a bounded argument vector whose executable is
    an absolute path without empty, [.] or [..] elements; at most four services, each
    with a declared readiness action; and no environment entry that steers the dynamic
    loader. *)
Theorem manifest_safe m :
  WorkloadManifest_Validate m = Ok tt →
  m_uid m ≠ 0 ∧ m_gid m ≠ 0 ∧
  Forall (λ c : string * Command, command_safe c.1 c.2) (m_actions m) ∧
  Forall (λ s : string * Service, command_safe s.1 (sv_argv s.2) ∧
            sv_readiness s.2 ∈ (m_actions m).*1) (m_services m) ∧
  (List.length (m_actions m) ≤ 128 ∧ List.length (m_services m) ≤ 4)%nat ∧
  Forall (λ kv : string * string, has_prefix kv.1 "LD_" = false ∧ has_prefix kv.1 "DYLD_" = false ∧
            contains_byte 0 kv.2 = false) (m_env m).
Proof. apply validated_manifest. Qed.
Definition sample_manifest : WorkloadManifest :=
  {| m_api := WorkloadVersion; m_id := "clock-probe"; m_version := "1"; m_uid := 1000; m_gid := 1000;
     m_dir := "/var/lib/epoch"; m_env := [("TZ", "UTC")]%string;
     m_actions := [("observe", ["/usr/lib/epoch/clock-probe"; "observe"])]%string;
     m_services := [("ticker", {| sv_argv := ["/usr/lib/epoch/clock-probe"; "serve"]%string;
                                  sv_readiness := "observe" |})]%string |}.
Lemma manifest_safe_witness : Forall (λ c : string * Command, command_safe c.1 c.2) (m_actions sample_manifest).
Proof. apply (manifest_safe sample_manifest). vm_compute. reflexivity. Defined.
