(* ===== verification/HostCheck.v ===== *)
(** * HostCheck: internal/hostcheck

    Observation of the host: the clock comparison around a run, the privilege
    inspection of every thread and the boot identity.  What the code reads from
    [/proc] is an argument of the definitions. *)

From S2P Require Import Prelude GoLib Json GoTime GoText JsonUtil.
From Stdlib Require Import Ascii String.

(** ** Clocks *)
Record Observation := { o_realtime : Z; o_monotonic : Z; o_boottime : Z }.

Definition Compare (a b : Observation) (threshold : Z) : result unit :=
  fail_if threshold <=? 0 with Errorf "host clock threshold must be positive" [] ;;
  let mono := wrap64 (o_monotonic b - o_monotonic a) in
  let boot := wrap64 (o_boottime b - o_boottime a) in
  fail_if (mono <? 0) || (boot <? 0) with Errorf "host monotonic clocks regressed" [] ;;
  let wall := time_sub (o_realtime b) (o_realtime a) in
  let drift := wrap64 (wall - mono) in
  fail_if (threshold <? drift) || (drift <? wrap64 (- threshold))
    with Errorf "environmental clock discontinuity: realtime-minus-monotonic delta %s exceeds %s" [] ;;
  let suspend := wrap64 (boot - mono) in
  fail_if (threshold <? suspend) || (suspend <? wrap64 (- threshold))
    with Errorf "environmental suspend/clock anomaly: boottime-minus-monotonic delta %s exceeds %s" [] ;;
  Ok tt.

(** ** Privileges *)

(** [bufio.Scanner] lines: a carriage return before the newline is dropped, a last
    line without newline counts, and a line of 64 KiB ends the scan with an error. *)
Definition drop_cr (line : string) : string :=
  match string_rev line with
  | String c r => if bz c =? 13 then string_rev r else line
  | EmptyString => line
  end.
Definition scan_lines (s : string) : list string :=
  let parts := split_on (chr 10) s in
  let parts := if List.last parts ""%string =?s "" then removelast parts else parts in
  parts.

Definition uid_key : string := "Uid:".
Definition cap_keys : list string := ["CapPrm:"; "CapEff:"; "CapAmb:"]%string.

(** One line of the status file; [seen] holds the keys met so far. *)
Definition privilege_line (seen : list string) (line : string) : result (list string) :=
  match fields line with
  | [] => Ok seen
  | key :: values =>
      if key =?s uid_key then
        fail_if existsb (String.eqb key) seen || negb (List.length values =? 4)%nat
          with Errorf "invalid UID status" [] ;;
        do? each (λ v, match parse_uint 10 32 v with
                       | None => Err (Errorf "host runtime refuses root UID in any credential set" [])
                       | Some n => fail_if n =? 0
                                     with Errorf "host runtime refuses root UID in any credential set" [] ;;
                                   Ok tt
                       end) values ;;
        Ok (key :: seen)
      else if existsb (String.eqb key) cap_keys then
        fail_if existsb (String.eqb key) seen || negb (List.length values =? 1)%nat
          with Errorf "invalid capability status" [] ;;
        match parse_uint 16 64 (List.hd ""%string values) with
        | None => Err (Errorf "parse %s: %w" [key])
        | Some n => fail_if Z.testbit n 25 with Errorf "host runtime refuses CAP_SYS_TIME in %s" [key] ;;
                    Ok (key :: seen)
        end
      else Ok seen
  end.

Fixpoint privilege_lines (seen : list string) (lines : list string) : result (list string) :=
  match lines with
  | [] => Ok seen
  | line :: lines =>
      fail_if 65536 <=? blen line with ErrSentinel "bufio.ErrTooLong" ;;
      let? seen := privilege_line seen (drop_cr line) in
      privilege_lines seen lines
  end.

Definition parsePrivileges (status : string) : result unit :=
  let? seen := privilege_lines [] (scan_lines status) in
  fail_if negb (List.length seen =? 4)%nat with Errorf "incomplete privilege inspection" [] ;;
  Ok tt.

(** The process's own records: user IDs and the status file of every thread. *)
Record proc_self := {
  ps_uid : Z;
  ps_euid : Z;
  ps_threads : result (list (string * result string))
}.
Definition CheckPrivilege (p : proc_self) : result unit :=
  fail_if (ps_uid p =? 0) || (ps_euid p =? 0) with Errorf "host runtime refuses UID 0" [] ;;
  let? threads := map_err (Wrapf "inspect thread privileges: %w" []) (ps_threads p) in
  fail_if (List.length threads =? 0)%nat with Errorf "no thread privilege records" [] ;;
  each (λ t : string * result string,
          let? status := map_err (Wrapf "inspect thread %s privileges: %w" [t.1]) t.2 in
          map_err (Wrapf "thread %s: %w" [t.1]) (parsePrivileges status)) threads.

Definition BootID (file : result string) : result string :=
  let? b := file in
  let id := trim_space b in
  fail_if negb (blen id =? 36) with Errorf "invalid host boot ID" [] ;;
  Ok id.

(** ** Theorems *)

(** The instants the host clock can plausibly show: no [int64] difference overflows. *)
Definition plausible (o : Observation) : Prop :=
  supported (o_realtime o) = true ∧ 0 <= o_monotonic o < 2 ^ 62 ∧ 0 <= o_boottime o < 2 ^ 62.

(** For plausible observations the comparison is exact: it succeeds if and only if
    neither monotonic clock went back and, over the interval, the wall clock and the
    boot clock each moved with the monotonic clock to within the threshold. *)
Theorem compare_spec a b threshold :
  plausible a → plausible b → 0 < threshold < 2 ^ 62 →
  let mono := o_monotonic b - o_monotonic a in
  Compare a b threshold = Ok tt ↔
  0 <= mono ∧ o_boottime a <= o_boottime b ∧
  Z.abs ((o_realtime b - o_realtime a) - mono) <= threshold ∧
  Z.abs ((o_boottime b - o_boottime a) - mono) <= threshold.
Proof.
  intros (Ha & Ham & Hab) (Hb & Hbm & Hbb) Ht. unfold supported in *.
  change (utc_midnight 1990 1 1) with 631152000000000000 in *.
  change (utc_midnight 2100 1 1) with 4102444800000000000 in *. to_prop.
  unfold Compare, time_sub. cbv zeta. rewrite (proj2 (Z.leb_gt _ _)) by lia.
  change (2 ^ 62) with 4611686018427387904 in *. change (2 ^ 63) with 9223372036854775808.
  rewrite (wrap64_id (o_monotonic b - _)) by (change (2 ^ 63) with 9223372036854775808; lia).
  rewrite (wrap64_id (o_boottime b - _)) by (change (2 ^ 63) with 9223372036854775808; lia).
  rewrite Z.min_r, Z.max_r by lia. rewrite (wrap64_id (- threshold)) by (change (2 ^ 63) with 9223372036854775808; lia).
  destruct (Z.ltb_spec (o_monotonic b - o_monotonic a) 0); [cbn; split; [done|lia]|].
  destruct (Z.ltb_spec (o_boottime b - o_boottime a) 0); [cbn; split; [done|lia]|]. cbn [orb].
  rewrite !wrap64_id by (change (2 ^ 63) with 9223372036854775808; lia).
  repeat match goal with |- context [?x <? ?y] => destruct (Z.ltb_spec x y); cbn [orb] end;
    (split; [try done; lia|try done; lia]).
Qed.
Definition sample_obs (wall mono boot : Z) : Observation :=
  {| o_realtime := 946684800000000000 + wall; o_monotonic := mono; o_boottime := boot |}.
Lemma compare_spec_witness :
  Compare (sample_obs 0 10 20) (sample_obs 5 16 25) 1000 = Ok tt.
Proof.
  apply (compare_spec (sample_obs 0 10 20) (sample_obs 5 16 25) 1000);
    [repeat split; vm_compute; try reflexivity; discriminate ..|].
  vm_compute. repeat split; discriminate.
Defined.

(** The words of the status lines that start with [key]. *)
Definition rows (key : string) (lines : list string) : list (list string) :=
  filter (λ ws, head ws = Some key) (map (λ l, fields (drop_cr l)) lines).
Definition uid_row_ok (ws : list string) : Prop :=
  ∃ values, ws = uid_key :: values ∧ List.length values = 4%nat ∧
    Forall (λ v, ∃ n, parse_uint 10 32 v = Some n ∧ n ≠ 0) values.
Definition cap_row_ok (key : string) (ws : list string) : Prop :=
  ∃ v n, ws = [key; v] ∧ parse_uint 16 64 v = Some n ∧ Z.testbit n 25 = false.
Definition row_ok (key : string) (ws : list string) : Prop :=
  if key =?s uid_key then uid_row_ok ws else cap_row_ok key ws.

Definition watched : list string := uid_key :: cap_keys.

Lemma privilege_line_spec seen line seen' :
  privilege_line seen line = Ok seen' →
  seen' = seen ∧ (∀ k, k ∈ watched → head (fields line) ≠ Some k) ∨
  ∃ key, key ∈ watched ∧ (key ∉ seen) ∧ head (fields line) = Some key ∧ row_ok key (fields line) ∧
         seen' = key :: seen.
Proof.
  unfold privilege_line. destruct (fields line) as [|key values]; [intros [= <-]; by left|].
  destruct (String.eqb_spec key uid_key) as [->|Hne].
  - intros H. inv_ok H. injection H as <-. right. exists uid_key. to_prop.
    assert (Hseen : uid_key ∉ seen) by (by apply existsb_eqb_in).
    split; [by left|]. split; [done|]. split; [done|]. split; [|done].
    unfold row_ok. rewrite String.eqb_refl. exists values. split; [done|].
    split; [by apply Nat.eqb_eq|]. destruct a. apply each_ok in E0.
    eapply Forall_impl; [exact E0|]. cbn. intros v Hv.
    destruct (parse_uint 10 32 v) as [n|]; [|done]. exists n. split; [done|]. inv_ok Hv. by to_prop.
  - destruct (existsb (String.eqb key) cap_keys) eqn:Ek.
    + intros H. inv_ok H. to_prop. assert (Hseen : key ∉ seen) by (by apply existsb_eqb_in).
      apply Nat.eqb_eq in H1. destruct values as [|v [|? ?]]; [done| |done]. cbn [List.hd] in H.
      destruct (parse_uint 16 64 v) as [n|] eqn:En; [|done]. inv_ok H. injection H as <-.
      right. exists key. split; [|split; [done|split; [done|split; [|done]]]].
      * right. rewrite existsb_exists in Ek. destruct Ek as (k & Hk & ->%String.eqb_eq). by apply list_elem_of_In.
      * unfold row_ok. rewrite (proj2 (String.eqb_neq _ _) Hne). by exists v, n.
    + intros [= <-]. left. split; [done|]. intros k Hk [= ->]. apply elem_of_cons in Hk as [->|Hk]; [done|].
      apply existsb_eqb_in in Ek. done.
Qed.

Lemma privilege_lines_spec lines seen seen' :
  privilege_lines seen lines = Ok seen' → NoDup seen → seen ⊆ watched →
  NoDup seen' ∧ seen' ⊆ watched ∧ seen ⊆ seen' ∧
  ∀ key, key ∈ watched →
    if decide (key ∈ seen) then rows key lines = []
    else if decide (key ∈ seen') then ∃ ws, rows key lines = [ws] ∧ row_ok key ws
    else rows key lines = [].
Proof.
  revert seen. induction lines as [|line lines IH]; intros seen H Hn Hs; cbn [privilege_lines] in H.
  { injection H as <-. split_and!; [done..|]. intros key _. by repeat case_decide. }
  inv_ok H. destruct (privilege_line_spec _ _ _ E0) as [[-> Hno]|(key & Hk & Hfresh & Hh & Hrow & ->)].
  - destruct (IH _ H Hn Hs) as (? & ? & ? & Hall). split_and!; [done..|]. intros k Hkw.
    unfold rows. cbn [map]. rewrite filter_cons_False by (by apply Hno). by apply Hall.
  - destruct (IH _ H) as (Hn' & Hs' & Hsub & Hall); [by constructor|set_solver|].
    split_and!; [done|done|set_solver|]. intros k Hkw. unfold rows. cbn [map].
    specialize (Hall k Hkw). destruct (decide (k = key)) as [->|Hne].
    + rewrite filter_cons_True by done. rewrite !decide_False by done.
      rewrite decide_True in Hall by set_solver. rewrite decide_True by set_solver.
      exists (fields (drop_cr line)). split; [|done]. f_equal. exact Hall.
    + rewrite filter_cons_False by (rewrite Hh; congruence).
      destruct (decide (k ∈ seen)); [by rewrite decide_True in Hall by set_solver|].
      rewrite decide_False in Hall by set_solver. exact Hall.
Qed.

(** The privilege parser accepts a thread's status only if it has exactly one
    [Uid:] line, whose four user IDs are all non-root, and exactly one line for each of
    the permitted, effective and ambient capability sets, in which CAP_SYS_TIME
    (bit 25) is clear. *)
Theorem privileges_safe status key :
  parsePrivileges status = Ok tt → key ∈ watched →
  ∃ ws, rows key (scan_lines status) = [ws] ∧ row_ok key ws.
Proof.
  unfold parsePrivileges. intros H Hk. inv_ok H. to_prop. apply Nat.eqb_eq in E0.
  destruct (privilege_lines_spec _ _ _ E) as (Hn & Hs & _ & Hall); [constructor|set_solver|].
  specialize (Hall key Hk). rewrite decide_False in Hall by set_solver.
  rewrite decide_True in Hall; [done|].
  assert (Hp : a ≡ₚ watched) by (apply submseteq_length_Permutation; [by apply NoDup_submseteq|by rewrite E0]).
  by rewrite Hp.
Qed.
Definition sample_status_text : string :=
  (js "Name: epoch" +:+ String (chr 10) ("Uid: 1000 1000 1000 1000" +:+ String (chr 10)
   ("CapPrm: 0000" +:+ String (chr 10) ("CapEff: 0" +:+ String (chr 10) "CapAmb: 01ffffff"))))%string.
Lemma privileges_safe_witness :
  ∃ ws, rows "CapAmb:" (scan_lines sample_status_text) = [ws] ∧ row_ok "CapAmb:" ws.
Proof.
  apply (privileges_safe sample_status_text "CapAmb:").
  - vm_compute. reflexivity.
  - vm_compute. repeat constructor.
Defined.
