(* ===== verification/HostDoctor.v ===== *)
(** * HostDoctor: Doctor of internal/hostcheck (hostcheck_linux.go, lines 69-157)

    The inspection that precedes a run and the explicit KVM probe.  What the host shows
    when it is asked is the [facts] record (Doctor changes nothing but the descriptors it
    opens and closes); the text of an error is a parameter, since the report keeps texts. *)

From S2P Require Import Prelude GoLib Json GoTime GoText JsonUtil HostCheck.
From Stdlib Require Import Ascii String.

(** The KVM device as the probe meets it: the context before, between and after, opening
    it, the two ioctls and closing the empty machine. *)
Record kvm := {
  kv_ctx : nat → option error; kv_open : result unit; kv_version : result Z; kv_create : result unit;
  kv_close : option error
}.
Record facts := {
  fa_ctx : option error; fa_self : proc_self; fa_boot : result string; fa_release : result string;
  fa_selinux : result string; fa_cgroup : result Z; fa_device : result (bool * bool);
  fa_access : option error; fa_observe : result Observation; fa_kvm : kvm
}.
Definition CGROUP2_SUPER_MAGIC : Z := 0x63677270.

Record HostReport := {
  hr_os : string; hr_arch : string; hr_uid : Z; hr_kernel : string; hr_boot : string; hr_selinux : bool;
  hr_cgroup : bool; hr_kvm : bool; hr_requested : bool; hr_passed : bool; hr_path : string;
  hr_observation : option Observation; hr_problems : list string; hr_notes : list string
}.

Definition probeKVM (k : kvm) : option error :=
  match kv_ctx k 0 with
  | Some e => Some e
  | None =>
      match kv_open k with
      | Err e => Some e
      | Ok _ =>
          match kv_version k with
          | Err e => Some e
          | Ok v =>
              if negb (v =? 12) then Some (Errorf "unexpected KVM API %d" [utoa v]) else
              match kv_ctx k 1 with
              | Some e => Some e
              | None =>
                  match kv_create k with
                  | Err e => Some e
                  | Ok _ => match kv_close k with Some e => Some e | None => kv_ctx k 2 end
                  end
              end
          end
      end
  end.

Definition notes : list string :=
  ["Read-only inspection does not prove guest boot, vsock, or guest clock isolation.";
   "Direct non-jailer execution and delegated cgroup enforcement are experimental limitations.";
   "Rocky kernel 5.14 is a lab compatibility target outside the Firecracker v1.16.1 upstream validation matrix."]%string.

(** [strings.Join]. *)
Fixpoint join_with (sep : string) (l : list string) : string :=
  match l with
  | [] => ""
  | [s] => s
  | s :: l => s +:+ sep +:+ join_with sep l
  end%string.

Section doctor.
Variable text : error → string.

(** [add] of an error or nil. *)
Definition problem (e : option error) : list string := match e with Some e => [text e] | None => [] end.
Definition confirmed (ok : bool) (what : string) : list string := if ok then [] else [text (Errorf what [])].
Definition is_text (r : result string) (s : string) : bool :=
  match r with Ok b => trim_space b =?s s | Err _ => false end.
Definition kvm_device (f : facts) : bool * list string :=
  match fa_device f with
  | Err e => (false, [text e])
  | Ok (char_device, symlink) =>
      if negb char_device || symlink then (false, [text (Errorf "/dev/kvm is not a real character device" [])])
      else (match fa_access f with None => true | Some _ => false end, problem (fa_access f))
  end.

Definition cgroup_v2 (f : facts) : bool :=
  match fa_cgroup f with Ok t => t =? CGROUP2_SUPER_MAGIC | Err _ => false end.
(** The problems found before the probe, in the order of the checks. *)
Definition inspect (f : facts) : list string :=
  problem (err_of (CheckPrivilege (fa_self f))) ++ problem (err_of (BootID (fa_boot f)))
  ++ problem (err_of (fa_release f))
  ++ confirmed (is_text (fa_selinux f) "1") "SELinux enforcement is not confirmed"
  ++ confirmed (cgroup_v2 f) "cgroup v2 is not confirmed" ++ (kvm_device f).2 ++ problem (err_of (fa_observe f)).

Definition doctor (f : facts) (path : string) (probe : bool) : HostReport * option error :=
  let report boot kernel selinux cgroup kvm passed observation problems :=
    {| hr_os := "linux"; hr_arch := "amd64"; hr_uid := ps_uid (fa_self f); hr_kernel := kernel; hr_boot := boot;
       hr_selinux := selinux; hr_cgroup := cgroup; hr_kvm := kvm; hr_requested := probe; hr_passed := passed;
       hr_path := path; hr_observation := observation; hr_problems := problems; hr_notes := notes |} in
  match fa_ctx f with
  | Some e => (report "" "" false false false false None [], Some e)
  | None =>
      let '(passed, problems) :=
        match inspect f with
        | [] => if probe then (match probeKVM (fa_kvm f) with None => true | Some _ => false end,
                               problem (probeKVM (fa_kvm f)))
                else (false, [])
        | problems => (false, problems)
        end in
      (report (match BootID (fa_boot f) with Ok id => id | Err _ => ""%string end)
              (match fa_release f with Ok b => trim_space b | Err _ => ""%string end)
              (is_text (fa_selinux f) "1") (cgroup_v2 f) (kvm_device f).1 passed
              (match fa_observe f with Ok o => Some o | Err _ => None end) problems,
       match problems with [] => None | _ => Some (Errorf (join_with "; " problems) []) end)
  end.
End doctor.

(** ** What a clean report means *)
Definition unprivileged (p : proc_self) : Prop :=
  ps_uid p ≠ 0 ∧ ps_euid p ≠ 0 ∧
  ∃ threads, ps_threads p = Ok threads ∧ threads ≠ [] ∧
    Forall (λ t : string * result string, ∃ status, t.2 = Ok status ∧ parsePrivileges status = Ok tt) threads.
Record sound_host (f : facts) (probe : bool) : Prop := {
  so_ctx : fa_ctx f = None;
  so_user : unprivileged (fa_self f);
  so_boot : ∃ id, BootID (fa_boot f) = Ok id;
  so_release : is_ok (fa_release f) = true;
  so_selinux : ∃ b, fa_selinux f = Ok b ∧ trim_space b = "1"%string;
  so_cgroup : fa_cgroup f = Ok CGROUP2_SUPER_MAGIC;
  so_kvm : fa_device f = Ok (true, false) ∧ fa_access f = None;
  so_clock : is_ok (fa_observe f) = true;
  so_probe : probe = true → probeKVM (fa_kvm f) = None
}.

Lemma check_privilege_unprivileged p : CheckPrivilege p = Ok tt ↔ unprivileged p.
Proof.
  unfold CheckPrivilege, unprivileged. split.
  - intros H. inv_ok1 H. apply rbind_ok in H as (threads & Ht & H). apply map_err_ok in Ht. inv_ok1 H. to_prop.
    split_and!; [done..|]. exists threads. split; [done|]. split; [by intros ->|].
    apply each_ok in H. eapply Forall_impl; [exact H|]. intros t Hok. cbn in Hok.
    apply rbind_ok in Hok as (status & Hs & Hp). apply map_err_ok in Hs, Hp. by exists status.
  - intros (Hu & He & threads & -> & Hne & Hall). rewrite !(proj2 (Z.eqb_neq _ _)) by done. cbn [orb map_err rbind].
    destruct threads as [|t threads]; [done|]. cbn [List.length Nat.eqb]. apply each_ok.
    eapply Forall_impl; [exact Hall|]. intros u (status & Hs & Hp). cbn. by rewrite Hs; cbn; rewrite Hp.
Qed.

Section doctor_facts.
Variable text : error → string.
Lemma problem_nil {A} (r : result A) : problem text (err_of r) = [] ↔ is_ok r = true.
Proof. by destruct r. Qed.
Lemma problem_none e : problem text e = [] ↔ e = None.
Proof. by destruct e. Qed.
Lemma confirmed_nil ok what : confirmed text ok what = [] ↔ ok = true.
Proof. by destruct ok. Qed.
Lemma is_text_spec r s : is_text r s = true ↔ ∃ b, r = Ok b ∧ trim_space b = s.
Proof.
  unfold is_text. destruct r as [b|e]; [|by split; [|intros (? & ? & _)]]. split; [intros <-%String.eqb_eq; by exists b|].
  intros (? & [= <-] & <-). apply String.eqb_refl.
Qed.
Lemma kvm_device_spec f : (kvm_device text f).2 = [] ↔ fa_device f = Ok (true, false) ∧ fa_access f = None.
Proof.
  unfold kvm_device. destruct (fa_device f) as [[[] []]|e]; cbn; try (by split; [|intros [? _]]).
  rewrite problem_none. naive_solver.
Qed.
Lemma kvm_device_ok f : (kvm_device text f).2 = [] → (kvm_device text f).1 = true.
Proof.
  intros Hk. pose proof (proj1 (kvm_device_spec f) Hk) as [Hd Ha]. unfold kvm_device. by rewrite Hd, Ha.
Qed.
Lemma unit_ok (r : result unit) : is_ok r = true ↔ r = Ok tt.
Proof. destruct r as [[]|e]; naive_solver. Qed.
Lemma is_ok_spec {A} (r : result A) : is_ok r = true ↔ ∃ a, r = Ok a.
Proof. destruct r; naive_solver. Qed.
Lemma cgroup_v2_spec f : cgroup_v2 f = true ↔ fa_cgroup f = Ok CGROUP2_SUPER_MAGIC.
Proof. unfold cgroup_v2. destruct (fa_cgroup f); [rewrite Z.eqb_eq|]; naive_solver. Qed.

Lemma inspect_nil f : fa_ctx f = None → inspect text f = [] ↔ sound_host f false.
Proof.
  intros Hctx. unfold inspect. rewrite !app_nil, !problem_nil, !confirmed_nil, kvm_device_spec, unit_ok, cgroup_v2_spec,
    is_text_spec, check_privilege_unprivileged, (is_ok_spec (BootID _)).
  split; [intros (? & ? & ? & ? & ? & ? & ?); by split|by intros []].
Qed.
Lemma sound_probe f probe : sound_host f probe ↔ sound_host f false ∧ (probe = true → probeKVM (fa_kvm f) = None).
Proof. split; [intros []; split; [by split|done]|intros [[] ?]; by split]. Qed.
End doctor_facts.

(** The error of a report and its problems. *)
Lemma doctor_result text f path probe r e : doctor text f path probe = (r, e) → 
  (e = None ↔ sound_host f probe) ∧
  (e = None → hr_problems r = [] ∧ hr_selinux r = true ∧ hr_cgroup r = true ∧ hr_kvm r = true ∧
              hr_passed r = probe ∧ is_Some (hr_observation r)).
Proof.
  unfold doctor. destruct (fa_ctx f) as [c|] eqn:Ectx.
  { intros [= <- <-]. split; [split; [done|intros []; congruence]|done]. }
  pose proof (inspect_nil text f Ectx) as Hi. destruct (inspect text f) as [|x l] eqn:Ei.
  2:{ intros [= <- <-]. split; [|done]. rewrite sound_probe, <-Hi. split; [done|by intros [? _]]. }
  destruct (proj1 Hi eq_refl) as [_ _ _ _ Hsel Hcg Hkvm Hob _].
  assert (Hfields : is_text (fa_selinux f) "1" = true ∧ cgroup_v2 f = true ∧ (kvm_device text f).1 = true ∧
    ∃ o, fa_observe f = Ok o).
  { split; [by apply is_text_spec|]. split; [by apply cgroup_v2_spec|].
    split; [by apply kvm_device_ok, kvm_device_spec|by apply is_ok_spec]. }
  destruct Hfields as (Hs1 & Hs2 & Hs3 & o & Ho). rewrite sound_probe, <-Hi, Ho, Hs1, Hs2, Hs3.
  destruct probe; [destruct (probeKVM (fa_kvm f)) as [p|]|]; cbn; intros [= <- <-]; cbn; split; try done; try naive_solver.
  all: intros _; split_and!; try done; by eexists.
Qed.

(** The host inspection reports success exactly on a sound host: the process is
    unprivileged in every thread, the boot identity and kernel release are readable,
    SELinux enforces, cgroup v2 is mounted, /dev/kvm is a real character device open to
    this user, the clocks are readable, and the KVM probe passed if it was asked for.
    Then the report has no problems and says so in every field; and each thread's status
    has exactly one row of each watched key, non-root and without CAP_SYS_TIME. *)
Theorem doctor_sound text f path probe r e : doctor text f path probe = (r, e) →
  (e = None ↔ sound_host f probe) ∧
  (e = None → hr_problems r = [] ∧ hr_selinux r = true ∧ hr_cgroup r = true ∧ hr_kvm r = true ∧
              hr_passed r = probe ∧ is_Some (hr_observation r)) ∧
  (∀ threads t status key, e = None → ps_threads (fa_self f) = Ok threads → t ∈ threads → t.2 = Ok status →
     key ∈ watched → ∃ ws, rows key (scan_lines status) = [ws] ∧ row_ok key ws).
Proof.
  intros [Hiff Hfields]%doctor_result. split; [done|]. split; [done|]. intros threads t status key He Ht Hin Hs Hk.
  destruct (so_user _ _ (proj1 Hiff He)) as (_ & _ & threads' & Ht' & _ & Hall).
  rewrite Ht in Ht'. injection Ht' as <-. rewrite Forall_forall in Hall.
  destruct (Hall t Hin) as (status' & Hs' & Hp). rewrite Hs in Hs'. injection Hs' as <-. by apply privileges_safe.
Qed.

Definition sound_facts : facts := {|
  fa_ctx := None;
  fa_self := {| ps_uid := 1000; ps_euid := 1000; ps_threads := Ok [("1"%string, Ok sample_status_text)] |};
  fa_boot := Ok "0123456789abcdef0123456789abcdef0123"%string; fa_release := Ok "5.14.0"%string;
  fa_selinux := Ok "1"%string; fa_cgroup := Ok CGROUP2_SUPER_MAGIC; fa_device := Ok (true, false); fa_access := None;
  fa_observe := Ok {| o_realtime := 0; o_monotonic := 0; o_boottime := 0 |};
  fa_kvm := {| kv_ctx := λ _, None; kv_open := Ok tt; kv_version := Ok 12; kv_create := Ok tt; kv_close := None |}
|}.
Definition sound_report := doctor (λ _, "error"%string) sound_facts "/opt/firecracker" true.
Lemma doctor_sound_witness : sound_report.2 = None ∧ sound_host sound_facts true ∧ hr_passed sound_report.1 = true.
Proof.
  assert (He : sound_report.2 = None) by (vm_compute; reflexivity).
  destruct (doctor_sound (λ _, "error"%string) sound_facts "/opt/firecracker" true sound_report.1 sound_report.2
              (surjective_pairing _)) as (Hiff & Hf & _).
  split; [exact He|]. split; [exact (proj1 Hiff He)|]. apply (Hf He).
Defined.
