(* ===== verification/GuestClock.v ===== *)
(** * GuestClock: internal/guestclock

    Guest-only clock control: the boot identity parsed from the kernel command line,
    and the controller that sets the guest's real-time clock through a [Boundary] (two
    samples around one set) and judges the read-back. *)

From S2P Require Import Prelude GoLib Json JsonFacts GoTime GoText JsonUtil JsonText Protocol.
From Stdlib Require Import Ascii String.

(** ** Boot identity *)
Record Identity := { RunID : string; Nonce : string; CID : Z }.

Fixpoint boot_markers (values : list (string * string)) (parts : list string) :
    result (list (string * string)) :=
  match parts with
  | [] => Ok values
  | part :: parts =>
      let '(k, v, found) := cut "=" part in
      if negb (has_prefix k "epoch.") then boot_markers values parts
      else
        fail_if negb found with Errorf "malformed Epoch boot marker" [] ;;
        match assoc k values with
        | Some _ => Err (Errorf "duplicate Epoch boot marker" [])
        | None => boot_markers (values ++ [(k, v)]) parts
        end
  end.

Definition ParseIdentity (cmdline : string) : result Identity :=
  let? values := boot_markers [] (fields cmdline) in
  let get k := default ""%string (assoc k values) in
  let run := get "epoch.run"%string in
  let nonce := get "epoch.nonce"%string in
  let refuse := Err (Errorf "refusing clock control without explicit valid Epoch guest boot identity" []) in
  match parse_uint 10 32 (get "epoch.cid"%string), hex_decoded_len nonce with
  | Some cid, Some len =>
      if negb (cid =? GuestCID) || negb (ValidID run) || negb (len =? 32) then refuse
      else Ok {| RunID := run; Nonce := nonce; CID := cid |}
  | _, _ => refuse
  end.

(** [fmt.Sprintf("epoch.run=%s epoch.nonce=%s epoch.cid=%d", ...)]. *)
Definition marker_text (run nonce : string) (cid : Z) : string :=
  ("epoch.run=" +:+ run +:+ " epoch.nonce=" +:+ nonce +:+ " epoch.cid=" +:+ utoa cid)%string.

Definition Identity_Verify (i : Identity) (observedCID : Z) : result unit :=
  let? parsed := ParseIdentity (marker_text (RunID i) (Nonce i) (CID i)) in
  fail_if (observedCID <=? 2) || negb (observedCID =? CID parsed)
    with Errorf "refusing clock control: actual vsock CID does not match non-host guest identity" [] ;;
  Ok tt.

(** ** The clock boundary *)
Class Boundary (B : Type) := {
  Sample : B → result ClockObservation * B;
  SetTime : B → Z → result unit * B
}.

Section controller.
Context {B : Type} `{Boundary B}.

(** A missing boundary ([nil]) is refused. *)
Definition New (identity : Identity) (observedCID : Z) (b : option B) : result B :=
  do? Identity_Verify identity observedCID ;;
  match b with
  | None => Err (Errorf "missing guest clock boundary" [])
  | Some b => Ok b
  end.

Definition Read (b : B) : result ClockObservation * B := Sample b.

Definition readback_ok (target : Z) (tolerance_ms elapsed : Z) (after : ClockObservation) : bool :=
  let tolerance := wrap64 (tolerance_ms * millisecond) in
  let delta := time_sub (Realtime after) target in
  (0 <=? elapsed) && (wrap64 (- tolerance) <=? delta) && (delta <=? wrap64 (elapsed + tolerance)).

(** The partial result is returned with the error, as the code does. *)
Definition Set_ (req : ClockSetRequest) (b : B) : (ClockSetResult * option error) * B :=
  match parse_rfc3339nano (cs_at req) with
  | None => ((zero_clock_set, Some (Errorf "invalid absolute time: %w" [])), b)
  | Some target =>
      if (target <? utc_midnight 1990 1 1) || negb (target <? utc_midnight 2100 1 1) then
        ((zero_clock_set, Some (Errorf "clock target outside supported interval" [])), b) else
      let tolerance := if cs_tolerance req =? 0 then 1000 else cs_tolerance req in
      if (tolerance <? 1) || (10000 <? tolerance) then
        ((zero_clock_set, Some (Errorf "clock tolerance outside 1..10000 ms" [])), b) else
      let out before after elapsed valid :=
        {| cr_target := target; cr_before := before; cr_after := after; cr_elapsed := elapsed;
           cr_tolerance := tolerance; cr_valid := valid |} in
      let '(before, b) := Sample b in
      match before with
      | Err e => ((out zero_clock zero_clock 0 false, Some e), b)
      | Ok before =>
          let '(set, b) := SetTime b target in
          match set with
          | Err e => ((out before zero_clock 0 false, Some e), b)
          | Ok _ =>
              let '(after, b) := Sample b in
              match after with
              | Err e => ((out before zero_clock 0 false, Some e), b)
              | Ok after =>
                  let elapsed := wrap64 (MonotonicNS after - MonotonicNS before) in
                  ((out before after elapsed (readback_ok target tolerance elapsed after), None), b)
              end
          end
      end
  end.
End controller.

(** ** The identity round trip *)

Lemma in_range_weaken lo hi lo' hi' c : lo' <= lo → hi <= hi' → in_range lo hi c = true → in_range lo' hi' c = true.
Proof.
  unfold in_range. intros ? ? H. to_prop. by rewrite !(proj2 (Z.leb_le _ _)) by lia.
Qed.
Lemma id_char_printable c : (is_alnum c || is_one_of [95; 45] c) = true → in_range 33 126 c = true.
Proof.
  unfold is_alnum, is_lower, is_upper, is_digit, is_one_of, in_range. cbn [existsb]. intros H.
  repeat (apply orb_true_iff in H as [H|H]); to_prop; rewrite ?(proj2 (Z.leb_le _ _)); try done; lia.
Qed.
Lemma valid_id_word s : ValidID s = true → s ≠ ""%string ∧ no_space s.
Proof.
  unfold ValidID, ident, no_space. destruct s as [|c s]; [done|]. intros H. to_prop. split; [done|].
  cbn. rewrite id_char_printable by (by rewrite H). cbn.
  eapply all_bytes_impl; [|exact H1]. apply id_char_printable.
Qed.
Lemma hex_word s : hex_decoded_len s = Some 32 → s ≠ ""%string ∧ no_space s.
Proof.
  unfold hex_decoded_len. destruct (all_bytes is_hex s) eqn:E; [|done]. cbn.
  intros Hl. split; [by intros ->|]. unfold no_space. eapply all_bytes_impl; [|exact E].
  intros c. unfold is_hex, is_digit. intros H.
  repeat (apply orb_true_iff in H as [H|H]); eapply in_range_weaken; try exact H; lia.
Qed.

(** Words without an Epoch marker are skipped. *)
Definition plain_word (w : string) : Prop := has_prefix (cut "=" w).1.1 "epoch." = false.
Lemma boot_markers_skip values ws parts :
  Forall plain_word ws → boot_markers values (ws ++ parts) = boot_markers values parts.
Proof.
  induction 1 as [|w ws Hw _ IH]; cbn; [done|]. unfold plain_word in Hw.
  destruct (cut "=" w) as [[k v] found]. cbn in Hw. by rewrite Hw.
Qed.

Lemma cut_word k v : all_bytes (λ c, negb (Ascii.eqb c "=")) k = true →
  cut "=" (k +:+ String "=" v) = (k, v, true).
Proof.
  induction k as [|c k IH]; cbn; [done|]. intros H. to_prop. by rewrite H, IH.
Qed.

Lemma parse_identity_words ws run nonce :
  Forall plain_word ws → Forall (λ w, w ≠ ""%string ∧ no_space w) ws →
  ValidID run = true → hex_decoded_len nonce = Some 32 →
  ParseIdentity (words (ws ++ ["epoch.run=" +:+ run; "epoch.nonce=" +:+ nonce; "epoch.cid=3"]%string))
  = Ok {| RunID := run; Nonce := nonce; CID := 3 |}.
Proof.
  intros Hplain Hws Hrun Hnonce. unfold ParseIdentity.
  destruct (valid_id_word _ Hrun) as [_ Hr]. destruct (hex_word _ Hnonce) as [_ Hn].
  rewrite fields_words.
  2:{ apply Forall_app. split; [done|]. unfold no_space in *.
      repeat constructor; try done; cbn [String.append all_bytes];
        repeat (rewrite (_ : in_range 33 126 _ = true) by reflexivity; cbn [andb]); done. }
  rewrite boot_markers_skip by done. cbn [boot_markers].
  change ("epoch.run=" +:+ run)%string with ("epoch.run" +:+ String "=" run)%string.
  change ("epoch.nonce=" +:+ nonce)%string with ("epoch.nonce" +:+ String "=" nonce)%string.
  rewrite !cut_word by reflexivity. cbn -[parse_uint hex_decoded_len ValidID].
  change (parse_uint 10 32 "3") with (Some 3). rewrite Hnonce. cbn -[ValidID]. by rewrite Hrun.
Qed.

Lemma parse_identity_valid cmdline i :
  ParseIdentity cmdline = Ok i →
  ValidID (RunID i) = true ∧ hex_decoded_len (Nonce i) = Some 32 ∧ CID i = 3.
Proof.
  unfold ParseIdentity. intros H. inv_ok H.
  destruct (parse_uint _ _ _) as [cid|]; [|done]. destruct (hex_decoded_len _) as [len|] eqn:El; [|done].
  destruct (_ || _) eqn:E1 in H; [done|]. injection H as <-. to_prop. cbn in *. subst. done.
Qed.

(** The controller exists only in a guest that was booted for it: from a parsed
    boot identity (run ID of safe characters, 32-byte nonce, CID 3), clock control is
    granted exactly when the kernel reports the vsock CID 3, and it is always refused
    for the hypervisor, local and host CIDs 0 to 2. *)
Theorem clock_control_guarded {B} `{Boundary B} cmdline i observed (b : B) :
  ParseIdentity cmdline = Ok i →
  ValidID (RunID i) = true ∧ hex_decoded_len (Nonce i) = Some 32 ∧
  (New i observed (Some b) = Ok b ↔ observed = 3) ∧
  (observed <= 2 → is_ok (New i observed (Some b)) = false).
Proof.
  intros Hp. destruct (parse_identity_valid _ _ Hp) as (Hr & Hn & Hc).
  split; [done|]. split; [done|]. unfold New, Identity_Verify, marker_text. rewrite Hc.
  assert (Hw : ParseIdentity ("epoch.run=" +:+ RunID i +:+ " epoch.nonce=" +:+ Nonce i +:+ " epoch.cid=" +:+ utoa 3)
               = Ok {| RunID := RunID i; Nonce := Nonce i; CID := 3 |}).
  { rewrite <-(parse_identity_words [] (RunID i) (Nonce i)) by (done || constructor).
    done. }
  rewrite Hw. cbn [rbind CID]. destruct (Z.leb_spec observed 2); cbn [orb].
  { split; [|done]. split; [done|lia]. }
  destruct (Z.eqb_spec observed 3); cbn; split; (done || lia).
Qed.

(** A boundary for samples: the clock is a pair of instants, and time advances by the
    head of a list at every sample. *)
Record fake_clock := { fk_now : Z; fk_mono : Z; fk_ticks : list Z; fk_sets : list Z }.
#[export] Instance fake_boundary : Boundary fake_clock := {|
  Sample b := match fk_ticks b with
              | [] => (Err (Errorf "no sample" []), b)
              | d :: ds => (Ok {| Realtime := fk_now b + d; MonotonicNS := fk_mono b + d |},
                            {| fk_now := fk_now b + d; fk_mono := fk_mono b + d; fk_ticks := ds;
                               fk_sets := fk_sets b |})
              end;
  SetTime b t := (Ok tt, {| fk_now := t; fk_mono := fk_mono b; fk_ticks := fk_ticks b;
                            fk_sets := fk_sets b ++ [t] |})
|}.
Definition sample_nonce : string := fold_right String.append ""%string (repeat "ab"%string 32).
Definition sample_cmdline : string :=
  ("console=ttyS0 " +:+ marker_text "run-1" sample_nonce 3)%string.
Definition sample_clock : fake_clock :=
  {| fk_now := 0; fk_mono := 100; fk_ticks := [5; 7]; fk_sets := [] |}.
Lemma clock_control_guarded_witness :
  New {| RunID := "run-1"; Nonce := sample_nonce; CID := 3 |} 3 (Some sample_clock) = Ok sample_clock.
Proof.
  apply (clock_control_guarded sample_cmdline {| RunID := "run-1"; Nonce := sample_nonce; CID := 3 |} 3 sample_clock).
  - vm_compute. reflexivity.
  - reflexivity.
Defined.

(** *** Setting the clock *)

(** Everything a completed [Set] did to its boundary. *)
Definition set_trace {B} `{Boundary B} (b : B) (out : ClockSetResult) (b' : B) : Prop :=
  ∃ b1 b2, Sample b = (Ok (cr_before out), b1) ∧ SetTime b1 (cr_target out) = (Ok tt, b2) ∧
           Sample b2 = (Ok (cr_after out), b').

Lemma set_inv {B} `{Boundary B} req (b b' : B) out :
  Set_ req b = ((out, None), b') →
  parse_rfc3339nano (cs_at req) = Some (cr_target out) ∧ supported (cr_target out) = true ∧
  1 <= cr_tolerance out <= 10000 ∧
  (cs_tolerance req = 0 ∧ cr_tolerance out = 1000 ∨ cr_tolerance out = cs_tolerance req) ∧
  set_trace b out b' ∧
  cr_elapsed out = wrap64 (MonotonicNS (cr_after out) - MonotonicNS (cr_before out)) ∧
  cr_valid out = readback_ok (cr_target out) (cr_tolerance out) (cr_elapsed out) (cr_after out).
Proof.
  unfold Set_, set_trace. destruct (parse_rfc3339nano (cs_at req)) as [target|]; [|done].
  destruct (_ || _) eqn:E1; [done|]. destruct (_ || _) eqn:E2 in |- *; [done|].
  destruct (Sample b) as [[before|] b1] eqn:S1; [|done].
  destruct (SetTime b1 target) as [[[]|] b2] eqn:S2; [|done].
  destruct (Sample b2) as [[after|] b3] eqn:S3; [|done]. intros [= <- <-]. cbn. to_prop.
  split; [done|]. split.
  { unfold supported. by rewrite (proj2 (Z.leb_le _ _)), (proj2 (Z.ltb_lt _ _)). }
  split; [done|]. split; [destruct (Z.eqb_spec (cs_tolerance req) 0); auto|].
  split; [by exists b1, b2|done].
Qed.

(** Samples whose differences fit in [int64]. *)
Definition sane_samples (before after : ClockObservation) : Prop :=
  supported (Realtime after) = true ∧ 0 <= MonotonicNS before < 2 ^ 62 ∧ 0 <= MonotonicNS after < 2 ^ 62.

Lemma set_exact {B} `{Boundary B} req (b b' : B) out :
  Set_ req b = ((out, None), b') → sane_samples (cr_before out) (cr_after out) →
  parse_rfc3339nano (cs_at req) = Some (cr_target out) ∧ supported (cr_target out) = true ∧
  set_trace b out b' ∧
  let elapsed := MonotonicNS (cr_after out) - MonotonicNS (cr_before out) in
  let tolerance := cr_tolerance out * millisecond in
  let delta := Realtime (cr_after out) - cr_target out in
  cr_elapsed out = elapsed ∧
  (cr_valid out = true ↔ 0 <= elapsed ∧ - tolerance <= delta <= elapsed + tolerance).
Proof.
  intros Hs (Hsup & Hb & Ha). destruct (set_inv _ _ _ _ Hs) as (Hp & Ht & Htol & _ & Htr & He & Hv).
  split; [done|]. split; [done|]. split; [done|]. cbv zeta. unfold readback_ok, time_sub in Hv.
  unfold supported, millisecond in *.
  change (utc_midnight 1990 1 1) with 631152000000000000 in *.
  change (utc_midnight 2100 1 1) with 4102444800000000000 in *. to_prop.
  assert (E63 : 2 ^ 63 = 9223372036854775808) by reflexivity.
  change (2 ^ 62) with 4611686018427387904 in *.
  rewrite wrap64_id in He by lia. split; [done|]. rewrite Hv, He.
  rewrite (wrap64_id (cr_tolerance out * 1000000)) by lia. rewrite !wrap64_id by lia.
  rewrite E63, Z.min_r, Z.max_r by lia. rewrite !andb_true_iff, !Z.leb_le. lia.
Qed.

(** A completed clock change set the boundary exactly once, to the requested
    instant (within 1990 to 2100), between two samples; and its read-back is declared
    valid exactly when the monotonic clock did not go back and the wall clock now shows
    the target plus at most the elapsed time, give or take the tolerance. *)
Theorem clock_set_spec {B} `{Boundary B} req (b b' : B) out :
  Set_ req b = ((out, None), b') → sane_samples (cr_before out) (cr_after out) →
  parse_rfc3339nano (cs_at req) = Some (cr_target out) ∧ supported (cr_target out) = true ∧
  set_trace b out b' ∧
  let elapsed := MonotonicNS (cr_after out) - MonotonicNS (cr_before out) in
  let tolerance := cr_tolerance out * millisecond in
  let delta := Realtime (cr_after out) - cr_target out in
  cr_elapsed out = elapsed ∧
  (cr_valid out = true ↔ 0 <= elapsed ∧ - tolerance <= delta <= elapsed + tolerance).
Proof. apply set_exact. Qed.
Definition sample_set : ClockSetRequest :=
  {| cs_at := "2000-01-01T00:00:00Z"; cs_tolerance := 0; cs_allow_live := false |}.
Definition sample_set_out : ClockSetResult := (Set_ sample_set sample_clock).1.1.
Lemma clock_set_spec_witness :
  cr_valid sample_set_out = true ↔ 0 <= 7 ∧ - (1000 * millisecond) <= 7 <= 7 + 1000 * millisecond.
Proof.
  apply (clock_set_spec sample_set sample_clock (Set_ sample_set sample_clock).2 sample_set_out).
  - vm_compute. reflexivity.
  - vm_compute. repeat split; discriminate.
Defined.
