(* ===== verification/GuestSystem.v ===== *)
(** * GuestSystem: the clock system calls (internal/guestclock/system_linux.go, lines 15-52,
    and Observe of internal/hostcheck/hostcheck_linux.go)

    The boundary of the guest's clock controller over [clock_gettime] and [clock_settime],
    the host's observation of its three clocks, and what both mean on clocks that behave:
    the real-time clock is the monotonic clock plus an offset that only [clock_settime]
    changes, and time does not go back. *)

From S2P Require Import Prelude GoLib Json GoTime GoText JsonUtil JsonText Protocol HostCheck GuestClock.
From Stdlib Require Import Ascii String.

Inductive clock_id := CLOCK_REALTIME | CLOCK_MONOTONIC | CLOCK_BOOTTIME.
Record Timespec := { ts_sec : Z; ts_nsec : Z }.
(** [Timespec.Nano], [NsecToTimespec] (with a non-negative remainder), [time.Unix] and
    [Time.UnixNano], an [int64]. *)
Definition Nano (ts : Timespec) : Z := wrap64 (ts_sec ts * 1000000000 + ts_nsec ts).
Definition NsecToTimespec (n : Z) : Timespec :=
  let sec := Z.quot n 1000000000 in let nsec := Z.rem n 1000000000 in
  if nsec <? 0 then {| ts_sec := sec - 1; ts_nsec := nsec + 1000000000 |} else {| ts_sec := sec; ts_nsec := nsec |}.
Definition time_Unix (sec nsec : Z) : Z := sec * 1000000000 + nsec.
Definition UnixNano (t : Z) : Z := wrap64 t.

Class UnixClocks (W : Type) := {
  clock_gettime : W → clock_id → result Timespec * W;
  clock_settime : W → Timespec → option error * W
}.

Section system.
Context {W : Type} `{UnixClocks W}.
Definition system_sample (w : W) : result ClockObservation * W :=
  let '(realtime, w) := clock_gettime w CLOCK_REALTIME in
  match realtime with
  | Err e => (Err e, w)
  | Ok r =>
      let '(monotonic, w) := clock_gettime w CLOCK_MONOTONIC in
      match monotonic with
      | Err e => (Err e, w)
      | Ok m => (Ok {| Realtime := time_Unix (ts_sec r) (ts_nsec r); MonotonicNS := Nano m |}, w)
      end
  end.
Definition system_set (w : W) (at_ : Z) : result unit * W :=
  let '(e, w) := clock_settime w (NsecToTimespec (UnixNano at_)) in (of_err e, w).
#[export] Instance systemBoundary : Boundary W := {| Sample := system_sample; SetTime := system_set |}.

Definition Observe (w : W) : result Observation * W :=
  let '(r, w) := clock_gettime w CLOCK_REALTIME in
  match r with
  | Err e => (Err e, w)
  | Ok r =>
      let '(m, w) := clock_gettime w CLOCK_MONOTONIC in
      match m with
      | Err e => (Err e, w)
      | Ok m =>
          let '(b, w) := clock_gettime w CLOCK_BOOTTIME in
          match b with
          | Err e => (Err e, w)
          | Ok b => (Ok {| o_realtime := time_Unix (ts_sec r) (ts_nsec r); o_monotonic := Nano m;
                           o_boottime := Nano b |}, w)
          end
      end
  end.
End system.

(** ** Clocks that behave *)
Class LawfulClocks (W : Type) `{UnixClocks W} := {
  elapsed : W → Z;
  offset : W → Z;
  elapsed_range w : 0 ≤ elapsed w < 2 ^ 62;
  gettime_law w id r w' : clock_gettime w id = (r, w') →
    elapsed w ≤ elapsed w' ∧ offset w' = offset w ∧
    match id, r with
    | CLOCK_REALTIME, Ok ts => ts_sec ts * 1000000000 + ts_nsec ts = elapsed w' + offset w'
    | CLOCK_MONOTONIC, Ok ts => ts_sec ts * 1000000000 + ts_nsec ts = elapsed w'
    | _, _ => True
    end;
  settime_law w ts w' : clock_settime w ts = (None, w') →
    elapsed w ≤ elapsed w' ∧ elapsed w' + offset w' = ts_sec ts * 1000000000 + ts_nsec ts
}.

Lemma NsecToTimespec_value n : ts_sec (NsecToTimespec n) * 1000000000 + ts_nsec (NsecToTimespec n) = n.
Proof. unfold NsecToTimespec. pose proof (Z.quot_rem' n 1000000000). destruct (_ <? 0); cbn -[Z.mul Z.add Z.sub]; lia. Qed.

Section lawful.
Context {W : Type} `{LawfulClocks W}.
Lemma system_sample_law (w w' : W) o : Sample w = (Ok o, w') → ∃ w1,
  elapsed w ≤ elapsed w1 ∧ elapsed w1 ≤ elapsed w' ∧ offset w' = offset w ∧
  Realtime o = elapsed w1 + offset w ∧ MonotonicNS o = elapsed w'.
Proof.
  change (Sample w) with (system_sample w). unfold system_sample.
  destruct (clock_gettime w CLOCK_REALTIME) as [[r|e] w1] eqn:E1; [|done].
  destruct (clock_gettime w1 CLOCK_MONOTONIC) as [[m|e] w2] eqn:E2; [|done]. intros [= <- <-].
  apply gettime_law in E1 as (H1 & Ho1 & Hr). apply gettime_law in E2 as (H2 & Ho2 & Hm). exists w1.
  cbn -[Z.mul Z.add]. unfold time_Unix, Nano. rewrite Hr, Hm. pose proof (elapsed_range w2).
  rewrite wrap64_id by (change (2 ^ 63) with (2 * 2 ^ 62); lia). split_and!; lia.
Qed.
Lemma system_set_law (w w' : W) t : supported t = true → SetTime w t = (Ok tt, w') →
  elapsed w ≤ elapsed w' ∧ elapsed w' + offset w' = t.
Proof.
  change (SetTime w t) with (system_set w t). unfold system_set, supported. intros Hs.
  destruct (clock_settime w _) as [[e|] w1] eqn:E; [done|]. intros [= <-]. apply settime_law in E as [H1 H2].
  split; [done|]. rewrite H2, NsecToTimespec_value. unfold UnixNano.
  change (utc_midnight 1990 1 1) with 631152000000000000 in Hs.
  change (utc_midnight 2100 1 1) with 4102444800000000000 in Hs. to_prop.
  apply wrap64_id. change (2 ^ 63) with 9223372036854775808. lia.
Qed.
End lawful.

(** On clocks that behave, a completed clock change is never rejected by its own
    read-back: whatever time the calls take, the second sample shows the target plus part
    of the elapsed time, the result is marked valid (so a read-back marked invalid means
    that something else moved the clock), and the clock is left running from the target. *)
Theorem system_set_valid {W} `{LawfulClocks W} req (w w' : W) out :
  Set_ req w = ((out, None), w') → supported (Realtime (cr_after out)) = true →
  cr_valid out = true ∧ 0 ≤ Realtime (cr_after out) - cr_target out ≤ cr_elapsed out ∧
  0 ≤ elapsed w' + offset w' - cr_target out ≤ cr_elapsed out.
Proof.
  intros Hs Hsup. destruct (set_inv _ _ _ _ Hs) as (_ & Ht & Htol & _ & (w1 & w2 & S1 & S2 & S3) & _ & _).
  apply system_sample_law in S1 as (u1 & H1 & H2 & Ho1 & _ & Hm1). apply system_set_law in S2 as [H3 Hset]; [|done].
  apply system_sample_law in S3 as (u3 & H4 & H5 & Ho3 & Hr3 & Hm3).
  pose proof (elapsed_range w1). pose proof (elapsed_range w').
  destruct (set_exact req w w' out Hs) as (_ & _ & _ & He & Hv); [split; [done|lia]|].
  rewrite He, Hv. unfold millisecond. rewrite Hm1, Hm3, Hr3, Ho3. lia.
Qed.

(** A clock that advances by a fixed step at every call. *)
Record ticking := { tk_ticks : Z; tk_offset : Z; tk_step : nat }.
Definition tick (w : ticking) : ticking :=
  {| tk_ticks := tk_ticks w + Z.of_nat (tk_step w); tk_offset := tk_offset w; tk_step := tk_step w |}.
Definition tk_now (w : ticking) : Z := Z.max 0 (Z.min (tk_ticks w) (2 ^ 62 - 1)).
Lemma tk_now_tick w : tk_now w ≤ tk_now (tick w).
Proof. unfold tk_now. cbn -[Z.add Z.max Z.min]. lia. Qed.
#[export] Instance ticking_clocks : UnixClocks ticking := {|
  clock_gettime w id :=
    let w := tick w in
    (Ok (NsecToTimespec (match id with CLOCK_REALTIME => tk_now w + tk_offset w | _ => tk_now w end)), w);
  clock_settime w ts :=
    let w := tick w in
    (None, {| tk_ticks := tk_ticks w; tk_offset := ts_sec ts * 1000000000 + ts_nsec ts - tk_now w; tk_step := tk_step w |})
|}.
#[export] Instance ticking_lawful : LawfulClocks ticking.
Proof.
  refine {| elapsed := tk_now; offset := tk_offset |}.
  - intros w. unfold tk_now. lia.
  - intros w id r w' [= <- <-]. split; [apply tk_now_tick|]. split; [done|].
    destruct id; [apply NsecToTimespec_value..|done].
  - intros w ts w' [= <-]. split; [apply tk_now_tick|]. cbn -[Z.mul tk_now tick].
    change (tk_now {| tk_ticks := _; tk_offset := _; tk_step := _ |}) with (tk_now (tick w)). lia.
Qed.
Definition slow_clock : ticking := {| tk_ticks := 5; tk_offset := 1000; tk_step := 7 |}.
Lemma system_set_valid_witness :
  match Set_ sample_set slow_clock with ((out, None), _) => cr_valid out = true | _ => False end.
Proof.
  assert (Hok : match Set_ sample_set slow_clock with
                | ((out, None), _) => supported (Realtime (cr_after out)) = true
                | _ => False
                end) by (vm_compute; reflexivity).
  destruct (Set_ sample_set slow_clock) as [[out [e|]] w'] eqn:E; [exact Hok|].
  exact (proj1 (system_set_valid sample_set slow_clock w' out E Hok)).
Defined.
