(* ===== verification/Firecracker.v ===== *)
(** * Firecracker: internal/firecracker

    The machine configuration handed to the VMM, the version probe's output, and the
    ownership identity of the VMM process (PID, UID, start time and host boot), which
    decides whether a recorded process may be signalled.  The records of [/proc] are
    the [host] argument; the system calls of [StopOwned] are the [StopOps] class. *)

From S2P Require Import Prelude GoLib Json JsonFacts GoTime GoText JsonUtil JsonText Protocol GuestClock HostCheck.
From Stdlib Require Import Ascii String.

(** ** Machine configuration *)
Record ConfigOptions := {
  KernelPath : string; RootFSPath : string; SocketPath : string; o_run : string; o_nonce : string;
  o_cid : Z; VCPUs : Z; MemMiB : Z
}.
Record Drive := { d_id : string; d_path : string; d_root : bool; d_read_only : bool }.
Record VMConfig := {
  kernel_image_path : string; boot_args : string; drives : list Drive;
  vcpu_count : Z; mem_size_mib : Z; smt : bool; guest_cid : Z; uds_path : string
}.

Definition safeToken (s : string) : bool :=
  all_bytes (λ c, is_alnum c || is_one_of [95; 45] c) s && (1 <=? blen s) && (blen s <=? 128).

Definition fixed_args : list string :=
  ["console=ttyS0"; "reboot=k"; "panic=1"; "pci=off"; "root=/dev/vda"; "rw";
   "init=/usr/lib/systemd/systemd"; "systemd.unit=epoch.target"]%string.

Definition BuildConfig (o : ConfigOptions) : result VMConfig :=
  fail_if negb (o_cid o =? 3) with Errorf "single-VM profile requires guest CID 3" [] ;;
  fail_if (VCPUs o <? 1) || (2 <? VCPUs o) || (MemMiB o <? 128) || (2048 <? MemMiB o)
    with Errorf "machine resources outside conservative profile" [] ;;
  fail_if negb (safeToken (o_run o)) || negb (safeToken (o_nonce o))
    with Errorf "invalid run marker or nonce" [] ;;
  do? each (λ p, fail_if negb (is_abs p) || (path_clean p <>?s p) || contains_byte 0 p
                   with Errorf "VMM paths must be absolute and clean" [] ;; Ok tt)
       [KernelPath o; RootFSPath o; SocketPath o] ;;
  fail_if 90 <? blen (SocketPath o) with Errorf "vsock path exceeds 90-byte profile limit" [] ;;
  Ok {| kernel_image_path := KernelPath o;
        boot_args := (words fixed_args +:+ " " +:+ marker_text (o_run o) (o_nonce o) (o_cid o))%string;
        drives := [{| d_id := "rootfs"; d_path := RootFSPath o; d_root := true; d_read_only := false |}];
        vcpu_count := VCPUs o; mem_size_mib := MemMiB o; smt := false;
        guest_cid := o_cid o; uds_path := SocketPath o |}.

(** ** The version probe *)
Definition version_number (s : string) : option string :=
  let '(ds, rest) := span_digits s in if ds =?s "" then None else Some rest.
Definition versionLine (s : string) : bool :=
  match strip_prefix "Firecracker v" s with
  | None => false
  | Some r =>
      match (let! r := version_number r in let! r := lit "." r in
             let! r := version_number r in let! r := lit "." r in version_number r) with
      | Some rest => rest =?s ""
      | None => false
      end
  end.
Definition trim_prefix (p s : string) : string := default s (strip_prefix p s).
Definition parseVersionOutput (stdout expected : string) : result string :=
  let '(first, _, complete) := cut (chr 10) stdout in
  fail_if negb complete || negb (versionLine first)
    with Errorf "VMM stdout must begin with a complete Firecracker version line" [] ;;
  fail_if (expected <>?s "") && (first <>?s ("Firecracker v" +:+ trim_prefix "v" expected)%string)
    with Errorf "VMM version %q does not match %q" [first; expected] ;;
  Ok first.

(** A writer that keeps the first [limit] bytes and reports every write as complete. *)
Record cappedWriter := { dst : string; limit : Z; overflow : bool }.
Definition capped_write (w : cappedWriter) (p : string) : Z * cappedWriter :=
  let remaining := limit w - blen (dst w) in
  (blen p,
   if remaining <? blen p
   then {| dst := dst w +:+ string_take (Z.to_nat remaining) p; limit := limit w; overflow := true |}
   else {| dst := dst w +:+ p; limit := limit w; overflow := overflow w |}).

(** ** Process identity *)
Record Executable := {
  x_path : string; x_sha256 : string; x_size : Z; x_version : string; x_stdout : string; x_stderr : string;
  x_device : Z; x_inode : Z
}.
Record ProcessIdentity := { pid : Z; uid : Z; start_ticks : Z; host_boot_id : string }.
Record ProcessState := { Alive : bool; Reason : string }.
#[export] Instance identity_eq_dec : EqDecision ProcessIdentity.
Proof. solve_decision. Defined.

Record proc_entry := { pe_uid : Z; pe_stat : result string }.
Record host := {
  hs_uid : Z;
  hs_boot_file : result string;
  hs_proc : Z → result proc_entry
}.

(** The text after the last closing parenthesis. *)
Fixpoint after_last (c : ascii) (s : string) : option string :=
  match s with
  | EmptyString => None
  | String d r => match after_last c r with
                  | Some t => Some t
                  | None => if Ascii.eqb d c then Some r else None
                  end
  end.
Definition parseStat (s : string) : result (Z * string) :=
  match after_last ")" s with
  | None => Err (Errorf "malformed proc stat" [])
  | Some t =>
      let f := fields t in
      match f !! 19%nat, f !! 0%nat with
      | Some ticks, Some state =>
          match parse_uint 10 64 ticks with
          | Some n => Ok (n, state)
          | None => Err (Errorf "strconv.ParseUint" [])
          end
      | _, _ => Err (Errorf "short proc stat" [])
      end
  end.

Definition readIdentity (h : host) (p : Z) : result (ProcessIdentity * string) :=
  fail_if p <=? 0 with Errorf "invalid process PID" [] ;;
  let? boot := BootID (hs_boot_file h) in
  let? entry := hs_proc h p in
  let? stat := pe_stat entry in
  let? (start, state) := parseStat stat in
  Ok ({| pid := p; uid := pe_uid entry; start_ticks := start; host_boot_id := boot |}, state).

Definition InspectProcess (h : host) (id : ProcessIdentity) : result ProcessState :=
  fail_if (pid id <=? 0) || (start_ticks id =? 0) || (host_boot_id id =?s "")
          || negb (uid id =? hs_uid h)
    with Errorf "invalid or foreign process ownership identity" [] ;;
  let? boot := BootID (hs_boot_file h) in
  if boot <>?s host_boot_id id
  then Ok {| Alive := false; Reason := "host rebooted; recorded process cannot survive" |} else
  match readIdentity h (pid id) with
  | Err e =>
      if err_is "os.ErrNotExist" e || err_is "ESRCH" e
      then Ok {| Alive := false; Reason := "process absent" |} else Err e
  | Ok (actual, state) =>
      fail_if negb (bool_decide (actual = id))
        with Errorf "PID identity differs; manual review required, no signal sent" [] ;;
      if (state =?s "Z") || (state =?s "X")
      then Ok {| Alive := false; Reason := "process exited" |}
      else Ok {| Alive := true; Reason := "verified live owned process" |}
  end.

(** ** Stopping a recorded process *)
Inductive signal := SIGTERM | SIGKILL.
Inductive wakeup := CtxDone (e : error) | GraceExpired | Tick.

(** The system calls of [StopOwned], each one seeing the host as it is then. *)
Class StopOps (E : Type) := {
  op_privilege : E → result unit * E;
  op_inspect : E → ProcessIdentity → result ProcessState * E;
  op_pidfd_open : E → Z → result unit * E;
  op_pidfd_signal : E → signal → result unit * E;
  op_poll : E → result Z * E;
  op_select : E → wakeup * E
}.

(** What was done, in order. *)
Inductive stop_event :=
| Inspected (r : result ProcessState)
| Opened
| Signalled (s : signal)
| Exited.

Section stop_owned.
Context {E : Type} `{StopOps E}.

(** [signal]: ESRCH counts as delivered. *)
Definition send (env : E) (s : signal) : option error * E :=
  match op_pidfd_signal env s with
  | (Err e, env) => (if err_is "ESRCH" e then None else Some e, env)
  | (Ok _, env) => (None, env)
  end.

(** The polling loop; [None] when [fuel] wake-ups were not enough. *)
Fixpoint stop_loop (fuel : nat) (killed : bool) (env : E) : option (option error) * E * list stop_event :=
  match fuel with
  | O => (None, env, [])
  | S fuel =>
      let '(polled, env) := op_poll env in
      let wait env :=
        let '(w, env) := op_select env in
        match w with
        | CtxDone e =>
            if killed then (Some (Some e), env, [])
            else let '(_, env) := send env SIGKILL in (Some (Some e), env, [Signalled SIGKILL])
        | GraceExpired =>
            let '(err, env) := send env SIGKILL in
            match err with
            | Some e => (Some (Some e), env, [Signalled SIGKILL])
            | None => let '(r, env, t) := stop_loop fuel true env in (r, env, Signalled SIGKILL :: t)
            end
        | Tick => stop_loop fuel killed env
        end in
      match polled with
      | Err e => if err_is "EINTR" e then wait env else (Some (Some e), env, [])
      | Ok n => if 0 <? n then (Some None, env, [Exited]) else wait env
      end
  end.

Definition StopOwned (fuel : nat) (env : E) (id : ProcessIdentity) :
    option (option error) * E * list stop_event :=
  match op_privilege env with
  | (Err e, env) => (Some (Some e), env, [])
  | (Ok _, env) =>
      let '(first, env) := op_inspect env id in
      match first with
      | Err e => (Some (Some e), env, [Inspected first])
      | Ok st =>
          if negb (Alive st) then (Some None, env, [Inspected first]) else
          match op_pidfd_open env (pid id) with
          | (Err e, env) =>
              (Some (Some (Wrapf "cannot acquire stable process handle; manual review required: %w" [] e)),
               env, [Inspected first])
          | (Ok _, env) =>
              let '(second, env) := op_inspect env id in
              match second with
              | Err e => (Some (Some e), env, [Inspected first; Opened; Inspected second])
              | Ok st2 =>
                  if negb (Alive st2) then (Some None, env, [Inspected first; Opened; Inspected second]) else
                  let '(err, env) := send env SIGTERM in
                  let done := [Inspected first; Opened; Inspected second; Signalled SIGTERM] in
                  match err with
                  | Some e => (Some (Some e), env, done)
                  | None => let '(r, env, t) := stop_loop fuel false env in (r, env, done ++ t)
                  end
              end
          end
      end
  end.
End stop_owned.

(** ** Theorems *)
(** The boot identity survives the kernel command line: for a run ID and nonce
    that the guest accepts, the boot arguments the host builds are parsed by the guest
    agent as exactly that run, nonce and CID, and the VMM is given the same CID and one
    writable root drive. *)
Theorem boot_identity_round_trip o c :
  BuildConfig o = Ok c → ValidID (o_run o) = true → hex_decoded_len (o_nonce o) = Some 32 →
  ParseIdentity (boot_args c) = Ok {| RunID := o_run o; Nonce := o_nonce o; CID := guest_cid c |} ∧
  guest_cid c = GuestCID ∧ drives c = [{| d_id := "rootfs"; d_path := RootFSPath o; d_root := true; d_read_only := false |}] ∧
  1 <= vcpu_count c <= 2 ∧ 128 <= mem_size_mib c <= 2048 ∧ blen (uds_path c) <= 90.
Proof.
  intros H Hr Hn. unfold BuildConfig in H. inv_ok H. injection H as <-. cbn. to_prop. rewrite E.
  split; [|repeat split; (done || lia)].
  rewrite <-(parse_identity_words fixed_args (o_run o) (o_nonce o)); [|..|done|done].
  - done.
  - apply Forall_forall. intros w Hw. unfold plain_word. revert w Hw. apply Forall_forall.
    unfold fixed_args. repeat constructor.
  - unfold fixed_args. repeat constructor; done.
Qed.
Definition sample_options : ConfigOptions :=
  {| KernelPath := "/opt/epoch/vmlinux"; RootFSPath := "/run/epoch/rootfs.ext4"; SocketPath := "/run/epoch/v.sock";
     o_run := "run-1"; o_nonce := sample_nonce; o_cid := 3; VCPUs := 1; MemMiB := 512 |}.
Definition sample_config : VMConfig :=
  match BuildConfig sample_options with Ok c => c | Err _ =>
    {| kernel_image_path := ""; boot_args := ""; drives := []; vcpu_count := 0; mem_size_mib := 0;
       smt := false; guest_cid := 0; uds_path := "" |} end.
Lemma boot_identity_round_trip_witness :
  ParseIdentity (boot_args sample_config) = Ok {| RunID := "run-1"; Nonce := sample_nonce; CID := 3 |}.
Proof.
  apply (boot_identity_round_trip sample_options sample_config); vm_compute; reflexivity.
Defined.

(** Process ownership verdicts: a recorded process is reported alive exactly when
    the record belongs to this user and this boot and [/proc] shows a process of that
    PID with the recorded UID and start time that is not a zombie; it is reported gone
    only when the host has rebooted, the PID is absent, or exactly that process is a
    zombie.  A different process under the same PID is an error. *)
Theorem inspect_verdict h id st :
  InspectProcess h id = Ok st →
  uid id = hs_uid h ∧
  if Alive st
  then ∃ state, readIdentity h (pid id) = Ok (id, state) ∧ state ≠ "Z"%string ∧ state ≠ "X"%string ∧
         BootID (hs_boot_file h) = Ok (host_boot_id id)
  else (∃ boot, BootID (hs_boot_file h) = Ok boot ∧ boot ≠ host_boot_id id) ∨
       (∃ e, readIdentity h (pid id) = Err e ∧ (err_is "os.ErrNotExist" e || err_is "ESRCH" e) = true) ∨
       (∃ state, readIdentity h (pid id) = Ok (id, state) ∧ (state = "Z"%string ∨ state = "X"%string)).
Proof.
  unfold InspectProcess. intros H. inv_ok H. to_prop. split; [done|].
  destruct (String.eqb_spec a (host_boot_id id)) as [->|Hb]; cbn [negb] in H.
  - destruct (readIdentity h (pid id)) as [[actual state]|e] eqn:Er.
    + destruct (bool_decide_reflect (actual = id)) as [->|]; cbn [negb] in H; [|done].
      destruct (String.eqb_spec state "Z") as [->|HZ]; [injection H as <-; cbn; eauto 10|].
      destruct (String.eqb_spec state "X") as [->|HX]; [injection H as <-; cbn; eauto 10|].
      injection H as <-. cbn. eauto.
    + destruct (_ || _) eqn:Ee in H; [|done]. injection H as <-. cbn. right; left. eauto.
  - injection H as <-. cbn. left. eauto.
Qed.
Definition sample_stat : string :=
  ("42 (fire) cracker) S" +:+ fold_right String.append "" (repeat " 7" 18) +:+ " 999 0")%string.
Definition sample_boot : string := "0123456789abcdef0123456789abcdef0123".
Definition sample_host : host :=
  {| hs_uid := 1000; hs_boot_file := Ok sample_boot;
     hs_proc := λ p, if p =? 42 then Ok {| pe_uid := 1000; pe_stat := Ok sample_stat |} else Err ErrNotExist |}.
Definition sample_process : ProcessIdentity :=
  {| pid := 42; uid := 1000; start_ticks := 999; host_boot_id := sample_boot |}.
Lemma inspect_verdict_witness :
  ∃ state, readIdentity sample_host 42 = Ok (sample_process, state) ∧ state ≠ "Z"%string ∧ state ≠ "X"%string ∧
         BootID (hs_boot_file sample_host) = Ok sample_boot.
Proof.
  apply (inspect_verdict sample_host sample_process {| Alive := true; Reason := "verified live owned process" |}).
  vm_compute. reflexivity.
Defined.

(** *** Returning *)
(** The context of [StopOwned] has a deadline: only so many more wake-ups come before it
    ends. *)
Class LawfulStop (E : Type) `{StopOps E} := {
  wakes_left : E → nat;
  signal_wakes (env : E) s : (wakes_left (op_pidfd_signal env s).2 ≤ wakes_left env)%nat;
  poll_wakes (env : E) : (wakes_left (op_poll env).2 ≤ wakes_left env)%nat;
  select_wakes (env : E) : (∃ e, (op_select env).1 = CtxDone e) ∨ (wakes_left (op_select env).2 < wakes_left env)%nat
}.
Section stop_returns.
Context {E : Type} `{LawfulStop E}.
Lemma send_wakes (env : E) s : (wakes_left (send env s).2 ≤ wakes_left env)%nat.
Proof. pose proof (signal_wakes env s) as Hs. unfold send. by destruct (op_pidfd_signal env s) as [[u|e] env1]. Qed.
Lemma stop_loop_returns fuel killed (env : E) : (wakes_left env < fuel)%nat → is_Some (stop_loop fuel killed env).1.1.
Proof.
  revert killed env. induction fuel as [|fuel IH]; intros killed env Hf; [lia|]. cbn [stop_loop].
  pose proof (poll_wakes env) as Hp. destruct (op_poll env) as [polled env1]. cbn [snd] in Hp. cbv zeta.
  assert (Hwait : is_Some (let '(w, env) := op_select env1 in
    match w with
    | CtxDone e => if killed then (Some (Some e), env, [])
                   else let '(_, env) := send env SIGKILL in (Some (Some e), env, [Signalled SIGKILL])
    | GraceExpired =>
        let '(err, env) := send env SIGKILL in
        match err with
        | Some e => (Some (Some e), env, [Signalled SIGKILL])
        | None => let '(r, env, t) := stop_loop fuel true env in (r, env, Signalled SIGKILL :: t)
        end
    | Tick => stop_loop fuel killed env
    end).1.1).
  { pose proof (select_wakes env1) as Hs. destruct (op_select env1) as [[e| |] env2]; cbn [fst snd] in Hs.
    - destruct killed; [done|]. by destruct (send env2 SIGKILL).
    - destruct Hs as [[? [=]]|Hs]. pose proof (send_wakes env2 SIGKILL) as Hk.
      destruct (send env2 SIGKILL) as [[e|] env3]; [done|]. cbn [snd] in Hk.
      assert (Hr : is_Some (stop_loop fuel true env3).1.1) by (apply IH; lia). by destruct (stop_loop fuel true env3) as [[r env4] t].
    - destruct Hs as [[? [=]]|Hs]. apply IH. lia. }
  destruct polled as [n|e]; [by destruct (0 <? n)|by destruct (err_is "EINTR" e)].
Qed.
(** With enough fuel for the wake-ups of its deadline, [StopOwned] returns. *)
Lemma stop_owned_returns (env : E) id : ∃ n, ∀ fuel, (n ≤ fuel)%nat → is_Some (StopOwned fuel env id).1.1.
Proof.
  unfold StopOwned. destruct (op_privilege env) as [[u|e] env1]; [|by exists O].
  destruct (op_inspect env1 id) as [[st|e] env2]; [|by exists O]. destruct (negb (Alive st)); [by exists O|].
  destruct (op_pidfd_open env2 (pid id)) as [[u1|e] env3]; [|by exists O].
  destruct (op_inspect env3 id) as [[st2|e] env4]; [|by exists O]. destruct (negb (Alive st2)); [by exists O|].
  destruct (send env4 SIGTERM) as [[e|] env5]; [by exists O|]. exists (S (wakes_left env5)). intros fuel Hf.
  pose proof (stop_loop_returns fuel false env5 Hf) as Hr. by destruct (stop_loop fuel false env5) as [[r env6] t].
Qed.
End stop_returns.

(** *** Signals *)
Definition is_signal (e : stop_event) : Prop := match e with Signalled _ => True | _ => False end.
Definition alive_check (e : stop_event) : Prop :=
  match e with Inspected (Ok st) => Alive st = true | _ => False end.

Section stop_facts.
Context {E : Type} `{StopOps E}.

Lemma stop_loop_events fuel killed (env : E) r env' t :
  stop_loop fuel killed env = (r, env', t) →
  Forall (λ e, e = Signalled SIGKILL ∨ e = Exited) t ∧ (r = Some None → Exited ∈ t).
Proof.
  revert killed env r env' t. induction fuel as [|fuel IH]; cbn [stop_loop]; intros killed env r env' t Hs.
  { injection Hs as <- <- <-. done. }
  destruct (op_poll env) as [[n|e] env1].
  - destruct (0 <? n); [injection Hs as <- <- <-; split; [by repeat constructor; right|set_solver]|].
    destruct (op_select env1) as [[e| |] env2].
    + destruct killed; [by injection Hs as <- <- <-|].
      destruct (send env2 SIGKILL) as [? env3]. injection Hs as <- <- <-. split; [|done]. repeat constructor; auto.
    + destruct (send env2 SIGKILL) as [[e|] env3].
      * injection Hs as <- <- <-. split; [|done]. repeat constructor; auto.
      * destruct (stop_loop fuel true env3) as [[r1 env4] t1] eqn:El. injection Hs as <- <- <-.
        destruct (IH _ _ _ _ _ El) as [H1 H2]. split; [constructor; auto|]. intros Hr. right. auto.
    + by eapply IH.
  - destruct (err_is "EINTR" e); [|by injection Hs as <- <- <-].
    destruct (op_select env1) as [[e1| |] env2].
    + destruct killed; [by injection Hs as <- <- <-|].
      destruct (send env2 SIGKILL) as [? env3]. injection Hs as <- <- <-. split; [|done]. repeat constructor; auto.
    + destruct (send env2 SIGKILL) as [[e1|] env3].
      * injection Hs as <- <- <-. split; [|done]. repeat constructor; auto.
      * destruct (stop_loop fuel true env3) as [[r1 env4] t1] eqn:El. injection Hs as <- <- <-.
        destruct (IH _ _ _ _ _ El) as [H1 H2]. split; [constructor; auto|]. intros Hr. right. auto.
    + by eapply IH.
Qed.
End stop_facts.

(** C34.  Stopping a recorded process never signals a process it has not verified: any
    signal is preceded by two inspections that found the recorded process alive, with
    the process handle opened between them, and SIGTERM comes first; and it reports
    success only after an inspection found the process gone or the handle reported its
    exit. *)
Theorem stop_owned_safe {E} `{StopOps E} fuel (env : E) id r env' t :
  StopOwned fuel env id = (r, env', t) →
  (Exists is_signal t →
   ∃ c1 c2 rest, t = c1 :: Opened :: c2 :: Signalled SIGTERM :: rest ∧ alive_check c1 ∧ alive_check c2) ∧
  (r = Some None → Exited ∈ t ∨ ∃ st, Inspected (Ok st) ∈ t ∧ Alive st = false).
Proof.
  unfold StopOwned. intros Hs. destruct (op_privilege env) as [[[]|] env1].
  2:{ injection Hs as <- <- <-. split; [by intros ?%Exists_nil|done]. }
  destruct (op_inspect env1 id) as [[st|e] env2].
  2:{ injection Hs as <- <- <-. split; [|done]. intros [[]|[]%Exists_nil]%Exists_cons. }
  destruct (Alive st) eqn:Ea; cbn [negb] in Hs.
  2:{ injection Hs as <- <- <-. split; [intros [[]|[]%Exists_nil]%Exists_cons|].
      intros _. right. exists st. split; [by left|done]. }
  destruct (op_pidfd_open env2 (pid id)) as [[[]|e] env3].
  2:{ injection Hs as <- <- <-. split; [|done]. intros [[]|[]%Exists_nil]%Exists_cons. }
  destruct (op_inspect env3 id) as [[st2|e] env4].
  2:{ injection Hs as <- <- <-. split; [|done].
      rewrite !Exists_cons, Exists_nil. intros [[]|[[]|[[]|[]]]]. }
  destruct (Alive st2) eqn:Ea2; cbn [negb] in Hs.
  2:{ injection Hs as <- <- <-. split; [rewrite !Exists_cons, Exists_nil; intros [[]|[[]|[[]|[]]]]|].
      intros _. right. exists st2. split; [set_solver|done]. }
  destruct (send env4 SIGTERM) as [[e|] env5].
  - injection Hs as <- <- <-. split; [|done]. intros _. by eexists _, _, _.
  - destruct (stop_loop fuel false env5) as [[r1 env6] t1] eqn:El. injection Hs as <- <- <-.
    split; [intros _; by eexists _, _, _|]. intros Hr. left.
    destruct (stop_loop_events _ _ _ _ _ _ El) as [_ H2]. specialize (H2 Hr). cbn. set_solver.
Qed.

(** A process that exits at its first poll after SIGTERM. *)
#[export] Instance sample_ops : StopOps nat := {|
  op_privilege n := (Ok tt, n);
  op_inspect n _ := (Ok {| Alive := true; Reason := "live" |}, S n);
  op_pidfd_open n _ := (Ok tt, n);
  op_pidfd_signal n _ := (Ok tt, n);
  op_poll n := (Ok 1, n);
  op_select n := (Tick, n)
|}.
Lemma stop_owned_safe_witness :
  ∃ c1 c2 rest, (StopOwned 1 0%nat sample_process).2 = c1 :: Opened :: c2 :: Signalled SIGTERM :: rest ∧
    alive_check c1 ∧ alive_check c2.
Proof.
  apply (stop_owned_safe 1 0%nat sample_process (Some None) 2%nat (StopOwned 1 0%nat sample_process).2).
  - vm_compute. reflexivity.
  - vm_compute. do 3 apply Exists_cons_tl. by apply Exists_cons_hd.
Defined.
