(* ===== verification/GuestAgent.v ===== *)
(** * GuestAgent: internal/guestagent/server.go

    The agent's request loop.  The clock and the process manager behind it are the
    interfaces the code declares ([Clock] and [Runner]), as one class over the guest
    world they act on; the loop reads frames from a [reader] and writes responses to a
    [Writer], and keeps the one flag the readiness barrier needs, [clock_ready]. *)

From S2P Require Import Prelude GoLib Json JsonFacts GoTime GoText JsonUtil JsonText Protocol ProtocolFacts GuestClock.
From Stdlib Require Import Ascii String.

(** What the handlers call.  Timeouts are in nanoseconds; a deadline that expires is
    the callee's own error. *)
Class Guest (W : Type) := {
  clock_read : W → result ClockObservation * W;
  clock_set : W → ClockSetRequest → (ClockSetResult * option error) * W;
  run_action : W → Z → ActionRequest → (ActionResult * option error) * W;
  run_start : W → Z → ServiceRequest → (ServiceResult * option error) * W;
  run_stop : W → Z → ServiceRequest → (ServiceResult * option error) * W;
  stop_all : W → option error * W;
  active : W → Z;
  health : W → option error
}.

Record Server := {
  sv_identity : Identity;
  sv_manifest : WorkloadManifest;
  sv_manifest_sha : string;
  sv_agent_version : string;
  sv_agent_sha : string;
  clock_ready : bool
}.
Definition set_ready (s : Server) (b : bool) : Server :=
  {| sv_identity := sv_identity s; sv_manifest := sv_manifest s; sv_manifest_sha := sv_manifest_sha s;
     sv_agent_version := sv_agent_version s; sv_agent_sha := sv_agent_sha s; clock_ready := b |}.

(** The handler's [any] result. *)
Inductive reply :=
| RNil
| RHello (h : HelloResult)
| RClock (o : ClockObservation)
| RClockSet (r : ClockSetResult)
| RAction (r : ActionResult)
| RService (r : ServiceResult)
| REmpty.
Definition enc_reply (r : reply) : option string :=
  match r with
  | RNil => Some (print JNull)
  | RHello h => Some (print (enc_hello h))
  | RClock o => Some (print (enc_clock o))
  | RClockSet r => Some (print (enc_clock_set r))
  | RAction r => enc_action r
  | RService r => Some (print (enc_service r))
  | REmpty => Some (print (JObject []))
  end.

Definition requestTimeout (ms : Z) : result Z :=
  let ms := if ms =? 0 then 5000 else ms in
  fail_if (ms <? 1) || (600000 <? ms) with Errorf "request timeout outside 1..600000 ms" [] ;;
  Ok (wrap64 (ms * millisecond)).

(** [decode(&v)] of a request payload. *)
Definition decode_payload {A} (d : decoder A) (req : Request) : result A :=
  fail_if (q_payload req =?s "") || (q_payload req =?s "null")
    with Errorf "missing request payload" [] ;;
  JsonUtil.Decode d (JsonUtil.zero d) (q_payload req).
Definition dec_empty : decoder unit := Build_decoder (TStruct []) tt (λ _ raw, do? struct_fields raw ;; Ok tt).

(** The input of an action or service request. *)
Definition check_input (what input : string) : result unit :=
  fail_if MaxInput <? blen input with Errorf what [] ;;
  if input =?s "" then Ok tt
  else let? _ := JsonUtil.Decode dec_any JNull input in Ok tt.

Section server.
Context {W : Type} `{Guest W}.
(** [err.Error()]. *)
Variable error_text : error → string.

Definition fail_with (e : error) (s : Server) (w : W) : (reply * option error) * Server * W :=
  ((RNil, Some e), s, w).

Definition handle_clock_set (s : Server) (w : W) (p : ClockSetRequest) :
    (reply * option error) * Server * W :=
  if (0 <? active w) && negb (cs_allow_live p)
  then fail_with (ErrProtocol "live_clock_denied" "running services require allow_live=true" "") s w
  else let '((r, e), w) := clock_set w p in
       ((RClockSet r, e),
        set_ready s (match e with None => cr_valid r | Some _ => false end), w).

Definition handle_action (s : Server) (w : W) (p : ActionRequest) : (reply * option error) * Server * W :=
  match assoc (aq_action p) (m_actions (sv_manifest s)) with
  | None => fail_with (Errorf "undeclared action" []) s w
  | Some _ =>
      match (do? check_input "action input quota exceeded" (aq_input p) ;; requestTimeout (aq_timeout p)) with
      | Err e => fail_with e s w
      | Ok d => let '((r, e), w) := run_action w d p in ((RAction r, e), s, w)
      end
  end.

Definition handle_service (start : bool) (s : Server) (w : W) (p : ServiceRequest) :
    (reply * option error) * Server * W :=
  match assoc (sq_service p) (m_services (sv_manifest s)) with
  | None => fail_with (Errorf "undeclared service" []) s w
  | Some _ =>
      match (fail_if MaxInput <? blen (sq_input p) with Errorf "service input quota exceeded" [] ;;
             fail_if negb start && (0 <? blen (sq_input p))
               with Errorf "service.stop does not accept input" [] ;;
             do? check_input "service input quota exceeded" (sq_input p) ;;
             requestTimeout (sq_timeout p)) with
      | Err e => fail_with e s w
      | Ok d => let '((r, e), w) := if start then run_start w d p else run_stop w d p in
                ((RService r, e), s, w)
      end
  end.

Definition handle (s : Server) (w : W) (req : Request) : (reply * option error) * Server * W :=
  let op := q_op req in
  let sick := if (op <>?s "shutdown") && (op <>?s "service.stop") then health w else None in
  match sick with
  | Some e => fail_with (ErrProtocol "service_exited" (error_text e) "") s w
  | None =>
      let decoded {A} (d : decoder A) (k : A → (reply * option error) * Server * W) :=
        match decode_payload d req with Err e => fail_with e s w | Ok p => k p end in
      if op =?s "hello" then
        decoded dec_empty (λ _,
          ((RHello {| h_agent_version := sv_agent_version s; h_agent_sha := sv_agent_sha s;
                      h_protocol := Version; h_run := RunID (sv_identity s);
                      h_nonce := Nonce (sv_identity s); h_cid := CID (sv_identity s);
                      h_workload := m_id (sv_manifest s);
                      h_workload_version := m_version (sv_manifest s);
                      h_workload_sha := sv_manifest_sha s; h_ready := true |}, None), s, w))
      else if op =?s "clock.read" then
        decoded dec_empty (λ _,
          let '(o, w) := clock_read w in
          match o with
          | Ok o => ((RClock o, None), s, w)
          | Err e => ((RClock zero_clock, Some e), s, w)
          end)
      else if op =?s "clock.set" then decoded dec_clock_set_request (handle_clock_set s w)
      else if op =?s "action.exec" then
        if negb (clock_ready s)
        then fail_with (ErrProtocol "clock_not_ready" "successful initial clock readback required before workloads" "") s w
        else decoded dec_action_request (handle_action s w)
      else if (op =?s "service.start") || (op =?s "service.stop") then
        if (op =?s "service.start") && negb (clock_ready s)
        then fail_with (ErrProtocol "clock_not_ready" "initial clock must be established before services" "") s w
        else decoded dec_service_request (handle_service (op =?s "service.start") s w)
      else if op =?s "shutdown" then
        decoded dec_empty (λ _,
          let sick := health w in
          let '(stopped, w) := stop_all w in
          match join_errors [sick; stopped] with
          | Some e => fail_with e s w
          | None => ((REmpty, None), s, w)
          end)
      else fail_with (ErrProtocol "unsupported_operation" "unsupported guest operation" "") s w
  end.

(** ** One connection *)
Definition respond (req : Request) (r : reply) (e : option error) : result Response :=
  let base result err :=
    {| p_version := Version; p_id := q_id req; p_op := q_op req; p_run := q_run req;
       p_nonce := q_nonce req; p_result := result; p_error := err |} in
  let marshal := match enc_reply r with
                 | Some b => Ok b
                 | None => Err (Errorf "json: error calling MarshalJSON" [])
                 end in
  match e with
  | None => let? result := marshal in Ok (base result None)
  | Some e =>
      let typed := match as_protocol e with
                   | Some (c, m, d) => {| e_code := c; e_message := m; e_details := d |}
                   | None => {| e_code := "execution_error"; e_message := error_text e; e_details := "" |}
                   end in
      match r with
      | RNil => Ok (base ""%string (Some typed))
      | _ => let? details := marshal in
             Ok (base ""%string (Some {| e_code := e_code typed; e_message := e_message typed;
                                         e_details := details |}))
      end
  end.

Context {C : Type} `{Writer C}.
Record exchange := { x_request : Request; x_reply : reply; x_error : option error; x_response : Response }.

(** A request the session may act on. *)
Definition admit_request (s : Server) (seen : list string) (frame : string) : result Request :=
  let? req := map_err (Wrapf "invalid guest request: %w" [])
                      (JsonUtil.Decode dec_request (JsonUtil.zero dec_request) frame) in
  fail_if (q_version req <>?s Version) || (q_run req <>?s RunID (sv_identity s))
          || (q_nonce req <>?s Nonce (sv_identity s)) || negb (ValidID (q_id req))
    with Errorf "guest request version/identity mismatch" [] ;;
  fail_if existsb (String.eqb (q_id req)) seen || (1024 <=? List.length seen)%nat
    with Errorf "duplicate request identity or session request quota" [] ;;
  Ok req.

(** The loop of [serveConn].  It ends by itself: a session admits 1024 requests, so
    [session_fuel] rounds are enough.  [interrupted k] says that the [k]th select took the
    end of the context, with that error. *)
Definition session_fuel : nat := 1025.
Fixpoint serve (interrupted : nat → option error) (fuel : nat) (seen : list string) (s : Server) (w : W) (r : reader) (c : C) :
    option (bool * option error) * Server * W * C * list exchange :=
  match fuel with
  | O => (None, s, w, c, [])
  | S fuel =>
      let '(frame, r) := ReadLine r MaxFrame in
      let frame := match interrupted (List.length seen) with Some e => Err e | None => frame end in
      match (let? frame := frame in admit_request s seen frame) with
      | Err e => (Some (false, Some e), s, w, c, [])
      | Ok req =>
          let '((res, err), s, w) := handle s w req in
          match respond req res err with
          | Err e => (Some (false, Some e), s, w, c, [])
          | Ok resp =>
              let x := {| x_request := req; x_reply := res; x_error := err; x_response := resp |} in
              let '(we, c) := WriteFrame c (enc_response resp) in
              match we with
              | Some e => (Some (false, Some e), s, w, c, [x])
              | None =>
                  if q_op req =?s "shutdown" then (Some (true, None), s, w, c, [x])
                  else let '(out, s, w, c, xs) := serve interrupted fuel (q_id req :: seen) s w r c in
                       (out, s, w, c, x :: xs)
              end
          end
      end
  end.
Definition serveConn (interrupted : nat → option error) (s : Server) (w : W) (r : reader) (c : C) :=
  serve interrupted session_fuel [] s w r c.
End server.

(** ** What a handled request did *)
Section facts.
Context {W : Type} `{Guest W}.
Variable error_text : error → string.

(** The runner was called for a declared operation, within the input and time limits. *)
Definition timeout_ok (d : Z) : Prop := millisecond <= d <= 600000 * millisecond.

Definition effect (s : Server) (w : W) (req : Request) (r : reply) (e : option error)
    (s' : Server) (w' : W) : Prop :=
  match r with
  | RAction a =>
      q_op req = "action.exec"%string ∧ clock_ready s = true ∧ s' = s ∧
      ∃ p d, decode_payload dec_action_request req = Ok p ∧ aq_action p ∈ (m_actions (sv_manifest s)).*1 ∧
             blen (aq_input p) <= MaxInput ∧ timeout_ok d ∧ run_action w d p = ((a, e), w')
  | RService v =>
      s' = s ∧ ∃ p d, decode_payload dec_service_request req = Ok p ∧
        sq_service p ∈ (m_services (sv_manifest s)).*1 ∧ blen (sq_input p) <= MaxInput ∧ timeout_ok d ∧
        (q_op req = "service.start"%string ∧ clock_ready s = true ∧ run_start w d p = ((v, e), w') ∨
         q_op req = "service.stop"%string ∧ sq_input p = ""%string ∧ run_stop w d p = ((v, e), w'))
  | RClockSet c =>
      q_op req = "clock.set"%string ∧
      (∃ p, decode_payload dec_clock_set_request req = Ok p ∧
            (active w <= 0 ∨ cs_allow_live p = true) ∧ clock_set w p = ((c, e), w')) ∧
      s' = set_ready s (match e with None => cr_valid c | Some _ => false end)
  | RClock _ => q_op req = "clock.read"%string ∧ s' = s ∧ ∃ o, clock_read w = (o, w')
  | RHello h => h_run h = RunID (sv_identity s) ∧ h_nonce h = Nonce (sv_identity s) ∧ s' = s ∧ w' = w ∧ e = None
  | REmpty => q_op req = "shutdown"%string ∧ s' = s ∧ e = None ∧ health w = None ∧ stop_all w = (None, w')
  | RNil => s' = s ∧ e ≠ None ∧ (w' = w ∨ q_op req = "shutdown"%string ∧ ∃ x, stop_all w = (x, w'))
  end.

Lemma requestTimeout_ok ms d : requestTimeout ms = Ok d → timeout_ok d.
Proof.
  unfold requestTimeout, timeout_ok, millisecond. intros Hr. inv_ok Hr. injection Hr as <-. to_prop.
  rewrite wrap64_id; [lia|]. assert (E : 2 ^ 63 = 9223372036854775808) by reflexivity. lia.
Qed.
Lemma check_input_ok what input : check_input what input = Ok tt → blen input <= MaxInput.
Proof. unfold check_input. intros Hc. inv_ok Hc. by to_prop. Qed.

Lemma handle_action_effect s w req p r e s' w' :
  q_op req = "action.exec"%string → clock_ready s = true → decode_payload dec_action_request req = Ok p →
  handle_action s w p = ((r, e), s', w') → effect s w req r e s' w'.
Proof.
  intros Hop Hready Hp Hh. unfold handle_action, fail_with in Hh.
  destruct (assoc _ _) as [cmd|] eqn:Ea; [|simplify_eq; cbn; auto].
  destruct (rbind _ _) as [d|x] eqn:Ed; [|simplify_eq; cbn; auto].
  apply rbind_ok in Ed as ([] & Hi & Hd). destruct (run_action w d p) as [[a e1] w1] eqn:Er.
  simplify_eq. cbn. split; [done|]. split; [done|]. split; [done|]. exists p, d.
  split; [done|]. split; [by eapply assoc_declared|]. split; [by eapply check_input_ok|].
  split; [by eapply requestTimeout_ok|done].
Qed.

Lemma handle_service_effect (start : bool) s w req p r e s' w' :
  q_op req = (if start then "service.start" else "service.stop")%string →
  (start = true → clock_ready s = true) → decode_payload dec_service_request req = Ok p →
  handle_service start s w p = ((r, e), s', w') → effect s w req r e s' w'.
Proof.
  intros Hop Hready Hp Hh. unfold handle_service, fail_with in Hh.
  destruct (assoc _ _) as [cmd|] eqn:Ea; [|simplify_eq; cbn; auto].
  destruct (MaxInput <? blen (sq_input p)) eqn:Em; [simplify_eq; cbn; auto|].
  destruct (negb start && _) eqn:Es; [simplify_eq; cbn; auto|].
  destruct (rbind _ _) as [d|x] eqn:Ed; [|simplify_eq; cbn; auto].
  apply rbind_ok in Ed as ([] & Hi & Hd).
  destruct (if start then run_start w d p else run_stop w d p) as [[v e1] w1] eqn:Er.
  simplify_eq. cbn. split; [done|]. exists p, d.
  split; [done|]. split; [by eapply assoc_declared|]. split; [by eapply check_input_ok|].
  split; [by eapply requestTimeout_ok|]. destruct start; [left; auto|right].
  split; [done|]. split; [|done]. cbn in Es. to_prop. destruct (sq_input p); [done|].
  unfold blen in Es. cbn in Es. lia.
Qed.

Lemma handle_clock_set_effect s w req p r e s' w' :
  q_op req = "clock.set"%string → decode_payload dec_clock_set_request req = Ok p →
  handle_clock_set s w p = ((r, e), s', w') → effect s w req r e s' w'.
Proof.
  intros Hop Hp Hh. unfold handle_clock_set, fail_with in Hh.
  destruct ((0 <? active w) && negb (cs_allow_live p)) eqn:Ea; [simplify_eq; cbn; auto|].
  destruct (clock_set w p) as [[c e1] w1] eqn:Ec. simplify_eq. cbn. split; [done|]. split; [|done].
  exists p. split; [done|]. split; [|done]. apply andb_false_iff in Ea as [Ea|Ea]; to_prop; auto.
Qed.

Lemma handle_effect s w req r e s' w' :
  handle error_text s w req = ((r, e), s', w') → effect s w req r e s' w'.
Proof.
  unfold handle. destruct (if (q_op req <>?s "shutdown") && (q_op req <>?s "service.stop") then health w else None) as [x|];
    [unfold fail_with; intros ?; simplify_eq; cbn; auto|].
  destruct (String.eqb_spec (q_op req) "hello").
  { unfold fail_with. destruct (decode_payload dec_empty req); intros ?; simplify_eq; cbn; auto 10. }
  destruct (String.eqb_spec (q_op req) "clock.read").
  { unfold fail_with. destruct (decode_payload dec_empty req); [|intros ?; simplify_eq; cbn; auto].
    destruct (clock_read w) as [[o|x] w1] eqn:Er; intros ?; simplify_eq; cbn; eauto. }
  destruct (String.eqb_spec (q_op req) "clock.set").
  { destruct (decode_payload dec_clock_set_request req) as [p|x] eqn:Ed;
      [|unfold fail_with; intros ?; simplify_eq; cbn; auto]. by apply handle_clock_set_effect. }
  destruct (String.eqb_spec (q_op req) "action.exec").
  { destruct (clock_ready s) eqn:Er; cbn [negb]; [|unfold fail_with; intros ?; simplify_eq; cbn; auto].
    destruct (decode_payload dec_action_request req) as [p|x] eqn:Ed;
      [|unfold fail_with; intros ?; simplify_eq; cbn; auto]. by apply handle_action_effect. }
  destruct (String.eqb_spec (q_op req) "service.start") as [Es|].
  { cbn [orb andb]. destruct (clock_ready s) eqn:Er; cbn [negb]; [|unfold fail_with; intros ?; simplify_eq; cbn; auto].
    destruct (decode_payload dec_service_request req) as [p|x] eqn:Ed;
      [|unfold fail_with; intros ?; simplify_eq; cbn; auto]. by apply handle_service_effect. }
  destruct (String.eqb_spec (q_op req) "service.stop") as [Es|].
  { cbn [orb andb]. destruct (decode_payload dec_service_request req) as [p|x] eqn:Ed;
      [|unfold fail_with; intros ?; simplify_eq; cbn; auto]. by apply handle_service_effect. }
  cbn [orb]. destruct (String.eqb_spec (q_op req) "shutdown"); [|unfold fail_with; intros ?; simplify_eq; cbn; auto].
  unfold fail_with. destruct (decode_payload dec_empty req); [|intros ?; simplify_eq; cbn; auto].
  destruct (stop_all w) as [x w1] eqn:Es. destruct (join_errors _) eqn:Ej; intros ?; simplify_eq; cbn; [eauto 10|].
  apply join_errors_none in Ej. rewrite !Forall_cons in Ej. destruct Ej as (? & ? & _). subst. auto.
Qed.
End facts.

(** ** Sessions *)

(** The readiness flag after a sequence of exchanges: the last clock change decides. *)
Definition flag_after (b : bool) (x : exchange) : bool :=
  match x_reply x with
  | RClockSet r => match x_error x with None => cr_valid r | Some _ => false end
  | _ => b
  end.
Definition clock_flag (b : bool) (xs : list exchange) : bool := fold_left flag_after xs b.

(** The exchange ran workload code: an action, or a service start. *)
Definition ran_workload (x : exchange) : Prop :=
  match x_reply x with
  | RAction _ => True
  | RService _ => q_op (x_request x) = "service.start"%string
  | _ => False
  end.

Definition echoes (q : Request) (p : Response) : Prop :=
  p_version p = q_version q ∧ p_id p = q_id q ∧ p_op p = q_op q ∧ p_run p = q_run q ∧ p_nonce p = q_nonce q.

Record exchange_ok (s : Server) (x : exchange) : Prop := {
  eo_run : q_run (x_request x) = RunID (sv_identity s);
  eo_nonce : q_nonce (x_request x) = Nonce (sv_identity s);
  eo_id : ValidID (q_id (x_request x)) = true;
  eo_echo : echoes (x_request x) (x_response x);
  eo_error : p_error (x_response x) = None ↔ x_error x = None
}.

Section session.
Context {W C : Type} `{Guest W} `{Writer C}.
Variable error_text : error → string.

Lemma handle_flag s (w : W) req r e s' w' :
  handle error_text s w req = ((r, e), s', w') →
  sv_identity s' = sv_identity s ∧
  (∀ p, clock_ready s' = flag_after (clock_ready s) {| x_request := req; x_reply := r; x_error := e; x_response := p |}) ∧
  (∀ p, ran_workload {| x_request := req; x_reply := r; x_error := e; x_response := p |} → clock_ready s = true).
Proof.
  intros Hh%handle_effect. unfold flag_after, ran_workload. destruct r; cbn in *.
  - destruct Hh as (-> & _). done.
  - destruct Hh as (_ & _ & -> & _). done.
  - destruct Hh as (_ & -> & _). done.
  - destruct Hh as (_ & _ & ->). done.
  - destruct Hh as (_ & Hr & -> & _). done.
  - destruct Hh as (-> & p & d & _ & _ & _ & _ & Hs). split; [done|]. split; [done|].
    intros _ Hop. destruct Hs as [(_ & Hr & _)|(Hstop & _)]; [done|congruence].
  - destruct Hh as (_ & -> & _). done.
Qed.

Lemma respond_ok req r e resp : respond error_text req r e = Ok resp →
  q_version req = Version → echoes req resp ∧ (p_error resp = None ↔ e = None).
Proof.
  unfold respond, echoes. intros Hr Hv. destruct e as [e|].
  - destruct r; [injection Hr as <-; by rewrite Hv|..];
      (inv_ok Hr; injection Hr as <-; by rewrite Hv).
  - inv_ok Hr. injection Hr as <-. by rewrite Hv.
Qed.

Lemma admit_request_ok s seen frame req : admit_request s seen frame = Ok req →
  q_version req = Version ∧ q_run req = RunID (sv_identity s) ∧ q_nonce req = Nonce (sv_identity s) ∧
  ValidID (q_id req) = true ∧ (q_id req ∉ seen) ∧ (List.length seen < 1024)%nat.
Proof.
  unfold admit_request. intros Ha. inv_ok Ha. injection Ha as ->. to_prop.
  rewrite Nat.leb_gt in *. split_and!; try done. by apply existsb_eqb_in.
Qed.

Record session_ok (s : Server) (seen : list string) (xs : list exchange) : Prop := {
  so_each : Forall (exchange_ok s) xs;
  so_ids : NoDup (map (λ x, q_id (x_request x)) xs);
  so_fresh : Forall (λ x, q_id (x_request x) ∉ seen) xs;
  so_quota : (List.length seen ≤ 1024 → List.length seen + List.length xs ≤ 1024)%nat;
  so_barrier : ∀ pre x post, xs = pre ++ x :: post → ran_workload x →
               clock_flag (clock_ready s) pre = true
}.

Lemma session_nil s seen : session_ok s seen [].
Proof. split; [constructor|constructor|constructor|cbn; lia|by intros [] ? ?]. Qed.

Lemma session_cons s (w : W) seen req r e s' w' resp xs :
  q_version req = Version → q_run req = RunID (sv_identity s) → q_nonce req = Nonce (sv_identity s) →
  ValidID (q_id req) = true → q_id req ∉ seen → (List.length seen < 1024)%nat →
  handle error_text s w req = ((r, e), s', w') → respond error_text req r e = Ok resp →
  session_ok s' (q_id req :: seen) xs →
  session_ok s seen ({| x_request := req; x_reply := r; x_error := e; x_response := resp |} :: xs).
Proof.
  intros Hv Hr Hn Hid Hseen Hlen Hh Hresp [S1 S2 S3 S4 S5].
  destruct (handle_flag _ _ _ _ _ _ _ Hh) as (Hi & Hf & Hw). destruct (respond_ok _ _ _ _ Hresp Hv) as [He Hee].
  rewrite Forall_forall in S3. split.
  - constructor; [by split|]. eapply Forall_impl; [exact S1|]. intros x []. split; try done; by rewrite <-Hi.
  - cbn [map]. constructor; [|done]. intros (x & Hx & Hin)%list_elem_of_fmap. cbn in Hx.
    specialize (S3 x Hin). set_solver.
  - constructor; [done|]. apply Forall_forall. intros x Hin. specialize (S3 x Hin). set_solver.
  - intros _. cbn in *. lia.
  - intros [|y pre] x post Heq Hran; cbn in Heq; [injection Heq as <- _; by apply (Hw resp)|].
    injection Heq as <- ->. cbn. specialize (S5 _ _ _ eq_refl Hran). by rewrite (Hf resp) in S5.
Qed.

Lemma serve_session interrupted fuel seen s (w : W) r (c : C) out s' w' c' xs :
  serve error_text interrupted fuel seen s w r c = (out, s', w', c', xs) →
  session_ok s seen xs ∧ (out = None → List.length xs = fuel).
Proof.
  revert seen s w r c out s' w' c' xs. induction fuel as [|fuel IH]; cbn [serve];
    intros seen s w r c out s' w' c' xs Hs.
  { injection Hs as <- <- <- <- <-. split; [apply session_nil|done]. }
  destruct (ReadLine r MaxFrame) as [frame r1].
  destruct (rbind _ _) as [req|e] eqn:Ea; [|injection Hs as <- <- <- <- <-; split; [apply session_nil|done]].
  apply rbind_ok in Ea as (f & _ & Ha).
  destruct (admit_request_ok _ _ _ _ Ha) as (A1 & A2 & A3 & A4 & A5 & A6).
  destruct (handle error_text s w req) as [[[res err] s1] w1] eqn:Eh.
  destruct (respond error_text req res err) as [resp|e] eqn:Er;
    [|injection Hs as <- <- <- <- <-; split; [apply session_nil|done]].
  destruct (WriteFrame c (enc_response resp)) as [[e|] c1].
  { injection Hs as <- <- <- <- <-. split; [|done]. eapply session_cons; eauto using session_nil. }
  destruct (q_op req =?s "shutdown").
  { injection Hs as <- <- <- <- <-. split; [|done]. eapply session_cons; eauto using session_nil. }
  destruct (serve error_text interrupted fuel (q_id req :: seen) s1 w1 r1 c1) as [[[[out1 s2] w2] c2] xs1] eqn:El.
  injection Hs as <- <- <- <- <-. destruct (IH _ _ _ _ _ _ _ _ _ _ El) as [Hok Hn].
  split; [by eapply session_cons|]. intros Ho. cbn. by rewrite Hn.
Qed.
End session.

(** ** Claims *)

(** C11.  Every branch of the request handler: workload code runs only for a declared
    action or service, after the clock was made ready, with input within 64 KiB and a
    deadline of 1 ms to 10 min; the clock is set only when no service is running or the
    request allows it, and decides readiness by its read-back; and every refusal leaves
    the guest untouched. *)
Theorem handle_spec {W} `{Guest W} error_text s (w : W) req r e s' w' :
  handle error_text s w req = ((r, e), s', w') → effect s w req r e s' w'.
Proof. apply handle_effect. Qed.

Lemma serveConn_session {W C} `{Guest W} `{Writer C} error_text interrupted s (w : W) r (c : C) out s' w' c' xs :
  serveConn error_text interrupted s w r c = (out, s', w', c', xs) →
  out ≠ None ∧ (List.length xs ≤ 1024)%nat ∧ session_ok s [] xs.
Proof.
  unfold serveConn. intros Hs. destruct (serve_session _ _ _ _ _ _ _ _ _ _ _ _ _ Hs) as [Hok Hn].
  pose proof (so_quota _ _ _ Hok) as Hq. cbn in Hq. specialize (Hq ltac:(lia)).
  split; [|by split]. intros Ho. specialize (Hn Ho). unfold session_fuel in Hn. lia.
Qed.

(** C10.  A whole session: it always ends within 1024 requests; every admitted request
    carries this boot's run ID and nonce and an ID not used before, and its response
    echoes it; and workload code runs only while the most recent clock change of the
    session (or the state before it) had a valid read-back. *)
Theorem session_spec {W C} `{Guest W} `{Writer C} error_text interrupted s (w : W) r (c : C) out s' w' c' xs :
  serveConn error_text interrupted s w r c = (out, s', w', c', xs) →
  out ≠ None ∧ (List.length xs ≤ 1024)%nat ∧ session_ok s [] xs.
Proof. apply serveConn_session. Qed.

(** A guest whose clock is the controller of [GuestClock] over a fake boundary. *)
#[export] Instance fake_guest : Guest fake_clock := {|
  clock_read := Read;
  clock_set w p := Set_ p w;
  run_action w _ _ := ((zero_action, None), w);
  run_start w _ p := (({| sr_service := sq_service p; sr_running := true; sr_before := zero_clock;
                          sr_after := zero_clock; sr_stdout := ""; sr_stderr := "" |}, None), w);
  run_stop w _ _ := ((zero_service, None), w);
  stop_all w := (None, w);
  active _ := 0;
  health _ := None
|}.
Definition sample_server : Server :=
  {| sv_identity := {| RunID := "run-1"; Nonce := sample_nonce; CID := 3 |};
     sv_manifest := sample_manifest; sv_manifest_sha := ""; sv_agent_version := "1"; sv_agent_sha := "";
     clock_ready := false |}.
Definition sample_call (id op payload : string) : Request :=
  {| q_version := Version; q_id := id; q_op := op; q_run := "run-1"; q_nonce := sample_nonce;
     q_payload := js payload |}.
Definition frame_of (q : Request) : string := sent (WriteFrame (W := string) "" (enc_request q)).
Definition sample_text (_ : error) : string := "error".

Definition early_action : Request := sample_call "1" "action.exec" "{'action':'observe','timeout_ms':5}".
Definition set_clock_call : Request := sample_call "2" "clock.set" "{'at':'2000-01-01T00:00:00Z'}".
Definition later_action : Request := sample_call "3" "action.exec" "{'action':'observe','timeout_ms':5}".
Definition stop_call : Request := sample_call "4" "shutdown" "{}".
Definition sample_session :=
  serveConn (C := string) sample_text (λ _, None) sample_server sample_clock
    (sample_stream (frame_of early_action +:+ frame_of set_clock_call +:+ frame_of later_action
                    +:+ frame_of stop_call)) ""%string.
Definition session_log {A} (r : A * list exchange) : list exchange := r.2.

(** The refused action, the clock change, the accepted action and the shutdown. *)
Example sample_session_log :
  map (λ x, (q_op (x_request x), match p_error (x_response x) with Some e => e_code e | None => "ok"%string end))
      (session_log sample_session)
  = [("action.exec", "clock_not_ready"); ("clock.set", "ok"); ("action.exec", "ok"); ("shutdown", "ok")]%string.
Proof. vm_compute. reflexivity. Qed.

Lemma handle_spec_witness :
  effect sample_server sample_clock early_action RNil
    (Some (ErrProtocol "clock_not_ready" "successful initial clock readback required before workloads" ""))
    sample_server sample_clock.
Proof. apply (handle_spec sample_text). vm_compute. reflexivity. Defined.
Lemma session_spec_witness : session_ok sample_server [] (session_log sample_session).
Proof.
  apply (session_spec sample_text (λ _, None) sample_server sample_clock
    (sample_stream (frame_of early_action +:+ frame_of set_clock_call +:+ frame_of later_action
                    +:+ frame_of stop_call)) ""%string
    sample_session.1.1.1.1 sample_session.1.1.1.2 sample_session.1.1.2 sample_session.1.2).
  vm_compute. reflexivity.
Defined.
