(* ===== verification/GuestServe.v ===== *)
(** * GuestServe: the accept loop of the guest agent (internal/guestagent/server.go,
    lines 72-97)

    [accepts] is what the listener gives, in order: a connection with the frames that
    arrive on it, or the error that ends accepting.  The loop waits for ever when there is
    no more. *)

From S2P Require Import Prelude GoLib Json JsonFacts GoTime GoText JsonUtil JsonText Protocol ProtocolFacts GuestClock GuestAgent.
From Stdlib Require Import Ascii String.

Record accepted (C : Type) := { ac_reader : reader; ac_conn : C; ac_interrupted : nat → option error }.
Arguments ac_reader {C}.
Arguments ac_conn {C}.
Arguments ac_interrupted {C}.

Section serve.
Context {W C : Type} `{Guest W} `{Writer C}.
Variable error_text : error → string.
(** [ctx.Err()] when accepting failed. *)
Variable parent : option error.

Fixpoint accept_loop (accepts : list (result (accepted C))) (s : Server) (w : W) :
    option (option error) * Server * W * list (list exchange) :=
  match accepts with
  | [] => (None, s, w, [])
  | Err e :: _ => (Some (Some (default e parent)), s, w, [])
  | Ok a :: accepts =>
      let '(out, s, w, _, xs) := serveConn error_text (ac_interrupted a) s w (ac_reader a) (ac_conn a) in
      match out with
      | None => (None, s, w, [xs])
      | Some (true, e) => (Some e, s, w, [xs])
      | Some (false, Some e) => (Some (Some e), s, w, [xs])
      | Some (false, None) =>
          let '(out, s, w, sessions) := accept_loop accepts s w in (out, s, w, xs :: sessions)
      end
  end.
(** Whatever ends the loop, the deferred [StopAll] runs last. *)
Definition Serve (accepts : list (result (accepted C))) (s : Server) (w : W) :
    option (option error) * Server * W * list (list exchange) :=
  let '(out, s, w, sessions) := accept_loop accepts s w in
  match out with
  | None => (None, s, w, sessions)
  | Some _ => let '(_, w) := stop_all w in (out, s, w, sessions)
  end.

Lemma serve_outcome interrupted fuel seen s (w : W) r (c : C) out s' w' c' xs :
  serve error_text interrupted fuel seen s w r c = (out, s', w', c', xs) →
  match out with
  | None => True
  | Some (true, e) => e = None ∧ ∃ x, last xs = Some x ∧ q_op (x_request x) = "shutdown"%string
  | Some (false, e) => e ≠ None
  end.
Proof.
  revert seen s w r c out s' w' c' xs. induction fuel as [|fuel IH]; cbn [serve];
    intros seen s w r c out s' w' c' xs Hs; [by injection Hs as <- <- <- <- <-|].
  destruct (ReadLine r MaxFrame) as [frame r1].
  destruct (rbind _ _) as [req|e]; [|by injection Hs as <- <- <- <- <-].
  destruct (handle error_text s w req) as [[[res err] s1] w1].
  destruct (respond error_text req res err) as [resp|e]; [|by injection Hs as <- <- <- <- <-].
  destruct (WriteFrame c (enc_response resp)) as [[e|] c1]; [by injection Hs as <- <- <- <- <-|].
  destruct (String.eqb_spec (q_op req) "shutdown").
  { injection Hs as <- <- <- <- <-. split; [done|]. by eexists. }
  destruct (serve error_text interrupted fuel (q_id req :: seen) s1 w1 r1 c1) as [[[[out1 s2] w2] c2] xs1] eqn:El.
  injection Hs as <- <- <- <- <-. specialize (IH _ _ _ _ _ _ _ _ _ _ El). destruct out1 as [[[] e]|]; [|done..].
  destruct IH as (-> & x & Hx & Hop). split; [done|]. exists x. split; [|done]. destruct xs1; [done|exact Hx].
Qed.
End serve.

(** The agent serves one connection: the accept loop returns after the first session
    (a session ends with a shutdown or with an error, never silently), that session obeys
    the session rules, [Serve] returns without error only if its last request was a
    shutdown, and whenever it returns, the last thing it did was to stop all services. *)
Theorem serve_once {W C} `{Guest W} `{Writer C} error_text parent (accepts : list (result (accepted C))) s (w : W)
    out s' w' sessions : Serve error_text parent accepts s w = (out, s', w', sessions) →
  (out = None ↔ accepts = []) ∧ (List.length sessions ≤ 1)%nat ∧ Forall (session_ok s []) sessions ∧
  (out = Some None → ∃ xs x, sessions = [xs] ∧ last xs = Some x ∧ q_op (x_request x) = "shutdown"%string) ∧
  (out ≠ None → ∃ w1 e, stop_all w1 = (e, w')).
Proof.
  unfold Serve. destruct accepts as [|[a|e] accepts]; cbn [accept_loop].
  - intros [= <- <- <- <-]. split_and!; try done. cbn; lia.
  - destruct (serveConn error_text _ s w _ _) as [[[[out1 s1] w1] c1] xs] eqn:Es.
    destruct (serveConn_session _ _ _ _ _ _ _ _ _ _ _ Es) as (Hout & _ & Hok). apply serve_outcome in Es.
    destruct out1 as [[[] [e|]]|]; [by destruct Es| | |done|done];
      destruct (stop_all w1) as [es w2] eqn:Est; intros [= <- <- <- <-].
    + destruct Es as (_ & x & Hx & Hop).
      split_and!; [done|cbn; lia|by constructor|intros _; by exists xs, x|intros _; by exists w1, es].
    + split_and!; [done|cbn; lia|by constructor|done|intros _; by exists w1, es].
  - destruct (stop_all w) as [es w2] eqn:Est. intros [= <- <- <- <-].
    split_and!; [done|cbn; lia|by constructor|done|intros _; by exists w, es].
Qed.
Definition one_session : result (accepted string) :=
  Ok {| ac_reader := sample_stream (frame_of set_clock_call +:+ frame_of stop_call); ac_conn := ""%string;
        ac_interrupted := λ _, None |}.
Definition served := Serve sample_text None [one_session; one_session] sample_server sample_clock.
Lemma serve_once_witness :
  served.1.1.1 = Some None ∧ ∃ xs x, served.2 = [xs] ∧ last xs = Some x ∧ q_op (x_request x) = "shutdown"%string.
Proof.
  assert (Hok : served.1.1.1 = Some None) by (vm_compute; reflexivity). split; [exact Hok|].
  destruct served as [[[out s'] w'] sessions] eqn:E. unfold served in E.
  exact (proj1 (proj2 (proj2 (proj2 (serve_once sample_text None [one_session; one_session] sample_server sample_clock
    out s' w' sessions E)))) Hok).
Defined.
