(* ===== verification/GuestManager.v ===== *)
(** * GuestManager: internal/guestagent/process_linux.go

    The process manager behind the agent's [Runner] interface: bounded output capture,
    process groups with their reaper goroutine, actions, services and their health.

    A running process is shared between the goroutine that launched it, the goroutines
    that copy its output, the reaper, and the services map.  The model keeps processes
    in one store and refers to them by handle; the services map holds handles.  What the
    other goroutines did is handed out by the environment as a list of [background]
    events at every point where the code waits or takes the signal lock, and each event
    runs the goroutine's own code on the store. *)

From S2P Require Import Prelude GoLib Json JsonFacts GoTime GoText JsonUtil JsonText Protocol ProtocolFacts Firecracker.
From Stdlib Require Import Ascii String.

(** ** Captured output *)
Record boundedCapture := { bc_data : string; bc_overflow : bool }.
Definition newCapture : boundedCapture := {| bc_data := ""; bc_overflow := false |}.
(** [Write] reports every byte as written and keeps what fits; the quota channel is
    closed exactly when [bc_overflow] is set. *)
Definition capture_write (b : boundedCapture) (p : string) : Z * boundedCapture :=
  let n := blen p in
  let space := MaxOutput - blen (bc_data b) in
  if space <? blen p
  then (n, {| bc_data := bc_data b +:+ string_take (Z.to_nat space) p; bc_overflow := true |})
  else (n, {| bc_data := bc_data b +:+ p; bc_overflow := bc_overflow b |}).
Definition snapshot (b : boundedCapture) : string * bool := (bc_data b, bc_overflow b).

(** ** Processes *)

(** [p.err] after [cmd.Wait]: nil, an [*exec.ExitError], or another error. *)
Inductive wait_result := WaitOk | WaitExit | WaitErr (e : error).
Definition ErrWaitDelay : error := ErrSentinel "exec.ErrWaitDelay".

Record ownedProcess := {
  pr_pid : Z; pr_out : boundedCapture; pr_stderr : boundedCapture;
  pr_done : bool; pr_err : wait_result; pr_exit : Z;
  pr_expected : bool; pr_reaping : bool; pr_cleanup : option error
}.
Definition new_process (pid : Z) : ownedProcess :=
  {| pr_pid := pid; pr_out := newCapture; pr_stderr := newCapture; pr_done := false; pr_err := WaitOk; pr_exit := -1;
     pr_expected := false; pr_reaping := false; pr_cleanup := None |}.

Inductive stream := Stdout | Stderr.
Definition pr_write (s : stream) (data : string) (p : ownedProcess) : ownedProcess :=
  {| pr_pid := pr_pid p;
     pr_out := match s with Stdout => (capture_write (pr_out p) data).2 | Stderr => pr_out p end;
     pr_stderr := match s with Stderr => (capture_write (pr_stderr p) data).2 | Stdout => pr_stderr p end;
     pr_done := pr_done p; pr_err := pr_err p; pr_exit := pr_exit p; pr_expected := pr_expected p;
     pr_reaping := pr_reaping p; pr_cleanup := pr_cleanup p |}.
Definition pr_expect (p : ownedProcess) : ownedProcess :=
  {| pr_pid := pr_pid p; pr_out := pr_out p; pr_stderr := pr_stderr p; pr_done := pr_done p; pr_err := pr_err p;
     pr_exit := pr_exit p; pr_expected := true; pr_reaping := pr_reaping p; pr_cleanup := pr_cleanup p |}.
Definition pr_reap (cleanup : option error) (p : ownedProcess) : ownedProcess :=
  {| pr_pid := pr_pid p; pr_out := pr_out p; pr_stderr := pr_stderr p; pr_done := pr_done p; pr_err := pr_err p;
     pr_exit := pr_exit p; pr_expected := pr_expected p; pr_reaping := true; pr_cleanup := cleanup |}.
Definition pr_finish (r : wait_result) (code : Z) (p : ownedProcess) : ownedProcess :=
  {| pr_pid := pr_pid p; pr_out := pr_out p; pr_stderr := pr_stderr p; pr_done := true; pr_err := r; pr_exit := code;
     pr_expected := pr_expected p; pr_reaping := pr_reaping p;
     pr_cleanup := match r with
                   | WaitErr e => if err_is "exec.ErrWaitDelay" e then join_errors [pr_cleanup p; Some e] else pr_cleanup p
                   | _ => pr_cleanup p
                   end |}.

(** What the other goroutines of a process may do. *)
Inductive background :=
| Wrote (h : nat) (s : stream) (data : string)
| LeaderExited (h : nat) (observed : option error)
| Waited (h : nat) (r : wait_result) (code : Z).

(** A command as [os/exec] starts it. *)
Record Launch := {
  ln_path : string; ln_args : list string; ln_dir : string; ln_env : list string; ln_stdin : string;
  ln_uid : Z; ln_gid : Z; ln_groups : list Z; ln_setpgid : bool; ln_pdeathsig : signal
}.

(** The system under the manager.  [wl_pick w n] is the runtime's free choice among [n]
    ready cases or map entries. *)
Class Workloads (W : Type) := {
  wl_clock : W → result ClockObservation * W;
  wl_vsock : W → option error * W;
  wl_start : W → Launch → result Z * W;
  wl_kill_group : W → Z → signal → option error * W;
  wl_kill : W → Z → W;
  wl_proc : W → result (list string) * W;
  wl_stat : W → string → result string * W;
  wl_sleep : W → Z → W;
  wl_now : W → Z;
  wl_cancelled : W → bool;
  wl_background : W → list background * W;
  wl_pick : W → nat → nat
}.

(** What was done to process groups, in order. *)
Inductive group_event :=
| Started (h : nat) (l : Launch)
| GroupKill (h : nat) (s : signal)
| ReapBegins (h : nat).

Record Manager := { mg_manifest : WorkloadManifest; mg_path : string; mg_executable : string }.

Record mstate (W : Type) := {
  ms_os : W;
  ms_procs : gmap nat ownedProcess;
  ms_services : gmap string nat;
  ms_log : list group_event
}.
Arguments ms_os {W}.
Arguments ms_procs {W}.
Arguments ms_services {W}.
Arguments ms_log {W}.

Definition set_os {W} (w : W) (s : mstate W) : mstate W :=
  {| ms_os := w; ms_procs := ms_procs s; ms_services := ms_services s; ms_log := ms_log s |}.
Definition on_proc {W} (h : nat) (f : ownedProcess → ownedProcess) (s : mstate W) : mstate W :=
  {| ms_os := ms_os s; ms_procs := alter f h (ms_procs s); ms_services := ms_services s; ms_log := ms_log s |}.
Definition on_services {W} (f : gmap string nat → gmap string nat) (s : mstate W) : mstate W :=
  {| ms_os := ms_os s; ms_procs := ms_procs s; ms_services := f (ms_services s); ms_log := ms_log s |}.
Definition note {W} (e : group_event) (s : mstate W) : mstate W :=
  {| ms_os := ms_os s; ms_procs := ms_procs s; ms_services := ms_services s; ms_log := ms_log s ++ [e] |}.

(** A context: its deadline, and whether the server's own context can cancel it. *)
Record ctx := { cx_deadline : Z; cx_cancellable : bool }.

Section manager.
Context {W : Type} `{Workloads W}.
Abbreviation state := (mstate W).

Definition ctx_err (c : ctx) (s : state) : option error :=
  if cx_cancellable c && wl_cancelled (ms_os s) then Some Canceled
  else if cx_deadline c <=? wl_now (ms_os s) then Some DeadlineExceeded else None.
Definition with_timeout (cancellable : bool) (d : Z) (s : state) : ctx :=
  {| cx_deadline := wl_now (ms_os s) + d; cx_cancellable := cancellable |}.
Definition read_clock (s : state) : result ClockObservation * state :=
  let '(o, w) := wl_clock (ms_os s) in (o, set_os w s).

(** *** The reaper *)

(** One line of [/proc/<pid>/stat]: is it an active member of the leader's group? *)
Definition group_member (leader : Z) (data : string) : result bool :=
  match after_last ")" data with
  | None => Err (Errorf "invalid process stat while verifying owned group" [])
  | Some t =>
      let f := fields t in
      match f !! 0%nat, f !! 2%nat with
      | Some st, Some g =>
          match parse_int 10 64 g with
          | None => Err (Errorf "strconv.Atoi" [g])
          | Some group => Ok ((group =? leader) && (st <>?s "Z") && (st <>?s "X"))
          end
      | _, _ => Err (Errorf "incomplete process stat while verifying owned group" [])
      end
  end.
Fixpoint scan_group (leader : Z) (names : list string) (w : W) : result bool * W :=
  match names with
  | [] => (Ok false, w)
  | name :: names =>
      match parse_int 10 64 name with
      | None => scan_group leader names w
      | Some p =>
          if p =? leader then scan_group leader names w else
          let '(data, w) := wl_stat w name in
          match data with
          | Err e => if err_is "os.ErrNotExist" e then scan_group leader names w
                     else (Err (Wrapf "inspect group membership: %w" [] e), w)
          | Ok data =>
              match group_member leader data with
              | Err e => (Err e, w)
              | Ok true => (Ok true, w)
              | Ok false => scan_group leader names w
              end
          end
      end
  end.
Definition activeGroupDescendants (leader : Z) (w : W) : result bool * W :=
  let '(entries, w) := wl_proc w in
  match entries with Err e => (Err e, w) | Ok names => scan_group leader names w end.

(** [syscall.Kill(-pid, signal)], where a vanished group is not an error. *)
Definition kill_group (h : nat) (pid : Z) (sig : signal) (s : state) : option error * state :=
  let '(e, w) := wl_kill_group (ms_os s) pid sig in
  (match e with Some e => if err_is "ESRCH" e then None else Some e | None => None end,
   note (GroupKill h sig) (set_os w s)).

Fixpoint kill_loop (fuel : nat) (deadline : Z) (h : nat) (leader : Z) (s : state) : option (option error * state) :=
  match fuel with
  | O => None
  | S fuel =>
      let '(e, s) := kill_group h leader SIGKILL s in
      match e with
      | Some e => Some (Some e, s)
      | None =>
          let '(active, w) := activeGroupDescendants leader (ms_os s) in
          let s := set_os w s in
          match active with
          | Err e => Some (Some e, s)
          | Ok false => Some (None, s)
          | Ok true =>
              if deadline <=? wl_now (ms_os s)
              then Some (Some (Errorf "owned group descendants did not stop before cleanup deadline" []), s)
              else kill_loop fuel deadline h leader (set_os (wl_sleep (ms_os s) (5 * millisecond)) s)
          end
      end
  end.
(** One second in rounds of five milliseconds. *)
Definition kill_rounds : nat := 201.
Definition killGroupAndWait (fuel : nat) (h : nat) (leader : Z) (s : state) : option (option error * state) :=
  kill_loop fuel (wl_now (ms_os s) + 1000 * millisecond) h leader s.

(** The goroutine of [startOwned] from the leader's exit to the end of [Wait], and the
    goroutines that copy output.  [Wait] returns after the copying is over, so nothing is
    captured once a process is done. *)
Definition background_step (fuel : nat) (e : background) (s : state) : option state :=
  match e with
  | Wrote h st data =>
      match ms_procs s !! h with
      | Some p => Some (if pr_done p then s else on_proc h (pr_write st data) s)
      | None => Some s
      end
  | LeaderExited h observed =>
      match ms_procs s !! h with
      | Some p =>
          if pr_reaping p then Some s else
          let! (cleanup, s) :=
            match observed with
            | None => killGroupAndWait fuel h (pr_pid p) s
            | Some e => Some (Some (Wrapf "observe owned leader before reap: %w" [] e),
                              set_os (wl_kill (ms_os s) (pr_pid p)) s)
            end in
          Some (note (ReapBegins h) (on_proc h (pr_reap cleanup) s))
      | None => Some s
      end
  | Waited h r code =>
      match ms_procs s !! h with
      | Some p => Some (if pr_reaping p && negb (pr_done p) then on_proc h (pr_finish r code) s else s)
      | None => Some s
      end
  end.
Fixpoint background_steps (fuel : nat) (es : list background) (s : state) : option state :=
  match es with
  | [] => Some s
  | e :: es => let! s := background_step fuel e s in background_steps fuel es s
  end.
Definition advance (fuel : nat) (s : state) : option state :=
  let '(es, w) := wl_background (ms_os s) in background_steps fuel es (set_os w s).

(** *** Select *)
Definition pick {A} (w : W) (l : list A) : option A := l !! (wl_pick w (List.length l) mod List.length l)%nat.
(** Wait until one of the cases [ready] lists can proceed. *)
Fixpoint await {A} (fuel rounds : nat) (ready : state → list A) (s : state) : option (A * state) :=
  match rounds with
  | O => None
  | S rounds =>
      let! s := advance fuel s in
      match pick (ms_os s) (ready s) with
      | Some a => Some (a, s)
      | None => await fuel rounds ready s
      end
  end.
(** A map in the order Go happens to walk it. *)
Fixpoint shuffle {A} (n : nat) (w : W) (l : list A) : list A :=
  match n with
  | O => l
  | S n => match pick w l with
           | None => l
           | Some x => let i := (wl_pick w (List.length l) mod List.length l)%nat in
                       x :: shuffle n w (take i l ++ drop (S i) l)
           end
  end.
Definition walk {V} (w : W) (m : gmap string V) : list (string * V) := shuffle (size m) w (map_to_list m).

(** *** Signals and termination *)
Definition signalGroup (h : nat) (sig : signal) (s : state) : option error * state :=
  match ms_procs s !! h with
  | None => (None, s)
  | Some p => if pr_reaping p then (None, s) else kill_group h (pr_pid p) sig s
  end.

(** The cases of the selects: a finished process yields its cleanup error. *)
Definition done_case (h : nat) (s : state) : list (option error) :=
  match ms_procs s !! h with
  | Some p => if pr_done p then [pr_cleanup p] else []
  | None => []
  end.
Definition timer_case (t : Z) (s : state) : list unit := if t <=? wl_now (ms_os s) then [tt] else [].
Definition ctx_case (c : ctx) (s : state) : list error :=
  match ctx_err c s with Some e => [e] | None => [] end.

(** After SIGTERM: [Some] when the process finished, [None] when it is time to kill. *)
Definition grace_ready (c : ctx) (timer : Z) (h : nat) (s : state) : list (option (option error)) :=
  map Some (done_case h s) ++ map (λ _, None) (timer_case timer s) ++ map (λ _, None) (ctx_case c s).
Definition reap_ready (c : ctx) (h : nat) (s : state) : list (option error) :=
  done_case h s ++ map (λ e, Some (Wrapf "workload reap: %w" [] e)) (ctx_case c s).
Definition terminate (fuel : nat) (c : ctx) (h : nat) (s : state) : option (option error * state) :=
  let! s := advance fuel s in
  match done_case h s with
  | e :: _ => Some (e, s)
  | [] =>
      let! s := advance fuel s in
      let '(e, s) := signalGroup h SIGTERM s in
      match e with Some e => Some (Some e, s) | None =>
      let timer := wl_now (ms_os s) + 250 * millisecond in
      let! (first, s) := await fuel fuel (grace_ready c timer h) s in
      match first with
      | Some e => Some (e, s)
      | None =>
          let! s := advance fuel s in
          let '(e, s) := signalGroup h SIGKILL s in
          match e with Some e => Some (Some e, s) | None => await fuel fuel (reap_ready c h) s end
      end end
  end.

(** *** Health *)
Definition service_alarm (id : string) (p : ownedProcess) : list error :=
  if pr_expected p then [] else
  (if bc_overflow (pr_out p) then [Errorf "service %s stdout quota exceeded" [id]] else []) ++
  (if bc_overflow (pr_stderr p) then [Errorf "service %s stderr quota exceeded" [id]] else []) ++
  (if pr_done p then [Errorf "service %s exited unexpectedly: %v" [id]] else []).
Fixpoint first_alarm (s : state) (l : list (string * nat)) : option error :=
  match l with
  | [] => None
  | (id, h) :: l =>
      match ms_procs s !! h with
      | Some p => match pick (ms_os s) (service_alarm id p) with Some e => Some e | None => first_alarm s l end
      | None => first_alarm s l
      end
  end.
Definition Health (s : state) : option error := first_alarm s (walk (ms_os s) (ms_services s)).
Definition Active (s : state) : Z := Z.of_nat (size (ms_services s)).

(** *** Launch *)
Variable m : Manager.
Definition environment (manifest : WorkloadManifest) : list string :=
  ["PATH=/usr/bin:/bin"; "HOME=" +:+ m_dir manifest; "TZ=UTC"; "LANG=C"]%string
  ++ map (λ k, k +:+ "=" +:+ default "" (assoc k (m_env manifest)))%string
         (merge_sort String.le (m_env manifest).*1).
Definition launch_spec (kind id input : string) : Launch :=
  {| ln_path := mg_executable m; ln_args := ["--workload-exec"; mg_path m; kind; id]%string;
     ln_dir := m_dir (mg_manifest m); ln_env := environment (mg_manifest m); ln_stdin := input;
     ln_uid := m_uid (mg_manifest m); ln_gid := m_gid (mg_manifest m); ln_groups := [];
     ln_setpgid := true; ln_pdeathsig := SIGKILL |}.
Definition launch (kind id input : string) (s : state) : result nat * state :=
  let '(opened, w) := wl_vsock (ms_os s) in
  match opened with
  | Some e => (Err e, set_os w s)
  | None =>
      let '(started, w) := wl_start w (launch_spec kind id input) in
      match started with
      | Err e => (Err (Wrapf "launch workload: %w" [] e), set_os w s)
      | Ok pid =>
          let h := fresh (dom (ms_procs s)) in
          (Ok h, {| ms_os := w; ms_procs := <[h := new_process pid]> (ms_procs s); ms_services := ms_services s;
                    ms_log := ms_log s ++ [Started h (launch_spec kind id input)] |})
      end
  end.

(** *** Actions *)
Definition result_of (exit : Z) (out stderr : string) (cut_out cut_err : bool) (before : ClockObservation) :
    ActionResult :=
  {| ar_exit := exit; ar_stdout_json := out; ar_stderr := stderr; ar_stdout_truncated := cut_out;
     ar_stderr_truncated := cut_err; ar_before := before; ar_after := zero_clock |}.
(** The deferred snapshots and the deferred clock reading overwrite their fields. *)
Definition set_output (p : ownedProcess) (r : ActionResult) : ActionResult :=
  {| ar_exit := ar_exit r; ar_stdout_json := ar_stdout_json r; ar_stderr := bc_data (pr_stderr p);
     ar_stdout_truncated := bc_overflow (pr_out p); ar_stderr_truncated := bc_overflow (pr_stderr p);
     ar_before := ar_before r; ar_after := ar_after r |}.
Definition set_action_after (o : ClockObservation) (r : ActionResult) : ActionResult :=
  {| ar_exit := ar_exit r; ar_stdout_json := ar_stdout_json r; ar_stderr := ar_stderr r;
     ar_stdout_truncated := ar_stdout_truncated r; ar_stderr_truncated := ar_stderr_truncated r;
     ar_before := ar_before r; ar_after := o |}.
Definition observed (o : result ClockObservation) : ClockObservation := match o with Ok o => o | Err _ => zero_clock end.

Inductive action_case := ADone | AStop (e : error) | ATick.
Definition quota_error (what : string) : error := ErrProtocol "output_quota" what "".
Definition action_ready (c : ctx) (h : nat) (tick : Z) (s : state) : list action_case :=
  map (λ _, ADone) (done_case h s) ++
  map (λ e, AStop (Wrapf "action deadline/cancellation: %w" [] e)) (ctx_case c s) ++
  match ms_procs s !! h with
  | None => []
  | Some p => (if bc_overflow (pr_out p) then [AStop (quota_error "action stdout exceeded 64 KiB")] else []) ++
              (if bc_overflow (pr_stderr p) then [AStop (quota_error "action stderr exceeded 64 KiB")] else [])
  end ++
  map (λ _, ATick) (timer_case tick s).
(** The next tick of a ticker of period [d] started at [t0]. *)
Definition next_tick (t0 d now : Z) : Z := t0 + d * ((now - t0) / d + 1).
(** The loop labelled [wait]: [None] when the process is done. *)
Fixpoint action_wait (fuel rounds : nat) (c : ctx) (h : nat) (t0 tick : Z) (s : state) :
    option (option error * state) :=
  match rounds with
  | O => None
  | S rounds =>
      let! (case, s) := await fuel fuel (action_ready c h tick) s in
      match case with
      | ADone => Some (None, s)
      | AStop e => Some (Some e, s)
      | ATick =>
          match Health s with
          | Some e => Some (Some e, s)
          | None => action_wait fuel rounds c h t0 (next_tick t0 (25 * millisecond) (wl_now (ms_os s))) s
          end
      end
  end.

(** What a finished action produced. *)
Definition action_outcome (before : ClockObservation) (p : ownedProcess) : ActionResult * option error :=
  let '(out, cut_out) := snapshot (pr_out p) in
  let '(stderr, cut_err) := snapshot (pr_stderr p) in
  let partial exit := result_of exit "" stderr cut_out cut_err before in
  if cut_out || cut_err then (partial 0, Some (quota_error "action output exceeded quota")) else
  match pr_err p with
  | WaitErr e => (partial 0, Some e)
  | _ =>
      let exit := pr_exit p in
      if exit <? 0
      then (partial exit, Some (Errorf "action terminated by signal instead of a normal process exit" []))
      else match JsonUtil.Decode dec_any JNull out with
           | Err e => (partial exit, Some (Wrapf "action required JSON output: %w" [] e))
           | Ok _ => (result_of exit (trim_space out) stderr cut_out cut_err before, None)
           end
  end.

Definition with_newline (input : string) : string :=
  ((if input =?s "" then "{}" else input) +:+ String newline "")%string.
(** From the launch to the deferred cleanup. *)
Definition action_process (fuel : nat) (c : ctx) (req : ActionRequest) (before : ClockObservation) (s : state) :
    option ((ActionResult * option error) * state) :=
  let blank := result_of 0 "" "" false false before in
  let '(launched, s) := launch "action" (aq_action req) (with_newline (aq_input req)) s in
  match launched with
  | Err e => Some ((blank, Some e), s)
  | Ok h =>
      let t0 := wl_now (ms_os s) in
      let! (stopped, s) := action_wait fuel fuel c h t0 (t0 + 25 * millisecond) s in
      let! p := ms_procs s !! h in
      let '(r, err) := match stopped with Some e => (blank, Some e) | None => action_outcome before p end in
      let! (cleanup, s) := terminate fuel (with_timeout false (3000 * millisecond) s) h s in
      let! p := ms_procs s !! h in
      Some ((set_output p r, join_errors [err; cleanup]), s)
  end.
Definition Action (fuel : nat) (c : ctx) (req : ActionRequest) (s : state) :
    option ((ActionResult * option error) * state) :=
  match assoc (aq_action req) (m_actions (mg_manifest m)) with
  | None => Some ((zero_action, Some (Errorf "undeclared action" [])), s)
  | Some _ =>
      let '(before, s) := read_clock s in
      match before with
      | Err e => Some ((zero_action, Some e), s)
      | Ok before =>
          let! ((r, err), s) := action_process fuel c req before s in
          let '(after, s) := read_clock s in
          Some ((set_action_after (observed after) r, join_errors [err; err_of after]), s)
      end
  end.

(** *** Services *)
Definition service_result (id : string) (running : bool) (before : ClockObservation) (out stderr : string) :
    ServiceResult :=
  {| sr_service := id; sr_running := running; sr_before := before; sr_after := zero_clock; sr_stdout := out;
     sr_stderr := stderr |}.
Definition set_service_after (o : ClockObservation) (r : ServiceResult) : ServiceResult :=
  {| sr_service := sr_service r; sr_running := sr_running r; sr_before := sr_before r; sr_after := o;
     sr_stdout := sr_stdout r; sr_stderr := sr_stderr r |}.
(** Both service operations read the clock first and, deferred, last. *)
Definition timed (id : string) (body : ClockObservation → state → option ((ServiceResult * option error) * state))
    (s : state) : option ((ServiceResult * option error) * state) :=
  let '(before, s) := read_clock s in
  match before with
  | Err e => Some ((service_result id false zero_clock "" "", Some e), s)
  | Ok before =>
      let! ((r, err), s) := body before s in
      let '(after, s) := read_clock s in
      Some ((set_service_after (observed after) r, join_errors [err; err_of after]), s)
  end.

(** Poll the readiness action until it exits with 0: [None] when the service is ready. *)
Fixpoint await_ready (fuel rounds : nat) (c : ctx) (readiness : string) (s : state) : option (option error * state) :=
  match rounds with
  | O => None
  | S rounds =>
      match Health s with Some e => Some (Some e, s) | None =>
      let! ((r, err), s) := Action fuel c {| aq_action := readiness; aq_input := ""; aq_timeout := 0 |} s in
      match err with
      | Some e => Some (Some (Wrapf "service readiness execution: %w" [] e), s)
      | None =>
          if ar_exit r =? 0 then Some (Health s, s) else
          let timer := wl_now (ms_os s) + 50 * millisecond in
          let! (case, s) := await fuel fuel (λ s, map Some (ctx_case c s) ++ map (λ _, None) (timer_case timer s)) s in
          match case with
          | Some e => Some (Some e, s)
          | None => await_ready fuel rounds c readiness s
          end
      end end
  end.
Definition start_body (fuel : nat) (c : ctx) (req : ServiceRequest) (before : ClockObservation) (s : state) :
    option ((ServiceResult * option error) * state) :=
  let id := sq_service req in
  let answer running := service_result id running before "" "" in
  match assoc id (m_services (mg_manifest m)) with
  | None => Some ((answer false, Some (Errorf "undeclared service" [])), s)
  | Some spec =>
      if bool_decide (is_Some (ms_services s !! id)) || (4 <=? Active s)
      then Some ((answer false, Some (Errorf "service already started or service limit reached" [])), s) else
      let '(launched, s) := launch "service" id (with_newline (sq_input req)) s in
      match launched with
      | Err e => Some ((answer false, Some e), s)
      | Ok h =>
          let s := on_services (λ ms, <[id := h]> ms) s in
          let! (failed, s) := await_ready fuel fuel c (sv_readiness spec) s in
          Some ((answer (match failed with None => true | Some _ => false end), failed), s)
      end
  end.
Definition Start (fuel : nat) (c : ctx) (req : ServiceRequest) : state → option ((ServiceResult * option error) * state) :=
  timed (sq_service req) (start_body fuel c req).

Definition stop_body (fuel : nat) (c : ctx) (req : ServiceRequest) (before : ClockObservation) (s : state) :
    option ((ServiceResult * option error) * state) :=
  let id := sq_service req in
  let answer := service_result id false before in
  let! s := advance fuel s in
  match ms_services s !! id with
  | None => Some ((answer "" "", Some (Errorf "service is not running" [])), s)
  | Some h =>
      match done_case h s with
      | _ :: _ => Some ((answer "" "", Some (Errorf "service exited before explicit stop" [])), s)
      | [] =>
          let! (err, s) := terminate fuel c h (on_proc h pr_expect s) in
          match err with
          | Some e => Some ((answer "" "", Some e), s)
          | None =>
              let s := on_services (delete id) s in
              let! p := ms_procs s !! h in
              let '(out, cut_out) := snapshot (pr_out p) in
              let '(stderr, cut_err) := snapshot (pr_stderr p) in
              if cut_out || cut_err
              then Some ((answer "" "", Some (Errorf "service output quota exceeded" [])), s)
              else Some ((answer out stderr, None), s)
          end
      end
  end%string.
Definition Stop (fuel : nat) (c : ctx) (req : ServiceRequest) : state → option ((ServiceResult * option error) * state) :=
  timed (sq_service req) (stop_body fuel c req).

Fixpoint stop_each (fuel : nat) (c : ctx) (l : list (string * nat)) (all : option error) (s : state) :
    option (option error * state) :=
  match l with
  | [] => Some (all, s)
  | (id, h) :: l =>
      let! (err, s) := terminate fuel c h s in
      match err with
      | Some e => stop_each fuel c l (join_errors [all; Some e]) s
      | None =>
          let s := on_services (delete id) s in
          let! p := ms_procs s !! h in
          let all := if bc_overflow (pr_out p) || bc_overflow (pr_stderr p)
                     then join_errors [all; Some (Errorf "service %s output quota exceeded" [id])] else all in
          stop_each fuel c l all s
      end
  end.
Definition expect_all (s : state) : state :=
  map_fold (λ _ h s, on_proc h pr_expect s) s (ms_services s).
Definition StopAll (fuel : nat) (c : ctx) (s : state) : option (option error * state) :=
  stop_each fuel c (walk (ms_os s) (ms_services s)) None (expect_all s).
End manager.
