(* ===== verification/GuestManagerFacts.v ===== *)
(** * GuestManagerFacts: what the process manager guarantees

    Every operation of [GuestManager] is a sequence of elementary steps on the shared
    store; invariants are proved once per elementary step.  Then: no signal after
    reaping, bounded output, at most four declared services, what a successful action
    means, what stopping a service means, and that stopping always returns. *)

From S2P Require Import Prelude GoLib Json JsonFacts GoTime GoText JsonUtil JsonText Protocol ProtocolFacts Firecracker GuestManager.
From Stdlib Require Import Ascii String.

(** ** Captured output *)
Definition capture_ok (b : boundedCapture) : Prop :=
  blen (bc_data b) ≤ MaxOutput ∧ (bc_overflow b = true → blen (bc_data b) = MaxOutput).

Lemma take_app n a b : string_take n (a +:+ b) = (string_take n a +:+ string_take (n - String.length a) b)%string.
Proof. revert n. induction a as [|c a IH]; intros n; destruct n; cbn; rewrite ?IH; done. Qed.

Lemma capture_write_ok b p : capture_ok b → capture_ok (capture_write b p).2.
Proof.
  unfold capture_ok, capture_write. intros [Hb Ho]. pose proof (blen_nonneg (bc_data b)).
  destruct (_ <? _) eqn:E; cbn; rewrite blen_app; to_prop.
  - assert (blen (string_take (Z.to_nat (MaxOutput - blen (bc_data b))) p) = MaxOutput - blen (bc_data b)) as ->;
      [|lia]. unfold blen in *. rewrite take_length; lia.
  - pose proof (blen_nonneg p). split; [lia|]. intros Hv%Ho. lia.
Qed.

Definition captured (ps : list string) : boundedCapture :=
  foldl (λ b p, (capture_write b p).2) newCapture ps.
Definition joined (ps : list string) : string := foldr String.append ""%string ps.
Lemma joined_snoc ps p : joined (ps ++ [p]) = (joined ps +:+ p)%string.
Proof.
  induction ps as [|q ps IH]; cbn; [by rewrite sapp_nil_r|]. fold (joined (ps ++ [p])). rewrite IH.
  by rewrite sapp_assoc.
Qed.

Lemma captured_snoc ps p : captured (ps ++ [p]) = (capture_write (captured ps) p).2.
Proof. unfold captured. by rewrite foldl_snoc. Qed.
Lemma MaxOutput_pos : 0 < MaxOutput.
Proof. done. Qed.
Lemma captured_spec ps :
  bc_data (captured ps) = string_take (Z.to_nat MaxOutput) (joined ps) ∧
  bc_overflow (captured ps) = (MaxOutput <? blen (joined ps)).
Proof.
  pose proof MaxOutput_pos as HM. induction ps as [|p ps [IHd IHo]] using rev_ind; [done|].
  rewrite captured_snoc, joined_snoc, take_app, blen_app. unfold capture_write.
  rewrite IHd, blen_take, IHo. pose proof (blen_nonneg (joined ps)). pose proof (blen_nonneg p).
  assert (Hn : (Z.to_nat MaxOutput - String.length (joined ps))%nat
               = Z.to_nat (MaxOutput - Z.min (Z.of_nat (Z.to_nat MaxOutput)) (blen (joined ps)))) by (unfold blen in *; lia).
  rewrite Hn. destruct (MaxOutput - _ <? blen p) eqn:E; cbn [snd bc_data bc_overflow]; to_prop.
  - split; [done|]. symmetry. apply Z.ltb_lt. lia.
  - split; [by rewrite (string_take_all _ p) by (unfold blen in *; lia)|].
    apply eq_iff_eq_true. rewrite !Z.ltb_lt. lia.
Qed.

(** A capture keeps exactly the first 64 KiB of everything written to it, whatever
    the sizes of the writes, every write reports its full length, and the overflow flag
    (the closed quota channel) says exactly whether something was dropped. *)
Theorem capture_exact ps p :
  bc_data (captured ps) = string_take (Z.to_nat MaxOutput) (joined ps) ∧
  (bc_overflow (captured ps) = true ↔ MaxOutput < blen (joined ps)) ∧
  (capture_write (captured ps) p).1 = blen p.
Proof.
  destruct (captured_spec ps) as [Hd Ho]. rewrite Hd, Ho, Z.ltb_lt. split; [reflexivity|split; [reflexivity|]].
  unfold capture_write. cbv zeta. by case_match.
Qed.

(** ** Elementary steps *)
Definition proc_ok (p : ownedProcess) : Prop :=
  capture_ok (pr_out p) ∧ capture_ok (pr_stderr p) ∧ (pr_done p = true → pr_reaping p = true).

Section steps.
Context {W : Type} `{Workloads W} (m : Manager).
Abbreviation state := (mstate W).

(** Steps that leave the services map alone. *)
Inductive proc_step : state → state → Prop :=
| step_os s w : proc_step s (set_os w s)
| step_write s h p st data : ms_procs s !! h = Some p → pr_done p = false → proc_step s (on_proc h (pr_write st data) s)
| step_expect s h : proc_step s (on_proc h pr_expect s)
| step_finish s h p r code : ms_procs s !! h = Some p → pr_reaping p = true → pr_done p = false →
    proc_step s (on_proc h (pr_finish r code) s)
| step_reap s h p e : ms_procs s !! h = Some p → pr_reaping p = false →
    proc_step s (note (ReapBegins h) (on_proc h (pr_reap e) s))
| step_kill s h p sig : ms_procs s !! h = Some p → pr_reaping p = false → proc_step s (note (GroupKill h sig) s)
| step_launch s h pid l : ms_procs s !! h = None →
    proc_step s {| ms_os := ms_os s; ms_procs := <[h := new_process pid]> (ms_procs s); ms_services := ms_services s;
                   ms_log := ms_log s ++ [Started h l] |}.
Inductive step : state → state → Prop :=
| step_proc s s' : proc_step s s' → step s s'
| step_register s id h : id ∈ (m_services (mg_manifest m)).*1 → ms_services s !! id = None →
    (size (ms_services s) < 4)%nat → is_Some (ms_procs s !! h) → (∀ id', ms_services s !! id' ≠ Some h) →
    step s (on_services (λ ms, <[id := h]> ms) s)
| step_unregister s id h p : ms_services s !! id = Some h → ms_procs s !! h = Some p → pr_done p = true →
    pr_cleanup p = None → step s (on_services (delete id) s).

(** ** The invariant *)
Definition silent_after_reap (log : list group_event) : Prop :=
  ∀ pre h post sig, log = pre ++ ReapBegins h :: post → GroupKill h sig ∉ post.
Record mgr_wf (s : state) : Prop := {
  wf_procs : map_Forall (λ _ p, proc_ok p) (ms_procs s);
  wf_reaped : ∀ h, ReapBegins h ∈ ms_log s → ∃ p, ms_procs s !! h = Some p ∧ pr_reaping p = true;
  wf_silent : silent_after_reap (ms_log s);
  wf_limit : (size (ms_services s) ≤ 4)%nat;
  wf_owned : ∀ id h, ms_services s !! id = Some h → is_Some (ms_procs s !! h) ∧ id ∈ (m_services (mg_manifest m)).*1;
  wf_distinct : ∀ id id' h, ms_services s !! id = Some h → ms_services s !! id' = Some h → id = id'
}.

(** How a process may change: it stays the same process, never comes back from being
    reaped, and is frozen once done. *)
Definition frozen (p p' : ownedProcess) : Prop :=
  pr_done p' = true ∧ pr_out p' = pr_out p ∧ pr_stderr p' = pr_stderr p ∧ pr_err p' = pr_err p ∧
  pr_exit p' = pr_exit p ∧ pr_cleanup p' = pr_cleanup p.
Definition evolves (p p' : ownedProcess) : Prop :=
  pr_pid p' = pr_pid p ∧ (pr_reaping p = true → pr_reaping p' = true) ∧ (pr_done p = true → frozen p p').
Definition kept (s s' : state) : Prop :=
  (∀ h p, ms_procs s !! h = Some p → ∃ p', ms_procs s' !! h = Some p' ∧ evolves p p') ∧
  ms_log s `prefix_of` ms_log s'.

#[export] Instance evolves_preorder : PreOrder evolves.
Proof.
  split; [by intros p; repeat split|]. intros p q r (H1 & H2 & H3) (K1 & K2 & K3). split; [congruence|].
  split; [auto|]. intros Hd. destruct (H3 Hd) as (? & ? & ? & ? & ? & ?).
  destruct (K3 ltac:(done)) as (? & ? & ? & ? & ? & ?). repeat split; congruence.
Qed.
#[export] Instance kept_preorder : PreOrder kept.
Proof.
  split.
  - intros s. split; [|done]. intros h p Hp. exists p. by split.
  - intros s t u [H1 H2] [K1 K2]. split; [|by trans (ms_log t)]. intros h p Hp.
    destruct (H1 _ _ Hp) as (q & Hq & Hpq). destruct (K1 _ _ Hq) as (r & Hr & Hqr). exists r. split; [done|by trans q].
Qed.

(** *** Preservation *)
Lemma on_proc_lookup (s : state) h f h' p' : ms_procs (on_proc h f s) !! h' = Some p' →
  ∃ p, ms_procs s !! h' = Some p ∧ p' = (if decide (h = h') then f p else p).
Proof.
  cbn. destruct (decide (h = h')) as [<-|Hne]; [rewrite lookup_alter_eq; intros (p & ? & ?)%fmap_Some; eauto|].
  rewrite lookup_alter_ne by done. eauto.
Qed.
Lemma lookup_on_proc (s : state) h f h' p : ms_procs s !! h' = Some p →
  ms_procs (on_proc h f s) !! h' = Some (if decide (h = h') then f p else p).
Proof.
  cbn. intros Hp. destruct (decide (h = h')) as [<-|Hne]; [by rewrite lookup_alter_eq, Hp|].
  by rewrite lookup_alter_ne.
Qed.

Definition harmless (s : state) (h : nat) (f : ownedProcess → ownedProcess) : Prop :=
  ∀ p, ms_procs s !! h = Some p → proc_ok p → proc_ok (f p) ∧ evolves p (f p).
Ltac evolve := unfold proc_ok, evolves, frozen; cbn; intuition (auto using capture_write_ok; congruence).
Lemma harmless_expect s h : harmless s h pr_expect.
Proof. intros p _ (H1 & H2 & H3). evolve. Qed.
Lemma harmless_write s h p st data : ms_procs s !! h = Some p → pr_done p = false → harmless s h (pr_write st data).
Proof.
  intros Hp Hd p' Hp' (H1 & H2 & H3). assert (p' = p) as -> by congruence.
  destruct st; evolve.
Qed.
Lemma harmless_finish s h p r code : ms_procs s !! h = Some p → pr_reaping p = true → pr_done p = false →
  harmless s h (pr_finish r code).
Proof.
  intros Hp Hr Hd p' Hp' (H1 & H2 & H3). assert (p' = p) as -> by congruence.
  evolve.
Qed.
Lemma harmless_reap s h p e : ms_procs s !! h = Some p → pr_reaping p = false → harmless s h (pr_reap e).
Proof.
  intros Hp Hr p' Hp' (H1 & H2 & H3). assert (p' = p) as -> by congruence.
  assert (pr_done p = false) by (destruct (pr_done p); [specialize (H3 eq_refl); congruence|done]).
  evolve.
Qed.

Lemma on_proc_wf s h f : harmless s h f → mgr_wf s → mgr_wf (on_proc h f s).
Proof.
  intros Hf [Hp Hr Hs Hl Ho Hd]. split; cbn; try done.
  - intros h' p' Hl'. destruct (on_proc_lookup _ _ _ _ _ Hl') as (p & Hp' & ->). specialize (Hp _ _ Hp').
    destruct (decide (h = h')) as [<-|]; [by apply Hf|done].
  - intros h' (p & Hp' & Hrp)%Hr. eexists. split; [by apply lookup_on_proc|].
    destruct (decide (h = h')) as [<-|]; [|done]. by apply (Hf p Hp' (Hp _ _ Hp')).
  - intros id h' [[p Hp'] ?]%Ho. split; [|done]. eexists. by apply lookup_on_proc.
Qed.
Lemma on_proc_kept s h f : harmless s h f → map_Forall (λ _ p, proc_ok p) (ms_procs s) → kept s (on_proc h f s).
Proof.
  intros Hf Hp. split; [|done]. intros h' p Hp'. eexists. split; [by apply lookup_on_proc|].
  destruct (decide (h = h')) as [<-|]; [|done]. by apply (Hf p Hp' (Hp _ _ Hp')).
Qed.

Lemma silent_snoc log e : silent_after_reap log →
  (∀ h sig, e = GroupKill h sig → ReapBegins h ∉ log) → silent_after_reap (log ++ [e]).
Proof.
  intros Hl He pre h post sig Heq Hin. destruct post as [|x post _] using rev_ind; [by apply not_elem_of_nil in Hin|].
  rewrite app_comm_cons, app_assoc in Heq. apply app_inj_tail in Heq as [-> <-].
  apply elem_of_app in Hin as [Hin|Hin]; [by eapply Hl|]. apply list_elem_of_singleton in Hin as <-.
  eapply He; [done|]. set_solver.
Qed.
Lemma note_wf s e : mgr_wf s → (∀ h, e = ReapBegins h → ∃ p, ms_procs s !! h = Some p ∧ pr_reaping p = true) →
  (∀ h sig, e = GroupKill h sig → ∃ p, ms_procs s !! h = Some p ∧ pr_reaping p = false) → mgr_wf (note e s).
Proof.
  intros [Hp Hr Hs Hl Ho Hd] Hreap Hkill. split; cbn; try done.
  - intros h [Hin|Hin%list_elem_of_singleton]%elem_of_app; [by apply Hr|by apply Hreap].
  - apply silent_snoc; [done|]. intros h sig ->. destruct (Hkill _ _ eq_refl) as (p & Hp' & Hf).
    intros (q & Hq & Ht)%Hr. congruence.
Qed.
Lemma insert_wf s h pid : ms_procs s !! h = None → mgr_wf s →
  mgr_wf {| ms_os := ms_os s; ms_procs := <[h := new_process pid]> (ms_procs s); ms_services := ms_services s;
            ms_log := ms_log s |}.
Proof.
  intros Hn [Hp Hr Hs Hl Ho Hd].
  assert (Hext : ∀ h' p, ms_procs s !! h' = Some p → <[h := new_process pid]> (ms_procs s) !! h' = Some p).
  { intros h' p Hp'. rewrite lookup_insert_ne; [done|]. congruence. }
  split; cbn; try done.
  - apply map_Forall_insert_2; [|done]. repeat split; done.
  - intros h' (p & Hp' & ?)%Hr. eauto.
  - intros id h' [[p Hp'] ?]%Ho. split; [|done]. eauto.
Qed.

Lemma proc_step_wf s s' : proc_step s s' → mgr_wf s → mgr_wf s'.
Proof.
  intros Hstep Hw. destruct Hstep as [s w|s h p st data ??|s h|s h p r code ???|s h p e Hp Hr|s h p sig ??|s h pid l ?].
  - by destruct Hw; split.
  - eapply on_proc_wf; eauto using harmless_write.
  - eapply on_proc_wf; eauto using harmless_expect.
  - eapply on_proc_wf; eauto using harmless_finish.
  - apply note_wf; [eapply on_proc_wf; eauto using harmless_reap| |done]. intros h' [= <-].
    exists (pr_reap e p). split; [|done]. rewrite (lookup_on_proc _ _ _ _ _ Hp). by rewrite decide_True.
  - apply note_wf; [done..|]. intros h' sig' [= <- <-]. eauto.
  - pose proof (insert_wf _ h pid ltac:(done) Hw) as Hi. apply (note_wf _ (Started h l) Hi); done.
Qed.
Lemma proc_step_kept s s' : proc_step s s' → mgr_wf s → kept s s'.
Proof.
  intros Hstep [Hp _ _ _ _ _].
  destruct Hstep as [s w|s h p st data ??|s h|s h p r code ???|s h p e ? Hr|s h p sig ??|s h pid l Hn].
  - split; [|done]. intros h p Hh. exists p. by split.
  - eapply on_proc_kept; eauto using harmless_write.
  - eapply on_proc_kept; eauto using harmless_expect.
  - eapply on_proc_kept; eauto using harmless_finish.
  - trans (on_proc h (pr_reap e) s); [eapply on_proc_kept; eauto using harmless_reap|].
    split; [|cbn; by apply prefix_app_r]. intros h' p' Hp'. exists p'. by split.
  - split; [|cbn; by apply prefix_app_r]. intros h' p' Hp'. exists p'. by split.
  - split; [|cbn; by apply prefix_app_r]. intros h' p' Hp'. exists p'. split; [|done]. cbn.
    rewrite lookup_insert_ne; congruence.
Qed.
Lemma proc_step_services s s' : proc_step s s' → ms_services s' = ms_services s.
Proof. by destruct 1. Qed.

Lemma step_wf s s' : step s s' → mgr_wf s → mgr_wf s'.
Proof.
  intros [s1 s2 Hs|s1 id h Hd Hn Hsz Hp Hx|s1 id h p Hs Hp Hd Hc] Hw; [by eapply proc_step_wf|..];
    destruct Hw as [Wp Wr Ws Wl Wo Wd]; split; cbn; try done.
  - rewrite map_size_insert_None by done. lia.
  - intros id' h' [[<- <-]|[? ?]]%lookup_insert_Some; [done|by apply Wo].
  - intros i j h' [[<- <-]|[? ?]]%lookup_insert_Some [[<- ?]|[? ?]]%lookup_insert_Some; try done;
      [by destruct (Hx j)|subst h'; by destruct (Hx i)|eapply Wd; eassumption].
  - pose proof (map_size_delete_Some id (ms_services s1) ltac:(by eexists)). lia.
  - intros id' h' [? ?]%lookup_delete_Some. by apply Wo.
  - intros i j h' [? ?]%lookup_delete_Some [? ?]%lookup_delete_Some. eapply Wd; eassumption.
Qed.

(** ** Operations are sequences of steps *)
Abbreviation psteps := (rtc proc_step).
Lemma psteps_wf s s' : psteps s s' → mgr_wf s → mgr_wf s'.
Proof. induction 1; eauto using proc_step_wf. Qed.
Lemma psteps_kept s s' : psteps s s' → mgr_wf s → kept s s'.
Proof. induction 1; [done|]. intros Hw. etrans; [by eapply proc_step_kept|]. eauto using proc_step_wf. Qed.
Lemma psteps_services s s' : psteps s s' → ms_services s' = ms_services s.
Proof. induction 1 as [|s1 s2 s3 Hs _ IH]; [done|]. rewrite IH. by apply proc_step_services. Qed.
Lemma steps_wf s s' : rtc step s s' → mgr_wf s → mgr_wf s'.
Proof. induction 1; eauto using step_wf. Qed.
Lemma psteps_steps s s' : psteps s s' → rtc step s s'.
Proof. induction 1; [done|]. eapply rtc_l; [by apply step_proc|done]. Qed.

Lemma kill_group_psteps s h p sig e s' : ms_procs s !! h = Some p → pr_reaping p = false →
  kill_group h (pr_pid p) sig s = (e, s') → psteps s s' ∧ ms_procs s' = ms_procs s.
Proof.
  intros Hp Hr. unfold kill_group. destruct (wl_kill_group _ _ _) as [x w]. intros Hk.
  apply pair_equal_spec in Hk as [_ <-]. split; [|done].
  eapply rtc_l; [apply (step_os s w)|]. apply rtc_once. by eapply step_kill.
Qed.
Lemma kill_loop_psteps fuel deadline s h p e s' : ms_procs s !! h = Some p → pr_reaping p = false →
  kill_loop fuel deadline h (pr_pid p) s = Some (e, s') → psteps s s' ∧ ms_procs s' = ms_procs s.
Proof.
  revert s. induction fuel as [|fuel IH]; intros s Hp Hr; cbn [kill_loop]; [done|].
  destruct (kill_group h (pr_pid p) SIGKILL s) as [x s1] eqn:Ek.
  destruct (kill_group_psteps _ _ _ _ _ _ Hp Hr Ek) as [H1 Hp1].
  destruct x as [x|]; [intros [= _ <-]; done|]. destruct (activeGroupDescendants _ _) as [a w]. cbv zeta.
  assert (H2 : psteps s (set_os w s1)) by (eapply rtc_r; [done|apply step_os]).
  destruct a as [[]|x]; [|intros [= _ <-]; done..]. destruct (_ <=? _); [intros [= _ <-]; done|].
  intros Hk. apply IH in Hk as [H3 Hp3]; [|by cbn; rewrite Hp1|done]. cbn in Hp3. split; [|congruence].
  etrans; [exact H2|]. eapply rtc_l; [apply step_os|exact H3].
Qed.
Lemma background_step_psteps fuel e s s' : background_step fuel e s = Some s' → psteps s s'.
Proof.
  destruct e as [h st data|h ob|h r code]; cbn [background_step]; (destruct (ms_procs s !! h) as [p|] eqn:Hp; [|by intros [= <-]]).
  - destruct (pr_done p) eqn:Ed; intros [= <-]; [done|]. apply rtc_once. by eapply step_write.
  - destruct (pr_reaping p) eqn:Er; [by intros [= <-]|].
    destruct (match ob with None => _ | Some e => _ end) as [[cleanup s1]|] eqn:Eb; [|done]. intros [= <-].
    assert (H1 : psteps s s1 ∧ ms_procs s1 = ms_procs s).
    { destruct ob as [x|]; [injection Eb as _ <-; split; [apply rtc_once, step_os|done]|by eapply kill_loop_psteps]. }
    destruct H1 as [H1 Hp1]. eapply rtc_r; [exact H1|]. eapply step_reap; [by rewrite Hp1|done].
  - destruct (pr_reaping p && negb (pr_done p)) eqn:Er; intros [= <-]; [|done]. to_prop. apply rtc_once.
    by eapply step_finish.
Qed.
Lemma background_steps_psteps fuel es s s' : background_steps fuel es s = Some s' → psteps s s'.
Proof.
  revert s. induction es as [|e es IH]; intros s; cbn; [by intros [= <-]|].
  destruct (background_step fuel e s) as [s1|] eqn:E; [|done]. intros Hb. etrans; [by eapply background_step_psteps|auto].
Qed.
Lemma advance_psteps fuel s s' : advance fuel s = Some s' → psteps s s'.
Proof.
  unfold advance. destruct (wl_background _) as [es w]. intros Hb%background_steps_psteps.
  eapply rtc_l; [apply (step_os s w)|done].
Qed.
Lemma pick_elem {A} (w : W) (l : list A) x : pick w l = Some x → x ∈ l.
Proof. apply list_elem_of_lookup_2. Qed.
Lemma await_psteps {A} fuel rounds (ready : state → list A) s a s' :
  await fuel rounds ready s = Some (a, s') → psteps s s' ∧ a ∈ ready s'.
Proof.
  revert s. induction rounds as [|rounds IH]; intros s; cbn [await]; [done|].
  destruct (advance fuel s) as [s1|] eqn:Ea; [|done]. apply advance_psteps in Ea.
  destruct (pick _ _) as [x|] eqn:Ep; [intros [= <- <-]; split; [done|by apply pick_elem in Ep]|].
  intros [Hs Ha]%IH. split; [by etrans|done].
Qed.
Lemma signalGroup_psteps h sig s e s' : signalGroup h sig s = (e, s') → psteps s s'.
Proof.
  unfold signalGroup. destruct (ms_procs s !! h) as [p|] eqn:Hp; [|by intros [= _ <-]].
  destruct (pr_reaping p) eqn:Hr; [by intros [= _ <-]|]. by intros [? _]%(kill_group_psteps _ _ p).
Qed.

Definition is_done (h : nat) (cleanup : option error) (s : state) : Prop :=
  ∃ p, ms_procs s !! h = Some p ∧ pr_done p = true ∧ pr_cleanup p = cleanup.
Lemma done_case_elem h s e : e ∈ done_case h s → is_done h e s.
Proof.
  unfold done_case. destruct (ms_procs s !! h) as [p|] eqn:Hp; [|by intros ?%elem_of_nil].
  destruct (pr_done p) eqn:Hd; [|by intros ?%elem_of_nil]. intros ->%list_elem_of_singleton. by exists p.
Qed.
Lemma terminate_psteps fuel c h s e s' : terminate fuel c h s = Some (e, s') → psteps s s' ∧ (e = None → is_done h None s').
Proof.
  unfold terminate. destruct (advance fuel s) as [s1|] eqn:E1; [|done]. apply advance_psteps in E1.
  destruct (done_case h s1) as [|x l] eqn:Ed.
  2:{ intros [= <- <-]. split; [done|]. intros ->. apply done_case_elem. rewrite Ed. left. }
  destruct (advance fuel s1) as [s2|] eqn:E2; [|done]. apply advance_psteps in E2.
  destruct (signalGroup h SIGTERM s2) as [x s3] eqn:E3. apply signalGroup_psteps in E3.
  assert (H3 : psteps s s3) by (etrans; [|etrans]; eassumption).
  destruct x as [x|]; [intros [= <- <-]; by split|]. cbv zeta.
  destruct (await _ _ _ s3) as [[first s4]|] eqn:E4; [|done]. apply await_psteps in E4 as [E4 Hf].
  assert (H4 : psteps s s4) by by etrans.
  destruct first as [x|].
  { intros [= <- <-]. split; [done|]. intros ->. apply done_case_elem.
    apply elem_of_app in Hf as [(y & [= ->] & ?)%list_elem_of_fmap|[(? & ? & _)%list_elem_of_fmap|(? & ? & _)%list_elem_of_fmap]%elem_of_app];
      done. }
  destruct (advance fuel s4) as [s5|] eqn:E5; [|done]. apply advance_psteps in E5.
  destruct (signalGroup h SIGKILL s5) as [x s6] eqn:E6. apply signalGroup_psteps in E6.
  assert (H6 : psteps s s6) by (etrans; [|etrans]; eassumption).
  destruct x as [x|]; [intros [= <- <-]; by split|]. intros [E7 Hl]%await_psteps. split; [by etrans|]. intros ->.
  apply done_case_elem. apply elem_of_app in Hl as [?|(? & ? & _)%list_elem_of_fmap]; done.
Qed.

Lemma launch_psteps kind id input s r s' : launch m kind id input s = (r, s') →
  psteps s s' ∧ ∀ h, r = Ok h → ms_procs s !! h = None ∧ (∃ pid, ms_procs s' !! h = Some (new_process pid)) ∧
                                ms_log s' = ms_log s ++ [Started h (launch_spec m kind id input)].
Proof.
  unfold launch. destruct (wl_vsock _) as [[e|] w].
  { intros [= <- <-]. split; [apply rtc_once, step_os|done]. }
  destruct (wl_start w _) as [[pid|e] w1].
  2:{ intros [= <- <-]. split; [apply rtc_once, step_os|done]. }
  pose proof (is_fresh (dom (ms_procs s))) as Hf%not_elem_of_dom. intros Hl. apply pair_equal_spec in Hl as [<- <-].
  split.
  - eapply rtc_l; [apply (step_os s w1)|]. apply rtc_once. by apply (step_launch (set_os w1 s)).
  - intros h [= <-]. split; [done|]. split; [|done]. exists pid. cbn. by rewrite lookup_insert_eq.
Qed.
Lemma read_clock_psteps s o s' : read_clock s = (o, s') → psteps s s'.
Proof. unfold read_clock. destruct (wl_clock _) as [x w]. intros [= _ <-]. apply rtc_once, step_os. Qed.

Lemma action_wait_psteps fuel rounds c h t0 tick s e s' : action_wait fuel rounds c h t0 tick s = Some (e, s') →
  psteps s s' ∧ (e = None → ∃ cleanup, is_done h cleanup s').
Proof.
  revert tick s. induction rounds as [|rounds IH]; intros tick s; cbn [action_wait]; [done|].
  destruct (await _ _ _ s) as [[case s1]|] eqn:E1; [|done]. apply await_psteps in E1 as [H1 Hc].
  destruct case as [|x|].
  - intros [= <- <-]. split; [done|]. intros _. apply elem_of_app in Hc as [(x & _ & Hx)%list_elem_of_fmap|Hc].
    { exists x. by apply done_case_elem. }
    exfalso. destruct (ms_procs s1 !! h); repeat (apply elem_of_app in Hc as [Hc|Hc]); repeat case_match;
      try (apply list_elem_of_fmap in Hc as (? & ? & _)); set_solver.
  - intros [= <- <-]. by split.
  - destruct (Health s1); [intros [= <- <-]; by split|]. intros [H2 Hd]%IH. split; [by etrans|done].
Qed.

(** A successful action: the process of this request is over and cleaned up, and the
    result is its complete output. *)
Definition action_done (req : ActionRequest) (r : ActionResult) (s s' : state) : Prop :=
  ∃ h p v, ms_procs s !! h = None ∧
    Started h (launch_spec m "action" (aq_action req) (with_newline (aq_input req))) ∈ ms_log s' ∧
    ms_procs s' !! h = Some p ∧ pr_done p = true ∧ pr_cleanup p = None ∧
    ar_exit r = pr_exit p ∧ 0 ≤ ar_exit r ∧
    JsonUtil.Decode dec_any JNull (bc_data (pr_out p)) = Ok v ∧ ar_stdout_json r = trim_space (bc_data (pr_out p)) ∧
    ar_stderr r = bc_data (pr_stderr p) ∧ ar_stdout_truncated r = false ∧ ar_stderr_truncated r = false.
Lemma action_outcome_ok before p r : action_outcome before p = (r, None) →
  bc_overflow (pr_out p) = false ∧ bc_overflow (pr_stderr p) = false ∧ ar_exit r = pr_exit p ∧ 0 ≤ ar_exit r ∧
  ar_stdout_json r = trim_space (bc_data (pr_out p)) ∧ ∃ v, JsonUtil.Decode dec_any JNull (bc_data (pr_out p)) = Ok v.
Proof.
  unfold action_outcome. cbn [snapshot]. destruct (bc_overflow (pr_out p)) eqn:Eo; [done|].
  destruct (bc_overflow (pr_stderr p)) eqn:Ee; [done|]. cbn [orb].
  destruct (pr_err p); [| |done]; (destruct (pr_exit p <? 0) eqn:Ex; [done|]);
    (destruct (JsonUtil.Decode _ _ _) as [v|e]; [|done]); intros [= <-]; to_prop; cbn; eauto 10.
Qed.
Lemma action_process_psteps fuel c req before s r err s' :
  action_process m fuel c req before s = Some ((r, err), s') → psteps s s' ∧ (err = None → mgr_wf s → action_done req r s s').
Proof.
  unfold action_process. cbv zeta. destruct (launch _ _ _ _ s) as [l s1] eqn:El. apply launch_psteps in El as [H1 Hl].
  destruct l as [h|e]; [|intros [= <- <- <-]; by split].
  destruct (Hl h eq_refl) as (Hn & (pid & Hh) & Hlog).
  destruct (action_wait _ _ _ _ _ _ s1) as [[stopped s2]|] eqn:Ew; [|done]. apply action_wait_psteps in Ew as [H2 Hd].
  destruct (ms_procs s2 !! h) as [p2|] eqn:Hp2; [|done].
  destruct (match stopped with Some e => _ | None => _ end) as [r2 e2] eqn:Eo.
  destruct (terminate _ _ _ s2) as [[cleanup s3]|] eqn:Et; [|done]. apply terminate_psteps in Et as [H3 Hc].
  destruct (ms_procs s3 !! h) as [p3|] eqn:Hp3; [|done]. intros [= <- <- <-]. assert (H02 : psteps s s2) by by etrans.
  split; [by etrans|]. intros [-> [-> _]%Forall_cons]%join_errors_none%Forall_cons Hw.
  destruct stopped as [x|]; [done|]. destruct (Hd eq_refl) as (cl & q & Hq & Hdq & _).
  assert (q = p2) as -> by congruence. destruct (action_outcome_ok _ _ _ Eo) as (O1 & O2 & O3 & O4 & O5 & v & O6).
  destruct (psteps_kept s2 s3 H3 ltac:(by eapply psteps_wf)) as [Hk Hpre].
  destruct (Hk _ _ Hp2) as (p' & Hp' & _ & _ & Hfr). assert (p' = p3) as -> by congruence.
  destruct (Hfr Hdq) as (F1 & F2 & F3 & F4 & F5 & F6). destruct (Hc eq_refl) as (q & Hq' & _ & Hcl).
  assert (q = p3) as -> by congruence.
  exists h, p3, v. cbn. rewrite F2, F3, F5. split_and!; try done.
  destruct Hpre as [k Hlog3]. assert (H12 : psteps s1 s3) by by etrans.
  destruct (psteps_kept s1 s3 H12 ltac:(by eapply psteps_wf)) as [_ [k' ->]]. rewrite Hlog. set_solver.
Qed.
Lemma Action_psteps fuel c req s r err s' : Action m fuel c req s = Some ((r, err), s') →
  psteps s s' ∧ (err = None → mgr_wf s → aq_action req ∈ (m_actions (mg_manifest m)).*1 ∧ action_done req r s s').
Proof.
  unfold Action. destruct (assoc _ _) as [cmd|] eqn:Ea; [|intros [= <- <- <-]; by split].
  destruct (read_clock s) as [before s1] eqn:E1. assert (Hp1 : ms_procs s1 = ms_procs s).
  { unfold read_clock in E1. destruct (wl_clock _). by injection E1 as _ <-. }
  apply read_clock_psteps in E1.
  destruct before as [before|e]; [|intros [= <- <- <-]; by split].
  destruct (action_process _ _ _ _ _ s1) as [[[r2 e2] s2]|] eqn:E2; [|done]. apply action_process_psteps in E2 as [H2 Hr].
  destruct (read_clock s2) as [after s3] eqn:E3.
  assert (Hs3 : ms_procs s3 = ms_procs s2 ∧ ms_log s3 = ms_log s2).
  { unfold read_clock in E3. destruct (wl_clock _). by injection E3 as _ <-. }
  apply read_clock_psteps in E3. intros [= <- <- <-]. split; [by etrans; [|etrans]|].
  intros [-> _]%join_errors_none%Forall_cons Hw. split; [by eapply assoc_declared|].
  destruct (Hr eq_refl ltac:(by eapply psteps_wf)) as (h & p & v & Hrest). exists h, p, v.
  rewrite Hp1 in Hrest. destruct Hs3 as [-> ->]. exact Hrest.
Qed.

(** *** Services *)
Lemma step_kept s s' : step s s' → mgr_wf s → kept s s'.
Proof.
  intros [s1 s2 Hs|s1 id h Hd Hn Hsz Hp Hx|s1 id h p Hs Hp Hd Hc] Hw; [by apply proc_step_kept|..];
    (split; [|done]); intros h' p' Hp'; by exists p'.
Qed.
Lemma steps_kept s s' : rtc step s s' → mgr_wf s → kept s s'.
Proof. induction 1; [done|]. intros Hw. etrans; [by eapply step_kept|]. eauto using step_wf. Qed.
Lemma is_done_kept h e s s' : kept s s' → is_done h e s → is_done h e s'.
Proof.
  intros [Hk _] (p & Hp & Hd & Hc). destruct (Hk _ _ Hp) as (p' & Hp' & _ & _ & Hf).
  destruct (Hf Hd) as (? & _ & _ & _ & _ & ?). exists p'. split_and!; congruence.
Qed.

Lemma await_ready_psteps fuel rounds c readiness s e s' : await_ready m fuel rounds c readiness s = Some (e, s') →
  psteps s s' ∧ (e = None → Health s' = None).
Proof.
  revert s. induction rounds as [|rounds IH]; intros s; cbn [await_ready]; [done|].
  destruct (Health s); [intros [= <- <-]; by split|].
  destruct (Action _ _ _ _ s) as [[[r err] s1]|] eqn:E1; [|done]. apply Action_psteps in E1 as [H1 _].
  destruct err as [x|]; [intros [= <- <-]; by split|]. destruct (_ =? _); [intros [= <- <-]; by split|]. cbv zeta.
  destruct (await _ _ _ s1) as [[case s2]|] eqn:E2; [|done]. apply await_psteps in E2 as [H2 _].
  destruct case as [x|]; [intros [= <- <-]; by split; [etrans|]|]. intros [H3 Hh]%IH. split; [by etrans; [|etrans]|done].
Qed.

(** What [timed] adds to a body is two clock readings. *)
Lemma timed_steps id body s r err s' : timed id body s = Some ((r, err), s') →
  (∃ e, r = service_result id false zero_clock "" "" ∧ err = Some e ∧ psteps s s') ∨
  ∃ before s1 r1 err1 s2, psteps s s1 ∧ ms_services s1 = ms_services s ∧ ms_procs s1 = ms_procs s ∧
    body before s1 = Some ((r1, err1), s2) ∧ psteps s2 s' ∧ ms_procs s' = ms_procs s2 ∧ ms_log s' = ms_log s2 ∧
    (∃ after, r = set_service_after after r1) ∧ (err = None → err1 = None).
Proof.
  unfold timed. destruct (read_clock s) as [before s1] eqn:E1.
  assert (Hs1 : psteps s s1 ∧ ms_services s1 = ms_services s ∧ ms_procs s1 = ms_procs s).
  { split; [by eapply read_clock_psteps|]. unfold read_clock in E1. destruct (wl_clock _). by injection E1 as _ <-. }
  destruct before as [before|e]; [|intros [= <- <- <-]; left; naive_solver].
  destruct (body before s1) as [[[r1 err1] s2]|] eqn:Eb; [|done]. destruct (read_clock s2) as [after s3] eqn:E3.
  assert (Hs3 : psteps s2 s3 ∧ ms_procs s3 = ms_procs s2 ∧ ms_log s3 = ms_log s2).
  { split; [by eapply read_clock_psteps|]. unfold read_clock in E3. destruct (wl_clock _). by injection E3 as _ <-. }
  intros [= <- <- <-]. right. exists before, s1, r1, err1, s2. split_and!; try naive_solver.
  by intros [? _]%join_errors_none%Forall_cons.
Qed.

Lemma start_body_steps fuel c req before s r err s' : mgr_wf s →
  start_body m fuel c req before s = Some ((r, err), s') →
  rtc step s s' ∧ (err = None ↔ sr_running r = true) ∧
  (err = None → Health s' = None ∧ ∃ h, ms_services s !! sq_service req = None ∧ ms_procs s !! h = None ∧
     ms_services s' = <[sq_service req := h]> (ms_services s) ∧
     Started h (launch_spec m "service" (sq_service req) (with_newline (sq_input req))) ∈ ms_log s').
Proof.
  intros Hw. unfold start_body. cbv zeta. destruct (assoc _ _) as [spec|] eqn:Ea; [|intros [= <- <- <-]; by split_and!].
  destruct (bool_decide _ || _) eqn:Eb; [intros [= <- <- <-]; by split_and!|].
  apply orb_false_iff in Eb as [Eb Hlim]. apply bool_decide_eq_false, eq_None_not_Some in Eb. to_prop.
  destruct (launch _ _ _ _ s) as [l s1] eqn:El. apply launch_psteps in El as [H1 Hl].
  destruct l as [h|e]; [|intros [= <- <- <-]; split_and!; [by apply psteps_steps|done..]].
  destruct (Hl h eq_refl) as (Hn & [pid Hh] & Hlog). pose proof (psteps_services _ _ H1) as Hs1.
  set (s2 := on_services (λ ms, <[sq_service req:=h]> ms) s1).
  assert (H2 : rtc step s s2).
  { eapply rtc_r; [by apply psteps_steps|]. apply step_register; rewrite ?Hs1; try done.
    - by eapply assoc_declared.
    - unfold Active in Hlim. lia.
    - intros id' Hid. apply (wf_owned _ Hw) in Hid as [[p Hp] _]. congruence. }
  destruct (await_ready _ _ _ _ _ s2) as [[failed s3]|] eqn:Er; [|done]. apply await_ready_psteps in Er as [H3 Hh3].
  intros [= <- <- <-]. split_and!; [etrans; [done|by apply psteps_steps]|by destruct failed|].
  intros ->. split; [auto|]. exists h. rewrite (psteps_services _ _ H3). split_and!; [done|done|cbn; by rewrite Hs1|].
  destruct (psteps_kept _ _ H3 ltac:(by eapply steps_wf)) as [_ [k ->]]. cbn. rewrite Hlog. set_solver.
Qed.

(** A service leaves the map only when its process is over and cleaned up. *)
Lemma unregister_done s id h : ms_services s !! id = Some h → is_done h None s → step s (on_services (delete id) s).
Proof. intros Hs (p & Hp & Hd & Hc). by eapply step_unregister. Qed.
Definition released (id : string) (s s' : state) : Prop :=
  ms_services s' = ms_services s ∨
  ∃ h, ms_services s !! id = Some h ∧ ms_services s' = delete id (ms_services s) ∧ is_done h None s'.
Lemma stop_body_steps fuel c req before s r err s' : mgr_wf s →
  stop_body fuel c req before s = Some ((r, err), s') →
  rtc step s s' ∧ released (sq_service req) s s' ∧
  (err = None → ∃ h p, ms_services s !! sq_service req = Some h ∧ ms_services s' = delete (sq_service req) (ms_services s) ∧
     ms_procs s' !! h = Some p ∧ pr_done p = true ∧ pr_cleanup p = None ∧
     bc_overflow (pr_out p) = false ∧ bc_overflow (pr_stderr p) = false ∧
     sr_stdout r = bc_data (pr_out p) ∧ sr_stderr r = bc_data (pr_stderr p)).
Proof.
  intros Hw. unfold stop_body. cbv zeta. destruct (advance fuel s) as [s1|] eqn:E1; [|done]. apply advance_psteps in E1 as H1.
  pose proof (psteps_services _ _ H1) as Hs1.
  assert (Hquit : rtc step s s1 ∧ released (sq_service req) s s1) by (split; [by apply psteps_steps|by left]).
  destruct (ms_services s1 !! sq_service req) as [h|] eqn:Eh; [|intros [= <- <- <-]; naive_solver].
  destruct (done_case h s1); [|intros [= <- <- <-]; naive_solver].
  destruct (terminate fuel c h _) as [[e s2]|] eqn:Et; [|done]. apply terminate_psteps in Et as [H2 Hd].
  assert (H02 : psteps s s2) by (etrans; [exact H1|]; eapply rtc_l; [apply step_expect|exact H2]).
  pose proof (psteps_services _ _ H02) as Hs2. rewrite Hs1 in Eh.
  destruct e as [e|]; [intros [= <- <- <-]; split_and!; [by apply psteps_steps|by left|done]|].
  specialize (Hd eq_refl). cbn [ms_procs on_services]. destruct Hd as (p & Hp & Hdone & Hclean). rewrite Hp. cbn [snapshot].
  set (s3 := on_services (delete (sq_service req)) s2).
  assert (Hd3 : is_done h None s3) by by exists p.
  assert (H3 : rtc step s s3).
  { eapply rtc_r; [by apply psteps_steps|]. apply (unregister_done _ _ h); [by rewrite Hs2|done]. }
  assert (Hrel : released (sq_service req) s s3).
  { right. exists h. split_and!; [done|cbn; by rewrite Hs2|done]. }
  destruct (bc_overflow (pr_out p)) eqn:Eo; [intros [= <- <- <-]; by split_and!|].
  destruct (bc_overflow (pr_stderr p)) eqn:Ee; [intros [= <- <- <-]; by split_and!|].
  cbn [orb]. intros [= <- <- <-]. split_and!; [done|done|]. intros _. exists h, p. cbn. rewrite Hs2. split_and!; done.
Qed.

Lemma shuffle_perm {A} n (w : W) (l : list A) : shuffle n w l ≡ₚ l.
Proof.
  revert l. induction n as [|n IH]; intros l; cbn; [done|]. unfold pick.
  destruct (l !! _) as [x|] eqn:Ex; [|done]. rewrite IH, Permutation_middle.
  by rewrite (take_drop_middle _ _ _ Ex).
Qed.
Lemma walk_elem {V} (w : W) (ms : gmap string V) id v : (id, v) ∈ walk w ms ↔ ms !! id = Some v.
Proof. unfold walk. rewrite shuffle_perm. apply elem_of_map_to_list. Qed.
Lemma walk_nodup {V} (w : W) (ms : gmap string V) : NoDup (walk w ms).*1.
Proof. unfold walk. rewrite shuffle_perm. apply NoDup_fst_map_to_list. Qed.

Lemma first_alarm_none s l : first_alarm s l = None ↔
  ∀ id h p, (id, h) ∈ l → ms_procs s !! h = Some p → service_alarm id p = [].
Proof.
  induction l as [|[id h] l IH]; cbn; [split; [intros _ ??? []%elem_of_nil|done]|].
  destruct (ms_procs s !! h) as [p|] eqn:Hp; [destruct (pick _ _) as [e|] eqn:Ek|].
  - split; [done|]. intros Ha. apply pick_elem in Ek. rewrite (Ha id h p) in Ek; [by apply elem_of_nil in Ek|left|done].
  - rewrite IH. assert (Hnil : service_alarm id p = []).
    { destruct (service_alarm id p) as [|x al] eqn:Es; [done|]. exfalso. unfold pick in Ek.
      apply lookup_ge_None in Ek. pose proof (Nat.mod_upper_bound (wl_pick (ms_os s) (List.length (x :: al))) (List.length (x :: al))).
      cbn [List.length] in *. lia. }
    split; [intros Ha ??? [[= -> ->]|?]%elem_of_cons ?; [congruence|eauto]|intros Ha ??? ??; eapply Ha; [by right|done]].
  - rewrite IH. split; [intros Ha ??? [[= -> ->]|?]%elem_of_cons ?; [congruence|eauto]|
                        intros Ha ??? ??; eapply Ha; [by right|done]].
Qed.

Definition clean_exit (h : nat) (s : state) : Prop :=
  ∃ p, ms_procs s !! h = Some p ∧ pr_done p = true ∧ pr_cleanup p = None ∧
       bc_overflow (pr_out p) = false ∧ bc_overflow (pr_stderr p) = false.
Lemma clean_exit_kept h s s' : kept s s' → clean_exit h s → clean_exit h s'.
Proof.
  intros [Hk _] (p & Hp & Hd & Hc & ? & ?). destruct (Hk _ _ Hp) as (p' & Hp' & _ & _ & Hf).
  destruct (Hf Hd) as (? & ? & ? & _ & _ & ?). exists p'. split_and!; congruence.
Qed.
Lemma join_some a e : join_errors [a; Some e] ≠ None.
Proof. by intros [_ [? _]%Forall_cons]%join_errors_none%Forall_cons. Qed.

Lemma stop_each_steps fuel c l all s e s' : mgr_wf s → NoDup l.*1 → (∀ id h, (id, h) ∈ l → ms_services s !! id = Some h) →
  stop_each fuel c l all s = Some (e, s') →
  rtc step s s' ∧ (∀ id, id ∉ l.*1 → ms_services s' !! id = ms_services s !! id) ∧
  (∀ id h, (id, h) ∈ l → ms_services s' !! id = Some h ∨ ms_services s' !! id = None ∧ is_done h None s') ∧
  (e = None → all = None ∧ ∀ id h, (id, h) ∈ l → ms_services s' !! id = None ∧ clean_exit h s').
Proof.
  revert all s. induction l as [|[id h] l IH]; intros all s Hw Hnd Hreg; cbn [stop_each].
  { intros [= <- <-]. split_and!; [done|done|by intros ?? []%elem_of_nil|intros ->]. split; [done|by intros ?? []%elem_of_nil]. }
  apply NoDup_cons in Hnd as [Hni Hnd]. destruct (terminate fuel c h s) as [[err s1]|] eqn:Et; [|done].
  apply terminate_psteps in Et as [H1 Hd]. pose proof (psteps_services _ _ H1) as Hs1.
  assert (Hreg1 : ∀ i j, (i, j) ∈ l → ms_services s1 !! i = Some j) by (intros i j ?; rewrite Hs1; apply Hreg; by right).
  assert (Hid : ms_services s1 !! id = Some h) by (rewrite Hs1; apply Hreg; left).
  pose proof (psteps_wf _ _ H1 Hw) as Hw1. destruct err as [x|].
  { intros Hs. apply IH in Hs as (H2 & Hout & Hin & Hok); [|done..]. rewrite Hs1 in Hout.
    split_and!; [etrans; [by apply psteps_steps|done]|intros i Hi; apply Hout; set_solver| |].
    - intros i j [[= -> ->]|?]%elem_of_cons; [left; rewrite (Hout id Hni), <-Hs1; done|auto].
    - intros [Hj _]%Hok. by apply join_some in Hj. }
  destruct (Hd eq_refl) as (p & Hp & Hdp & Hcp). cbv zeta. cbn [ms_procs on_services]. rewrite Hp.
  set (s2 := on_services (delete id) s1).
  assert (Hst : step s1 s2) by (apply (unregister_done _ _ h); [done|by exists p]).
  pose proof (step_wf _ _ Hst Hw1) as Hw2. intros Hs. apply IH in Hs as (H2 & Hout & Hin & Hok); [|done..|].
  2:{ intros i j Hij. cbn. rewrite lookup_delete_ne; [by apply Hreg1|]. intros ->. apply Hni. by eapply list_elem_of_fmap_2'. }
  pose proof (steps_kept _ _ H2 Hw2) as Hk2.
  assert (Hgone : ms_services s' !! id = None) by (rewrite (Hout id Hni); cbn; apply lookup_delete_eq).
  split_and!; [etrans; [by apply psteps_steps|]; by eapply rtc_l| | |].
  - intros i [Hi Hil]%not_elem_of_cons. rewrite (Hout i Hil). cbn in *. by rewrite lookup_delete_ne, Hs1.
  - intros i j [[= -> ->]|?]%elem_of_cons; [right|by apply Hin]. split; [done|].
    apply (is_done_kept _ _ _ _ Hk2). by exists p.
  - intros He. destruct (Hok He) as [Hall Hrest]. destruct (bc_overflow (pr_out p)) eqn:Eo; [by apply join_some in Hall|].
    destruct (bc_overflow (pr_stderr p)) eqn:Ee; [by apply join_some in Hall|]. split; [done|].
    intros i j [[= -> ->]|?]%elem_of_cons; [|by apply Hrest]. split; [done|]. apply (clean_exit_kept _ _ _ Hk2). by exists p.
Qed.
Lemma expect_all_psteps s : psteps s (expect_all s).
Proof.
  unfold expect_all. generalize (ms_services s). intros ms. revert ms.
  apply (map_fold_weak_ind (λ r (_ : gmap string nat), psteps s r)); [done|].
  intros id h ms r _ Hr. eapply rtc_r; [exact Hr|apply step_expect].
Qed.
Lemma StopAll_steps fuel c s e s' : mgr_wf s → StopAll fuel c s = Some (e, s') →
  rtc step s s' ∧
  (∀ id h, ms_services s !! id = Some h → ms_services s' !! id = Some h ∨ ms_services s' !! id = None ∧ is_done h None s') ∧
  (∀ id, ms_services s !! id = None → ms_services s' !! id = None) ∧
  (e = None → ms_services s' = ∅ ∧ ∀ id h, ms_services s !! id = Some h → clean_exit h s').
Proof.
  intros Hw Hs. pose proof (expect_all_psteps s) as H0. pose proof (psteps_services _ _ H0) as Hs0.
  apply stop_each_steps in Hs as (H1 & Hout & Hin & Hok); [|by eapply psteps_wf|apply walk_nodup|].
  2:{ intros id h Hi%walk_elem. by rewrite Hs0. }
  assert (Hnone : ∀ id, ms_services s !! id = None → ms_services s' !! id = None).
  { intros id Hn. rewrite Hout, Hs0; [done|]. intros ([i h] & -> & Hi%walk_elem)%list_elem_of_fmap. cbn in Hn. congruence. }
  split_and!; [etrans; [by apply psteps_steps|done]|intros id h ?; apply Hin; by apply walk_elem|done|].
  intros He. destruct (Hok He) as [_ Hall]. split.
  - apply map_eq. intros id. rewrite lookup_empty. destruct (ms_services s !! id) as [h|] eqn:Ei; [|by apply Hnone].
    by apply (Hall id h), walk_elem.
  - intros id h Hi. by apply (Hall id h), walk_elem.
Qed.
End steps.

(** ** Claims *)
Section calls.
Context {W : Type} `{Workloads W} (m : Manager).

Definition initial (w : W) : mstate W := {| ms_os := w; ms_procs := ∅; ms_services := ∅; ms_log := [] |}.
(** The server makes one call at a time; between calls only the background runs. *)
Inductive call : mstate W → mstate W → Prop :=
| call_action fuel c req s r s' : Action m fuel c req s = Some (r, s') → call s s'
| call_start fuel c req s r s' : Start m fuel c req s = Some (r, s') → call s s'
| call_stop fuel c req s r s' : Stop fuel c req s = Some (r, s') → call s s'
| call_stop_all fuel c s e s' : StopAll fuel c s = Some (e, s') → call s s'
| call_background fuel s s' : advance fuel s = Some s' → call s s'.

Lemma initial_wf w : mgr_wf m (initial w).
Proof.
  split; cbn; try done.
  - by intros h ?%elem_of_nil.
  - intros pre h post sig Heq. by destruct pre.
  - rewrite map_size_empty. lia.
Qed.
(** Health is a matter of the processes and the services. *)
Lemma health_ext (s s' : mstate W) : ms_procs s' = ms_procs s → ms_services s' = ms_services s → Health s = None → Health s' = None.
Proof.
  unfold Health. intros Hp Hs. rewrite !first_alarm_none, Hp, Hs. intros Ha id h p Hi%walk_elem. by apply Ha, walk_elem.
Qed.
Lemma Start_steps fuel c req (s : mstate W) r err s' : mgr_wf m s → Start m fuel c req s = Some ((r, err), s') →
  rtc (step m) s s' ∧
  (err = None → sr_running r = true ∧ Health s' = None ∧
     ∃ h, ms_services s !! sq_service req = None ∧ ms_procs s !! h = None ∧
     ms_services s' = <[sq_service req := h]> (ms_services s) ∧
     Started h (launch_spec m "service" (sq_service req) (with_newline (sq_input req))) ∈ ms_log s').
Proof.
  intros Hw Hs. unfold Start in Hs. apply timed_steps in Hs as [(e & -> & -> & ?)|Hs]; [split; [by apply psteps_steps|done]|].
  destruct Hs as (before & s1 & r1 & err1 & s2 & H1 & Hs1 & Hp1 & Hb & H2 & Hp2 & Hl2 & [after ->] & He).
  apply start_body_steps in Hb as (H3 & Hrun & Hok); [|by eapply psteps_wf].
  split; [etrans; [by apply psteps_steps|etrans; [done|by apply psteps_steps]]|].
  intros Hn%He. split; [by apply Hrun|]. destruct (Hok Hn) as (Hhealth & h & Hh). pose proof (psteps_services _ _ H2) as Hs2.
  split; [by eapply health_ext|]. exists h. by rewrite Hs2, Hl2, <-Hs1, <-Hp1.
Qed.
Lemma Stop_steps fuel c req (s : mstate W) r err s' : mgr_wf m s → Stop fuel c req s = Some ((r, err), s') →
  rtc (step m) s s' ∧ released (sq_service req) s s' ∧
  (err = None → ∃ h p, ms_services s !! sq_service req = Some h ∧ ms_services s' = delete (sq_service req) (ms_services s) ∧
     ms_procs s' !! h = Some p ∧ pr_done p = true ∧ pr_cleanup p = None ∧
     bc_overflow (pr_out p) = false ∧ bc_overflow (pr_stderr p) = false ∧
     sr_stdout r = bc_data (pr_out p) ∧ sr_stderr r = bc_data (pr_stderr p)).
Proof.
  intros Hw Hs. unfold Stop in Hs. apply timed_steps in Hs as [(e & -> & -> & Hp)|Hs].
  { split; [by apply psteps_steps|]. split; [left; by apply psteps_services|done]. }
  destruct Hs as (before & s1 & r1 & err1 & s2 & H1 & Hs1 & Hp1 & Hb & H2 & Hp2 & Hl2 & [after ->] & He).
  eapply stop_body_steps in Hb as (H3 & Hrel & Hok); [|by eapply psteps_wf].
  split; [etrans; [by apply psteps_steps|etrans; [done|by apply psteps_steps]]|].
  pose proof (psteps_services _ _ H2) as Hs2. unfold released, is_done in *. rewrite Hs2, Hp2, <-Hs1.
  split; [done|]. intros Hn%He. apply (Hok Hn).
Qed.
Lemma call_wf s s' : call s s' → mgr_wf m s → mgr_wf m s'.
Proof.
  intros [fuel c req s1 [r e] s2 Hc|fuel c req s1 [r e] s2 Hc|fuel c req s1 [r e] s2 Hc|fuel c s1 e s2 Hc|fuel s1 s2 Hc] Hw;
    (eapply steps_wf; [|exact Hw]).
  - apply psteps_steps. by apply Action_psteps in Hc as [? _].
  - by apply Start_steps in Hc as [? _].
  - by apply Stop_steps in Hc as [? _].
  - by apply (StopAll_steps m) in Hc as [? _].
  - apply psteps_steps. by eapply advance_psteps.
Qed.
End calls.

(** C7.  Every state the manager can reach, by any sequence of actions, service starts
    and stops and shutdowns interleaved with output, exits and reaping: captured output
    is within 64 KiB per stream; a process group is never signalled after its leader
    began to be reaped (so a recycled PID is never hit); at most four services are
    registered, each declared in the manifest and each with its own process. *)
Theorem manager_invariant {W} `{Workloads W} m (w : W) s : rtc (call m) (initial w) s → mgr_wf m s.
Proof.
  intros Hc. pose proof (initial_wf m w) as Hw. revert Hw. induction Hc; eauto using call_wf.
Qed.

(** C12.  A successful action is one the manifest declares, run in a new process with the
    declared identity and environment, which has exited with a code (not a signal), was
    reaped with its whole group gone, and whose complete standard output is one strict
    JSON value, returned as it was; no service is affected. *)
Theorem action_sound {W} `{Workloads W} m fuel c req (s : mstate W) r s' :
  mgr_wf m s → Action m fuel c req s = Some ((r, None), s') →
  aq_action req ∈ (m_actions (mg_manifest m)).*1 ∧ action_done m req r s s' ∧ ms_services s' = ms_services s.
Proof.
  intros Hw [Hs Hr]%Action_psteps. destruct (Hr eq_refl Hw) as [Hin Hd].
  split_and!; [done..|by apply psteps_services].
Qed.

(** C13.  A service that started is registered under its name, where none was, with a new
    process (one the manager did not have before, launched for that service with its input),
    and at that point the manager's health check passes for it and every other service;
    a service leaves the map only when its process is over and cleaned up, so a
    failed stop keeps it registered; and a successful stop returns its complete output. *)
Theorem service_lifecycle {W} `{Workloads W} m fuel c req (s : mstate W) r err s' : mgr_wf m s →
  (Start m fuel c req s = Some ((r, err), s') → err = None →
     sr_running r = true ∧ Health s' = None ∧
     ∃ h, ms_services s !! sq_service req = None ∧ ms_procs s !! h = None ∧
       ms_services s' = <[sq_service req := h]> (ms_services s) ∧
       Started h (launch_spec m "service" (sq_service req) (with_newline (sq_input req))) ∈ ms_log s') ∧
  (Stop fuel c req s = Some ((r, err), s') →
     released (sq_service req) s s' ∧
     (err = None → ∃ h p, ms_services s !! sq_service req = Some h ∧
        ms_services s' = delete (sq_service req) (ms_services s) ∧
        ms_procs s' !! h = Some p ∧ pr_done p = true ∧ pr_cleanup p = None ∧
        bc_overflow (pr_out p) = false ∧ bc_overflow (pr_stderr p) = false ∧
        sr_stdout r = bc_data (pr_out p) ∧ sr_stderr r = bc_data (pr_stderr p))).
Proof.
  intros Hw. split; [by intros [_ ?]%Start_steps|]. by intros [_ ?]%(Stop_steps m).
Qed.

(** Stopping everything: when it reports no error no service is left, and every
    process that was registered has exited, was cleaned up and kept within its quotas;
    otherwise a service is dropped only if its process is over, and the rest stay. *)
Theorem stop_all_complete {W} `{Workloads W} m fuel c (s : mstate W) e s' :
  mgr_wf m s → StopAll fuel c s = Some (e, s') →
  (∀ id h, ms_services s !! id = Some h →
     ms_services s' !! id = Some h ∨ ms_services s' !! id = None ∧ is_done h None s') ∧
  (e = None → ms_services s' = ∅ ∧ ∀ id h, ms_services s !! id = Some h → clean_exit h s').
Proof. intros Hw (_ & H1 & _ & H2)%(StopAll_steps m); [|done]. by split. Qed.

(** Health reports no error exactly when no registered service that is expected to
    run has exited or exceeded an output quota, whatever order the map is walked in. *)
Theorem health_exact {W} `{Workloads W} (s : mstate W) :
  Health s = None ↔ ∀ id h p, ms_services s !! id = Some h → ms_procs s !! h = Some p → pr_expected p = false →
    pr_done p = false ∧ bc_overflow (pr_out p) = false ∧ bc_overflow (pr_stderr p) = false.
Proof.
  unfold Health. rewrite first_alarm_none. split.
  - intros Ha id h p Hi Hp He. specialize (Ha id h p ltac:(by apply walk_elem) Hp). unfold service_alarm in Ha.
    rewrite He in Ha. destruct (pr_done p), (bc_overflow (pr_out p)), (bc_overflow (pr_stderr p)); done.
  - intros Ha id h p Hi%walk_elem Hp. unfold service_alarm. destruct (pr_expected p) eqn:He; [done|].
    destruct (Ha _ _ _ Hi Hp He) as (-> & -> & ->). done.
Qed.

(** *** Example: a service started, polled, and stopped *)
Record sim_os := { so_now : Z; so_script : list (list background) }.
Definition so_wait (d : Z) (w : sim_os) : sim_os := {| so_now := so_now w + d; so_script := so_script w |}.
#[export] Instance sim_workloads : Workloads sim_os := {|
  wl_clock w := (Ok {| Realtime := so_now w; MonotonicNS := so_now w |}, w);
  wl_vsock w := (None, w);
  wl_start w _ := (Ok 40, w);
  wl_kill_group w _ _ := (None, w);
  wl_kill w _ := w;
  wl_proc w := (Ok ["1"; "self"]%string, w);
  wl_stat w _ := (Ok "1 (init) S 0 1 1"%string, w);
  wl_sleep w d := so_wait (Z.max 0 d) w;
  wl_now := so_now;
  wl_cancelled _ := false;
  wl_background w := (hd [] (so_script w), {| so_now := so_now w + 1; so_script := tl (so_script w) |});
  wl_pick _ _ := 0%nat
|}.
Definition sample_manager : Manager := {| mg_manifest := sample_manifest; mg_path := "/etc/epoch/workload.json";
                                          mg_executable := "/usr/lib/epoch/agent" |}.
Definition exits (h : nat) (out : string) : list background :=
  [Wrote h Stdout out; LeaderExited h None; Waited h WaitOk 0].
Definition sample_script : sim_os :=
  {| so_now := 0; so_script := [exits 1 "{}"%string; []; []; []; []; exits 0 "bye"%string] |}.
Definition sample_ctx : ctx := {| cx_deadline := 50; cx_cancellable := true |}.
Definition start_ticker : ServiceRequest := {| sq_service := "ticker"; sq_timeout := 5; sq_input := "" |}.
Definition observe : ActionRequest := {| aq_action := "observe"; aq_input := ""; aq_timeout := 5 |}.
Definition ticker_started := Start sample_manager 210 sample_ctx start_ticker (initial sample_script).
Definition ticker_stopped := let! (_, s) := ticker_started in Stop 210 sample_ctx start_ticker s.
Definition ticker_state {A} (r : option (A * mstate sim_os)) : mstate sim_os :=
  match r with Some (_, s) => s | None => initial sample_script end.
Definition service_answer (r : option ((ServiceResult * option error) * mstate sim_os)) :=
  match r with Some ((r, e), _) => Some (sr_running r, sr_stdout r, e) | None => None end.
Example ticker_started_ok : service_answer ticker_started = Some (true, ""%string, None).
Proof. vm_compute. reflexivity. Qed.
Example ticker_stopped_ok : service_answer ticker_stopped = Some (false, "bye"%string, None).
Proof. vm_compute. reflexivity. Qed.
(** The leader exits while the SIGTERM's grace period runs: the reaper kills the rest of
    the group, and nothing is signalled afterwards. *)
Example ticker_log : ms_log (ticker_state ticker_stopped) =
  [Started 0 (launch_spec sample_manager "service" "ticker" (with_newline ""));
   Started 1 (launch_spec sample_manager "action" "observe" (with_newline ""));
   GroupKill 1 SIGKILL; ReapBegins 1; GroupKill 0 SIGTERM; GroupKill 0 SIGKILL; ReapBegins 0].
Proof. vm_compute. reflexivity. Qed.

Lemma manager_invariant_witness :
  match Start sample_manager 210 sample_ctx start_ticker (initial sample_script) with
  | Some (_, s) => mgr_wf sample_manager s
  | None => False
  end.
Proof.
  assert (Hok : is_Some (Start sample_manager 210 sample_ctx start_ticker (initial sample_script)))
    by (vm_compute; eexists; reflexivity).
  destruct (Start _ _ _ _ _) as [[r s]|] eqn:E; [|by destruct Hok].
  apply (manager_invariant sample_manager sample_script). apply rtc_once. exact (call_start _ _ _ _ _ _ _ E).
Defined.
Definition action_script : sim_os := {| so_now := 0; so_script := [exits 0 " {}"%string] |}.
Lemma action_sound_witness :
  match Action sample_manager 210 sample_ctx observe (initial action_script) with
  | Some ((r, None), s') => ar_stdout_json r = "{}"%string ∧ action_done sample_manager observe r (initial action_script) s'
  | _ => False
  end.
Proof.
  assert (Hok : match Action sample_manager 210 sample_ctx observe (initial action_script) with
                | Some ((r, None), _) => ar_stdout_json r = "{}"%string | _ => False end) by (vm_compute; reflexivity).
  destruct (Action _ _ _ _ _) as [[[r [e|]] s']|] eqn:E; [destruct Hok| |destruct Hok]. split; [exact Hok|].
  apply (action_sound sample_manager 210 sample_ctx observe (initial action_script) r s' (initial_wf _ _) E).
Defined.
Lemma service_lifecycle_witness :
  match Start sample_manager 210 sample_ctx start_ticker (initial sample_script) with
  | Some ((r, None), s') => sr_running r = true ∧ Health s' = None
  | _ => False
  end.
Proof.
  assert (Hok : match Start sample_manager 210 sample_ctx start_ticker (initial sample_script) with
                | Some ((_, None), _) => True | _ => False end) by (vm_compute; exact I).
  destruct (Start _ _ _ _ _) as [[[r [e|]] s']|] eqn:E; [destruct Hok| |destruct Hok].
  destruct (proj1 (service_lifecycle sample_manager 210 sample_ctx start_ticker (initial sample_script) r None s'
                     (initial_wf _ _)) E eq_refl) as (Hrun & Hhealth & _).
  split; [exact Hrun|exact Hhealth].
Defined.
Lemma stop_all_complete_witness :
  match Start sample_manager 210 sample_ctx start_ticker (initial sample_script) with
  | Some (_, s) =>
      match StopAll 210 sample_ctx s with
      | Some (None, s') => (size (ms_services s) = 1)%nat ∧ ms_services s' = ∅
      | _ => False
      end
  | None => False
  end.
Proof.
  assert (Hok : match Start sample_manager 210 sample_ctx start_ticker (initial sample_script) with
                | Some (_, s) => match StopAll 210 sample_ctx s with
                                 | Some (None, _) => size (ms_services s) = 1%nat | _ => False end
                | None => False end) by (vm_compute; reflexivity).
  destruct (Start _ _ _ _ _) as [[r s]|] eqn:E; [|exact Hok].
  assert (Hw : mgr_wf sample_manager s) by exact (call_wf _ _ _ (call_start _ _ _ _ _ _ _ E) (initial_wf _ _)).
  destruct (StopAll _ _ _) as [[[e|] s']|] eqn:E2; [destruct Hok| |destruct Hok]. split; [exact Hok|].
  apply (stop_all_complete sample_manager 210 sample_ctx s None s' Hw E2). reflexivity.
Defined.
