(* ===== verification/GuestManagerLive.v ===== *)
(** * GuestManagerLive: stopping always returns

    The waits of [GuestManager] end because time passes: the monotonic clock never goes
    back, [time.Sleep] sleeps at least as long as it was asked to, and a round of waiting
    takes at least a nanosecond.  Under these laws the reaper's kill loop ends within
    [kill_rounds] rounds and stopping a service ends at the context's deadline at the
    latest, whatever the processes do. *)

From S2P Require Import Prelude GoLib GoTime JsonText Protocol Firecracker GuestManager GuestManagerFacts.
From Stdlib Require Import Ascii String.

Class Clocked (W : Type) `{Workloads W} : Prop := {
  now_clock (w : W) : wl_now w ≤ wl_now (wl_clock w).2;
  now_kill_group (w : W) p s : wl_now w ≤ wl_now (wl_kill_group w p s).2;
  now_kill (w : W) p : wl_now w ≤ wl_now (wl_kill w p);
  now_proc (w : W) : wl_now w ≤ wl_now (wl_proc w).2;
  now_stat (w : W) n : wl_now w ≤ wl_now (wl_stat w n).2;
  now_sleep (w : W) d : 0 ≤ d → wl_now w + d ≤ wl_now (wl_sleep w d);
  now_background (w : W) : wl_now w < wl_now (wl_background w).2
}.

Section live.
Context {W : Type} `{Clocked W}.
Abbreviation state := (mstate W).
Definition time (s : state) : Z := wl_now (ms_os s).

Lemma scan_group_time leader names (w : W) : wl_now w ≤ wl_now (scan_group leader names w).2.
Proof.
  revert w. induction names as [|name names IH]; intros w; cbn [scan_group snd]; [lia|].
  destruct (parse_int _ _ _) as [p|]; [|apply IH]. destruct (p =? leader); [apply IH|].
  pose proof (now_stat w name) as Hs. destruct (wl_stat w name) as [data w1]. cbn [snd] in Hs. specialize (IH w1).
  destruct data as [data|e]; [destruct (group_member _ _) as [[]|]; cbn [snd]; lia|]. destruct (err_is _ e); cbn [snd]; lia.
Qed.
Lemma activeGroup_time leader (w : W) : wl_now w ≤ wl_now (activeGroupDescendants leader w).2.
Proof.
  unfold activeGroupDescendants. pose proof (now_proc w) as Hp. destruct (wl_proc w) as [[names|e] w1]; cbn [snd] in *; [|lia].
  pose proof (scan_group_time leader names w1). lia.
Qed.
Lemma kill_group_time h p sig (s : state) : time s ≤ time (kill_group h p sig s).2.
Proof.
  unfold kill_group, time. pose proof (now_kill_group (ms_os s) p sig) as Hk.
  by destruct (wl_kill_group (ms_os s) p sig) as [e w].
Qed.

(** [kill_loop] returns, and later than it started. *)
Lemma kill_loop_live fuel deadline h leader (s : state) :
  (0 < fuel)%nat → deadline - time s ≤ 5 * millisecond * (Z.of_nat fuel - 1) →
  ∃ e s', kill_loop fuel deadline h leader s = Some (e, s') ∧ time s ≤ time s'.
Proof.
  assert (Hms : millisecond = 1000000) by reflexivity.
  revert s. induction fuel as [|fuel IH]; intros s Hf Hd; [lia|]. cbn [kill_loop].
  pose proof (kill_group_time h leader SIGKILL s) as Hk. destruct (kill_group h leader SIGKILL s) as [x s1]. cbn [snd] in Hk.
  destruct x as [x|]; [by exists (Some x), s1|].
  pose proof (activeGroup_time leader (ms_os s1)) as Ha. destruct (activeGroupDescendants _ _) as [a w]. cbn [snd] in Ha.
  assert (H1 : time s ≤ time (set_os w s1)) by (unfold time in *; cbn; lia). cbv zeta.
  destruct a as [[]|x]; [|by eexists _, _..]. destruct (_ <=? _) eqn:El; [by eexists _, _|]. to_prop.
  assert (H2 : time (set_os w s1) + 5 * millisecond ≤ time (set_os (wl_sleep w (5 * millisecond)) (set_os w s1))).
  { unfold time. cbn. apply now_sleep. lia. }
  assert (El' : time (set_os w s1) < deadline) by done.
  edestruct (IH (set_os (wl_sleep w (5 * millisecond)) (set_os w s1))) as (e & s' & He & Ht); [lia|lia|].
  exists e, s'. split; [exact He|lia].
Qed.
Lemma killGroupAndWait_live fuel h leader (s : state) : (kill_rounds ≤ fuel)%nat →
  ∃ e s', killGroupAndWait fuel h leader s = Some (e, s') ∧ time s ≤ time s'.
Proof.
  intros Hf. apply kill_loop_live; unfold kill_rounds in Hf; [lia|]. assert (millisecond = 1000000) by reflexivity.
  fold (time s). lia.
Qed.

Lemma background_step_live fuel e (s : state) : (kill_rounds ≤ fuel)%nat →
  ∃ s', background_step fuel e s = Some s' ∧ time s ≤ time s'.
Proof.
  intros Hf. destruct e as [h st data|h ob|h r code]; cbn [background_step];
    (destruct (ms_procs s !! h) as [p|]; [|by exists s]).
  - by destruct (pr_done p); eexists.
  - destruct (pr_reaping p); [by eexists|]. destruct ob as [x|].
    + eexists. split; [reflexivity|]. apply now_kill.
    + destruct (killGroupAndWait_live fuel h (pr_pid p) s Hf) as (e & s' & -> & Ht). by eexists.
  - by destruct (_ && _); eexists.
Qed.
Lemma background_steps_live fuel es (s : state) : (kill_rounds ≤ fuel)%nat →
  ∃ s', background_steps fuel es s = Some s' ∧ time s ≤ time s'.
Proof.
  intros Hf. revert s. induction es as [|e es IH]; intros s; cbn; [by exists s|].
  destruct (background_step_live fuel e s Hf) as (s1 & -> & H1). destruct (IH s1) as (s2 & -> & H2).
  exists s2. split; [done|lia].
Qed.
Lemma advance_live fuel (s : state) : (kill_rounds ≤ fuel)%nat → ∃ s', advance fuel s = Some s' ∧ time s < time s'.
Proof.
  intros Hf. unfold advance. pose proof (now_background (ms_os s)) as Hb. destruct (wl_background _) as [es w]. cbn [snd] in Hb.
  destruct (background_steps_live fuel es (set_os w s) Hf) as (s' & -> & Ht). exists s'. split; [done|].
  unfold time in *. cbn in Ht. lia.
Qed.
Lemma pick_nonempty {A} (w : W) (l : list A) : l ≠ [] → is_Some (pick w l).
Proof.
  intros Hl. apply lookup_lt_is_Some. apply Nat.mod_upper_bound. by destruct l.
Qed.
(** A select with a case that is ready from [deadline] on. *)
Lemma await_live {A} fuel rounds (ready : state → list A) deadline (s : state) :
  (kill_rounds ≤ fuel)%nat → (∀ s, deadline ≤ time s → ready s ≠ []) →
  (0 < rounds)%nat → deadline - time s ≤ Z.of_nat rounds →
  ∃ a s', await fuel rounds ready s = Some (a, s') ∧ time s ≤ time s'.
Proof.
  intros Hf Hr. revert s. induction rounds as [|rounds IH]; intros s Hpos Hd; [lia|]. cbn [await].
  destruct (advance_live fuel s Hf) as (s1 & -> & H1).
  destruct (pick (ms_os s1) (ready s1)) as [a|] eqn:Ep; [exists a, s1; split; [done|lia]|].
  assert (Hlt : time s1 < deadline).
  { destruct (Z.lt_ge_cases (time s1) deadline) as [|Hge]; [done|]. destruct (pick_nonempty (ms_os s1) (ready s1)); [by apply Hr|congruence]. }
  destruct (IH s1) as (a & s2 & -> & H2); [lia|lia|]. exists a, s2. split; [done|lia].
Qed.
Lemma ctx_case_ready c (s : state) : cx_deadline c ≤ time s → ctx_case c s ≠ [].
Proof.
  intros Hd. unfold ctx_case, ctx_err. destruct (_ && _); [done|]. unfold time in Hd.
  by rewrite (proj2 (Z.leb_le _ _) Hd).
Qed.

(** Enough fuel for a context: its remaining nanoseconds and the reaper's rounds. *)
Definition enough (fuel : nat) (c : ctx) (s : state) : Prop :=
  (kill_rounds ≤ fuel)%nat ∧ cx_deadline c - time s ≤ Z.of_nat fuel.
Lemma enough_later fuel c (s s' : state) : enough fuel c s → time s ≤ time s' → enough fuel c s'.
Proof. intros [??] ?. split; [done|lia]. Qed.

Lemma signalGroup_time h sig (s : state) : time s ≤ time (signalGroup h sig s).2.
Proof.
  unfold signalGroup. destruct (ms_procs s !! h) as [p|]; [|done]. destruct (pr_reaping p); [done|]. apply kill_group_time.
Qed.
Lemma terminate_live fuel c h (s : state) : enough fuel c s →
  ∃ e s', terminate fuel c h s = Some (e, s') ∧ time s ≤ time s'.
Proof.
  intros [Hf Hd]. unfold terminate. assert (Hpos : (0 < fuel)%nat) by (unfold kill_rounds in Hf; lia).
  destruct (advance_live fuel s Hf) as (s1 & -> & H1).
  destruct (done_case h s1) as [|e l]; [|exists e, s1; split; [done|lia]].
  destruct (advance_live fuel s1 Hf) as (s2 & -> & H2).
  pose proof (signalGroup_time h SIGTERM s2) as H3. destruct (signalGroup h SIGTERM s2) as [e s3]. cbn [snd] in H3.
  destruct e as [e|]; [exists (Some e), s3; split; [done|lia]|]. cbv zeta.
  edestruct (await_live fuel fuel (grace_ready c (wl_now (ms_os s3) + 250 * millisecond) h) (cx_deadline c) s3)
    as (first & s4 & -> & H4); [done| |done|lia|].
  { intros s' Ht%ctx_case_ready. unfold grace_ready. destruct (ctx_case c s'); [done|].
    destruct (done_case h s'); [|done]. by destruct (timer_case _ s'). }
  destruct first as [e|]; [exists e, s4; split; [done|lia]|].
  destruct (advance_live fuel s4 Hf) as (s5 & -> & H5).
  pose proof (signalGroup_time h SIGKILL s5) as H6. destruct (signalGroup h SIGKILL s5) as [e s6]. cbn [snd] in H6.
  destruct e as [e|]; [exists (Some e), s6; split; [done|lia]|].
  edestruct (await_live fuel fuel (reap_ready c h) (cx_deadline c) s6) as (e & s7 & -> & H7); [done| |done|lia|].
  { intros s' Ht%ctx_case_ready. unfold reap_ready. destruct (ctx_case c s'); [done|]. by destruct (done_case h s'). }
  exists e, s7. split; [done|lia].
Qed.

Lemma read_clock_time (s : state) : time s ≤ time (read_clock s).2.
Proof. unfold read_clock, time. pose proof (now_clock (ms_os s)) as Hc. by destruct (wl_clock (ms_os s)). Qed.
Lemma stop_body_live fuel c req before (s : state) : enough fuel c s → is_Some (stop_body fuel c req before s).
Proof.
  intros He. unfold stop_body. cbv zeta. destruct (advance_live fuel s (proj1 He)) as (s1 & -> & H1).
  destruct (ms_services s1 !! _) as [h|]; [|by eexists]. destruct (done_case h s1); [|by eexists].
  edestruct (terminate_live fuel c h (on_proc h pr_expect s1)) as (e & s2 & Ht & H2).
  { eapply enough_later; [done|]. unfold time in *. cbn. lia. }
  rewrite Ht. apply (terminate_psteps (W := W)) in Ht as [_ Hd].
  destruct e as [e|]; [by eexists|]. destruct (Hd eq_refl) as (p & Hp & _). cbn [ms_procs on_services]. rewrite Hp. cbn [snapshot].
  by destruct (_ || _); eexists.
Qed.
Lemma Stop_live fuel c req (s : state) : enough fuel c s → is_Some (Stop fuel c req s).
Proof.
  intros He. unfold Stop, timed. pose proof (read_clock_time s) as H1. destruct (read_clock s) as [before s1]. cbn [snd] in H1.
  destruct before as [before|e]; [|by eexists].
  destruct (stop_body_live fuel c req before s1) as [[[r err] s2] ->]; [by eapply enough_later|].
  destruct (read_clock s2) as [after s3]. by eexists.
Qed.
Lemma stop_each_live fuel c l all (s : state) : enough fuel c s → is_Some (stop_each fuel c l all s).
Proof.
  revert all s. induction l as [|[id h] l IH]; intros all s He; cbn [stop_each]; [by eexists|].
  destruct (terminate_live fuel c h s He) as (e & s1 & Ht & H1). rewrite Ht.
  apply (terminate_psteps (W := W)) in Ht as [_ Hd]. pose proof (enough_later _ _ _ _ He H1) as He1.
  destruct e as [e|]; [by apply IH|]. destruct (Hd eq_refl) as (p & Hp & _). cbv zeta. cbn [ms_procs on_services]. rewrite Hp.
  by apply IH.
Qed.
Lemma expect_all_time (s : state) : time (expect_all s) = time s.
Proof.
  unfold expect_all. generalize (ms_services s). intros ms. revert ms.
  apply (map_fold_weak_ind (λ r (_ : gmap string nat), time r = time s)); [done|]. intros id h ms r _ Hr. exact Hr.
Qed.
End live.

(** C14.  Stopping never hangs: whatever the processes do, stopping one service and
    stopping all of them return, with the context's deadline bounding every wait and the
    reaper giving up on a process group after one second (201 rounds of 5 ms). *)
Theorem stop_returns {W} `{Clocked W} fuel c req (s : mstate W) : enough fuel c s →
  is_Some (Stop fuel c req s) ∧ is_Some (StopAll fuel c s).
Proof.
  intros He. split; [by apply Stop_live|]. unfold StopAll. apply stop_each_live.
  eapply enough_later; [done|]. rewrite expect_all_time. lia.
Qed.

#[export] Instance sim_clocked : Clocked sim_os.
Proof. split; intros; cbn; lia. Qed.
(** A process that ignores every signal, still running at the deadline. *)
Definition stuck : mstate sim_os :=
  {| ms_os := {| so_now := 0; so_script := [] |}; ms_procs := {[0%nat := new_process 40]};
     ms_services := {["ticker"%string := 0%nat]}; ms_log := [] |}.
Lemma stop_returns_witness :
  is_Some (Stop 210 sample_ctx start_ticker stuck) ∧ is_Some (StopAll 210 sample_ctx stuck).
Proof. apply (stop_returns 210 sample_ctx start_ticker stuck). split; vm_compute; [lia|discriminate]. Defined.
