(* ===== verification/GuestWhole.v ===== *)
(** * GuestWhole: the agent as it is put together in the guest

    The request loop of internal/guestagent/server.go over the process manager of
    process_linux.go and the clock controller of internal/guestclock, all acting on one
    guest system: [whole_guest] gives the [Guest] interface of the loop the manager's
    operations, with the contexts the handlers make for them.  A guest is [None] when an
    operation has not returned; what other goroutines do until the next request follows
    each operation. *)

From S2P Require Import Prelude GoLib Json JsonFacts GoTime GoText JsonUtil JsonText Protocol ProtocolFacts GuestClock GuestAgent GuestServe Firecracker GuestManager GuestManagerFacts.
From Stdlib Require Import Ascii String.

(** ** The composition *)
Section whole.
Context {W : Type} `{Workloads W} `{Boundary W} (m : Manager) (fuel : nat).

(** The clock controller acts on the system under the manager. *)
#[export] Instance manager_clock : Boundary (mstate W) := {|
  Sample s := read_clock s;
  SetTime s t := let '(r, w) := SetTime (ms_os s) t in (r, set_os w s)
|}.

Definition lost : error := Errorf "operation has not returned" [].
(** Run an operation on a guest that is there, then the background until the next request. *)
Definition operate {A} (dead : A) (op : mstate W → option (A * mstate W)) (g : option (mstate W)) :
    A * option (mstate W) :=
  match g with
  | None => (dead, None)
  | Some s => match op s with
              | None => (dead, None)
              | Some (a, s) => (a, advance fuel s)
              end
  end.
#[export] Instance whole_guest : Guest (option (mstate W)) := {|
  clock_read := operate (Err lost) (λ s, Some (Read s));
  clock_set g p := operate (zero_clock_set, Some lost) (λ s, Some (Set_ p s)) g;
  run_action g d p := operate (zero_action, Some lost) (λ s, Action m fuel (with_timeout true d s) p s) g;
  run_start g d p := operate (zero_service, Some lost) (λ s, Start m fuel (with_timeout true d s) p s) g;
  run_stop g d p := operate (zero_service, Some lost) (λ s, Stop fuel (with_timeout true d s) p s) g;
  stop_all := operate (Some lost) (λ s, StopAll fuel (with_timeout false (secs 5) s) s);
  active g := match g with Some s => Active s | None => 0 end;
  health g := match g with Some s => Health s | None => None end
|}.
End whole.

(** ** Operations that start nothing *)
Section quiet.
Context {W : Type} `{Workloads W} `{Boundary W}.
Abbreviation state := (mstate W).

(** The same processes exist before and after. *)
Definition quiet (s s' : state) : Prop := dom (ms_procs s') = dom (ms_procs s).
#[export] Instance quiet_preorder : PreOrder quiet.
Proof. split; [done|]. intros s t u H1 H2. unfold quiet in *. congruence. Qed.
Lemma quiet_os s w : quiet s (set_os w s).
Proof. done. Qed.
Lemma quiet_proc s h f : quiet s (on_proc h f s).
Proof. unfold quiet. cbn. apply dom_alter_L. Qed.
Lemma quiet_services s f : quiet s (on_services f s).
Proof. done. Qed.
Lemma quiet_note s e : quiet s (note e s).
Proof. done. Qed.

Lemma kill_group_quiet s h p sig e s' : kill_group h p sig s = (e, s') → quiet s s'.
Proof. unfold kill_group. destruct (wl_kill_group _ _ _) as [x w]. by intros [= _ <-]. Qed.
Lemma kill_loop_quiet fuel deadline h p s e s' : kill_loop fuel deadline h p s = Some (e, s') → quiet s s'.
Proof.
  revert s. induction fuel as [|fuel IH]; intros s; cbn [kill_loop]; [done|].
  destruct (kill_group h p SIGKILL s) as [x s1] eqn:Ek. apply kill_group_quiet in Ek.
  destruct x as [x|]; [by intros [= _ <-]|]. destruct (activeGroupDescendants _ _) as [a w]. cbv zeta.
  destruct a as [[]|x]; [|by intros [= _ <-]..]. destruct (_ <=? _); [by intros [= _ <-]|].
  intros Hk%IH. etrans; [exact Ek|exact Hk].
Qed.
Lemma background_quiet fuel e s s' : background_step fuel e s = Some s' → quiet s s'.
Proof.
  destruct e as [h st data|h ob|h r code]; cbn [background_step]; (destruct (ms_procs s !! h) as [p|]; [|by intros [= <-]]).
  - destruct (pr_done p); intros [= <-]; [done|apply quiet_proc].
  - destruct (pr_reaping p); [by intros [= <-]|].
    destruct (match ob with None => _ | Some e => _ end) as [[cleanup s1]|] eqn:Eb; [|done]. intros [= <-].
    etrans; [|etrans; [apply (quiet_proc s1)|apply quiet_note]].
    destruct ob as [x|]; [by injection Eb as _ <-|by eapply kill_loop_quiet].
  - destruct (_ && _); intros [= <-]; [apply quiet_proc|done].
Qed.
Lemma background_steps_quiet fuel es s s' : background_steps fuel es s = Some s' → quiet s s'.
Proof.
  revert s. induction es as [|e es IH]; intros s; cbn; [by intros [= <-]|].
  destruct (background_step fuel e s) as [s1|] eqn:E; [|done]. intros Hb.
  etrans; [by eapply background_quiet|by apply IH].
Qed.
Lemma advance_quiet fuel s s' : advance fuel s = Some s' → quiet s s'.
Proof. unfold advance. destruct (wl_background _) as [es w]. intros Hb%background_steps_quiet. exact Hb. Qed.
Lemma await_quiet {A} fuel rounds (ready : state → list A) s a s' : await fuel rounds ready s = Some (a, s') → quiet s s'.
Proof.
  revert s. induction rounds as [|rounds IH]; intros s; cbn [await]; [done|].
  destruct (advance fuel s) as [s1|] eqn:Ea; [|done]. apply advance_quiet in Ea.
  destruct (pick _ _) as [x|]; [by intros [= _ <-]|]. intros Hw%IH. by etrans.
Qed.
Lemma signal_quiet h sig s e s' : signalGroup h sig s = (e, s') → quiet s s'.
Proof.
  unfold signalGroup. destruct (ms_procs s !! h) as [p|]; [|by intros [= _ <-]].
  destruct (pr_reaping p); [by intros [= _ <-]|]. apply kill_group_quiet.
Qed.
Lemma terminate_quiet fuel c h s e s' : terminate fuel c h s = Some (e, s') → quiet s s'.
Proof.
  unfold terminate. destruct (advance fuel s) as [s1|] eqn:E1; [|done]. apply advance_quiet in E1.
  destruct (done_case h s1); [|by intros [= _ <-]].
  destruct (advance fuel s1) as [s2|] eqn:E2; [|done]. apply advance_quiet in E2.
  destruct (signalGroup h SIGTERM s2) as [x s3] eqn:E3. apply signal_quiet in E3.
  assert (H3 : quiet s s3) by (etrans; [|etrans]; eassumption). destruct x; [by intros [= _ <-]|]. cbv zeta.
  destruct (await _ _ _ s3) as [[first s4]|] eqn:E4; [|done]. apply await_quiet in E4.
  assert (H4 : quiet s s4) by (by etrans). destruct first; [by intros [= _ <-]|].
  destruct (advance fuel s4) as [s5|] eqn:E5; [|done]. apply advance_quiet in E5.
  destruct (signalGroup h SIGKILL s5) as [x s6] eqn:E6. apply signal_quiet in E6.
  assert (H6 : quiet s s6) by (etrans; [|etrans]; eassumption). destruct x; [by intros [= _ <-]|].
  intros Hw%await_quiet. by etrans.
Qed.
Lemma read_quiet s o s' : read_clock s = (o, s') → quiet s s'.
Proof. unfold read_clock. destruct (wl_clock _). by intros [= _ <-]. Qed.
Lemma stop_body_quiet fuel c req before s r s' : stop_body fuel c req before s = Some (r, s') → quiet s s'.
Proof.
  unfold stop_body. destruct (advance fuel s) as [s1|] eqn:E1; [|done]. apply advance_quiet in E1. cbv zeta.
  destruct (ms_services s1 !! _) as [h|]; [|by intros [= _ <-]]. destruct (done_case h s1); [|by intros [= _ <-]].
  destruct (terminate fuel c h _) as [[err s2]|] eqn:E2; [|done]. apply terminate_quiet in E2.
  assert (H2 : quiet s s2) by (etrans; [exact E1|etrans; [apply (quiet_proc s1)|exact E2]]).
  destruct err; [by intros [= _ <-]|]. destruct (ms_procs _ !! h) as [p|]; [|done]. cbn [snapshot].
  destruct (_ || _); by intros [= _ <-].
Qed.
Lemma Stop_quiet fuel c req s r s' : Stop fuel c req s = Some (r, s') → quiet s s'.
Proof.
  unfold Stop, timed. destruct (read_clock s) as [before s1] eqn:E1. apply read_quiet in E1.
  destruct before as [before|e]; [|by intros [= _ <-]].
  destruct (stop_body fuel c req before s1) as [[[r2 e2] s2]|] eqn:E2; [|done]. apply stop_body_quiet in E2.
  destruct (read_clock s2) as [after s3] eqn:E3. apply read_quiet in E3. intros [= _ <-]. etrans; [|etrans]; eassumption.
Qed.
Lemma stop_each_quiet fuel c l all s e s' : stop_each fuel c l all s = Some (e, s') → quiet s s'.
Proof.
  revert all s. induction l as [|[id h] l IH]; intros all s; cbn [stop_each]; [by intros [= _ <-]|].
  destruct (terminate fuel c h s) as [[err s1]|] eqn:E1; [|done]. apply terminate_quiet in E1. cbv zeta.
  destruct err; [intros Hs%IH; by etrans|]. destruct (ms_procs _ !! h); [|done]. intros Hs%IH.
  etrans; [exact E1|exact Hs].
Qed.
Lemma expect_quiet s : quiet s (expect_all s).
Proof.
  unfold expect_all. generalize (ms_services s). intros ms. revert ms.
  apply (map_fold_weak_ind (λ r (_ : gmap string nat), quiet s r)); [done|]. intros id h ms r _ Hr.
  etrans; [exact Hr|apply quiet_proc].
Qed.
Lemma StopAll_quiet fuel c s e s' : StopAll fuel c s = Some (e, s') → quiet s s'.
Proof. unfold StopAll. intros Hs%stop_each_quiet. etrans; [apply expect_quiet|exact Hs]. Qed.

(** A clock operation touches the system only. *)
Lemma Set_system p s r s' : Set_ p s = (r, s') → ∃ w, s' = set_os w s.
Proof.
  assert (H1 : ∀ u o u', Sample u = (o, u') → ∀ w, u = set_os w s → ∃ w', u' = set_os w' s).
  { intros u o u' Hs w ->. cbn in Hs. unfold read_clock in Hs. destruct (wl_clock _) as [x w']. injection Hs as _ <-. by exists w'. }
  assert (H2 : ∀ u t o u', SetTime u t = (o, u') → ∀ w, u = set_os w s → ∃ w', u' = set_os w' s).
  { intros u t o u' Hs w ->. cbn in Hs. destruct (SetTime _ t) as [x w']. injection Hs as _ <-. by exists w'. }
  assert (Hid : s = set_os (ms_os s) s) by (by destruct s).
  unfold Set_. destruct (parse_rfc3339nano _) as [target|]; [|intros [= _ <-]; by exists (ms_os s)].
  do 2 (destruct (_ || _); [intros [= _ <-]; by exists (ms_os s)|]).
  destruct (Sample s) as [before s1] eqn:E1. destruct (H1 _ _ _ E1 _ Hid) as (w1 & Hw1).
  destruct before as [before|e]; [|intros [= _ <-]; eauto].
  destruct (SetTime s1 target) as [done_ s2] eqn:E2. destruct (H2 _ _ _ _ E2 _ Hw1) as (w2 & Hw2).
  destruct done_ as [[]|e]; [|intros [= _ <-]; eauto].
  destruct (Sample s2) as [after s3] eqn:E3. destruct (H1 _ _ _ E3 _ Hw2) as (w3 & Hw3).
  destruct after; intros [= _ <-]; eauto.
Qed.
End quiet.

(** ** Invariants of the whole agent *)
Section sessions.
Context {W C : Type} `{Workloads W} `{Boundary W} `{Writer C} (m : Manager) (fuel : nat).
Variable error_text : error → string.
#[local] Instance assembled : Guest (option (mstate W)) := whole_guest m fuel.

Definition sound (g : option (mstate W)) : Prop := match g with Some s => mgr_wf m s | None => True end.
(** What an operation did to a guest that is still there. *)
Lemma operate_some {A} (dead : A) (op : mstate W → _) g a s' : operate fuel dead op g = (a, Some s') →
  ∃ s s1, g = Some s ∧ op s = Some (a, s1) ∧ advance fuel s1 = Some s'.
Proof.
  unfold operate. destruct g as [s|]; [|done]. destruct (op s) as [[b s1]|] eqn:E; [|done]. intros [= -> Ha].
  by exists s, s1.
Qed.
Lemma sound_os w (s : mstate W) : mgr_wf m s → mgr_wf m (set_os w s).
Proof. apply proc_step_wf, step_os. Qed.
Lemma sound_call (s s' : mstate W) : mgr_wf m s → call m s s' → mgr_wf m s'.
Proof. intros Hw Hc. by eapply call_wf. Qed.

(** Every operation of the guest keeps the manager's invariant. *)
Lemma operate_sound {A} (dead : A) (op : mstate W → _) g a g' :
  (∀ s s1, mgr_wf m s → op s = Some (a, s1) → mgr_wf m s1) →
  operate fuel dead op g = (a, g') → sound g → sound g'.
Proof.
  intros Hop Ho Hg. destruct g' as [s'|]; [|done]. apply operate_some in Ho as (s & s1 & -> & Hs & Ha).
  eapply sound_call; [by eapply Hop|by eapply call_background].
Qed.
Lemma effect_sound s g req r e s' g' : effect s g req r e s' g' → sound g → sound g'.
Proof.
  intros He Hg. destruct r; cbn [effect] in He.
  - destruct He as (_ & _ & [->|(_ & x & Hs)]); [done|]. eapply operate_sound; [|exact Hs|done].
    intros t t1 Hw Ht. eapply sound_call; [done|eapply call_stop_all; exact Ht].
  - by destruct He as (_ & _ & _ & -> & _).
  - destruct He as (_ & _ & x & Hs). eapply operate_sound; [|exact Hs|done]. intros t t1 Hw Ht.
    injection Ht as Ht. unfold Read in Ht. cbn in Ht. unfold read_clock in Ht. destruct (wl_clock _). injection Ht as _ <-. by apply sound_os.
  - destruct He as (_ & (p & _ & _ & Hs) & _). eapply operate_sound; [|exact Hs|done]. intros t t1 Hw Ht.
    injection Ht as Ht. apply Set_system in Ht as (w & ->). by apply sound_os.
  - destruct He as (_ & _ & _ & p & d & _ & _ & _ & _ & Hs). eapply operate_sound; [|exact Hs|done].
    intros t t1 Hw Ht. eapply sound_call; [done|eapply call_action; exact Ht].
  - destruct He as (_ & p & d & _ & _ & _ & _ & [(_ & _ & Hs)|(_ & _ & Hs)]);
      (eapply operate_sound; [|exact Hs|done]); intros t t1 Hw Ht; (eapply sound_call; [done|]);
      [eapply call_start; exact Ht|eapply call_stop; exact Ht].
  - destruct He as (_ & _ & _ & _ & Hs). eapply operate_sound; [|exact Hs|done].
    intros t t1 Hw Ht. eapply sound_call; [done|eapply call_stop_all; exact Ht].
Qed.

(** A request that starts no workload leaves the processes that exist. *)
Lemma effect_quiet s t req r e s' t' :
  effect s (Some t) req r e s' (Some t') → clock_ready s = false → quiet t t'.
Proof.
  assert (Hop : ∀ {A} (dead : A) op a, operate fuel dead op (Some t) = (a, Some t') →
    (∀ t1, op t = Some (a, t1) → quiet t t1) → quiet t t').
  { intros A dead op a Ho Hq. apply operate_some in Ho as (s0 & s1 & [= <-] & Hs & Ha).
    etrans; [exact (Hq _ Hs)|exact (advance_quiet _ _ _ Ha)]. }
  intros He Hr. destruct r; cbn [effect] in He.
  - destruct He as (_ & _ & [[= ->]|(_ & x & Hs)]); [done|]. eapply Hop; [exact Hs|]. intros t1 Ht. eapply StopAll_quiet; exact Ht.
  - by destruct He as (_ & _ & _ & [= ->] & _).
  - destruct He as (_ & _ & x & Hs). eapply Hop; [exact Hs|]. intros t1 Ht. injection Ht as Ht. eapply read_quiet; exact Ht.
  - destruct He as (_ & (p & _ & _ & Hs) & _). eapply Hop; [exact Hs|]. intros t1 Ht.
    injection Ht as Ht. apply Set_system in Ht as (w & ->). done.
  - destruct He as (_ & Hc & _). congruence.
  - destruct He as (_ & p & d & _ & _ & _ & _ & [(_ & Hc & _)|(_ & _ & Hs)]); [congruence|].
    eapply Hop; [exact Hs|]. intros t1 Ht. eapply Stop_quiet; exact Ht.
  - destruct He as (_ & _ & _ & _ & Hs). eapply Hop; [exact Hs|]. intros t1 Ht. eapply StopAll_quiet; exact Ht.
Qed.
(** A guest that was lost stays lost. *)
Lemma effect_there s g req r e s' t' : effect s g req r e s' (Some t') → ∃ t, g = Some t.
Proof.
  assert (Hop : ∀ {A} (dead : A) op a, operate fuel dead op g = (a, Some t') → ∃ t, g = Some t).
  { intros A dead op a Ho. apply operate_some in Ho as (t & _ & Ht & _). by exists t. }
  destruct r; cbn [effect]; [intros (_ & _ & [<-|(_ & x & Hs)])|intros (_ & _ & _ & <- & _)|intros (_ & _ & x & Hs)
    |intros (_ & (p & _ & _ & Hs) & _)|intros (_ & _ & _ & p & d & _ & _ & _ & _ & Hs)
    |intros (_ & p & d & _ & _ & _ & _ & [(_ & _ & Hs)|(_ & _ & Hs)])|intros (_ & _ & _ & _ & Hs)];
    first [by eexists|eapply Hop; exact Hs].
Qed.

(** What a session keeps, request by request. *)
Lemma serve_keeps (P : Server → option (mstate W) → Prop) interrupted n seen s g r (c : C) out s' g' c' xs :
  (∀ s g req r e s' g', P s g → handle error_text s g req = ((r, e), s', g') → P s' g') →
  serve error_text interrupted n seen s g r c = (out, s', g', c', xs) → P s g → P s' g'.
Proof.
  intros Hstep. revert seen s g r c out xs. induction n as [|n IH]; cbn [serve]; intros seen s g r c out xs Hs Hp;
    [by injection Hs as <- <- <- <- <-|].
  destruct (ReadLine r MaxFrame) as [frame r1]. destruct (rbind _ _) as [req|e]; [|by injection Hs as <- <- <- <- <-].
  destruct (handle error_text s g req) as [[[res err] s1] g1] eqn:Eh. pose proof (Hstep _ _ _ _ _ _ _ Hp Eh) as Hp1.
  destruct (respond error_text req res err) as [resp|e]; [|by injection Hs as <- <- <- <- <-].
  destruct (WriteFrame c (enc_response resp)) as [[e|] c1]; [by injection Hs as <- <- <- <- <-|].
  destruct (q_op req =?s "shutdown"); [by injection Hs as <- <- <- <- <-|].
  destruct (serve error_text interrupted n (q_id req :: seen) s1 g1 r1 c1) as [[[[out1 s2] g2] c2] xs1] eqn:El.
  injection Hs as <- <- <- <- <-. by eapply IH.
Qed.
Lemma serve_sound interrupted n seen s g r (c : C) out s' g' c' xs :
  serve error_text interrupted n seen s g r c = (out, s', g', c', xs) → sound g → sound g'.
Proof.
  apply (serve_keeps (λ _, sound)). intros ? ? ? ? ? ? ? Hg Hh%handle_effect. by eapply effect_sound.
Qed.

(** New processes mean that the clock had been made ready. *)
Lemma serve_barrier interrupted n seen s t r (c : C) out s' t' c' xs :
  serve error_text interrupted n seen s (Some t) r c = (out, s', Some t', c', xs) →
  quiet t t' ∨ ∃ pre, pre `prefix_of` xs ∧ clock_flag (clock_ready s) pre = true.
Proof.
  revert seen s t r c out xs. induction n as [|n IH]; cbn [serve]; intros seen s t r c out xs Hs;
    [injection Hs as _ _ <- _ _; by left|].
  destruct (clock_ready s) eqn:Er; [right; exists []; split; [apply prefix_nil|done]|].
  destruct (ReadLine r MaxFrame) as [frame r1]. destruct (rbind _ _) as [req|e]; [|injection Hs as _ _ <- _ _; by left].
  destruct (handle error_text s (Some t) req) as [[[res err] s1] g1] eqn:Eh. pose proof (handle_effect _ _ _ _ _ _ _ _ Eh) as He.
  assert (Hq : ∀ u, g1 = Some u → quiet t u) by (intros u ->; by eapply effect_quiet).
  destruct (respond error_text req res err) as [resp|e]; [|injection Hs as _ _ Hg _ _; left; by apply Hq].
  destruct (WriteFrame c (enc_response resp)) as [[e|] c1]; [injection Hs as _ _ Hg _ _; left; by apply Hq|].
  destruct (q_op req =?s "shutdown"); [injection Hs as _ _ Hg _ _; left; by apply Hq|].
  destruct (serve error_text interrupted n (q_id req :: seen) s1 g1 r1 c1) as [[[[out1 s2] g2] c2] xs1] eqn:El.
  injection Hs as <- <- -> <- <-.
  assert (∃ u, g1 = Some u) as [u ->].
  { destruct g1 as [u|]; [by exists u|]. exfalso.
    assert (Hkeep := serve_keeps (λ _ g, g = None) interrupted n _ _ _ _ _ _ _ _ _ _ 
      ltac:(intros ??? ?? ? [u|] -> Hh%handle_effect; [|done]; by destruct (effect_there _ _ _ _ _ _ _ Hh)) El eq_refl). done. }
  destruct (IH _ _ _ _ _ _ _ El) as [Hu|(pre & Hpre & Hf)]; [left; etrans; [by apply Hq|done]|].
  right. eexists (_ :: pre). split; [by apply prefix_cons|].
  destruct (handle_flag _ _ _ _ _ _ _ _ Eh) as (_ & Hfl & _). rewrite Er in Hfl.
  unfold clock_flag in *. cbn [fold_left]. by rewrite <-Hfl.
Qed.
End sessions.

(** The flag is raised by a clock change whose read-back was valid. *)
Definition clock_established (xs : list exchange) : Prop :=
  ∃ x r, x ∈ xs ∧ x_reply x = RClockSet r ∧ x_error x = None ∧ cr_valid r = true.
Lemma flag_established xs : clock_flag false xs = true → clock_established xs.
Proof.
  assert (Hg : ∀ b, clock_flag b xs = true → b = true ∨ clock_established xs).
  { induction xs as [|x xs IH]; intros b; unfold clock_flag in *; cbn [fold_left]; [by left|].
    intros [Hf|(y & r & Hy & Hr)]%IH; [|right; exists y, r; split; [by right|done]].
    unfold flag_after in Hf. destruct (x_reply x) eqn:Ex; try (by left). destruct (x_error x) eqn:Ee; [done|].
    right. eexists x, _. split; [left|done]. }
  intros [?|?]%Hg; done.
Qed.

(** The deferred stop, on a guest that is there. *)
Lemma stopped_last {W} `{Workloads W} `{Boundary W} m fuel g e (t' : mstate W) :
  stop_all (Guest := whole_guest m fuel) g = (e, Some t') → sound m g →
  ∃ t1 t2, g = Some t1 ∧ StopAll fuel (with_timeout false (secs 5) t1) t1 = Some (e, t2) ∧ advance fuel t2 = Some t' ∧
    mgr_wf m t' ∧ quiet t1 t' ∧ (e = None → ms_services t' = ∅).
Proof.
  intros Hs Hg. cbn [stop_all whole_guest] in Hs. pose proof Hs as Ho. apply operate_some in Hs as (t1 & t2 & -> & Hs & Ha).
  exists t1, t2. split_and!; [done|done|done| | |].
  - eapply (sound_call m t2); [|by eapply call_background]. eapply (sound_call m t1); [done|by eapply call_stop_all].
  - etrans; [by eapply StopAll_quiet|by eapply advance_quiet].
  - intros ->. apply (StopAll_steps m) in Hs as (_ & _ & _ & Hnone); [|done]. destruct (Hnone eq_refl) as [<- _].
    by apply psteps_services, (advance_psteps fuel).
Qed.
Lemma quiet_initial {W} `{Workloads W} (w : W) t : quiet (initial w) t → ms_procs t = ∅.
Proof. unfold quiet. cbn [initial ms_procs]. rewrite dom_empty_L. apply dom_empty_inv_L. Qed.

(** ** Claims *)

(** C8.  The assembled agent (request loop, process manager and clock controller on one
    guest system), whatever arrives on its connections and whatever the processes do: the
    manager's invariant holds when it returns (output quotas, no signal to a reaped group,
    at most four declared services); a workload process exists only if the session had
    set the clock and read it back validly before; and when serving ends the services are
    stopped last, none being left when that stop reports no error. *)
Theorem agent_assembled {W C} `{Workloads W} `{Boundary W} `{Writer C} m fuel error_text parent
    (accepts : list (result (accepted C))) s (w : W) out s' t' sessions :
  let guest := whole_guest m fuel in
  Serve error_text parent accepts s (Some (initial w)) = (out, s', Some t', sessions) →
  clock_ready s = false →
  mgr_wf m t' ∧
  (ms_procs t' ≠ ∅ → Exists clock_established sessions) ∧
  (out ≠ None → ∃ t1 e t2, StopAll fuel (with_timeout false (secs 5) t1) t1 = Some (e, t2) ∧
     advance fuel t2 = Some t' ∧ (e = None → ms_services t' = ∅)).
Proof.
  intros guest Hs Hready. pose proof (initial_wf m w) as Hw. unfold Serve in Hs.
  destruct accepts as [|[a|e] accepts]; cbn [accept_loop] in Hs.
  - injection Hs as <- <- <- <-. by split_and!.
  - destruct (serveConn error_text _ s _ _ _) as [[[[out1 s1] g1] c1] xs] eqn:Es. unfold serveConn in Es.
    assert (Hg : sound m g1) by (by eapply (serve_sound m fuel)).
    pose proof (serve_outcome _ _ _ _ _ _ _ _ _ _ _ _ _ Es) as Hout.
    assert (Hend : ∃ o, out1 = Some o ∧ (o.1 = true ∨ ∃ e, o.2 = Some e)).
    { destruct out1 as [[[] o]|]; [by eexists; split; [|left]| |].
      - eexists. split; [done|]. right. destruct o; [by eexists|done].
      - by destruct (serveConn_session _ _ _ _ _ _ _ _ _ _ _ Es). }
    destruct Hend as ([b o] & -> & Ho).
    assert (Hst : (let '(_, w2) := stop_all g1 in (Some o, s1, w2, [xs])) = (out, s', Some t', sessions)).
    { destruct b; [exact Hs|]. destruct Ho as [|[e Ho]]; [done|]. cbn in Ho. subst o. exact Hs. }
    destruct (stop_all g1) as [es g2] eqn:Est. injection Hst as <- <- -> <-.
    destruct (stopped_last _ _ _ _ _ Est Hg) as (t1 & t2 & -> & H3 & H4 & H5 & H6 & H7). split_and!; [done| |eauto 6].
    intros Hne. constructor. apply (serve_barrier m fuel) in Es. rewrite Hready in Es.
    destruct Es as [Hq|(pre & [post ->] & Hf)]; [destruct Hne; apply (quiet_initial w); by etrans|].
    apply flag_established in Hf as (x & r & Hx & Hr). exists x, r. split; [apply elem_of_app; by left|done].
  - destruct (stop_all (Some (initial w))) as [es g2] eqn:Est. injection Hs as <- <- -> <-.
    destruct (stopped_last _ _ _ _ _ Est Hw) as (t1 & t2 & [= <-] & H3 & H4 & H5 & H6 & H7). split_and!; [done| |eauto 6].
    intros Hne. destruct Hne. by apply (quiet_initial w).
Qed.

(** *** Example: the clock is set, the declared action runs, the host shuts the agent down *)
Record demo_os := { do_mono : Z; do_offset : Z; do_script : list (list background) }.
Definition do_later (d : Z) (w : demo_os) : demo_os :=
  {| do_mono := do_mono w + d; do_offset := do_offset w; do_script := do_script w |}.
Definition do_observe (w : demo_os) : ClockObservation :=
  {| Realtime := do_mono w + do_offset w; MonotonicNS := do_mono w |}.
#[export] Instance demo_workloads : Workloads demo_os := {|
  wl_clock w := (Ok (do_observe w), do_later 1 w);
  wl_vsock w := (None, w);
  wl_start w _ := (Ok 40, w);
  wl_kill_group w _ _ := (None, w);
  wl_kill w _ := w;
  wl_proc w := (Ok ["1"; "self"]%string, w);
  wl_stat w _ := (Ok "1 (init) S 0 1 1"%string, w);
  wl_sleep w d := do_later (Z.max 0 d) w;
  wl_now := do_mono;
  wl_cancelled _ := false;
  wl_background w := (hd [] (do_script w),
                      {| do_mono := do_mono w + 1; do_offset := do_offset w; do_script := tl (do_script w) |});
  wl_pick _ _ := 0%nat
|}.
#[export] Instance demo_boundary : Boundary demo_os := {|
  Sample w := (Ok (do_observe w), do_later 1 w);
  SetTime w t := (Ok tt, {| do_mono := do_mono w + 1; do_offset := t - (do_mono w + 1); do_script := do_script w |})
|}.
Definition demo_boot : demo_os :=
  {| do_mono := 0; do_offset := 0; do_script := [[]; exits 0 "{}"%string] |}.
Definition demo_accepts : list (result (accepted string)) :=
  [Ok {| ac_reader := sample_stream (frame_of early_action +:+ frame_of set_clock_call +:+ frame_of later_action
                                     +:+ frame_of stop_call);
         ac_conn := ""%string; ac_interrupted := λ _, None |}].
Definition demo_served :=
  Serve (H := whole_guest sample_manager 210) sample_text None demo_accepts sample_server (Some (initial demo_boot)).
Definition demo_end : mstate demo_os :=
  match demo_served with (_, _, Some t, _) => t | _ => initial demo_boot end.
(** The action before the clock change was refused; one process ran and the agent ended well. *)
Lemma agent_assembled_witness :
  demo_served.1.1.1 = Some None ∧ size (ms_procs demo_end) = 1%nat ∧ mgr_wf sample_manager demo_end ∧
  Exists clock_established demo_served.2.
Proof.
  assert (Hok : demo_served.1.1.1 = Some None ∧ size (ms_procs demo_end) = 1%nat ∧
                match demo_served.1.2 with Some _ => true | None => false end = true)
    by (vm_compute; split; [|split]; reflexivity).
  destruct Hok as (H1 & H2 & H3). unfold demo_end in *. destruct demo_served as [[[out s'] g'] sessions] eqn:E.
  destruct g' as [t'|]; [|discriminate H3]. unfold demo_served in E. cbn in H1, H2.
  destruct (agent_assembled sample_manager 210 sample_text None demo_accepts sample_server demo_boot out s' t' sessions E)
    as (Hw & Hex & _); [reflexivity|]. split; [exact H1|]. split; [exact H2|]. split; [exact Hw|]. apply Hex.
  intros He. rewrite He in H2. discriminate H2.
Defined.
