(* ===== verification/GuestClient.v ===== *)
(** * GuestClient: internal/guestclient/client.go

    The host's end of the guest connection: the vsock handshake, and [Call], which
    sends one request, reads one response and decides what the caller may conclude.
    A connection is a [Writer] with the bytes that have arrived so far. *)

From S2P Require Import Prelude GoLib Json JsonFacts GoTime GoText JsonUtil JsonText Protocol ProtocolFacts.
From Stdlib Require Import Ascii String.

Class Conn (C : Type) `{Writer C} := {
  inbound : C → reader;
  set_inbound : C → reader → C;
  close_conn : C → C
}.

Record Client (C : Type) := {
  conn : C; run_id : string; nonce : string; next : Z; broken : bool
}.
Arguments conn {C} _.
Arguments run_id {C} _.
Arguments nonce {C} _.
Arguments next {C} _.
Arguments broken {C} _.
Arguments Build_Client {C} _ _ _ _ _.

Definition guest_operations : list string :=
  ["hello"; "clock.read"; "clock.set"; "action.exec"; "service.start"; "service.stop"; "shutdown"]%string.
(** Operations whose loss in transit changes nothing in the guest. *)
Definition read_only (op : string) : bool := (op =?s "hello") || (op =?s "clock.read").

Section client.
Context {C : Type} `{Conn C}.

(** ** The handshake *)
Definition vsock_reply (line : string) : result unit :=
  match split_on " " line with
  | [status; port] =>
      fail_if status <>?s "OK" with Errorf "invalid Firecracker vsock handshake" [] ;;
      match parse_uint 10 32 port with
      | Some assigned =>
          fail_if negb (all_bytes is_digit port) || (assigned =? 0)
            with Errorf "invalid assigned vsock host port" [] ;; Ok tt
      | None => Err (Errorf "invalid assigned vsock host port" [])
      end
  | _ => Err (Errorf "invalid Firecracker vsock handshake" [])
  end.

(** [dialed] is the outcome of connecting to the Unix socket. *)
Definition Dial (port : Z) (run nonce : string) (dialed : result C) : result (Client C) * option C :=
  if negb (ValidID run) || (blen nonce <? 32) || (port =? 0)
  then (Err (Errorf "invalid guest connection identity" []), None) else
  match dialed with
  | Err e => (Err e, None)
  | Ok c =>
      let text := ("CONNECT " +:+ utoa port +:+ String newline "")%string in
      let '(_, werr, c) := Write c text in
      match werr with
      | Some e => (Err e, Some (close_conn c))
      | None =>
          let '(line, r) := ReadLine (inbound c) 128 in
          let c := set_inbound c r in
          match (let? line := line in vsock_reply line) with
          | Err e => (Err e, Some (close_conn c))
          | Ok _ => (Ok (Build_Client c run nonce 0 false), Some c)
          end
      end
  end.

(** ** Calls *)
Definition poison (cl : Client C) (c : C) (n : Z) : Client C :=
  Build_Client (close_conn c) (run_id cl) (nonce cl) n true.
Definition fail_call (op : string) (e : error) : error :=
  if read_only op then e else ErrOutcomeUnknown e.

(** What the envelope of a response says: a result, or the guest's typed error. *)
Definition open_response (req : Request) (frame : string) : result (string + Error) :=
  let? resp := map_err (Wrapf "decode response: %w" [])
                       (JsonUtil.Decode dec_response zero_response frame) in
  fail_if (p_version resp <>?s Version) || (p_id resp <>?s q_id req) || (p_op resp <>?s q_op req)
          || (p_run resp <>?s q_run req) || (p_nonce resp <>?s q_nonce req)
    with Errorf "guest response identity mismatch" [] ;;
  fail_if Bool.eqb (match p_error resp with None => true | Some _ => false end) (p_result resp =?s "")
    with Errorf "guest response must contain exactly one result or error" [] ;;
  fail_if p_result resp =?s "null" with Errorf "guest result must not be null" [] ;;
  match p_error resp with
  | Some e =>
      fail_if (e_code e =?s "") || (e_message e =?s "") with Errorf "invalid guest error envelope" [] ;;
      Ok (inr e)
  | None => Ok (inl (p_result resp))
  end.

(** [ctx_err] is the context's error when the call starts; [payload] is [None] for a
    nil payload and [Some None] for a value that does not marshal. *)
Definition Call {A} (cl : Client C) (ctx_err : option error) (op : string)
    (payload : option (option string)) (d : decoder A) : result A * Client C :=
  if broken cl then (Err (Errorf "guest connection unusable after protocol failure" []), cl) else
  match ctx_err with
  | Some e => (Err e, cl)
  | None =>
      if negb (existsb (String.eqb op) guest_operations)
      then (Err (Errorf "unsupported guest operation" []), cl) else
      match (match payload with None => Some "{}"%string | Some b => b end) with
      | None => (Err (Errorf "json: unsupported value" []), cl)
      | Some b =>
          let n := (next cl + 1) mod 2 ^ 64 in
          let req := {| q_version := Version; q_id := utoa n; q_op := op; q_run := run_id cl;
                        q_nonce := nonce cl; q_payload := b |} in
          let '(werr, c) := WriteFrame (conn cl) (enc_request req) in
          match werr with
          | Some e => (Err (fail_call op e), poison cl c n)
          | None =>
              let '(frame, r) := ReadLine (inbound c) MaxFrame in
              let c := set_inbound c r in
              let alive := Build_Client c (run_id cl) (nonce cl) n false in
              match (let? frame := frame in open_response req frame) with
              | Err e => (Err (fail_call op e), poison cl c n)
              | Ok (inr e) => (Err (ErrProtocol (e_code e) (e_message e) (e_details e)), alive)
              | Ok (inl raw) =>
                  match JsonUtil.Decode d (JsonUtil.zero d) raw with
                  | Err e => (Err (fail_call op (Wrapf "decode result: %w" [] e)), poison cl c n)
                  | Ok v => (Ok v, alive)
                  end
              end
          end
      end
  end.
End client.

(** ** What a caller may conclude *)

(** The request a call sends. *)
Definition request_of {C} (cl : Client C) (op body : string) : Request :=
  {| q_version := Version; q_id := utoa ((next cl + 1) mod 2 ^ 64); q_op := op; q_run := run_id cl;
     q_nonce := nonce cl; q_payload := body |}.

(** The frame is the response to this very request. *)
Definition response_to (req : Request) (frame : string) (resp : Response) : Prop :=
  JsonUtil.Decode dec_response zero_response frame = Ok resp ∧
  p_version resp = Version ∧ p_id resp = q_id req ∧ p_op resp = q_op req ∧ p_run resp = q_run req ∧
  p_nonce resp = q_nonce req.

Lemma open_response_ok req frame r : open_response req frame = Ok r →
  ∃ resp, response_to req frame resp ∧
    match r with
    | inl raw => p_error resp = None ∧ p_result resp = raw ∧ raw ≠ ""%string ∧ raw ≠ "null"%string
    | inr e => p_error resp = Some e ∧ p_result resp = ""%string ∧ e_code e ≠ ""%string ∧ e_message e ≠ ""%string
    end.
Proof.
  unfold open_response. intros H. inv_ok H. apply map_err_ok in E. exists a. to_prop. split; [done|].
  destruct (p_error a) as [e|].
  - inv_ok H. injection H as <-. to_prop. destruct (String.eqb_spec (p_result a) ""); [done|].
    by cbn in E1.
  - injection H as <-. destruct (String.eqb_spec (p_result a) ""); [by cbn in E1|done].
Qed.

Section outcomes.
Context {C : Type} `{Conn C} `{!LawfulWriter C}.

(** The connection after a request and the reply to it. *)
Definition conversed (cl : Client C) (op body : string) (c c1 : C) (frame : string) : Prop :=
  ∃ v r, enc_request (request_of cl op body) = Some v ∧
    WriteFrame (conn cl) (Some v) = (None, c) ∧
    delivered c = (delivered (conn cl) +:+ v +:+ String newline "")%string ∧
    ReadLine (inbound c) MaxFrame = (Ok frame, r) ∧ c1 = set_inbound c r.

Lemma write_request_delivers (cl : Client C) op body c :
  WriteFrame (conn cl) (enc_request (request_of cl op body)) = (None, c) →
  ∃ v, enc_request (request_of cl op body) = Some v ∧ WriteFrame (conn cl) (Some v) = (None, c) ∧
       delivered c = (delivered (conn cl) +:+ v +:+ String newline "")%string.
Proof.
  intros Hw. destruct (enc_request (request_of cl op body)) as [v|]; [|done]. exists v.
  split; [done|]. split; [done|]. unfold WriteFrame in Hw. destruct (MaxFrame <? _); [done|].
  by apply write_all_delivers in Hw.
Qed.
End outcomes.

(** C33.  What a call may conclude.  Success: exactly one request frame was sent, the
    frame that came back is a response to this very request (version, ID, operation,
    run and nonce), it carries a non-null result and no error, and the value returned is
    that result strictly decoded.  Failure: either nothing was sent; or the guest
    answered this request with a typed error; or the connection is closed and will
    never be used again, and for an operation that can change the guest the outcome is
    reported unknown. *)
Theorem call_outcome {C} `{Conn C} `{!LawfulWriter C} {A} (cl : Client C) ctx op payload (d : decoder A) res cl' :
  Call cl ctx op payload d = (res, cl') →
  match res with
  | Ok v =>
      broken cl' = false ∧ ∃ body c c1 frame resp,
        conversed cl op body c c1 frame ∧ conn cl' = c1 ∧
        response_to (request_of cl op body) frame resp ∧ p_error resp = None ∧
        p_result resp ≠ "null"%string ∧
        JsonUtil.Decode d (JsonUtil.zero d) (p_result resp) = Ok v
  | Err e =>
      cl' = cl ∨
      (broken cl' = false ∧ ∃ body c c1 frame resp err,
         conversed cl op body c c1 frame ∧
         response_to (request_of cl op body) frame resp ∧ p_error resp = Some err ∧ p_result resp = ""%string ∧
         e = ErrProtocol (e_code err) (e_message err) (e_details err)) ∨
      (broken cl' = true ∧ (∃ c, conn cl' = close_conn c) ∧
       (read_only op = false → ∃ inner, e = ErrOutcomeUnknown inner))
  end.
Proof.
  unfold Call. intros Hc. destruct (broken cl); [simplify_eq; by left|].
  destruct ctx; [simplify_eq; by left|]. destruct (negb _); [simplify_eq; by left|].
  destruct (match payload with None => _ | Some v => _ end) as [body|]; [|simplify_eq; by left].
  fold (request_of cl op body) in Hc.
  assert (Hfail : ∀ c e, (Err (fail_call op e), poison cl c ((next cl + 1) mod 2 ^ 64)) = (res, cl') →
    match res with Ok _ => False | Err e' => broken cl' = true ∧ (∃ c, conn cl' = close_conn c) ∧
       (read_only op = false → ∃ inner, e' = ErrOutcomeUnknown inner) end).
  { intros c e [= <- <-]. split; [done|]. split; [by exists c|]. unfold fail_call.
    intros ->. by exists e. }
  destruct (WriteFrame (conn cl) (enc_request (request_of cl op body))) as [[e|] c] eqn:Ew.
  { apply Hfail in Hc. destruct res; [done|auto]. }
  destruct (write_request_delivers _ _ _ _ Ew) as (v & Hv & Hw & Hd).
  destruct (ReadLine (inbound c) MaxFrame) as [frame r] eqn:Er.
  destruct (rbind frame _) as [[raw|err]|e] eqn:Eo.
  - apply rbind_ok in Eo as (f & -> & Ho).
    destruct (JsonUtil.Decode d (JsonUtil.zero d) raw) as [x|e] eqn:Ed.
    + injection Hc as <- <-. destruct (open_response_ok _ _ _ Ho) as (resp & Hr & He & <- & _ & Hn).
      split; [done|]. exists body, c, (set_inbound c r), f, resp. split; [by exists v, r|]. by split_and!.
    + apply Hfail in Hc. destruct res; [done|auto].
  - apply rbind_ok in Eo as (f & -> & Ho). injection Hc as <- <-. right; left. split; [done|].
    destruct (open_response_ok _ _ _ Ho) as (resp & Hr & He & Hres & _).
    exists body, c, (set_inbound c r), f, resp, err. split; [by exists v, r|]. by split_and!.
  - apply Hfail in Hc. destruct res; [done|auto].
Qed.

(** *** Request identities *)

(** A client's life: the counters of the requests it sent, in order. *)
Inductive calls {C} `{Conn C} : Client C → list Z → Client C → Prop :=
| calls_nil cl : calls cl [] cl
| calls_cons {A} cl ctx op payload (d : decoder A) res cl1 ns cl2 :
    Call cl ctx op payload d = (res, cl1) → calls cl1 ns cl2 →
    calls cl (if next cl1 =? next cl then ns else next cl1 :: ns) cl2.

Lemma call_next {C} `{Conn C} {A} (cl : Client C) ctx op payload (d : decoder A) res cl' :
  Call cl ctx op payload d = (res, cl') →
  cl' = cl ∨ broken cl = false ∧ next cl' = (next cl + 1) mod 2 ^ 64.
Proof.
  unfold Call. intros Hc. destruct (broken cl); [simplify_eq; by left|].
  destruct ctx; [simplify_eq; by left|]. destruct (negb _); [simplify_eq; by left|].
  destruct (match payload with None => _ | Some v => _ end) as [body|]; [|simplify_eq; by left].
  right. split; [done|]. destruct (WriteFrame _ _) as [[e|] c]; [by injection Hc as <- <-|].
  destruct (ReadLine (inbound c) MaxFrame) as [frame r].
  destruct (rbind frame _) as [[raw|err]|e]; [|by injection Hc as <- <-..].
  destruct (JsonUtil.Decode d _ raw); by injection Hc as <- <-.
Qed.

Lemma utoa_go_shape f n acc :
  0 <= n → all_bytes is_digit acc = true →
  all_bytes is_digit (utoa_go f n acc) = true ∧ (String.length (utoa_go f n acc) ≤ f + String.length acc)%nat.
Proof.
  revert n acc. induction f as [|f IH]; intros n acc Hn Hacc; cbn [utoa_go]; [by split|].
  pose proof (Z.mod_pos_bound n 10 ltac:(lia)).
  assert (Hd : all_bytes is_digit (String (digit_char (n mod 10)) acc) = true).
  { cbn. by rewrite is_digit_digit_char by lia. }
  destruct (n <? 10); [split; [done|cbn; lia]|].
  destruct (IH (n / 10) _ ltac:(apply Z.div_pos; lia) Hd) as [H1 H2]. split; [done|]. cbn in *. lia.
Qed.
Lemma valid_id_utoa n : 0 <= n < 2 ^ 64 → ValidID (utoa n) = true.
Proof.
  intros Hn. unfold utoa. destruct (utoa_go_shape (S (Z.to_nat (Z.log2 n))) n "") as [Hd Hl]; [lia|done|].
  destruct (utoa_nonempty n) as (c & r & Hu). unfold utoa in Hu. rewrite Hu in *. cbn in Hd, Hl.
  apply andb_true_iff in Hd as [Hc Hr]. unfold ValidID, ident.
  assert (Halnum : ∀ x, is_digit x = true → is_alnum x = true).
  { intros x Hx. unfold is_alnum. rewrite Hx. by rewrite !orb_true_r. }
  rewrite (Halnum c Hc). rewrite (proj2 (Z.leb_le _ _)).
  - rewrite andb_true_r. cbn. clear -Hr Halnum. induction r as [|x r IH]; cbn in *; [done|].
    apply andb_true_iff in Hr as [Hx Hr]. by rewrite Halnum, IH.
  - unfold blen. assert (Z.log2 n < 64); [|lia].
    destruct (decide (n = 0)) as [->|]; [done|]. apply Z.log2_lt_pow2; lia.
Qed.

(** A client never reuses a request identity: whatever calls it makes, the
    requests it sends are numbered consecutively, so their identities are pairwise
    different and acceptable to the agent (which refuses a repeated one); and a client
    whose connection failed in transit sends nothing more. *)
Theorem request_ids_fresh {C} `{Conn C} (cl cl' : Client C) ns :
  calls cl ns cl' → 0 <= next cl → next cl + Z.of_nat (List.length ns) < 2 ^ 64 →
  ns = seqZ (next cl + 1) (Z.of_nat (List.length ns)) ∧
  NoDup (map utoa ns) ∧ Forall (λ n, ValidID (utoa n) = true) ns ∧ (broken cl = true → ns = []).
Proof.
  intros Hcalls Hz Hb.
  assert (Hns : ns = seqZ (next cl + 1) (Z.of_nat (List.length ns)) ∧ (broken cl = true → ns = [])).
  { induction Hcalls as [cl|A cl ctx op payload d res cl1 ns cl2 Hc Hcalls IH]; [done|].
    destruct (call_next _ _ _ _ _ _ _ Hc) as [->|[Hbr Hn]].
    - rewrite Z.eqb_refl in *. by apply IH.
    - assert (Hlt : next cl + 1 < 2 ^ 64).
      { revert Hb. rewrite Hn. destruct (Z.eqb_spec ((next cl + 1) mod 2 ^ 64) (next cl)) as [He|]; [|cbn; lia].
        destruct (decide (next cl + 1 < 2 ^ 64)); [done|]. intros Hb.
        assert (next cl = 2 ^ 64 - 1) as Hx by lia. rewrite Hx in He. by vm_compute in He. }
      rewrite Z.mod_small in Hn by lia. rewrite Hn, (proj2 (Z.eqb_neq _ _)) in Hb |- * by lia.
      cbn [List.length] in Hb. rewrite Nat2Z.inj_succ in Hb. destruct IH as [IH _]; [lia|lia|].
      split; [|by rewrite Hbr]. cbn [List.length]. rewrite Nat2Z.inj_succ, seqZ_cons by lia.
      f_equal. rewrite Z.pred_succ. rewrite Hn in IH. exact IH. }
  destruct Hns as [Hns Hbroken]. split; [done|].
  assert (Hrange : ∀ n, n ∈ ns → 0 <= n < 2 ^ 64).
  { intros n Hn. rewrite Hns, elem_of_seqZ in Hn. lia. }
  split; [|split; [|done]].
  - apply NoDup_fmap_2_strong; [|rewrite Hns; apply NoDup_seqZ]. intros x y Hx Hy Hxy.
    assert (digits 10 (utoa x) = digits 10 (utoa y)) as Hd by (by rewrite Hxy).
    rewrite !digits_utoa in Hd by (apply Hrange in Hx; apply Hrange in Hy; lia). by injection Hd.
  - apply Forall_forall. intros n Hn. apply valid_id_utoa. by apply Hrange.
Qed.

(** A connection to a scripted peer: each complete write makes the next script line
    arrive. *)
Record scripted := { sc_sent : string; sc_in : reader; sc_script : list string }.
#[export] Instance scripted_writer : Writer scripted := {|
  delivered := sc_sent;
  Write w b := (String.length b, None,
    {| sc_sent := sc_sent w +:+ b;
       sc_in := rest_of (sc_in w) (rd_data (sc_in w) +:+ hd ""%string (sc_script w));
       sc_script := tl (sc_script w) |})
|}.
#[export] Instance scripted_lawful : LawfulWriter scripted.
Proof.
  constructor. intros w b n e w' Hw. injection Hw as <- <- <-. split; [lia|]. cbn.
  by rewrite string_take_all by lia.
Qed.
#[export] Instance scripted_conn : Conn scripted := {|
  inbound := sc_in;
  set_inbound c r := {| sc_sent := sc_sent c; sc_in := r; sc_script := sc_script c |};
  close_conn c := c
|}.
Definition scripted_client (lines : list string) : Client scripted :=
  Build_Client {| sc_sent := ""; sc_in := sample_stream ""; sc_script := lines |} "run" "00" 0 false.
Definition good_reply : string :=
  (js "{'version':'epoch-guest/v1','id':'1','op':'clock.read','run_id':'run','nonce':'00','result':{'realtime':'2000-01-01T00:00:00Z','monotonic_ns':5}}" +:+ String newline "")%string.
Definition sample_call_result := Call (scripted_client [good_reply]) None "clock.read" None dec_clock.
Lemma call_outcome_witness :
  broken sample_call_result.2 = false ∧ ∃ body c c1 frame resp,
    conversed (scripted_client [good_reply]) "clock.read" body c c1 frame ∧ conn sample_call_result.2 = c1 ∧
    response_to (request_of (scripted_client [good_reply]) "clock.read" body) frame resp ∧ p_error resp = None ∧
    p_result resp ≠ "null"%string ∧
    JsonUtil.Decode dec_clock (JsonUtil.zero dec_clock) (p_result resp)
      = Ok {| Realtime := 946684800000000000; MonotonicNS := 5 |}.
Proof.
  apply (call_outcome (scripted_client [good_reply]) None "clock.read" None dec_clock
           (Ok {| Realtime := 946684800000000000; MonotonicNS := 5 |}) sample_call_result.2).
  vm_compute. reflexivity.
Defined.
Lemma request_ids_fresh_witness :
  [1] = seqZ (0 + 1) 1 ∧ NoDup (map utoa [1]) ∧ Forall (λ n, ValidID (utoa n) = true) [1] ∧
  (false = true → [1] = []).
Proof.
  apply (request_ids_fresh (scripted_client [good_reply]) sample_call_result.2 [1]).
  - assert (Hc : Call (scripted_client [good_reply]) None "clock.read" None dec_clock
                 = (sample_call_result.1, sample_call_result.2)) by (vm_compute; reflexivity).
    exact (calls_cons _ _ _ _ _ _ _ _ _ Hc (calls_nil _)).
  - vm_compute. discriminate.
  - vm_compute. reflexivity.
Defined.
