(* ===== verification/Evidence.v ===== *)
(** * Evidence: internal/evidence

    The bounded recorder of a run.  Its log writers keep consuming after a failure (a
    full pipe must not block VM cleanup) and report the failure out of band: the first
    error sticks, cancels the run and stops all further recording; only the final report
    still uses its reserve.  Files are the [Disk] class.  [ReadPartial] is the reader
    that recovery uses on a log that may have been cut off. *)

From S2P Require Import Prelude GoLib Json JsonFacts GoTime GoText JsonUtil JsonText Protocol ProtocolFacts.
From Stdlib Require Import Ascii String.

Definition MaxBytes : Z := 8388608.
Definition ReportReserve : Z := 2097152.
Definition MetadataReserve : Z := 65536.
Definition MaxEvents : Z := 4096.
Definition log_budget : Z := MaxBytes - ReportReserve - MetadataReserve.

(** File operations of the evidence directory. *)
Class Disk (D : Type) := {
  create_log : D → string → option error * D;
  append_log : D → string → string → (Z * option error) * D;
  atomic_write : D → string → string → option error * D;
  sync_close : D → string → list error * D
}.
(** The bytes each published file of the directory holds, and what the operations do to
    them, whether they succeed or fail: [O_EXCL] creates an empty file or nothing,
    [os.File.Write] says how much of the buffer it added, an atomic replacement puts the
    whole new content in place or nothing, and closing adds nothing. *)
Class LawfulDisk (D : Type) `{Disk D} := {
  dk_sizes : D → gmap string Z;
  create_law d f e d' : create_log d f = (e, d') →
    dk_sizes d' = dk_sizes d ∨ dk_sizes d !! f = None ∧ dk_sizes d' = <[f := 0]> (dk_sizes d);
  append_law d f b n e d' : append_log d f b = ((n, e), d') →
    0 <= n <= blen b ∧ dk_sizes d' = alter (Z.add n) f (dk_sizes d);
  atomic_law d f b e d' : atomic_write d f b = (e, d') →
    dk_sizes d' = dk_sizes d ∨ dk_sizes d' = <[f := blen b]> (dk_sizes d);
  close_law d f es d' : sync_close d f = (es, d') → dk_sizes d' = dk_sizes d
}.
(** All bytes of a set of files, and of those other than the report. *)
Definition total (m : gmap string Z) : Z := map_fold (λ _, Z.add) 0 m.
Definition report_file : string := "report.json".
Definition recorded_bytes (m : gmap string Z) : Z := total (delete report_file m).

Record Recorder (D : Type) := {
  used : Z; seq_no : Z; rec_err : option error; cancelled : bool; files : list string; disk : D
}.
Arguments used {D} _.
Arguments seq_no {D} _.
Arguments rec_err {D} _.
Arguments cancelled {D} _.
Arguments files {D} _.
Arguments disk {D} _.
Arguments Build_Recorder {D} _ _ _ _ _ _.

Section recorder.
Context {D : Type} `{Disk D}.

Definition failLocked (r : Recorder D) (e : error) : Recorder D :=
  match rec_err r with
  | Some _ => r
  | None => Build_Recorder (used r) (seq_no r) (Some e) true (files r) (disk r)
  end.

(** A log writer: always reports the whole buffer as written. *)
Definition drain_write (r : Recorder D) (file p : string) : Recorder D :=
  match rec_err r with
  | Some _ => r
  | None =>
      if log_budget <? used r + blen p then failLocked r (Errorf "evidence quota exceeded" []) else
      let '((n, e), d) := append_log (disk r) file p in
      let r := Build_Recorder (used r + n) (seq_no r) (rec_err r) (cancelled r) (files r) d in
      let e := match e with
               | Some e => Some e
               | None => if n =? blen p then None else Some ErrShortWrite
               end in
      match e with
      | Some e => failLocked r (Wrapf "evidence storage: %w" [] e)
      | None => r
      end
  end.

Definition OpenLog (r : Recorder D) (name : string) : option error * Recorder D :=
  if path_base name <>?s name then (Some (Errorf "invalid evidence filename" []), r) else
  let '(e, d) := create_log (disk r) name in
  match e with
  | Some e => (Some e, Build_Recorder (used r) (seq_no r) (rec_err r) (cancelled r) (files r) d)
  | None => (None, Build_Recorder (used r) (seq_no r) (rec_err r) (cancelled r) (files r ++ [name]) d)
  end.

(** [line(w, v)]; [b] is the marshalled value, [None] when marshalling fails. *)
Definition line (r : Recorder D) (file : string) (b : option string) : option error * Recorder D :=
  match b with
  | None => (Some (Errorf "json: unsupported value" []), r)
  | Some b => let r := drain_write r file (b +:+ String newline "") in (rec_err r, r)
  end.

(** [text seq] is the event with its sequence number, as marshalled. *)
Definition Event (r : Recorder D) (text : Z → option string) : option error * Recorder D :=
  if MaxEvents <=? seq_no r then
    let r := failLocked r (Errorf "event quota exceeded" []) in (rec_err r, r)
  else
    let r := Build_Recorder (used r) (seq_no r + 1) (rec_err r) (cancelled r) (files r) (disk r) in
    line r "events.ndjson" (text (seq_no r)).
Definition Clocks (r : Recorder D) (b : option string) := line r "clock-observations.ndjson" b.
Definition Action (r : Recorder D) (b : option string) := line r "actions.ndjson" b.

Definition atomicBytes (r : Recorder D) (name b : string) : option error * Recorder D :=
  if negb (json_Valid b) then (Some (Errorf "refusing to publish invalid JSON" []), r) else
  let '(e, d) := atomic_write (disk r) name b in
  (e, Build_Recorder (used r) (seq_no r) (rec_err r) (cancelled r) (files r) d).

Definition SaveRaw (r : Recorder D) (name b : string) : option error * Recorder D :=
  if path_base name <>?s name then (Some (Errorf "invalid evidence filename" []), r) else
  match rec_err r with
  | Some e => (Some e, r)
  | None =>
      if log_budget <? used r + blen b then
        let r := failLocked r (Errorf "evidence quota exceeded" []) in (rec_err r, r)
      else
        let r := Build_Recorder (used r + blen b) (seq_no r) (rec_err r) (cancelled r) (files r) (disk r) in
        let '(e, r) := atomicBytes r name b in
        match e with Some e => (Some e, failLocked r e) | None => (None, r) end
  end.
(** [Save] marshals with indentation; [b] is that text. *)
Definition Save (r : Recorder D) (name : string) (b : option string) : option error * Recorder D :=
  match b with
  | None => (Some (Errorf "json: unsupported value" []), r)
  | Some b => SaveRaw r name (b +:+ String newline "")
  end.

Definition Final (r : Recorder D) (b : option string) : option error * Recorder D :=
  match b with
  | None => (Some (Errorf "json: unsupported value" []), r)
  | Some b =>
      let b := (b +:+ String newline "")%string in
      if ReportReserve <? blen b
      then (Some (Errorf "final report reserve exceeded; report not saved" []), r)
      else atomicBytes r report_file b
  end.

Fixpoint close_files (d : D) (fs : list string) : list error * D :=
  match fs with
  | [] => ([], d)
  | f :: fs => let '(es, d) := sync_close d f in let '(es', d) := close_files d fs in (es ++ es', d)
  end.
Definition Close (r : Recorder D) : option error * Recorder D :=
  let '(es, d) := close_files (disk r) (files r) in
  (join_errors (map Some es), Build_Recorder (used r) (seq_no r) (rec_err r) (cancelled r) [] d).

Definition NewRecorder (d : D) : result (Recorder D) * D :=
  let r := Build_Recorder 0 0 None false [] d in
  let '(e1, r) := OpenLog r "events.ndjson" in
  match e1 with
  | Some e => (Err e, disk r)
  | None =>
      let '(e2, r) := OpenLog r "clock-observations.ndjson" in
      match e2 with
      | Some e => let '(_, r) := Close r in (Err e, disk r)
      | None =>
          let '(e3, r) := OpenLog r "actions.ndjson" in
          match e3 with
          | Some e => let '(_, r) := Close r in (Err e, disk r)
          | None => (Ok r, disk r)
          end
      end
  end.

(** ** Any use of the recorder *)
Inductive op :=
| OWrite (file p : string)
| OOpen (name : string)
| OEvent (text : Z → option string)
| OLine (file : string) (b : option string)
| OSave (name b : string)
| OFinal (b : option string)
| OClose.
Definition apply_op (r : Recorder D) (o : op) : Recorder D :=
  match o with
  | OWrite f p => drain_write r f p
  | OOpen n => (OpenLog r n).2
  | OEvent t => (Event r t).2
  | OLine f b => (line r f b).2
  | OSave n b => (SaveRaw r n b).2
  | OFinal b => (Final r b).2
  | OClose => (Close r).2
  end.
End recorder.

(** ** Reading a log that may be cut off *)

(** [e == sentinel], without unwrapping. *)
Definition is_sentinel (name : string) (e : error) : bool :=
  match e with ErrSentinel n => n =?s name | _ => false end.

(** The two nested loops, one [ReadSlice] per round: [text] is the line so far. *)
Fixpoint partial_loop (fuel : nat) (records : list string) (text : string) (consumed : Z) (r : reader) :
    list string * bool * option error :=
  match fuel with
  | O => (records, true, Some (Errorf "unreachable" []))
  | S fuel =>
      let '(frag, e, r) := ReadSlice r in
      let consumed := consumed + blen frag in
      if MaxBytes <? consumed then (records, true, Some (Errorf "evidence exceeds read quota" [])) else
      if 1048576 <? blen text + blen frag then (records, true, Some (Errorf "event frame exceeds quota" [])) else
      let text := (text +:+ frag)%string in
      match e with
      | Some e =>
          if is_sentinel "bufio.ErrBufferFull" e then partial_loop fuel records text consumed r
          else if is_sentinel "io.EOF" e then (records, 0 <? blen text, None)
          else (records, true, Some e)
      | None =>
          let text := trim_space text in
          if negb (json_Valid text) then (records, true, Some (Errorf "invalid event record" [])) else
          let records := records ++ [text] in
          if MaxEvents <? Z.of_nat (List.length records)
          then (records, true, Some (Errorf "too many records" []))
          else partial_loop fuel records "" consumed r
      end
  end.

(** The source behind [io.LimitReader(r, MaxBytes+1)] and a 64 KiB buffer. *)
Definition limited (r : reader) : reader :=
  let n := Z.to_nat (MaxBytes + 1) in
  {| rd_data := string_take n (rd_data r);
     rd_err := if (n <=? String.length (rd_data r))%nat then ErrEOF else rd_err r;
     rd_size := Z.to_nat 65536 |}.
Definition ReadPartial (r : reader) : list string * bool * option error :=
  let r := limited r in partial_loop (S (S (String.length (rd_data r)))) [] "" 0 r.

(** ** Theorems: the recorder *)
Section totals.
Implicit Types m : gmap string Z.
Lemma total_insert f n m : m !! f = None → total (<[f := n]> m) = n + total m.
Proof. intros Hf. unfold total. apply map_fold_insert_L; [intros; lia|done]. Qed.
Lemma total_split f m : total m = default 0 (m !! f) + total (delete f m).
Proof.
  destruct (m !! f) as [n|] eqn:E; cbn [default from_option].
  - rewrite <-(insert_delete_id m f n E) at 1. by rewrite total_insert by apply lookup_delete_eq.
  - by rewrite delete_id.
Qed.
Definition nonneg m : Prop := ∀ f n, m !! f = Some n → 0 <= n.
Lemma nonneg_delete f m : nonneg m → nonneg (delete f m).
Proof. intros Hm g n [_ Hg]%lookup_delete_Some. by eapply Hm. Qed.
Lemma nonneg_insert f n m : 0 <= n → nonneg m → nonneg (<[f := n]> m).
Proof. intros Hn Hm g k [[_ <-]|[_ Hg]]%lookup_insert_Some; [done|by eapply Hm]. Qed.
Lemma nonneg_alter n f m : 0 <= n → nonneg m → nonneg (alter (Z.add n) f m).
Proof.
  intros Hn Hm g k [(_ & j & Hj & ->)|[_ Hg]]%lookup_alter_Some; [apply Hm in Hj; lia|by eapply Hm].
Qed.
(** Writing [n] more bytes, or replacing a file by one of [n] bytes. *)
Lemma total_alter_le n f m : 0 <= n → total (alter (Z.add n) f m) <= n + total m.
Proof.
  intros Hn. rewrite (total_split f (alter _ f m)), (total_split f m), lookup_alter_eq, delete_alter_eq.
  destruct (m !! f); cbn; lia.
Qed.
Lemma total_replace n f m : total (<[f := n]> m) = n + total (delete f m).
Proof. by rewrite <-insert_delete_eq, total_insert by apply lookup_delete_eq. Qed.
Lemma total_replace_le n f m : nonneg m → total (<[f := n]> m) <= n + total m.
Proof.
  intros Hm. rewrite total_replace, (total_split f m).
  destruct (m !! f) as [k|] eqn:E; cbn; [apply Hm in E|]; lia.
Qed.
Lemma recorded_alter_le n f m : 0 <= n → recorded_bytes (alter (Z.add n) f m) <= n + recorded_bytes m.
Proof.
  intros Hn. unfold recorded_bytes. destruct (decide (f = report_file)) as [->|Hf].
  - rewrite delete_alter_eq. lia.
  - rewrite delete_alter_ne by done. by apply total_alter_le.
Qed.
Lemma recorded_replace_le n f m : 0 <= n → nonneg m → recorded_bytes (<[f := n]> m) <= n + recorded_bytes m.
Proof.
  intros Hn Hm. unfold recorded_bytes. destruct (decide (f = report_file)) as [->|Hf].
  - rewrite delete_insert_eq. lia.
  - rewrite delete_insert_ne by done. by apply total_replace_le, nonneg_delete.
Qed.
End totals.

(** The counter is within its budget and covers every byte recorded; the report has its
    own reserve. *)
Record within_budget {D} `{LawfulDisk D} (r : Recorder D) : Prop := {
  wb_used : 0 <= used r <= log_budget;
  wb_events : 0 <= seq_no r <= MaxEvents;
  wb_cancel : cancelled r = true ↔ rec_err r ≠ None;
  wb_recorded : recorded_bytes (dk_sizes (disk r)) <= used r;
  wb_total : total (dk_sizes (disk r)) <= used r + ReportReserve;
  wb_sizes : nonneg (dk_sizes (disk r))
}.

Section recorder_facts.
Context {D : Type} `{LawfulDisk D}.

Lemma fail_within (r : Recorder D) e : within_budget r → within_budget (failLocked r e).
Proof.
  unfold failLocked. intros Hr. destruct (rec_err r) eqn:E; [done|]. destruct Hr. by split.
Qed.
(** The counter grows by [n]; so may the files. *)
Lemma grows (r : Recorder D) n d : within_budget r → 0 <= n → used r + n <= log_budget →
  recorded_bytes (dk_sizes d) <= n + recorded_bytes (dk_sizes (disk r)) →
  total (dk_sizes d) <= n + total (dk_sizes (disk r)) → nonneg (dk_sizes d) →
  within_budget (Build_Recorder (used r + n) (seq_no r) (rec_err r) (cancelled r) (files r) d).
Proof. intros [B1 B2 B3 B4 B5 _] Hn Hb Hr Ht Hs. by split; cbn; [lia|done|done|lia|lia|]. Qed.

Lemma drain_within (r : Recorder D) f p : within_budget r → within_budget (drain_write r f p).
Proof.
  intros Hr. unfold drain_write. destruct (rec_err r) eqn:E; [done|].
  destruct (Z.ltb_spec log_budget (used r + blen p)) as [Hq|Hq]; [by apply fail_within|].
  destruct (append_log (disk r) f p) as [[n e] d] eqn:Ea. destruct (append_law _ _ _ _ _ _ Ea) as [Hn Hd].
  assert (Hw : within_budget (Build_Recorder (used r + n) (seq_no r) (rec_err r) (cancelled r) (files r) d)).
  { destruct Hn as [Hn Hp]. apply grows; [done|done|lia|rewrite Hd..].
    - by apply recorded_alter_le.
    - by apply total_alter_le.
    - apply nonneg_alter; [done|apply Hr]. }
  rewrite E in Hw. destruct e as [e|]; [by apply fail_within|]. destruct (n =? blen p); [done|by apply fail_within].
Qed.

Lemma line_within (r : Recorder D) f b : within_budget r → within_budget (line r f b).2.
Proof. intros Hr. unfold line. destruct b; [|done]. cbn. by apply drain_within. Qed.

(** The same files hold the same bytes. *)
Lemma same_within (r : Recorder D) fs d : within_budget r →
  recorded_bytes (dk_sizes d) <= recorded_bytes (dk_sizes (disk r)) → total (dk_sizes d) <= total (dk_sizes (disk r)) →
  nonneg (dk_sizes d) → within_budget (Build_Recorder (used r) (seq_no r) (rec_err r) (cancelled r) fs d).
Proof. intros [B1 B2 B3 B4 B5 _] Hr Ht Hs. by split; cbn; [done|done|done|lia|lia|]. Qed.
Lemma create_bytes d f e (d' : D) : create_log d f = (e, d') → nonneg (dk_sizes d) →
  recorded_bytes (dk_sizes d') <= recorded_bytes (dk_sizes d) ∧ total (dk_sizes d') <= total (dk_sizes d) ∧
  nonneg (dk_sizes d').
Proof.
  intros [->|[_ ->]]%create_law Hs; [done|]. pose proof (recorded_replace_le 0 f (dk_sizes d) ltac:(done) Hs).
  pose proof (total_replace_le 0 f (dk_sizes d) Hs). split_and!; [lia|lia|by apply nonneg_insert].
Qed.
Lemma close_files_sizes fs : ∀ (d : D), dk_sizes (close_files d fs).2 = dk_sizes d.
Proof.
  induction fs as [|f fs IH]; intros d; [done|]. cbn [close_files]. destruct (sync_close d f) as [es d1] eqn:E.
  specialize (IH d1). destruct (close_files d1 fs) as [es' d2]. cbn in *. rewrite IH. by eapply close_law.
Qed.
Lemma save_within (r : Recorder D) name b : within_budget r → within_budget (SaveRaw r name b).2.
Proof.
  intros Hr. unfold SaveRaw. destruct (path_base name <>?s name); [done|]. destruct (rec_err r) eqn:E; [done|].
  destruct (Z.ltb_spec log_budget (used r + blen b)) as [|Hq]; [by apply fail_within|].
  set (r1 := Build_Recorder _ _ _ _ _ _). pose proof (blen_nonneg b) as Hb.
  assert (Hr1 : within_budget (atomicBytes r1 name b).2).
  { assert (Hgrow : ∀ d, dk_sizes d = dk_sizes (disk r) ∨ dk_sizes d = <[name := blen b]> (dk_sizes (disk r)) →
      within_budget (Build_Recorder (used r + blen b) (seq_no r) None (cancelled r) (files r) d)).
    { intros d Hd. rewrite <-E. pose proof (wb_sizes _ Hr) as Hs.
      apply grows; [done|done|lia|..]; (destruct Hd as [-> | ->]; [done || lia|]).
      - by apply recorded_replace_le.
      - by apply total_replace_le.
      - by apply nonneg_insert. }
    unfold atomicBytes. destruct (negb (json_Valid b)); [apply Hgrow; by left|].
    destruct (atomic_write _ _ _) as [e d] eqn:Ea. apply Hgrow. by eapply atomic_law. }
  destruct (atomicBytes r1 name b) as [[e|] r2]; [by apply fail_within|done].
Qed.
Lemma final_within (r : Recorder D) b : within_budget r → within_budget (Final r b).2.
Proof.
  intros Hr. unfold Final, atomicBytes. destruct b as [b|]; [|done]. cbv zeta. set (t := (b +:+ _)%string).
  destruct (Z.ltb_spec ReportReserve (blen t)) as [|Hq]; [done|]. destruct (negb (json_Valid t)); [done|].
  destruct (atomic_write _ _ _) as [e d] eqn:Ea. cbn [snd]. destruct (atomic_law _ _ _ _ _ Ea) as [Hd|Hd].
  - apply same_within; [done|rewrite Hd..]; [lia|lia|apply Hr].
  - destruct Hr as [B1 B2 B3 B4 B5 B6]. split; cbn; try done; rewrite Hd.
    + unfold recorded_bytes. by rewrite delete_insert_eq.
    + rewrite total_replace. unfold recorded_bytes in B4. lia.
    + by apply nonneg_insert; [apply blen_nonneg|].
Qed.

Lemma apply_within (r : Recorder D) o : within_budget r → within_budget (apply_op r o).
Proof.
  intros Hr. destruct o as [f p|n|t|f b|n b|b|]; cbn [apply_op].
  - by apply drain_within.
  - unfold OpenLog. destruct (path_base n <>?s n); [done|]. destruct (create_log _ _) as [e d] eqn:Ec.
    destruct (create_bytes _ _ _ _ Ec (wb_sizes _ Hr)) as (H1 & H2 & H3). destruct e; by apply same_within.
  - unfold Event. destruct (Z.leb_spec MaxEvents (seq_no r)); [by apply fail_within|].
    apply line_within. destruct Hr. split; cbn; try done. lia.
  - by apply line_within.
  - by apply save_within.
  - by apply final_within.
  - unfold Close. pose proof (close_files_sizes (files r) (disk r)) as Hs.
    destruct (close_files _ _) as [es d]. cbn in *. apply same_within; [done|rewrite Hs..]; [lia|lia|apply Hr].
Qed.
End recorder_facts.

Section sticky.
Context {D : Type} `{Disk D}.
(** After a failure nothing but the final report and the close reaches the disk. *)
Lemma apply_sticky (r : Recorder D) o e :
  rec_err r = Some e →
  rec_err (apply_op r o) = Some e ∧ used (apply_op r o) = used r ∧
  match o with OFinal _ | OClose | OOpen _ => True | _ => disk (apply_op r o) = disk r end.
Proof.
  intros E. destruct o as [f p|n|t|f b|n b|b|]; cbn [apply_op].
  - unfold drain_write. by rewrite E.
  - unfold OpenLog. destruct (path_base n <>?s n); [done|]. destruct (create_log _ _) as [[x|] d]; done.
  - unfold Event. destruct (MaxEvents <=? seq_no r); [unfold failLocked; by rewrite E|].
    unfold line. destruct (t _); [|done]. unfold drain_write. cbn. by rewrite E.
  - unfold line. destruct b; [|done]. cbn. unfold drain_write. by rewrite E.
  - unfold SaveRaw. destruct (path_base n <>?s n); [done|]. by rewrite E.
  - unfold Final, atomicBytes. destruct b as [b|]; [|done]. case_match; [done|]. destruct (negb (json_Valid _)); [done|].
    by destruct (atomic_write _ _ _).
  - unfold Close. by destruct (close_files _ _).
Qed.
End sticky.

(** C36.  Whatever sequence of log writes, events, saves and reports a run performs on a
    fresh evidence directory, and whichever of them fail: the files of the directory other
    than the report hold at most the bytes the recorder counted, which never exceed 8 MiB
    minus the 2 MiB report and 64 KiB metadata reserves; with the report they hold at most
    8 MiB minus 64 KiB; at most 4096 events are numbered, and the run is cancelled exactly
    when the recorder has failed. *)
Theorem evidence_bounded {D} `{LawfulDisk D} (d : D) ops :
  dk_sizes d = ∅ →
  let r := fold_left apply_op ops (Build_Recorder 0 0 None false [] d) in
  within_budget r ∧ recorded_bytes (dk_sizes (disk r)) <= used r <= log_budget ∧
  total (dk_sizes (disk r)) <= MaxBytes - MetadataReserve.
Proof.
  intros Hd. assert (Hz : within_budget (Build_Recorder 0 0 None false [] d)).
  { split; cbn; rewrite ?Hd; done. }
  cbv zeta. assert (Hall : ∀ r, within_budget r → within_budget (fold_left apply_op ops r)).
  { induction ops as [|o ops IH]; intros r Hr; [done|]. cbn [fold_left]. apply IH. by apply apply_within. }
  apply Hall in Hz. split; [done|]. destruct Hz as [B1 _ _ B4 B5 _].
  unfold log_budget in *. unfold MaxBytes, ReportReserve, MetadataReserve in *. lia.
Qed.

(** The recorder's first error sticks: no later operation clears or replaces it,
    and no later write, event or save puts another byte into the evidence. *)
Theorem evidence_sticky {D} `{Disk D} (r : Recorder D) e ops :
  rec_err r = Some e →
  rec_err (fold_left apply_op ops r) = Some e ∧ used (fold_left apply_op ops r) = used r ∧
  (Forall (λ o, match o with OFinal _ | OClose | OOpen _ => False | _ => True end) ops →
   disk (fold_left apply_op ops r) = disk r).
Proof.
  revert r. induction ops as [|o ops IH]; intros r E; [done|]. cbn [fold_left].
  destruct (apply_sticky r o e E) as (E1 & U1 & D1). destruct (IH _ E1) as (E2 & U2 & D2).
  split; [done|]. split; [by rewrite U2|]. intros [Ho Hops]%Forall_cons. rewrite D2 by done.
  by destruct o.
Qed.

(** A disk that records what is written to it. *)
#[export] Instance list_disk : Disk (list (string * string)) := {|
  create_log d _ := (None, d);
  append_log d f b := ((blen b, None), d ++ [(f, b)]);
  atomic_write d f b := (None, d ++ [(f, b)]);
  sync_close d _ := ([], d)
|}.
(** A disk that counts. *)
#[export] Instance size_disk : Disk (gmap string Z) := {|
  create_log d f := match d !! f with
                    | Some _ => (Some (ErrSentinel "os.ErrExist"), d)
                    | None => (None, <[f := 0]> d)
                    end;
  append_log d f b := ((blen b, None), alter (Z.add (blen b)) f d);
  atomic_write d f b := (None, <[f := blen b]> d);
  sync_close d _ := ([], d)
|}.
#[export] Instance size_disk_lawful : LawfulDisk (gmap string Z).
Proof.
  refine {| dk_sizes := (id : gmap string Z → gmap string Z) |}.
  - intros d f e d'. cbn. destruct (d !! f) eqn:E; intros [= _ <-]; [by left|by right].
  - intros d f b n e d' Ha. injection Ha as <- <- <-. pose proof (blen_nonneg b). split; [lia|done].
  - intros d f b e d' [= _ <-]. by right.
  - by intros d f es d' [= _ <-].
Defined.
(** Six MiB of VMM output in chunks of one, after an event: five fit, the sixth would pass the
    quota; it is dropped, the run is cancelled, and the report still gets its place. *)
Fixpoint padding (n : nat) : string := match n with O => "" | S n => String "x" (padding n) end.
Lemma blen_padding n : blen (padding n) = Z.of_nat n.
Proof. induction n as [|n IH]; [done|]. unfold blen in *. cbn [padding String.length]. lia. Qed.
Definition flood (p : string) : list op :=
  [OOpen "events.ndjson"; OOpen "vmm.log"; OEvent (λ n, Some (itoa n)); OWrite "vmm.log" p; OWrite "vmm.log" p;
   OWrite "vmm.log" p; OWrite "vmm.log" p; OWrite "vmm.log" p; OWrite "vmm.log" p; OFinal (Some "{}"%string); OClose].
Definition flooded (p : string) : Recorder (gmap string Z) := fold_left apply_op (flood p) (Build_Recorder 0 0 None false [] ∅).
(** Only the length of a write matters to this disk. *)
Definition sized (r : Recorder (gmap string Z)) (f : string) (n : Z) : Recorder (gmap string Z) :=
  match rec_err r with
  | Some _ => r
  | None =>
      if log_budget <? used r + n then failLocked r (Errorf "evidence quota exceeded" [])
      else Build_Recorder (used r + n) (seq_no r) None (cancelled r) (files r) (alter (Z.add n) f (disk r))
  end.
Lemma sized_drain (r : Recorder (gmap string Z)) f p : drain_write r f p = sized r f (blen p).
Proof.
  unfold drain_write, sized. destruct (rec_err r); [done|]. destruct (log_budget <? _); [done|].
  cbn [append_log size_disk]. by rewrite Z.eqb_refl.
Qed.
Lemma flooded_state p : blen p = 1048576 → used (flooded p) = 5242882 ∧ cancelled (flooded p) = true ∧
  disk (flooded p) !! "vmm.log"%string = Some 5242880 ∧ total (disk (flooded p)) = 5242885.
Proof.
  intros Hp. unfold flooded, flood. cbn [fold_left apply_op]. rewrite !sized_drain, !Hp. vm_compute. done.
Qed.
Lemma evidence_bounded_witness :
  let r := flooded (padding (Z.to_nat 1048576)) in
  used r = 5242882 ∧ cancelled r = true ∧ total (disk r) = 5242885 ∧ within_budget r ∧
  recorded_bytes (dk_sizes (disk r)) <= used r.
Proof.
  destruct (flooded_state (padding (Z.to_nat 1048576))) as (Hu & Hc & _ & Ht); [by rewrite blen_padding, Z2Nat.id|].
  destruct (evidence_bounded (D := gmap string Z) ∅ (flood (padding (Z.to_nat 1048576)))) as (Hw & [Hb _] & _); [reflexivity|].
  cbv zeta. split_and!; [exact Hu|exact Hc|exact Ht|exact Hw|exact Hb].
Defined.
Lemma evidence_sticky_witness :
  disk (fold_left apply_op [OEvent (λ n, Some (itoa n))]
    (failLocked (Build_Recorder 0 0 None false [] ([] : list (string * string))) ErrShortWrite)) = [].
Proof.
  apply (evidence_sticky (D := list (string * string))
    (failLocked (Build_Recorder 0 0 None false [] []) ErrShortWrite) ErrShortWrite); [reflexivity|].
  repeat constructor.
Defined.

(** ** Theorems: reading a log back *)

(** A log as the recorder leaves it: complete records, and a tail without newline. *)
Fixpoint log_text (records : list string) (tail : string) : string :=
  match records with
  | [] => tail
  | x :: xs => x +:+ String newline (log_text xs tail)
  end.
(** A record is one marshalled object. *)
Definition record_ok (x : string) : Prop :=
  ∃ m, json_wf (JObject m) = true ∧ nesting (JObject m) <= max_nesting ∧ x = print (JObject m) ∧ blen x + 1 <= 1048576.

Lemma trim_object m : trim_space (print (JObject m) +:+ String newline "") = print (JObject m).
Proof.
  cbn [print]. set (body := commas _). rewrite !sapp_assoc || idtac.
  assert (Hsp : ∀ s, strip_any space_runes (String (chr 123) s) = None) by (intros; reflexivity).
  assert (Hend : ∀ s, strip_any (map string_rev space_runes) (String (chr 125) s) = None) by (intros; reflexivity).
  assert (Hnl : ∀ s, strip_any (map string_rev space_runes) (String newline s) = Some s) by (intros; reflexivity).
  set (t := String (chr 123) (body +:+ String (chr 125) "")).
  unfold trim_space.
  assert (trim_left (String.length (t +:+ String newline "")) space_runes (t +:+ String newline "")
          = (t +:+ String newline "")%string) as ->.
  { unfold t. cbn [String.append String.length trim_left]. by rewrite Hsp. }
  rewrite string_rev_app.
  assert (Hrt : ∃ u, string_rev t = String (chr 125) u).
  { unfold t. rewrite string_rev_cons, string_rev_app. by eexists. }
  destruct Hrt as [u Hu]. rewrite Hu.
  change (string_rev (String newline "") +:+ String (chr 125) u)%string with (String newline (String (chr 125) u)).
  rewrite slength_app. cbn [String.length]. rewrite Nat.add_1_r.
  cbn [trim_left]. rewrite Hnl. unfold t at 1. cbn [String.length trim_left]. rewrite Hend.
  rewrite <-Hu. apply string_rev_involutive.
Qed.

(** Reading one complete line, in as many buffer fills as it takes. *)
Lemma partial_line fuel records text consumed r l rest :
  reader_ok r → rd_data r = (l +:+ String newline rest)%string → no_newline l →
  (String.length (rd_data r) < fuel)%nat →
  consumed + blen l + 1 <= MaxBytes → blen text + blen l + 1 <= 1048576 →
  ∃ fuel', (String.length rest < fuel')%nat ∧
    partial_loop fuel records text consumed r =
    if negb (json_Valid (trim_space (text +:+ l +:+ String newline "")))
    then (records, true, Some (Errorf "invalid event record" []))
    else let records := records ++ [trim_space (text +:+ l +:+ String newline "")] in
         if MaxEvents <? Z.of_nat (List.length records) then (records, true, Some (Errorf "too many records" []))
         else partial_loop fuel' records "" (consumed + blen l + 1) (rest_of r rest).
Proof.
  revert text consumed r l. induction fuel as [|fuel IH]; intros text consumed r l [Hs He] Hd Hl Hf Hc Hq; [lia|].
  cbn [partial_loop]. unfold ReadSlice. rewrite Hd, cut_app by done. cbn [andb].
  destruct (Nat.ltb_spec (String.length l) (rd_size r)) as [Hfit|Hlong].
  - rewrite blen_app. change (blen (String newline "")) with 1.
    rewrite !(proj2 (Z.ltb_ge _ _)) by lia. exists fuel. split.
    { rewrite Hd, slength_app in Hf. cbn in Hf. lia. }
    replace (consumed + (blen l + 1)) with (consumed + blen l + 1) by lia. done.
  - rewrite <-Hd. rewrite (proj2 (Nat.leb_le _ _)) by (rewrite Hd, slength_app; lia).
    set (part := string_take (rd_size r) (rd_data r)).
    assert (Hpl : String.length part = rd_size r) by (apply take_length; rewrite Hd, slength_app; lia).
    destruct (app_split part (string_drop (rd_size r) (rd_data r)) l (String newline rest)) as (e & He1 & He2).
    { rewrite <-Hd. apply take_drop. } { lia. }
    rewrite He1, blen_app in Hc, Hq. pose proof (blen_nonneg e).
    rewrite !(proj2 (Z.ltb_ge _ _)) by lia.
    change (is_sentinel "bufio.ErrBufferFull" ErrBufferFull) with true. cbn iota.
    destruct (IH (text +:+ part)%string (consumed + blen part) (rest_of r (string_drop (rd_size r) (rd_data r))) e)
      as (fuel' & Hf' & ->); cbn [rest_of rd_data rd_size rd_err]; try done.
    + rewrite He1, no_newline_app in Hl. apply Hl.
    + rewrite drop_length. rewrite Hd, slength_app in *. cbn [String.length] in *. lia.
    + lia.
    + rewrite blen_app. lia.
    + exists fuel'. split; [done|]. rewrite He1, blen_app, !sapp_assoc.
      by replace (consumed + blen part + blen e + 1) with (consumed + (blen part + blen e) + 1) by lia.
Qed.

Lemma partial_tail fuel records text consumed r :
  reader_ok r → rd_err r = ErrEOF → no_newline (rd_data r) →
  (String.length (rd_data r) < fuel)%nat →
  consumed + blen (rd_data r) <= MaxBytes → blen text + blen (rd_data r) <= 1048576 →
  partial_loop fuel records text consumed r = (records, 0 <? blen text + blen (rd_data r), None).
Proof.
  revert text consumed r. induction fuel as [|fuel IH]; intros text consumed r [Hs He] Heof Hl Hf Hc Hq; [lia|].
  cbn [partial_loop]. unfold ReadSlice. rewrite cut_none by done. cbn [andb].
  destruct (Nat.leb_spec (rd_size r) (String.length (rd_data r))) as [Hfull|Hshort].
  - set (part := string_take (rd_size r) (rd_data r)). set (drop := string_drop (rd_size r) (rd_data r)).
    assert (Hsplit : rd_data r = (part +:+ drop)%string) by (symmetry; apply take_drop).
    rewrite Hsplit, blen_app in Hc, Hq. pose proof (blen_nonneg drop). rewrite !(proj2 (Z.ltb_ge _ _)) by lia.
    change (is_sentinel "bufio.ErrBufferFull" ErrBufferFull) with true. cbn iota.
    rewrite IH; cbn [rest_of rd_data rd_size rd_err]; try done.
    + rewrite Hsplit, !blen_app. by rewrite Z.add_assoc.
    + rewrite Hsplit, no_newline_app in Hl. apply Hl.
    + unfold drop. rewrite drop_length. lia.
    + lia.
    + rewrite blen_app. lia.
  - rewrite !(proj2 (Z.ltb_ge _ _)) by lia. rewrite Heof. cbn -[blen]. by rewrite blen_app.
Qed.

Lemma partial_records fuel records xs tail consumed r :
  reader_ok r → rd_err r = ErrEOF → rd_data r = log_text xs tail →
  Forall record_ok xs → no_newline tail → blen tail <= 1048576 →
  (String.length (rd_data r) < fuel)%nat → consumed + blen (rd_data r) <= MaxBytes →
  Z.of_nat (List.length records + List.length xs) <= MaxEvents →
  partial_loop fuel records "" consumed r = (records ++ xs, 0 <? blen tail, None).
Proof.
  revert fuel records consumed r. induction xs as [|x xs IH]; intros fuel records consumed r Hr He Hd Hxs Ht Htl Hf Hc Hn.
  { cbn [log_text] in Hd. rewrite app_nil_r, <-Hd. rewrite partial_tail; try done; by rewrite Hd. }
  apply Forall_cons in Hxs as [(m & Hwf & Hne & Hx & Hlen) Hxs]. cbn [log_text] in Hd.
  pose proof (blen_nonneg (log_text xs tail)) as Hnn.
  assert (Hb : blen (rd_data r) = blen x + 1 + blen (log_text xs tail)).
  { rewrite Hd, blen_app. unfold blen. cbn [String.length]. lia. }
  destruct (partial_line fuel records "" consumed r x (log_text xs tail)) as (fuel' & Hf' & ->); try done.
  - rewrite Hx. by apply print_newline.
  - lia.
  - cbn [String.append] in *. rewrite Hx, trim_object. unfold json_Valid. rewrite parse_print, (proj2 (Z.leb_le _ _) Hne) by done. cbn [negb]. cbv zeta.
    cbn [List.length] in Hn. rewrite (proj2 (Z.ltb_ge _ _)) by (rewrite List.length_app; cbn; lia).
    rewrite <-Hx. rewrite IH; try done.
    + by rewrite <-app_assoc.
    + cbn [rest_of rd_data]. lia.
    + rewrite List.length_app. cbn. lia.
Qed.

(** Crash recovery of a log: when a log written by the recorder is cut off at any
    byte (complete records, then a record without its newline), exactly the complete
    records are returned, in order, and the log is reported partial precisely when
    something follows the last complete record. *)
Theorem read_partial_recovers r xs tail :
  rd_data r = log_text xs tail → rd_err r = ErrEOF →
  Forall record_ok xs → no_newline tail → blen tail <= 1048576 →
  blen (log_text xs tail) <= MaxBytes → Z.of_nat (List.length xs) <= MaxEvents →
  ReadPartial r = (xs, 0 <? blen tail, None).
Proof.
  intros Hd He Hxs Ht Htl Hb Hn. unfold ReadPartial.
  assert (Hdata : rd_data (limited r) = log_text xs tail).
  { unfold limited. cbn [rd_data]. rewrite Hd. apply string_take_all. unfold blen in Hb. lia. }
  assert (Herr : rd_err (limited r) = ErrEOF) by (unfold limited; cbn [rd_err]; by case_match).
  rewrite (partial_records _ [] xs tail); [done|..]; try done.
  - split; [cbn [limited rd_size]; lia|by rewrite Herr].
  - lia.
  - rewrite Hdata. done.
Qed.
Definition sample_event : string := print (JObject [("sequence"%string, JNumber "1")]).
Lemma read_partial_recovers_witness :
  ReadPartial (sample_stream (log_text [sample_event; sample_event] (js "{'seq")))
  = ([sample_event; sample_event], true, None).
Proof.
  assert (Hev : record_ok sample_event).
  { exists [("sequence"%string, JNumber "1")]. split_and!; [done|vm_compute; discriminate|done|vm_compute; discriminate]. }
  apply (read_partial_recovers (sample_stream _) [sample_event; sample_event] (js "{'seq")).
  - reflexivity.
  - reflexivity.
  - repeat constructor; exact Hev.
  - reflexivity.
  - vm_compute. discriminate.
  - vm_compute. discriminate.
  - vm_compute. discriminate.
Defined.
