(* ===== verification/EngineSteps.v ===== *)
(** * EngineSteps: internal/engine/steps.go

    One planned step against the guest: the request it sends, the deadlines it sets and
    the host's own validation of what the guest reports.  The guest connection and the
    run's remaining time are the [Link] class. *)

From S2P Require Import Prelude GoLib Json JsonFacts GoTime GoText JsonUtil JsonText Protocol ProtocolFacts GuestClock GuestClient Scenario ScenarioFacts.
From Stdlib Require Import Ascii String.

(** The [Guest] interface with the context that bounds it.  [call] is given the time
    allowed and the payload as [GuestClient.Call] takes it; [sleep] is the wait's
    select between the timer and the context. *)
Class Link (G : Type) := {
  call : ∀ {A : Type}, G → Z → string → option (option string) → decoder A → result A * G;
  remaining : G → option Z;
  ctx_error : G → option error;
  sleep : G → Z → option error * G
}.

Definition responseAllowance : Z := secs 4.

(** *** Request payloads *)
Definition enc_clock_set_request (at_ : string) (tolerance : Z) (live : bool) : json :=
  JObject [("at", JString at_); ("tolerance_ms", enc_int tolerance); ("allow_live", JBool live)]%string.
Definition enc_action_request (action input : string) (timeout : Z) : option string :=
  let! input := omit_raw "input" input in
  Some (obj (raw_members [("action"%string, JString action)] ++ input ++ raw_members [("timeout_ms"%string, enc_int timeout)])).
Definition enc_service_request (service input : string) (timeout : Z) : option string :=
  let! input := omit_raw "input" input in
  Some (obj (raw_members [("service", JString service); ("timeout_ms", enc_int timeout)]%string ++ input)).

(** *** Host validation *)
Definition validClock (c : ClockObservation) : result unit :=
  fail_if is_zero (Realtime c) || (MonotonicNS c <? 0)
    with Errorf "missing or invalid guest clock observation" [] ;; Ok tt.
Definition validInterval (before after : ClockObservation) : result unit :=
  do? validClock before ;;
  do? validClock after ;;
  fail_if MonotonicNS after <? MonotonicNS before with Errorf "guest monotonic clock regressed" [] ;;
  Ok tt.

(** The independent check of a clock change. *)
Definition check_clock_set (s : Step) (v : ClockSetResult) : result unit :=
  match parse_rfc3339nano (s_at s) with
  | None => Err (Errorf "parsing time" [s_at s])
  | Some target =>
      let elapsed := wrap64 (MonotonicNS (cr_after v) - MonotonicNS (cr_before v)) in
      do? validClock (cr_before v) ;;
      do? validClock (cr_after v) ;;
      let tolerance := wrap64 (s_tolerance s * millisecond) in
      fail_if negb (cr_valid v) || negb (cr_target v =? target) || negb (cr_tolerance v =? s_tolerance s)
              || (elapsed <? 0) || negb (elapsed =? cr_elapsed v)
              || (Realtime (cr_after v) <? target + wrap64 (- tolerance))
              || (target + wrap64 (elapsed + tolerance) <? Realtime (cr_after v))
        with Errorf "guest clock readback failed independent host validation" [] ;;
      Ok tt
  end.

Definition check_action (v : ActionResult) : result unit :=
  fail_if (ar_exit v <? 0) || (255 <? ar_exit v)
    with Errorf "action did not complete with a normal exit code" [] ;;
  fail_if ar_stdout_truncated v || ar_stderr_truncated v || (MaxOutput <? blen (ar_stdout_json v))
          || (MaxOutput <? blen (ar_stderr v))
    with Errorf "action output quota exceeded" [] ;;
  fail_if ar_stdout_json v =?s "" with Errorf "action required output missing" [] ;;
  do? map_err (Wrapf "action required output malformed: %w" [])
        (let? _ := JsonUtil.Decode dec_any JNull (ar_stdout_json v) in Ok tt) ;;
  validInterval (ar_before v) (ar_after v).

Definition check_service (s : Step) (v : ServiceResult) : result unit :=
  fail_if (sr_service v <>?s s_service s) || negb (Bool.eqb (sr_running v) (s_op s =?s "service.start"))
    with Errorf "invalid service lifecycle observation" [] ;;
  fail_if (MaxOutput <? blen (sr_stdout v)) || (MaxOutput <? blen (sr_stderr v))
    with Errorf "service diagnostic quota exceeded" [] ;;
  validInterval (sr_before v) (sr_after v).

Section steps.
Context {G : Type} `{Link G}.

Definition runs_workload (op : string) : bool :=
  (op =?s "action.exec") || (op =?s "service.start") || (op =?s "service.stop").

(** The step's own timeout and what the request may use of it: the total time for the
    call, and the workload budget in milliseconds that is sent to the guest. *)
Definition step_timeouts (g : G) (s : Step) : result (Z * Z) :=
  let timeout := if 0 <? s_timeout s then wrap64 (s_timeout s * millisecond) else secs 5 in
  if runs_workload (s_op s) then
    match remaining g with
    | None => Ok (timeout + responseAllowance, timeout / millisecond)
    | Some time_left =>
        fail_if time_left <? millisecond with default DeadlineExceeded (ctx_error g) ;;
        let timeout := if time_left <? timeout then time_left - time_left mod millisecond else timeout in
        Ok (timeout + responseAllowance, timeout / millisecond)
    end
  else if s_op s =?s "wait" then Ok (wrap64 (s_duration s * millisecond) + secs 5, timeout / millisecond)
  else Ok (timeout, timeout / millisecond).

Definition marshal (b : option string) : result string :=
  match b with
  | Some b => Ok b
  | None => Err (Errorf "json: error calling MarshalJSON" [])
  end.

Definition executeStep (g : G) (s : Step) : result string * G :=
  match step_timeouts g s with
  | Err e => (Err e, g)
  | Ok (timeout, ms) =>
      if s_op s =?s "clock.read" then
        let '(v, g) := call g timeout "clock.read" None dec_clock in
        ((let? v := v in do? validClock v ;; marshal (Some (print (enc_clock v)))), g)
      else if s_op s =?s "clock.set" then
        let '(v, g) := call g timeout "clock.set"
                         (Some (Some (print (enc_clock_set_request (s_at s) (s_tolerance s) (s_allow_live s)))))
                         dec_clock_set in
        ((let? v := v in do? check_clock_set s v ;; marshal (Some (print (enc_clock_set v)))), g)
      else if s_op s =?s "action.exec" then
        let '(v, g) := call g timeout "action.exec"
                         (Some (enc_action_request (s_action s) (s_input s) ms)) dec_action in
        ((let? v := v in do? check_action v ;; marshal (enc_action v)), g)
      else if (s_op s =?s "service.start") || (s_op s =?s "service.stop") then
        let '(v, g) := call g timeout (s_op s)
                         (Some (enc_service_request (s_service s) (s_input s) ms)) dec_service in
        ((let? v := v in do? check_service s v ;; marshal (Some (print (enc_service v)))), g)
      else if s_op s =?s "wait" then
        let '(before, g) := call g timeout "clock.read" None dec_clock in
        match before with
        | Err e => (Err e, g)
        | Ok before =>
            let '(woken, g) := sleep g (wrap64 (s_duration s * millisecond)) in
            match woken with
            | Some e => (Err e, g)
            | None =>
                let '(after, g) := call g timeout "clock.read" None dec_clock in
                ((let? after := after in
                  do? validInterval before after ;;
                  marshal (Some (print (JObject [("before", enc_clock before); ("after", enc_clock after);
                                                 ("duration_ms", enc_int (s_duration s))]%string)))), g)
            end
        end
      else (Err (Errorf "unsupported planned operation" []), g)
  end.
End steps.

(** ** What an accepted result means *)
Definition interval_ok (before after : ClockObservation) : Prop :=
  is_zero (Realtime before) = false ∧ is_zero (Realtime after) = false ∧
  0 <= MonotonicNS before <= MonotonicNS after.

Record clock_set_evidence (s : Step) (v : ClockSetResult) : Prop := {
  ce_target : parse_rfc3339nano (s_at s) = Some (cr_target v);
  ce_tolerance : cr_tolerance v = s_tolerance s;
  ce_interval : interval_ok (cr_before v) (cr_after v);
  ce_elapsed : cr_elapsed v = MonotonicNS (cr_after v) - MonotonicNS (cr_before v);
  ce_readback : cr_target v - s_tolerance s * millisecond <= Realtime (cr_after v)
                <= cr_target v + cr_elapsed v + s_tolerance s * millisecond
}.
Record action_evidence (v : ActionResult) : Prop := {
  ae_exit : 0 <= ar_exit v <= 255;
  ae_whole : ar_stdout_truncated v = false ∧ ar_stderr_truncated v = false;
  ae_size : 0 < blen (ar_stdout_json v) <= MaxOutput ∧ blen (ar_stderr v) <= MaxOutput;
  ae_json : is_ok (JsonUtil.Decode dec_any JNull (ar_stdout_json v)) = true;
  ae_interval : interval_ok (ar_before v) (ar_after v)
}.
Record service_evidence (s : Step) (v : ServiceResult) : Prop := {
  se_service : sr_service v = s_service s;
  se_running : sr_running v = is_op "service.start" s;
  se_size : blen (sr_stdout v) <= MaxOutput ∧ blen (sr_stderr v) <= MaxOutput;
  se_interval : interval_ok (sr_before v) (sr_after v)
}.

Lemma validClock_ok c : validClock c = Ok tt ↔ is_zero (Realtime c) = false ∧ 0 <= MonotonicNS c.
Proof.
  unfold validClock. destruct (is_zero (Realtime c)); cbn; [naive_solver|].
  destruct (Z.ltb_spec (MonotonicNS c) 0); split; (done || naive_solver lia).
Qed.
Lemma validInterval_ok a b : validInterval a b = Ok tt ↔ interval_ok a b.
Proof.
  unfold validInterval, interval_ok. rewrite rbind_ok. setoid_rewrite rbind_ok.
  split.
  - intros ([] & H1 & [] & H2 & H3). apply validClock_ok in H1, H2. inv_ok H3. to_prop. naive_solver lia.
  - intros (H1 & H2 & H3). exists tt. split; [apply validClock_ok; naive_solver lia|].
    exists tt. split; [apply validClock_ok; naive_solver lia|]. by rewrite (proj2 (Z.ltb_ge _ _)) by lia.
Qed.

Lemma wrap64_le z : - 2 ^ 63 <= z → wrap64 z <= z.
Proof.
  intros Hz. unfold wrap64. pose proof (Z.mod_le (z + 2 ^ 63) (2 ^ 64) ltac:(lia) ltac:(lia)). lia.
Qed.

Lemma check_clock_set_ok s v :
  int64_ok (MonotonicNS (cr_before v)) = true → int64_ok (MonotonicNS (cr_after v)) = true →
  1 <= s_tolerance s <= 10000 →
  check_clock_set s v = Ok tt → cr_valid v = true ∧ clock_set_evidence s v.
Proof.
  unfold check_clock_set, int64_ok. intros I1 I2 Htol H.
  destruct (parse_rfc3339nano (s_at s)) as [target|] eqn:Et; [|done]. inv_ok H. destruct a, a0.
  apply validClock_ok in E, E0. to_prop.
  assert (E63 : 2 ^ 63 = 9223372036854775808) by reflexivity. unfold millisecond in *.
  rewrite (wrap64_id (s_tolerance s * 1000000)) in * by lia. rewrite (wrap64_id (- _)) in * by lia.
  rewrite (wrap64_id (MonotonicNS _ - _)) in * by lia.
  split; [done|]. subst target. split; [done|done|unfold interval_ok; naive_solver lia|lia|].
  unfold millisecond. split; [lia|].
  pose proof (wrap64_le (MonotonicNS (cr_after v) - MonotonicNS (cr_before v) + s_tolerance s * 1000000) ltac:(lia)).
  lia.
Qed.

Lemma check_action_ok v : check_action v = Ok tt → action_evidence v.
Proof.
  unfold check_action. intros H. inv_ok H. destruct a. apply map_err_ok in E2. apply validInterval_ok in H.
  to_prop. split; try done.
  - split; [|done]. split; [|done]. destruct (ar_stdout_json v); [done|]. unfold blen. cbn. lia.
  - by destruct (JsonUtil.Decode dec_any JNull (ar_stdout_json v)).
Qed.
Lemma check_service_ok s v : check_service s v = Ok tt → service_evidence s v.
Proof.
  unfold check_service. intros H. inv_ok H. apply validInterval_ok in H. to_prop.
  split; try done. by apply Bool.eqb_prop.
Qed.

(** *** What the connection promises: results are strictly decoded *)
Class LawfulLink (G : Type) `{Link G} :=
  call_decodes : ∀ A (g : G) t op p (d : decoder A) v g',
    call g t op p d = (Ok v, g') → ∃ raw, JsonUtil.Decode d (JsonUtil.zero d) raw = Ok v.

Lemma decode_store {A} (d : decoder A) old raw v : JsonUtil.Decode d old raw = Ok v → store d old raw = Ok v.
Proof.
  unfold JsonUtil.Decode. intros H. inv_ok H. destruct (value _ _) as [[x rest]|]; [|done].
  inv_ok H. by injection H as <-.
Qed.
Lemma parse_int_range bits s z : parse_int 10 bits s = Some z → - 2 ^ (bits - 1) <= z < 2 ^ (bits - 1).
Proof.
  unfold parse_int. destruct (digits _ _); [|done]. case_match; [|done]. intros [= <-]. by to_prop.
Qed.
Lemma get_int_range k old fs n :
  get_field (dec_int 64) k old fs = Ok n → int64_ok old = true → int64_ok n = true.
Proof.
  unfold get_field. destruct (assoc k fs) as [raw|]; [|by intros [= ->]]. cbn [store dec_int dec_number].
  destruct (parse raw) as [[]|]; try done; [by intros [= ->]|].
  destruct (parse_int 10 64 _) as [z|] eqn:E; [|done]. intros [= <-] _. apply parse_int_range in E.
  change (64 - 1) with 63 in E. unfold int64_ok. by rewrite (proj2 (Z.leb_le _ _)), (proj2 (Z.ltb_lt _ _)) by lia.
Qed.
Lemma get_clock_range k old fs c :
  get_field dec_clock k old fs = Ok c → int64_ok (MonotonicNS old) = true → int64_ok (MonotonicNS c) = true.
Proof.
  unfold get_field. destruct (assoc k fs) as [raw|]; [|by intros [= ->]]. cbn [store dec_clock].
  intros H Hold. inv_ok H. injection H as <-. cbn. by eapply get_int_range.
Qed.
Lemma clock_set_range raw v : JsonUtil.Decode dec_clock_set (JsonUtil.zero dec_clock_set) raw = Ok v →
  int64_ok (MonotonicNS (cr_before v)) = true ∧ int64_ok (MonotonicNS (cr_after v)) = true.
Proof.
  intros H%decode_store. cbn [store dec_clock_set] in H. inv_ok H. injection H as <-. cbn.
  split; eapply get_clock_range; try eassumption; reflexivity.
Qed.

(** The recorded observation of a successful step. *)
Definition step_evidence (s : Step) (raw : string) : Prop :=
  (is_op "clock.set" s = true → ∃ v, raw = print (enc_clock_set v) ∧ cr_valid v = true ∧ clock_set_evidence s v) ∧
  (is_op "action.exec" s = true → ∃ v, enc_action v = Some raw ∧ action_evidence v) ∧
  ((is_op "service.start" s || is_op "service.stop" s) = true →
     ∃ v, raw = print (enc_service v) ∧ service_evidence s v) ∧
  (is_op "wait" s = true → ∃ before after, interval_ok before after ∧
     raw = print (JObject [("before", enc_clock before); ("after", enc_clock after);
                           ("duration_ms", enc_int (s_duration s))]%string)) ∧
  (is_op "clock.read" s = true → ∃ v, raw = print (enc_clock v) ∧ validClock v = Ok tt).

Section evidence.
Context {G : Type} `{LawfulLink G}.

Lemma marshal_ok b raw : marshal b = Ok raw → b = Some raw.
Proof. destruct b as [j|]; cbn; [by intros [= <-]|done]. Qed.
Lemma marshal_some b raw : marshal (Some b) = Ok raw → raw = b.
Proof. by intros [= <-]. Qed.

Lemma pair_eq {A B} (a a' : A) (b b' : B) : (a, b) = (a', b') → a = a' ∧ b = b'.
Proof. by intros [= -> ->]. Qed.

(** Conjuncts of [step_evidence] about other operations. *)
Ltac other_ops E := unfold step_evidence, is_op; rewrite E; split_and!; intros Hop; try discriminate Hop; clear Hop.

Lemma execute_step_evidence (g g' : G) s t raw :
  step_wf t s → executeStep g s = (Ok raw, g') → step_evidence s raw.
Proof.
  intros Hwf Hex. unfold executeStep in Hex. destruct (step_timeouts g s) as [[timeout ms]|]; [|done].
  destruct (String.eqb_spec (s_op s) "clock.read") as [E|_].
  { destruct (call _ _ _ _ _) as [[v|e] g1]; [|discriminate Hex].
    apply pair_eq in Hex as [Hv _]. cbn [fst] in Hv. cbn [rbind] in Hv. inv_ok Hv. destruct a. apply marshal_some in Hv as ->.
    other_ops E. by exists v. }
  destruct (String.eqb_spec (s_op s) "clock.set") as [E|_].
  { destruct (call _ _ _ _ _) as [[v|e] g1] eqn:Ec; [|discriminate Hex].
    apply pair_eq in Hex as [Hv _]. cbn [fst] in Hv. cbn [rbind] in Hv. inv_ok Hv. destruct a. apply marshal_some in Hv as ->.
    destruct (call_decodes _ _ _ _ _ _ _ _ Ec) as (r & Hr). destruct (clock_set_range _ _ Hr).
    assert (Ht : 1 <= s_tolerance s <= 10000) by (apply (sw_clock _ _ Hwf); unfold is_op; by rewrite E).
    other_ops E. exists v. split; [reflexivity|]. by apply check_clock_set_ok. }
  destruct (String.eqb_spec (s_op s) "action.exec") as [E|_].
  { destruct (call _ _ _ _ _) as [[v|e] g1]; [|discriminate Hex].
    apply pair_eq in Hex as [Hv _]. cbn [fst] in Hv. cbn [rbind] in Hv. inv_ok Hv. destruct a. apply marshal_ok in Hv.
    other_ops E. exists v. split; [done|]. by apply check_action_ok. }
  destruct ((s_op s =?s "service.start") || (s_op s =?s "service.stop")) eqn:E.
  { destruct (call _ _ _ _ _) as [[v|e] g1]; [|discriminate Hex].
    apply pair_eq in Hex as [Hv _]. cbn [fst] in Hv. cbn [rbind] in Hv. inv_ok Hv. destruct a. apply marshal_some in Hv as ->.
    apply check_service_ok in E0. apply orb_true_iff in E as [E|E]; apply String.eqb_eq in E;
      other_ops E; by exists v. }
  destruct (String.eqb_spec (s_op s) "wait") as [Ew|_]; [|discriminate Hex].
  destruct (call _ _ _ _ _) as [[before|e] g1]; [|discriminate Hex].
  destruct (sleep _ _) as [[e|] g2]; [discriminate Hex|].
  destruct (call g2 _ _ _ _) as [[after|e] g3]; [|discriminate Hex].
  apply pair_eq in Hex as [Hv _]. cbn [fst] in Hv. cbn [rbind] in Hv. inv_ok Hv. destruct a. apply marshal_some in Hv as ->.
  other_ops Ew. exists before, after. split; [by apply validInterval_ok|reflexivity].
Qed.
End evidence.

(** ** The guest client as the engine's connection *)

(** The run's context, as the engine uses it: its deadline and error, and the timer a
    [wait] selects on. *)
Class RunContext (X : Type) := {
  cx_remaining : X → option Z;
  cx_error : X → option error;
  cx_child_error : X → Z → option error;
  cx_sleep : X → Z → option error * X;
  cx_elapse : X → X
}.
Section client_link.
Context {C X : Type} `{Conn C} `{RunContext X}.

Definition client_call {A} (g : Client C * X) (timeout : Z) (op : string) (payload : option (option string))
    (d : decoder A) : result A * (Client C * X) :=
  let '(v, cl) := GuestClient.Call g.1 (cx_child_error g.2 timeout) op payload d in
  (v, (cl, cx_elapse g.2)).
#[export] Instance client_link : Link (Client C * X) := {|
  call A := client_call (A := A);
  remaining g := cx_remaining g.2;
  ctx_error g := cx_error g.2;
  sleep g d := let '(e, x) := cx_sleep g.2 d in (e, (g.1, x))
|}.

Lemma client_call_decodes {A} (cl cl' : Client C) ctx op p (d : decoder A) v :
  GuestClient.Call cl ctx op p d = (Ok v, cl') → ∃ raw, JsonUtil.Decode d (JsonUtil.zero d) raw = Ok v.
Proof.
  unfold GuestClient.Call. destruct (broken cl); [done|]. destruct ctx; [done|]. destruct (negb _); [done|].
  destruct (match p with None => _ | Some v => _ end) as [body|]; [|done].
  destruct (WriteFrame _ _) as [[e|] c]; [done|]. destruct (ReadLine _ _) as [frame r].
  destruct (rbind frame _) as [[raw|err]|e]; [|done..].
  destruct (JsonUtil.Decode d _ raw) as [x|] eqn:E; [|done]. intros Hv. exists raw. by injection Hv as <-.
Qed.
#[export] Instance client_link_lawful : LawfulLink (Client C * X).
Proof.
  intros A g t op p d v g' Hc. cbn in Hc. unfold client_call in Hc.
  destruct (GuestClient.Call _ _ _ _ _) as [res cl] eqn:E. apply pair_eq in Hc as [-> _].
  by apply client_call_decodes in E.
Qed.
End client_link.

(** ** Theorems *)

(** C9.  A step that succeeds is recorded only with evidence the host checked itself,
    whatever the guest claims.  For a clock change: the echoed target is the planned
    instant, the monotonic clock did not go back, the elapsed time is the difference of
    the two observations and the wall clock read back lies between the target minus the
    tolerance and the target plus the elapsed time plus the tolerance.  For an action: a
    normal exit code, complete output within 64 KiB that is one strict JSON document.
    For a service: the planned service, running exactly after a start.  For a wait:
    two ordered observations. *)
Theorem execute_step_sound {G} `{LawfulLink G} (g g' : G) s t raw :
  step_wf t s → executeStep g s = (Ok raw, g') → step_evidence s raw.
Proof. apply execute_step_evidence. Qed.

(** A workload request never asks the guest for more time than the plan or the run
    has: the millisecond budget sent is at least one, at most the step's timeout, fits in
    the time remaining, and the host waits exactly four seconds longer than that; with
    less than a millisecond remaining nothing is sent. *)
Theorem step_budget {G} `{Link G} (g : G) s t :
  step_wf t s → t <= 2 ^ 40 → runs_workload (s_op s) = true →
  match step_timeouts g s with
  | Ok (total, ms) =>
      1 <= ms <= s_timeout s ∧ total = ms * millisecond + secs 4 ∧
      (∀ left, remaining g = Some left → ms * millisecond <= left)
  | Err _ => ∃ left, remaining g = Some left ∧ left < millisecond
  end.
Proof.
  intros Hwf Ht Hop. destruct (sw_timeout _ _ Hwf Hop) as [Hlo Hhi]. unfold step_timeouts, responseAllowance.
  rewrite Hop, (proj2 (Z.ltb_lt _ _)) by lia. change (2 ^ 40) with 1099511627776 in Ht. unfold millisecond in *.
  rewrite wrap64_id by (change (2 ^ 63) with 9223372036854775808; lia).
  destruct (remaining g) as [left|] eqn:Er.
  2:{ rewrite Z.div_mul by lia. split_and!; [lia..|done]. }
  destruct (Z.ltb_spec left 1000000); [by exists left|].
  pose proof (Z.mod_pos_bound left 1000000 ltac:(lia)). pose proof (Z.div_mod left 1000000 ltac:(lia)).
  destruct (Z.ltb_spec left (s_timeout s * 1000000)).
  - replace (left - left mod 1000000) with (left / 1000000 * 1000000) by lia. rewrite Z.div_mul by lia.
    split_and!; [|nia|lia|]; [nia|]. intros l [= <-]. lia.
  - rewrite Z.div_mul by lia. split_and!; [lia..|]. intros l [= <-]. lia.
Qed.

(** The host and the guest judge a clock change alike: for a change the guest
    controller completed on the step's own request, with samples whose differences fit
    in 64 bits, the host's independent validation accepts the result exactly when the
    guest declared the read-back valid. *)
Theorem clock_verdicts_agree {B} `{Boundary B} (s : Step) (b b' : B) out :
  Set_ {| cs_at := s_at s; cs_tolerance := s_tolerance s; cs_allow_live := s_allow_live s |} b
    = ((out, None), b') →
  1 <= s_tolerance s <= 10000 → sane_samples (cr_before out) (cr_after out) →
  is_zero (Realtime (cr_before out)) = false →
  (is_ok (check_clock_set s out) = true ↔ cr_valid out = true).
Proof.
  intros Hs Htol (Hsup & Hb & Ha) Hz. destruct (set_inv _ _ _ _ Hs) as (Hp & Ht & _ & Hd & _ & He & Hv).
  cbn in Hp, Hd. destruct Hd as [[? _]|Hd]; [lia|]. unfold check_clock_set. rewrite Hp, <-He.
  assert (Hz' : is_zero (Realtime (cr_after out)) = false).
  { unfold is_zero. apply Z.eqb_neq. intros Hx. rewrite Hx in Hsup. by vm_compute in Hsup. }
  rewrite !(proj2 (validClock_ok _)) by (split; [done|lia]). cbn [rbind].
  rewrite Hd, !Z.eqb_refl, !orb_false_r. unfold readback_ok, time_sub in Hv. rewrite Hd in Hv.
  unfold supported, millisecond in *.
  change (utc_midnight 1990 1 1) with 631152000000000000 in *.
  change (utc_midnight 2100 1 1) with 4102444800000000000 in *. to_prop.
  assert (E63 : 2 ^ 63 = 9223372036854775808) by reflexivity.
  change (2 ^ 62) with 4611686018427387904 in *.
  rewrite (wrap64_id (s_tolerance s * 1000000)) in * by lia.
  rewrite wrap64_id in He by lia. rewrite (wrap64_id (- _)) in * by lia.
  rewrite (wrap64_id (cr_elapsed out + _)) in * by lia.
  rewrite E63, Z.min_r, Z.max_r in Hv by lia.
  set (e := cr_elapsed out) in *. set (a := Realtime (cr_after out)) in *. set (t := cr_target out) in *.
  destruct (cr_valid out); cbn [negb orb].
  - symmetry in Hv. to_prop. rewrite !(proj2 (Z.ltb_ge _ _)) by lia. done.
  - done.
Qed.

(** *** Examples *)
#[local] Instance sample_context : RunContext (option Z) := {|
  cx_remaining x := x; cx_error _ := None; cx_child_error _ _ := None;
  cx_sleep x _ := (None, x); cx_elapse x := x
|}.
Definition planned (i : nat) : Step := nth i (sc_steps validated) zero_step.
Lemma planned_wf i : (i < 2)%nat → step_wf 120000 (planned i).
Proof.
  intros Hi. destruct (validate_inv _ _ validated_ok) as (_ & _ & Hwf & _).
  change (sc_timeout validated) with 120000 in Hwf.
  assert (Hl : List.length (sc_steps validated) = 2%nat) by reflexivity.
  rewrite Forall_forall in Hwf. apply Hwf. apply list_elem_of_In. unfold planned.
  generalize dependent (sc_steps validated). intros l _ Hl. apply nth_In. lia.
Qed.
Definition set_reply : string :=
  (js "{'version':'epoch-guest/v1','id':'1','op':'clock.set','run_id':'run','nonce':'00','result':{'target':'2000-01-01T00:00:00Z','before':{'realtime':'2026-01-01T00:00:00Z','monotonic_ns':5},'after':{'realtime':'2000-01-01T00:00:00.000000004Z','monotonic_ns':9},'elapsed_ns':4,'tolerance_ms':1000,'readback_valid':true}}"
   +:+ String newline "")%string.
Definition sample_link : Client scripted * option Z := (scripted_client [set_reply], Some (secs 60)).
Definition sample_executed := executeStep sample_link (planned 0).
Lemma execute_step_sound_witness :
  is_ok sample_executed.1 = true ∧
  ∀ raw, sample_executed.1 = Ok raw → step_evidence (planned 0) raw.
Proof.
  split; [vm_compute; reflexivity|]. intros raw Hraw.
  apply (execute_step_sound sample_link sample_executed.2 (planned 0) 120000); [apply planned_wf; lia|].
  rewrite <-Hraw. exact (surjective_pairing sample_executed).
Defined.
Definition hurried_link : Client scripted * option Z := (scripted_client [], Some 2500000).
Definition budgeted := step_timeouts hurried_link (planned 1).
Lemma step_budget_witness :
  match budgeted with Ok (total, ms) => ms = 2 ∧ total = 2 * millisecond + secs 4 | Err _ => False end ∧
  2 * millisecond <= 2500000.
Proof.
  assert (Hb := step_budget hurried_link (planned 1) 120000 (planned_wf 1 ltac:(lia)) ltac:(vm_compute; discriminate)
                  ltac:(vm_compute; reflexivity)).
  assert (Ht : budgeted = Ok (4002000000, 2)) by (vm_compute; reflexivity).
  fold budgeted in Hb. rewrite Ht in Hb |- *. destruct Hb as (_ & _ & Hb).
  split; [split; reflexivity|]. apply Hb. reflexivity.
Defined.
Definition agreed_clock : fake_clock := {| fk_now := 0; fk_mono := 100; fk_ticks := [5; 7]; fk_sets := [] |}.
Definition agreed_set :=
  Set_ {| cs_at := s_at (planned 0); cs_tolerance := s_tolerance (planned 0);
          cs_allow_live := s_allow_live (planned 0) |} agreed_clock.
Lemma clock_verdicts_agree_witness : is_ok (check_clock_set (planned 0) agreed_set.1.1) = true.
Proof.
  apply (clock_verdicts_agree (planned 0) agreed_clock agreed_set.2).
  - vm_compute. reflexivity.
  - vm_compute. split; discriminate.
  - vm_compute. repeat split; discriminate.
  - vm_compute. reflexivity.
  - vm_compute. reflexivity.
Defined.
