(* ===== verification/WireTypes.v ===== *)
(** * WireTypes: the messages of internal/protocol survive the wire

    Every message type of the guest protocol is written by [json.Marshal] and read by the
    strict decoder.  [Wire] is the law the two sides rely on; the instances prove it for the
    clock observation, the clock change, the action and service results, the hello, and the
    three request payloads, on the values the protocol carries (times of the supported
    interval, 64-bit counters, UTF-8 text). *)

From S2P Require Import Prelude GoLib Json JsonFacts GoTime GoText JsonUtil JsonText Protocol ProtocolFacts GuestClock EngineSteps.
From Stdlib Require Import Ascii String.

(** What is written for an acceptable value is one JSON document within the decoder's limits,
    up to three levels inside a message; it is decoded to that value, with embedded raw
    JSON in the compact form the encoder gives it ([norm]). *)
Class Wire {A} (d : decoder A) (enc : A → option string) (ok : A → Prop) (norm : A → A) := {
  wire_reads a : ok a → ∃ t v, enc a = Some t ∧ doc t v ∧ check_value 3 v = Ok tt ∧
                               v ≠ JNull ∧ exactFields (go_type d) t = Ok tt ∧
                               store d (JsonUtil.zero d) t = Ok (norm a)
}.

Lemma check_value_antitone d d' v : d' ≤ d → check_value d v = Ok tt → check_value d' v = Ok tt.
Proof. rewrite !check_value_spec. intros Hd (? & ? & ?). split; [lia|done]. Qed.

Lemma wire_decode {A} (d : decoder A) enc ok norm `{!Wire d enc ok norm} a :
  ok a → ∃ t v, enc a = Some t ∧ doc t v ∧ check_value 3 v = Ok tt ∧ v ≠ JNull ∧
                JsonUtil.Decode d (JsonUtil.zero d) t = Ok (norm a).
Proof.
  intros Hok. destruct (wire_reads a Hok) as (t & v & Ht & Hd & Hc & Hn & Hx & Hs). exists t, v.
  split_and!; try done. rewrite (decode_doc _ _ _ v Hd); [by rewrite Hs| |done].
  by rewrite (check_value_antitone 3 0 v ltac:(lia) Hc).
Qed.

(** ** Members *)
Lemma trim_quoted body :
  trim_space (String (chr 34) (body +:+ String (chr 34) "")) = String (chr 34) (body +:+ String (chr 34) "").
Proof.
  assert (Hl : ∀ s, strip_any space_runes (String (chr 34) s) = None) by (intros; reflexivity).
  assert (Hr : ∀ s, strip_any (map string_rev space_runes) (String (chr 34) s) = None) by (intros; reflexivity).
  unfold trim_space. cbn [String.length trim_left]. rewrite Hl. cbn [String.length trim_left].
  assert (Hrev : string_rev (String (chr 34) (body +:+ String (chr 34) "")) = String (chr 34) (string_rev body +:+ String (chr 34) "")).
  { by rewrite string_rev_cons, string_rev_app. }
  rewrite Hrev, Hr, string_rev_cons, string_rev_app, string_rev_involutive. done.
Qed.
Lemma exact_time t : exactFields TTime (print (enc_time t)) = Ok tt.
Proof.
  cbn [enc_time print]. unfold quote. cbn [exactFields]. unfold is_null, starts_brace. by rewrite trim_quoted.
Qed.
Lemma exact_bool raw : exactFields TBool raw = Ok tt.
Proof. cbn. by destruct (is_null raw). Qed.
Lemma exact_uint n raw : exactFields (TUint n) raw = Ok tt.
Proof. cbn. by destruct (is_null raw). Qed.
#[export] Hint Resolve exact_time exact_bool exact_uint : epoch.

Lemma dec_enc_time old t : supported t = true → store dec_time old (print (enc_time t)) = Ok t.
Proof. exact (dec_time_print old t). Qed.
Lemma dec_uint_print n old : 0 <= n < 2 ^ 32 → store (dec_uint 32) old (print (enc_int n)) = Ok n.
Proof.
  intros Hn. cbn [store dec_uint dec_number enc_int]. rewrite parse_print by (cbn; apply valid_number_itoa).
  unfold enc_int. cbn beta iota. unfold itoa. rewrite (proj2 (Z.ltb_ge _ _)) by lia. unfold parse_uint.
  rewrite digits_utoa by lia. by rewrite (proj2 (Z.ltb_lt _ _)) by lia.
Qed.
Lemma dec_enc_int old n : int64_ok n = true → store (dec_int 64) old (print (enc_int n)) = Ok n.
Proof. apply dec_int_print. Qed.
Lemma wf_time t : json_wf (enc_time t) = true.
Proof. apply format_utf8. Qed.
Lemma wf_int n : json_wf (enc_int n) = true.
Proof. apply valid_number_itoa. Qed.

Lemma wf_object m : Forall (λ kv, utf8_valid kv.1 = true ∧ json_wf kv.2 = true) m → json_wf (JObject m) = true.
Proof. intros Hm. cbn [json_wf]. apply forallb_forall. intros kv Hin%list_elem_of_In.
  rewrite Forall_forall in Hm. by apply andb_true_iff, Hm. Qed.

(** Prove [Wire] of a struct whose members are [m]: well-formed, within the limits, of the
    declared fields, and read back member by member. *)
Ltac wire_wf :=
  apply wf_object;
  repeat (apply Forall_cons_2; [cbn [fst snd]; split;
    [reflexivity|first [assumption|reflexivity|apply wf_time|apply wf_int]]|]); apply Forall_nil_2.
Ltac wire_exact m :=
  apply exactFields_struct; [done|]; unfold m;
  repeat (apply Forall_cons_2; [cbn [fst snd]; eexists; split; [reflexivity|first [assumption|by auto with epoch]]|]);
  apply Forall_nil_2.
Ltac wire_store d :=
  cbn [store d]; rewrite struct_fields_print by assumption; cbn [rbind].

Record clock_ok (o : ClockObservation) : Prop := {
  ck_time : supported (Realtime o) = true;
  ck_mono : int64_ok (MonotonicNS o) = true
}.
Lemma clock_reads o : clock_ok o →
  json_wf (enc_clock o) = true ∧ (∀ d, d <= 60 → check_value d (enc_clock o) = Ok tt) ∧
  exactFields (go_type dec_clock) (print (enc_clock o)) = Ok tt ∧
  ∀ old, store dec_clock old (print (enc_clock o)) = Ok o.
Proof.
  intros [Ht Hm]. unfold enc_clock. match goal with |- json_wf (JObject ?l) = true ∧ _ => set (m := l) end.
  assert (Hwf : json_wf (JObject m) = true) by (unfold m; wire_wf). split; [done|]. split; [|split].
  - intros d Hd. unfold m. apply check_object; [unfold MaxDepth; lia|literal_keys|].
    apply Forall_cons_2; [cbn; by rewrite (proj2 (Z.ltb_ge _ _)) by (unfold MaxDepth; lia)|].
    apply Forall_cons_2; [apply check_int; [unfold MaxDepth; lia|done]|apply Forall_nil_2].
  - wire_exact m.
  - intros old. wire_store dec_clock. erewrite !get_raw by reflexivity. rewrite dec_enc_time, dec_enc_int by done.
    by destruct o.
Qed.
#[export] Instance clock_wire : Wire dec_clock (λ o, Some (print (enc_clock o))) clock_ok id.
Proof.
  constructor. intros o Ho. destruct (clock_reads o Ho) as (H1 & H2 & H3 & H4). eexists _, _.
  split; [done|]. split; [by apply doc_print|]. split; [by apply H2|]. done.
Qed.

Record clock_set_ok (r : ClockSetResult) : Prop := {
  co_target : supported (cr_target r) = true;
  co_before : clock_ok (cr_before r);
  co_after : clock_ok (cr_after r);
  co_elapsed : int64_ok (cr_elapsed r) = true;
  co_tolerance : int64_ok (cr_tolerance r) = true
}.
(** A message with nested observations: their facts in the context. *)
Ltac use_clock H := destruct (clock_reads _ H) as (? & ? & ? & ?).
Ltac wire_check :=
  apply check_object; [done|literal_keys|];
  repeat (apply Forall_cons_2; [cbn [snd]; first [reflexivity|apply check_int; [done|assumption]|
    match goal with H : ∀ d, d <= 60 → check_value d ?x = _ |- check_value _ ?x = _ => by apply H end|assumption]|]);
  apply Forall_nil_2.
Ltac wire_object m :=
  match goal with |- ∃ t v, Some (print (JObject ?l)) = Some t ∧ _ => set (m := l) end;
  assert (json_wf (JObject m) = true) by (unfold m; wire_wf);
  exists (print (JObject m)), (JObject m); split; [done|]; split; [by apply doc_print|]; split;
  [unfold m; wire_check|]; split; [done|]; split; [wire_exact m|].
(** The same for a message of texts, whose values are [vs]; then its members are read. *)
Ltac wire_texts vs d :=
  let ms := fresh "ms" in let Hm := fresh "Hm" in
  cbn [raw_members map fst snd app];
  match goal with |- ∃ t v, Some (obj ?l) = Some t ∧ _ => set (ms := l) end;
  assert (Hm : docs ms vs) by
    (repeat (apply Forall2_cons; split;
      [split_and!; [reflexivity|reflexivity|cbn [snd]; first [assumption|apply doc_print; first [assumption|reflexivity|apply wf_int]]]|]);
     apply Forall2_nil; exact I);
  exists (obj ms), (JObject vs); split; [done|]; split; [by apply doc_obj|]; split; [wire_check|];
  split; [done|]; split; [exact_texts Hm|]; cbn [store d]; read_texts Hm.
Ltac wire_members :=
  erewrite ?get_raw by reflexivity;
  repeat first [rewrite dec_enc_time by done | rewrite dec_string_print by done | rewrite dec_enc_int by done
               | rewrite dec_bool_print | rewrite dec_uint_print by done
               | match goal with H : ∀ old, store dec_clock old _ = Ok _ |- _ => rewrite H end];
  cbn [rbind].

#[export] Instance clock_set_wire : Wire dec_clock_set (λ r, Some (print (enc_clock_set r))) clock_set_ok id.
Proof.
  constructor. intros r [Ht Hb Ha He Hto]. use_clock Hb. use_clock Ha. unfold enc_clock_set. wire_object m.
  wire_store dec_clock_set. wire_members. by destruct r.
Qed.

Record service_ok (r : ServiceResult) : Prop := {
  vo_text : all_utf8 [sr_service r; sr_stdout r; sr_stderr r];
  vo_before : clock_ok (sr_before r);
  vo_after : clock_ok (sr_after r)
}.
Ltac use_utf8 H := unfold all_utf8 in H; rewrite !Forall_cons in H; destruct_and? H.
#[export] Instance service_wire : Wire dec_service (λ r, Some (print (enc_service r))) service_ok id.
Proof.
  constructor. intros r [Hu Hb Ha]. use_utf8 Hu. use_clock Hb. use_clock Ha. unfold enc_service, omit_empty.
  destruct (String.eqb_spec (sr_stdout r) "") as [Ho|Ho]; destruct (String.eqb_spec (sr_stderr r) "") as [He|He]; cbn [app].
  all: wire_object m; wire_store dec_service.
  all: rewrite ?(get_missing dec_string "stdout") by reflexivity; rewrite ?(get_missing dec_string "stderr") by reflexivity.
  all: wire_members; clear -Ho He; destruct r as [a b c d o e]; simpl in Ho, He; try subst; reflexivity.
Qed.

Record hello_ok (h : HelloResult) : Prop := {
  ho_text : all_utf8 [h_agent_version h; h_agent_sha h; h_protocol h; h_run h; h_nonce h; h_workload h;
                      h_workload_version h; h_workload_sha h];
  ho_cid : 0 <= h_cid h < 2 ^ 32
}.
#[export] Instance hello_wire : Wire dec_hello (λ h, Some (print (enc_hello h))) hello_ok id.
Proof.
  constructor. intros h [Hu Hc]. use_utf8 Hu. unfold enc_hello.
  assert (int64_ok (h_cid h) = true).
  { unfold int64_ok. assert (2 ^ 32 = 4294967296) by reflexivity. assert (2 ^ 63 = 9223372036854775808) by reflexivity. lia. }
  wire_object m. wire_store dec_hello. wire_members. by destruct h.
Qed.

(** Embedded JSON: what [json.Marshal] makes of a [json.RawMessage]. *)
Definition raw_norm (raw : string) : string := if raw =?s "" then "null"%string else compact Outside 0 raw.
Definition embedded (raw : string) : Prop :=
  raw = ""%string ∨ ∃ v, parse raw = Some v ∧ utf8_valid raw = true ∧ check_value 4 v = Ok tt.
Lemma embedded_enc raw : embedded raw → ∃ t v, enc_raw raw = Some t ∧ doc t v ∧ check_value 4 v = Ok tt ∧ raw_norm raw = t.
Proof.
  intros [->|(v & Hp & Hu & Hc)].
  - exists "null"%string, JNull. split_and!; [done|by apply (doc_print JNull)|done..].
  - destruct (String.eqb_spec raw "") as [->|Hne]; [done|].
    destruct (enc_raw_valid raw v) as [He Hd]; [done|done|apply (nesting_checked 4); [lia|done]|done|].
    eexists _, v. split_and!; [done..|]. unfold raw_norm. by rewrite (proj2 (String.eqb_neq _ _) Hne).
Qed.
Record action_ok (r : ActionResult) : Prop := {
  ao_exit : int64_ok (ar_exit r) = true;
  ao_out : embedded (ar_stdout_json r);
  ao_err : utf8_valid (ar_stderr r) = true;
  ao_before : clock_ok (ar_before r);
  ao_after : clock_ok (ar_after r)
}.
Definition action_norm (r : ActionResult) : ActionResult :=
  {| ar_exit := ar_exit r; ar_stdout_json := raw_norm (ar_stdout_json r); ar_stderr := ar_stderr r;
     ar_stdout_truncated := ar_stdout_truncated r; ar_stderr_truncated := ar_stderr_truncated r;
     ar_before := ar_before r; ar_after := ar_after r |}.
#[export] Instance action_wire : Wire dec_action enc_action action_ok action_norm.
Proof.
  constructor. intros r [Hx Ho He Hb Ha]. use_clock Hb. use_clock Ha. unfold enc_action, action_norm.
  destruct (embedded_enc _ Ho) as (t & v & -> & Hd & Hc & ->).
  wire_texts [("exit_code", enc_int (ar_exit r)); ("stdout_json", v); ("stderr", JString (ar_stderr r));
              ("stdout_truncated", JBool (ar_stdout_truncated r)); ("stderr_truncated", JBool (ar_stderr_truncated r));
              ("before", enc_clock (ar_before r)); ("after", enc_clock (ar_after r))]%string dec_action.
  wire_members. done.
Qed.

(** ** Request payloads *)
Record clock_request_ok (p : ClockSetRequest) : Prop := {
  qo_at : utf8_valid (cs_at p) = true;
  qo_tolerance : int64_ok (cs_tolerance p) = true
}.
#[export] Instance clock_request_wire :
  Wire dec_clock_set_request (λ p, Some (print (enc_clock_set_request (cs_at p) (cs_tolerance p) (cs_allow_live p)))) clock_request_ok id.
Proof.
  constructor. intros p [Ha Ht]. unfold enc_clock_set_request. wire_object m. wire_store dec_clock_set_request.
  wire_members. by destruct p.
Qed.

(** An input is absent or embedded JSON; absent, it stays so. *)
Definition input_norm (raw : string) : string := compact Outside 0 raw.
Lemma omit_embedded k raw : embedded raw →
  raw = ""%string ∧ omit_raw k raw = Some [] ∧ input_norm raw = ""%string ∨
  ∃ t v, omit_raw k raw = Some [(k, t)] ∧ doc t v ∧ check_value 4 v = Ok tt ∧ input_norm raw = t.
Proof.
  intros He. unfold omit_raw. destruct (String.eqb_spec raw "") as [->|Hne]; [by left|].
  right. destruct (embedded_enc _ He) as (t & v & -> & Hd & Hc & <-). exists (raw_norm raw), v. split_and!; try done.
  unfold raw_norm. by rewrite (proj2 (String.eqb_neq _ _) Hne).
Qed.
Record action_request_ok (p : ActionRequest) : Prop := {
  aqo_action : utf8_valid (aq_action p) = true;
  aqo_input : embedded (aq_input p);
  aqo_timeout : int64_ok (aq_timeout p) = true
}.
Definition action_request_norm (p : ActionRequest) : ActionRequest :=
  {| aq_action := aq_action p; aq_input := input_norm (aq_input p); aq_timeout := aq_timeout p |}.
#[export] Instance action_request_wire :
  Wire dec_action_request (λ p, enc_action_request (aq_action p) (aq_input p) (aq_timeout p))
    action_request_ok action_request_norm.
Proof.
  constructor. intros p [Ha Hi Ht]. unfold enc_action_request, action_request_norm.
  destruct (omit_embedded "input" _ Hi) as [(_ & -> & ->)|(t & v & -> & Hd & Hc & ->)].
  - wire_texts [("action", JString (aq_action p)); ("timeout_ms", enc_int (aq_timeout p))]%string dec_action_request.
    wire_members. done.
  - wire_texts [("action", JString (aq_action p)); ("input", v); ("timeout_ms", enc_int (aq_timeout p))]%string dec_action_request.
    wire_members. done.
Qed.
Record service_request_ok (p : ServiceRequest) : Prop := {
  sqo_service : utf8_valid (sq_service p) = true;
  sqo_input : embedded (sq_input p);
  sqo_timeout : int64_ok (sq_timeout p) = true
}.
Definition service_request_norm (p : ServiceRequest) : ServiceRequest :=
  {| sq_service := sq_service p; sq_timeout := sq_timeout p; sq_input := input_norm (sq_input p) |}.
#[export] Instance service_request_wire :
  Wire dec_service_request (λ p, enc_service_request (sq_service p) (sq_input p) (sq_timeout p))
    service_request_ok service_request_norm.
Proof.
  constructor. intros p [Ha Hi Ht]. unfold enc_service_request, service_request_norm.
  destruct (omit_embedded "input" _ Hi) as [(_ & -> & ->)|(t & v & -> & Hd & Hc & ->)].
  - wire_texts [("service", JString (sq_service p)); ("timeout_ms", enc_int (sq_timeout p))]%string dec_service_request.
    wire_members. done.
  - wire_texts [("service", JString (sq_service p)); ("timeout_ms", enc_int (sq_timeout p)); ("input", v)]%string dec_service_request.
    wire_members. done.
Qed.
