(* ===== verification/GuestRpc.v ===== *)
(** * GuestRpc: the host's calls and the agent's handler, end to end

    internal/guestclient/client.go on one end of a connection and the request loop of
    internal/guestagent/server.go on the other.  [link] is the connection as the host uses
    it: what the host has written and the agent has not read, what the agent has written
    and the host has not read, and the agent's session behind it, which takes its turn (one
    round of [serve]) when the host waits for a response.  [direct] is the specification:
    the same call as a plain call of the handler, with no frames, identities or request
    numbers.  The simulation shows that the engine's steps cannot tell the two apart. *)

From S2P Require Import Prelude GoLib Json JsonFacts GoTime GoText JsonUtil JsonText Protocol ProtocolFacts GuestClock GuestAgent GuestClient Scenario EngineSteps WireTypes.
From Stdlib Require Import Ascii String.

(** ** The connection *)
Record link (W : Type) := {
  lk_text : error → string;
  lk_server : Server;
  lk_world : W;
  lk_seen : list string;
  lk_up : string;
  lk_down : string;
  lk_sent : string;
  lk_open : bool
}.
Arguments lk_text {W} _.
Arguments lk_server {W} _.
Arguments lk_world {W} _.
Arguments lk_seen {W} _.
Arguments lk_up {W} _.
Arguments lk_down {W} _.
Arguments lk_sent {W} _.
Arguments lk_open {W} _.
Arguments Build_link {W} _ _ _ _ _ _ _ _.

(** The buffer of [bufio.NewReader]. *)
Definition buffered (data : string) : reader := {| rd_data := data; rd_err := ErrEOF; rd_size := 4096 |}.
Lemma buffered_ok data : reader_ok (buffered data).
Proof. split; [cbn; lia|reflexivity]. Qed.

Section link.
Context {W : Type} `{Guest W}.

(** One round of the agent's loop, when the connection is open and a request is there. *)
Definition agent_turn (l : link W) : link W :=
  if negb (lk_open l) || (lk_up l =?s "") then l else
  let r := buffered (lk_up l) in
  let '(out, s, w, down, xs) :=
    serve (lk_text l) (λ _, None) 1 (lk_seen l) (lk_server l) (lk_world l) r (lk_down l) in
  Build_link (lk_text l) s w (map (λ x, q_id (x_request x)) xs ++ lk_seen l)
    (rd_data (ReadLine r MaxFrame).2) down (lk_sent l) (match out with None => true | Some _ => false end).

Definition with_down (l : link W) (down : string) : link W :=
  Build_link (lk_text l) (lk_server l) (lk_world l) (lk_seen l) (lk_up l) down (lk_sent l) (lk_open l).
#[export] Instance link_writer : Writer (link W) := {|
  delivered := lk_sent;
  Write l b := (String.length b, None,
    Build_link (lk_text l) (lk_server l) (lk_world l) (lk_seen l) (lk_up l +:+ b) (lk_down l)
      (lk_sent l +:+ b) (lk_open l))
|}.
#[export] Instance link_lawful : LawfulWriter (link W).
Proof.
  constructor. intros l b n e l' Hw. injection Hw as <- <- <-. split; [lia|]. cbn.
  by rewrite string_take_all by lia.
Qed.
#[export] Instance link_conn : Conn (link W) := {|
  inbound l := buffered (lk_down (agent_turn l));
  set_inbound l r := with_down (agent_turn l) (rd_data r);
  close_conn l := Build_link (lk_text l) (lk_server l) (lk_world l) (lk_seen l) (lk_up l) (lk_down l) (lk_sent l) false
|}.
End link.

(** ** The specification *)

(** A text the encoder could have written, [depth] levels deep. *)
Definition canonical (depth : Z) (raw : string) : bool :=
  match parse raw with
  | Some v => (compact Outside 0 raw =?s raw) && utf8_valid raw && is_ok (check_value depth v)
  | None => false
  end.
Lemma canonical_raw depth raw : canonical depth raw = true → ∃ v, parse raw = Some v ∧ raw_ok depth raw v.
Proof.
  unfold canonical. destruct (parse raw) as [v|] eqn:Ep; [|done]. intros Hc. to_prop. exists v. split; [done|]. split.
  - match goal with Hc : compact Outside 0 raw = raw |- _ => rewrite <-Hc end. by apply doc_compact.
  - by destruct (check_value depth v) as [[]|].
Qed.

(** The response can be carried: UTF-8 text, embedded JSON as the encoder writes it, and
    a typed error that names itself. *)
Definition response_fits (p : Response) : bool :=
  forallb utf8_valid [p_version p; p_id p; p_op p; p_run p; p_nonce p] &&
  match p_error p with
  | None => canonical 1 (p_result p) && (p_result p <>?s "null")
  | Some e =>
      (p_result p =?s "") && utf8_valid (e_code e) && utf8_valid (e_message e) &&
      ((e_details e =?s "") || canonical 2 (e_details e)) && (e_code e <>?s "") && (e_message e <>?s "")
  end.
Definition frame_fits (b : option string) : bool :=
  match b with Some b => blen b + 1 <=? MaxFrame | None => false end.
Definition request_fits (q : Request) : bool :=
  forallb utf8_valid [q_version q; q_id q; q_op q; q_run q; q_nonce q] && canonical 1 (q_payload q) &&
  frame_fits (enc_request q).

(** The guest as a local object: the handler's state, the number of requests made, and
    [d_fits], false as soon as an exchange would not have fit the wire. *)
Record direct (W X : Type) := {
  d_text : error → string;
  d_server : Server;
  d_world : W;
  d_next : Z;
  d_open : bool;
  d_fits : bool;
  d_context : X
}.
Arguments d_text {W X} _.
Arguments d_server {W X} _.
Arguments d_world {W X} _.
Arguments d_next {W X} _.
Arguments d_open {W X} _.
Arguments d_fits {W X} _.
Arguments d_context {W X} _.
Arguments Build_direct {W X} _ _ _ _ _ _ _.

Section direct.
Context {W X : Type} `{Guest W} `{RunContext X}.

(** What the caller gets for the handler's outcome: the result decoded into its
    destination, or the guest's typed error. *)
Definition outcome {A} (d : decoder A) (p : Response) : result A :=
  match p_error p with
  | Some e => Err (ErrProtocol (e_code e) (e_message e) (e_details e))
  | None => JsonUtil.Decode d (JsonUtil.zero d) (p_result p)
  end.
Definition direct_request (g : direct W X) (op body : string) : Request :=
  {| q_version := Version; q_id := utoa (d_next g + 1); q_op := op; q_run := RunID (sv_identity (d_server g));
     q_nonce := Nonce (sv_identity (d_server g)); q_payload := body |}.
Definition elapse (g : direct W X) : direct W X :=
  Build_direct (d_text g) (d_server g) (d_world g) (d_next g) (d_open g) (d_fits g) (cx_elapse (d_context g)).

Definition direct_call {A} (g : direct W X) (timeout : Z) (op : string) (payload : option (option string))
    (d : decoder A) : result A * direct W X :=
  match cx_child_error (d_context g) timeout with
  | Some e => (Err e, elapse g)
  | None =>
      if negb (existsb (String.eqb op) guest_operations)
      then (Err (Errorf "unsupported guest operation" []), elapse g) else
      match (match payload with None => Some "{}"%string | Some b => b end) with
      | None => (Err (Errorf "json: unsupported value" []), elapse g)
      | Some body =>
          let req := direct_request g op body in
          let '((r, e), s, w) := handle (d_text g) (d_server g) (d_world g) req in
          match respond (d_text g) req r e with
          | Err x => (Err x, Build_direct (d_text g) s w (d_next g + 1) (d_open g) false (cx_elapse (d_context g)))
          | Ok p =>
              let fits := d_open g && (d_next g <? 1024) && request_fits req && response_fits p
                          && frame_fits (enc_response p)
                          && match p_error p with None => is_ok (outcome d p) | Some _ => true end in
              (outcome d p,
               Build_direct (d_text g) s w (d_next g + 1) (d_open g && (op <>?s "shutdown"))
                 (d_fits g && fits) (cx_elapse (d_context g)))
          end
      end
  end.
#[export] Instance direct_link : Link (direct W X) := {|
  call A := direct_call (A := A);
  remaining g := cx_remaining (d_context g);
  ctx_error g := cx_error (d_context g);
  sleep g d := let '(e, x) := cx_sleep (d_context g) d in
               (e, Build_direct (d_text g) (d_server g) (d_world g) (d_next g) (d_open g) (d_fits g) x)
|}.
End direct.

(** ** One exchange *)
Lemma existsb_fresh x l : x ∉ l → existsb (String.eqb x) l = false.
Proof. apply existsb_eqb_in. Qed.

(** The request numbers [1 .. n], the latest first. *)
Fixpoint issued (n : nat) : list string :=
  match n with O => [] | S n => utoa (Z.of_nat (S n)) :: issued n end.
Lemma issued_length n : List.length (issued n) = n.
Proof. induction n; cbn [issued List.length]; congruence. Qed.
Lemma utoa_inj x y : 0 <= x → 0 <= y → utoa x = utoa y → x = y.
Proof.
  intros Hx Hy Hu. assert (digits 10 (utoa x) = digits 10 (utoa y)) as Hd by (by rewrite Hu).
  rewrite !digits_utoa in Hd by done. by injection Hd.
Qed.
Lemma issued_in n s : s ∈ issued n → ∃ k, (1 ≤ k ≤ n)%nat ∧ s = utoa (Z.of_nat k).
Proof.
  induction n as [|n IH]; cbn [issued]; [by intros ?%not_elem_of_nil|].
  intros [->|Hin]%elem_of_cons; [exists (S n); split; [lia|done]|].
  destruct (IH Hin) as (k & Hk & ->). exists k. split; [lia|done].
Qed.
Lemma issued_fresh n : utoa (Z.of_nat (S n)) ∉ issued n.
Proof. intros (k & Hk & Hu)%issued_in. apply utoa_inj in Hu; lia. Qed.

Lemma frame_fits_some b : frame_fits b = true → ∃ t, b = Some t ∧ blen t + 1 <= MaxFrame.
Proof. destruct b as [t|]; cbn; [|done]. intros Hf. to_prop. by exists t. Qed.
Lemma request_fits_reads q : request_fits q = true →
  ∃ t, enc_request q = Some t ∧ no_newline t ∧ blen t + 1 <= MaxFrame ∧
       JsonUtil.Decode dec_request (JsonUtil.zero dec_request) t = Ok q.
Proof.
  unfold request_fits. intros [[Hu Hc]%andb_true_iff Hf]%andb_true_iff.
  destruct (canonical_raw _ _ Hc) as (b & _ & Hraw). destruct (frame_fits_some _ Hf) as (t & Ht & Hl).
  destruct (request_reads_back q b (JsonUtil.zero dec_request)) as (t' & v & Ht' & Hdoc & Hd); [|done|].
  - apply Forall_forall. intros s Hs. rewrite forallb_forall in Hu. by apply Hu, list_elem_of_In.
  - exists t. rewrite Ht in Ht'. injection Ht' as <-. split_and!; try done. by eapply doc_line.
Qed.
Lemma response_fits_reads p : response_fits p = true → frame_fits (enc_response p) = true →
  ∃ t, enc_response p = Some t ∧ no_newline t ∧ blen t + 1 <= MaxFrame ∧
       JsonUtil.Decode dec_response zero_response t = Ok p.
Proof.
  unfold response_fits. intros [Hu Hp]%andb_true_iff Hf. destruct (frame_fits_some _ Hf) as (t & Ht & Hl).
  assert (Hutf : all_utf8 [p_version p; p_id p; p_op p; p_run p; p_nonce p]).
  { apply Forall_forall. intros s Hs. rewrite forallb_forall in Hu. by apply Hu, list_elem_of_In. }
  assert (Hok : ∃ result details, response_ok p result details).
  { unfold response_ok, error_ok. destruct (p_error p) as [e|].
    - to_prop. exists None. destruct (orb_prop _ _ ltac:(eassumption)) as [Hd|Hd].
      + exists None. to_prop. split_and!; try done. by repeat constructor.
      + destruct (canonical_raw _ _ Hd) as (d & _ & Hraw). exists (Some d). split_and!; try done. by repeat constructor.
    - to_prop. destruct (canonical_raw 1 (p_result p)) as (r & _ & Hraw); [done|]. exists (Some r), None. done. }
  destruct Hok as (result & details & Hok). destruct (response_reads_back _ _ _ Hok) as (t' & v & Ht' & Hdoc & Hd).
  exists t. rewrite Ht in Ht'. injection Ht' as <-. split_and!; try done. by eapply doc_line.
Qed.

(** A frame within the quota reaches the agent whole, in one write. *)
Lemma link_writes {W} `{Guest W} (l : link W) t : blen t + 1 <= MaxFrame →
  WriteFrame l (Some t) = (None, (Write l (t +:+ String newline "")%string).2).
Proof.
  intros Hl. unfold WriteFrame. rewrite (proj2 (Z.ltb_ge _ _)) by lia. set (b := (t +:+ String newline "")%string).
  assert (Hb : b ≠ ""%string) by (unfold b; by destruct t). clearbody b.
  destruct b as [|c b]; [done|]. cbn [write_all Write link_writer snd String.length Nat.eqb].
  assert (Hd : ∀ s, string_drop (String.length s) s = ""%string).
  { intros s. rewrite <-(sapp_nil_r s) at 2. apply string_drop_app. }
  change (string_drop (S (String.length b)) (String c b)) with (string_drop (String.length b) b). rewrite Hd.
  by destruct (String.length t).
Qed.
(** And the agent's response is written whole, in as many writes as it takes. *)
Lemma agent_writes t : blen t + 1 <= MaxFrame →
  WriteFrame (W := string) "" (Some t) = (None, t +:+ String newline "")%string.
Proof.
  intros Hl. unfold WriteFrame. rewrite (proj2 (Z.ltb_ge _ _)) by lia.
  destruct (write_all_complete (W := string) (S (String.length t)) ""%string (t +:+ String newline "")%string) as (w & Hw).
  - intros w0 [|c b] Hb; [done|]. by eexists _, _.
  - rewrite slength_app. cbn. lia.
  - rewrite Hw. f_equal. apply write_all_delivers in Hw. exact Hw.
Qed.
Lemma line_reads t : no_newline t → blen t + 1 <= MaxFrame →
  ReadLine (buffered (t +:+ String newline "")) MaxFrame = (Ok t, buffered "").
Proof.
  intros Ht Hl. apply read_line_ok; [apply buffered_ok|]. exists ""%string. split_and!; [done|done|lia|done].
Qed.

(** ** The simulation *)
Section simulation.
Context {W X : Type} `{Guest W} `{RunContext X}.

(** The connection and the local guest are in the same state: nothing in flight. *)
Record in_sync (c : Client (link W) * X) (g : direct W X) : Prop := {
  sy_conn : ∃ sent, conn c.1 = Build_link (d_text g) (d_server g) (d_world g) (issued (Z.to_nat (d_next g))) "" "" sent (d_open g);
  sy_run : run_id c.1 = RunID (sv_identity (d_server g));
  sy_nonce : nonce c.1 = Nonce (sv_identity (d_server g));
  sy_next : next c.1 = d_next g ∧ 0 <= d_next g;
  sy_broken : broken c.1 = false;
  sy_context : c.2 = d_context g
}.

(** The agent accepts the next request of this run. *)
Record next_request (s : Server) (n : nat) (q : Request) : Prop := {
  nr_version : q_version q = Version;
  nr_run : q_run q = RunID (sv_identity s);
  nr_nonce : q_nonce q = Nonce (sv_identity s);
  nr_id : q_id q = utoa (Z.of_nat (S n));
  nr_quota : (n < 1024)%nat
}.
Lemma admits_next s n q frame :
  JsonUtil.Decode dec_request (JsonUtil.zero dec_request) frame = Ok q → next_request s n q →
  admit_request s (issued n) frame = Ok q.
Proof.
  intros Hd [Hv Hr Hno Hid Hq]. unfold admit_request. rewrite Hd. cbn [rbind map_err].
  rewrite Hv, Hr, Hno, Hid, !String.eqb_refl. cbn [negb orb].
  rewrite valid_id_utoa by (change (2 ^ 64) with 18446744073709551616; lia). cbn [negb].
  rewrite existsb_fresh by apply issued_fresh. rewrite issued_length, (proj2 (Nat.leb_gt _ _)) by lia. done.
Qed.

Lemma turn_answers text s (w : W) n v q r e s' w' p vp sent :
  no_newline v → blen v + 1 <= MaxFrame →
  JsonUtil.Decode dec_request (JsonUtil.zero dec_request) v = Ok q → next_request s n q →
  handle text s w q = ((r, e), s', w') → respond text q r e = Ok p →
  enc_response p = Some vp → blen vp + 1 <= MaxFrame →
  agent_turn (Build_link text s w (issued n) (v +:+ String newline "") "" sent true)
  = Build_link text s' w' (issued (S n)) "" (vp +:+ String newline "") sent (q_op q <>?s "shutdown").
Proof.
  intros Hwf Hl Hd Hnext Hh Hr Hp Hlp. unfold agent_turn. cbn [lk_open lk_up lk_text lk_seen lk_server lk_world lk_down lk_sent].
  assert ((v +:+ String newline "" =?s "")%string = false) as ->.
  { apply String.eqb_neq. by destruct v. }
  cbn [negb orb]. cbn [serve]. rewrite line_reads by done. cbn [rbind].
  rewrite (admits_next _ _ _ _ Hd Hnext), Hh, Hr, Hp, agent_writes by done.
  destruct (q_op q =?s "shutdown"); cbn [map x_request app negb buffered rd_data snd];
    by rewrite (nr_id _ _ _ Hnext).
Qed.

Lemma opened q v p :
  JsonUtil.Decode dec_response zero_response v = Ok p → echoes q p → q_version q = Version → response_fits p = true →
  open_response q v = Ok (match p_error p with None => inl (p_result p) | Some e => inr e end).
Proof.
  intros Hd (Ev & Ei & Eo & Er & En) Hv Hf. unfold open_response. rewrite Hd. cbn [rbind map_err].
  rewrite Ev, Ei, Eo, Er, En, Hv, !String.eqb_refl. cbn [negb orb].
  unfold response_fits in Hf. apply andb_true_iff in Hf as [_ Hf]. destruct (p_error p) as [e|].
  - to_prop. repeat match goal with Hx : _ = ""%string |- _ => rewrite Hx | Hx : _ ≠ ""%string |- _ => rewrite (proj2 (String.eqb_neq _ _) Hx); clear Hx end.
    done.
  - to_prop. destruct (canonical_raw 1 (p_result p)) as (b & _ & Hraw); [done|].
    rewrite (proj1 (raw_ok_parse _ _ _ Hraw)). cbn [Bool.eqb].
    by rewrite (proj2 (String.eqb_neq _ _)) by done.
Qed.

Lemma sync_elapse c g : in_sync c g → in_sync (c.1, cx_elapse c.2) (elapse g).
Proof. intros [? ? ? ? ? Hx]. split; cbn; try done. by rewrite Hx. Qed.

Lemma handle_identity text s (w : W) q r e s' w' :
  handle text s w q = ((r, e), s', w') → sv_identity s' = sv_identity s.
Proof. intros Hh. by destruct (handle_flag _ _ _ _ _ _ _ _ Hh). Qed.

(** Writing the request and waiting for the response, on an open connection. *)
Lemma link_converses (g : direct W X) op body sent r e s' w' p :
  let req := direct_request g op body in
  d_open g = true → 0 <= d_next g < 1024 → request_fits req = true →
  response_fits p = true → frame_fits (enc_response p) = true →
  handle (d_text g) (d_server g) (d_world g) req = ((r, e), s', w') → respond (d_text g) req r e = Ok p →
  ∃ l vp sent', WriteFrame (Build_link (d_text g) (d_server g) (d_world g) (issued (Z.to_nat (d_next g))) "" "" sent (d_open g))
                     (enc_request req) = (None, l) ∧
    ReadLine (inbound l) MaxFrame = (Ok vp, buffered "") ∧
    JsonUtil.Decode dec_response zero_response vp = Ok p ∧
    set_inbound l (buffered "") =
      Build_link (d_text g) s' w' (issued (Z.to_nat (d_next g + 1))) "" "" sent' (op <>?s "shutdown").
Proof.
  intros req Hopen Hq Hrq Hrp Hfr Hh Hr.
  destruct (request_fits_reads _ Hrq) as (v & Hv & Hwf & Hl & Hd).
  destruct (response_fits_reads _ Hrp Hfr) as (vp & Hvp & Hwfp & Hlp & Hdp).
  rewrite Hv, link_writes, Hopen by done. cbn [Write link_writer snd lk_text lk_server lk_world lk_seen lk_up lk_down lk_sent lk_open append].
  eexists _, vp, _. split; [done|]. cbn [inbound set_inbound link_conn].
  erewrite turn_answers; [|done|done|exact Hd| |exact Hh|exact Hr|exact Hvp|done].
  - cbn [lk_down]. rewrite line_reads by done. split; [done|]. split; [done|]. unfold with_down, buffered.
    cbn [lk_text lk_server lk_world lk_seen lk_up lk_sent lk_open rd_data].
    replace (Z.to_nat (d_next g + 1)) with (S (Z.to_nat (d_next g))) by lia. done.
  - split; try done; [unfold req; cbn [direct_request q_id]; f_equal; lia|lia].
Qed.

(** One call: the client over the connection returns what the local call returns, and the
    connection is again in the state of the local guest. *)
Lemma call_simulates {A} c g timeout op payload (d : decoder A) res g' :
  in_sync c g → direct_call g timeout op payload d = (res, g') → d_fits g' = true →
  ∃ c', client_call c timeout op payload d = (res, c') ∧ in_sync c' g'.
Proof.
  intros Hs Hc Hf. pose proof (sync_elapse _ _ Hs) as Hel. destruct Hs as [(sent & Hconn) Hrun Hnonce [Hnext Hpos] Hb Hx].
  unfold direct_call in Hc. unfold client_call, GuestClient.Call. rewrite Hb, Hx.
  destruct (cx_child_error (d_context g) timeout) as [e|]; [injection Hc as <- <-; eexists; split; [done|by rewrite <-Hx]|].
  destruct (negb _); [injection Hc as <- <-; eexists; split; [done|by rewrite <-Hx]|].
  destruct (match payload with None => _ | Some v => _ end) as [body|];
    [|injection Hc as <- <-; eexists; split; [done|by rewrite <-Hx]].
  set (req := direct_request g op body) in *.
  destruct (handle (d_text g) (d_server g) (d_world g) req) as [[[r e] s'] w'] eqn:Eh.
  destruct (respond (d_text g) req r e) as [p|x] eqn:Er; injection Hc as <- <-; [|done].
  cbn [d_fits] in Hf. rewrite !andb_true_iff in Hf. destruct Hf as (_ & ((((Hopen & Hq) & Hrq) & Hrp) & Hfr) & Hdec).
  apply Z.ltb_lt in Hq. rewrite Z.mod_small by (rewrite Hnext; change (2 ^ 64) with 18446744073709551616; lia).
  rewrite Hnext, Hrun, Hnonce. fold (direct_request g op body). fold req.
  destruct (link_converses g op body sent r e s' w' p Hopen ltac:(lia) Hrq Hrp Hfr Eh Er)
    as (l & vp & sent' & Hw & Hread & Hdp & Hset). fold req in Hw.
  rewrite Hconn, Hw, Hread, Hset. cbn [rbind].
  assert (Hecho : echoes req p) by (by apply (respond_ok _ _ _ _ _ Er)).
  rewrite (opened _ _ _ Hdp Hecho eq_refl Hrp). unfold outcome in *.
  assert (Hsync : ∀ x fits, x = cx_elapse (d_context g) → in_sync
    ({| conn := Build_link (d_text g) s' w' (issued (Z.to_nat (d_next g + 1))) "" "" sent' (op <>?s "shutdown");
        run_id := RunID (sv_identity (d_server g)); nonce := Nonce (sv_identity (d_server g));
        next := d_next g + 1; broken := false |}, x)
    (Build_direct (d_text g) s' w' (d_next g + 1) (d_open g && (op <>?s "shutdown")) fits (cx_elapse (d_context g)))).
  { intros x fits ->. pose proof (handle_identity _ _ _ _ _ _ _ _ Eh) as Hi. split; cbn; rewrite ?Hi, ?Hopen; try done; [by exists sent'|lia]. }
  destruct (p_error p) as [pe|].
  - eexists. split; [reflexivity|by apply Hsync].
  - destruct (JsonUtil.Decode d (JsonUtil.zero d) (p_result p)) as [a|x]; [|done].
    eexists. split; [reflexivity|by apply Hsync].
Qed.
Lemma call_fits {A} (g : direct W X) timeout op payload (d : decoder A) res g' :
  direct_call g timeout op payload d = (res, g') → d_fits g' = true → d_fits g = true.
Proof.
  unfold direct_call. destruct (cx_child_error _ _); [by intros [= <- <-]|]. destruct (negb _); [by intros [= <- <-]|].
  destruct (match payload with None => _ | Some v => _ end) as [body|]; [|by intros [= <- <-]].
  destruct (handle _ _ _ _) as [[[r e] s'] w']. destruct (respond _ _ _ _); intros [= <- <-]; cbn [d_fits]; [|done].
  by intros [? _]%andb_true_iff.
Qed.

(** One step of the plan over the connection does what it does over the local guest. *)
Lemma sync_timeouts c g s : in_sync c g → step_timeouts c s = step_timeouts g s.
Proof. intros [_ _ _ _ _ Hx]. unfold step_timeouts. cbn [remaining ctx_error client_link direct_link]. by rewrite Hx. Qed.
Lemma sleep_fits (g : direct W X) t e g' : sleep g t = (e, g') → d_fits g' = d_fits g.
Proof. cbn [sleep direct_link]. destruct (cx_sleep _ _) as [e' x]. by intros [= <- <-]. Qed.
Lemma sleep_simulates c g t e g' : in_sync c g → sleep g t = (e, g') → ∃ c', sleep c t = (e, c') ∧ in_sync c' g'.
Proof.
  intros [? ? ? ? ? Hx]. cbn [sleep client_link direct_link]. rewrite Hx. destruct (cx_sleep _ _) as [e' x].
  intros [= <- <-]. eexists. split; [reflexivity|]. by split.
Qed.
Lemma link_call {A} c g timeout op payload (d : decoder A) v g1 :
  in_sync c g → call g timeout op payload d = (v, g1) → d_fits g1 = true →
  ∃ c1, call c timeout op payload d = (v, c1) ∧ in_sync c1 g1.
Proof. apply call_simulates. Qed.

(** Follow the first call on the local side. *)
Ltac follow v g1 E :=
  match goal with
  | Hx : context [call ?g ?t ?op ?p ?d] |- _ => destruct (call g t op p d) as [v g1] eqn:E
  end.
Definition wait_result (s : Step) (before : ClockObservation) (after : result ClockObservation) : result string :=
  let? after := after in
  do? validInterval before after ;;
  marshal (Some (print (JObject [("before", enc_clock before); ("after", enc_clock after);
                                 ("duration_ms", enc_int (s_duration s))]%string))).
(** The two observations of a [wait] with the sleep between them. *)
Definition wait_step {G} `{Link G} (g : G) (s : Step) (timeout : Z) : result string * G :=
  let '(before, g) := call g timeout "clock.read" None dec_clock in
  match before with
  | Err e => (Err e, g)
  | Ok before =>
      let '(woken, g) := sleep g (wrap64 (s_duration s * millisecond)) in
      match woken with
      | Some e => (Err e, g)
      | None => let '(after, g) := call g timeout "clock.read" None dec_clock in (wait_result s before after, g)
      end
  end.
Lemma wait_fits (g : direct W X) s timeout res g' : wait_step g s timeout = (res, g') → d_fits g' = true →
  d_fits g = true ∧ d_fits (call g timeout "clock.read" None dec_clock).2 = true.
Proof.
  intros Hx Hf. unfold wait_step in Hx. follow v g1 E1. assert (H1 : d_fits g1 = true).
  { destruct v as [o|]; [|by injection Hx as <- <-]. destruct (sleep g1 _) as [[e|] g2] eqn:E2;
      [injection Hx as <- <-; by rewrite <-(sleep_fits _ _ _ _ E2)|]. follow v g3 E3. injection Hx as <- <-.
    rewrite <-(sleep_fits _ _ _ _ E2). exact (call_fits _ _ _ _ _ _ _ E3 Hf). }
  split; [exact (call_fits _ _ _ _ _ _ _ E1 H1)|done].
Qed.
Lemma wait_simulates c g s timeout res g' :
  in_sync c g → wait_step g s timeout = (res, g') → d_fits g' = true →
  ∃ c', wait_step c s timeout = (res, c') ∧ in_sync c' g'.
Proof.
  intros Hs Hx Hf. destruct (wait_fits _ _ _ _ _ Hx Hf) as [_ H1]. unfold wait_step in *. follow v g1 E1.
  destruct (link_call _ _ _ _ _ _ _ _ Hs E1 H1) as (c1 & -> & Hs1).
  destruct v as [o|]; [|injection Hx as <- <-; eauto].
  destruct (sleep g1 _) as [e g2] eqn:E2. destruct (sleep_simulates _ _ _ _ _ Hs1 E2) as (c2 & -> & Hs2).
  destruct e as [e|]; [injection Hx as <- <-; eauto|]. follow v g3 E3. injection Hx as <- <-.
  destruct (link_call _ _ _ _ _ _ _ _ Hs2 E3 Hf) as (c3 & -> & Hs3). eauto.
Qed.
Lemma step_simulates c g s res g' :
  in_sync c g → executeStep g s = (res, g') → d_fits g' = true →
  ∃ c', executeStep c s = (res, c') ∧ in_sync c' g'.
Proof.
  intros Hs Hx Hf. unfold executeStep in *. rewrite (sync_timeouts _ _ _ Hs).
  destruct (step_timeouts g s) as [[timeout ms]|e]; [|injection Hx as <- <-; eauto].
  assert (Hone : ∀ {A} op payload (d : decoder A) v g1 (k : result A → result string),
    call g timeout op payload d = (v, g1) → (k v, g1) = (res, g') →
    ∃ c', (let '(v, c1) := call c timeout op payload d in (k v, c1)) = (res, c') ∧ in_sync c' g').
  { intros A op payload d v g1 k Hc [= <- <-].
    destruct (link_call _ _ _ _ _ _ _ _ Hs Hc Hf) as (c' & Hc' & Hs'). exists c'. by rewrite Hc'. }
  destruct (s_op s =?s "clock.read"); [follow v g1 E; exact (Hone _ _ _ _ _ _ _ E Hx)|].
  destruct (s_op s =?s "clock.set"); [follow v g1 E; exact (Hone _ _ _ _ _ _ _ E Hx)|].
  destruct (s_op s =?s "action.exec"); [follow v g1 E; exact (Hone _ _ _ _ _ _ _ E Hx)|].
  destruct (_ || _); [follow v g1 E; exact (Hone _ _ _ _ _ _ _ E Hx)|]. clear Hone.
  destruct (s_op s =?s "wait"); [|injection Hx as <- <-; eauto].
  by apply (wait_simulates c g s timeout).
Qed.

(** A plan: its steps in order, up to the first that fails. *)
Fixpoint execute_plan {G} `{Link G} (g : G) (steps : list Step) : list (result string) * G :=
  match steps with
  | [] => ([], g)
  | s :: steps =>
      let '(r, g) := executeStep g s in
      match r with
      | Err _ => ([r], g)
      | Ok _ => let '(rs, g) := execute_plan g steps in (r :: rs, g)
      end
  end.
Lemma step_fits (g : direct W X) s res g' : executeStep g s = (res, g') → d_fits g' = true → d_fits g = true.
Proof.
  intros Hx Hf. unfold executeStep in Hx. destruct (step_timeouts g s) as [[timeout ms]|e]; [|by injection Hx as <- <-].
  assert (Hone : ∀ {A} op payload (d : decoder A) v g1 (r : result string),
    call g timeout op payload d = (v, g1) → (r, g1) = (res, g') → d_fits g = true).
  { intros A op payload d v g1 r E [= _ <-]. exact (call_fits _ _ _ _ _ _ _ E Hf). }
  destruct (s_op s =?s "clock.read"); [follow v g1 E; exact (Hone _ _ _ _ _ _ _ E Hx)|].
  destruct (s_op s =?s "clock.set"); [follow v g1 E; exact (Hone _ _ _ _ _ _ _ E Hx)|].
  destruct (s_op s =?s "action.exec"); [follow v g1 E; exact (Hone _ _ _ _ _ _ _ E Hx)|].
  destruct (_ || _); [follow v g1 E; exact (Hone _ _ _ _ _ _ _ E Hx)|].
  destruct (s_op s =?s "wait"); [|by injection Hx as <- <-]. exact (proj1 (wait_fits g s timeout res g' Hx Hf)).
Qed.
Lemma plan_fits (g : direct W X) steps rs g' : execute_plan g steps = (rs, g') → d_fits g' = true → d_fits g = true.
Proof.
  revert g rs. induction steps as [|s steps IH]; intros g rs Hx Hf; cbn [execute_plan] in Hx; [by injection Hx as <- <-|].
  destruct (executeStep g s) as [r g1] eqn:E. apply (step_fits _ _ _ _ E).
  destruct r; [|by injection Hx as <- <-]. destruct (execute_plan g1 steps) as [rs1 g2] eqn:E2. injection Hx as <- <-.
  by eapply IH.
Qed.
Lemma plan_simulates c g steps rs g' :
  in_sync c g → execute_plan g steps = (rs, g') → d_fits g' = true →
  ∃ c', execute_plan c steps = (rs, c') ∧ in_sync c' g'.
Proof.
  revert c g rs. induction steps as [|s steps IH]; intros c g rs Hs Hx Hf; cbn [execute_plan] in *.
  { injection Hx as <- <-. eauto. }
  destruct (executeStep g s) as [r g1] eqn:E. destruct r as [raw|e].
  - destruct (execute_plan g1 steps) as [rs1 g2] eqn:E2. injection Hx as <- <-.
    destruct (step_simulates _ _ _ _ _ Hs E (plan_fits _ _ _ _ E2 Hf)) as (c1 & Hc1 & Hs1).
    destruct (IH _ _ _ Hs1 E2 Hf) as (c2 & Hc2 & Hs2). exists c2. rewrite Hc1, Hc2. done.
  - injection Hx as <- <-. destruct (step_simulates _ _ _ _ _ Hs E Hf) as (c1 & Hc1 & Hs1).
    exists c1. by rewrite Hc1.
Qed.

(** A connection just opened to the agent of this boot. *)
Definition connected (text : error → string) (s : Server) (w : W) (x : X) : Client (link W) * X :=
  (Build_Client (Build_link text s w [] "" "" "" true) (RunID (sv_identity s)) (Nonce (sv_identity s)) 0 false, x).
Definition local (text : error → string) (s : Server) (w : W) (x : X) : direct W X := Build_direct text s w 0 true true x.
Lemma connected_sync text s (w : W) (x : X) : in_sync (connected text s w x) (local text s w x).
Proof. split; cbn; try done. by exists ""%string. Qed.
End simulation.

(** ** Claims *)

(** C4.  The guest connection is transparent: on a connection just opened to the agent of
    this boot, a plan of steps (clock reads and changes, actions, service starts and stops,
    waits) gives the same results, step by step and up to the first failure, as calling the
    agent's handler directly with no wire at all, and leaves agent and guest in the same
    state with nothing in flight, as long as the messages fit the protocol: UTF-8 text,
    compact JSON within the decoder's limits, frames of at most 1 MiB, at most 1024
    requests, results that decode into their destination, and guest errors with a code and
    a message. *)
Theorem plan_over_wire {W X} `{Guest W} `{RunContext X} text s (w : W) (x : X) steps rs g' :
  execute_plan (local text s w x) steps = (rs, g') → d_fits g' = true →
  ∃ c', execute_plan (connected text s w x) steps = (rs, c') ∧ in_sync c' g'.
Proof. apply plan_simulates, connected_sync. Qed.

(** *** Arguments and results *)
Section marshalling.
Context {W : Type} `{Guest W}.
Variable text : error → string.

Lemma payload_decodes {A} (d : decoder A) enc ok norm `{!Wire d enc ok norm} a q :
  ok a → enc a = Some (q_payload q) → decode_payload d q = Ok (norm a).
Proof.
  intros Hok Hq. destruct (wire_decode d enc ok norm a Hok) as (t & v & Ht & Hdoc & _ & Hn & Hd).
  rewrite Hq in Ht. injection Ht as <-. unfold decode_payload.
  rewrite (proj2 (String.eqb_neq _ _)) by (by eapply doc_nonempty).
  destruct (String.eqb_spec (q_payload q) "null") as [He|]; [|done].
  rewrite He in Hdoc. by apply doc_null in Hdoc.
Qed.
Lemma result_decodes {A} (d : decoder A) enc ok norm `{!Wire d enc ok norm} a q r p :
  ok a → enc_reply r = enc a → respond text q r None = Ok p → outcome d p = Ok (norm a).
Proof.
  intros Hok Hr Hp. destruct (wire_decode d enc ok norm a Hok) as (t & v & Ht & _ & _ & _ & Hd).
  unfold respond in Hp. rewrite Hr, Ht in Hp. injection Hp as <-. exact Hd.
Qed.

(** A request of the engine reaches the operation it names, with its arguments. *)
Definition reaches (s : Server) (w : W) (q : Request) (h : (reply * option error) * Server * W) : Prop :=
  handle text s w q = h.
Lemma reaches_clock_set s w q p : health w = None → q_op q = "clock.set"%string → clock_request_ok p →
  q_payload q = print (enc_clock_set_request (cs_at p) (cs_tolerance p) (cs_allow_live p)) →
  reaches s w q (handle_clock_set s w p).
Proof.
  intros Hh Hop Hok Hq. unfold reaches, handle. rewrite Hop, Hh. cbn [String.eqb Ascii.eqb Bool.eqb andb negb].
  rewrite (payload_decodes dec_clock_set_request _ _ _ p q Hok); [done|]. by rewrite Hq.
Qed.
Lemma reaches_action s w q p : health w = None → clock_ready s = true → q_op q = "action.exec"%string →
  action_request_ok p → enc_action_request (aq_action p) (aq_input p) (aq_timeout p) = Some (q_payload q) →
  reaches s w q (handle_action s w (action_request_norm p)).
Proof.
  intros Hh Hr Hop Hok Hq. unfold reaches, handle. rewrite Hop, Hh, Hr. cbn [String.eqb Ascii.eqb Bool.eqb andb negb].
  by rewrite (payload_decodes dec_action_request _ _ _ p q Hok Hq).
Qed.
Lemma reaches_service (start : bool) s w q p : (start = true → health w = None ∧ clock_ready s = true) →
  q_op q = (if start then "service.start" else "service.stop")%string →
  service_request_ok p → enc_service_request (sq_service p) (sq_input p) (sq_timeout p) = Some (q_payload q) →
  reaches s w q (handle_service start s w (service_request_norm p)).
Proof.
  intros Hs Hop Hok Hq. unfold reaches, handle. rewrite Hop.
  destruct start; [destruct (Hs eq_refl) as [-> ->]|]; cbn [String.eqb Ascii.eqb Bool.eqb andb orb negb];
    by rewrite (payload_decodes dec_service_request _ _ _ p q Hok Hq).
Qed.
End marshalling.


(** *** Examples *)
#[local] Instance wire_context : RunContext (option Z) := {|
  cx_remaining x := x; cx_error _ := None; cx_child_error _ _ := None;
  cx_sleep x _ := (None, x); cx_elapse x := x
|}.
Definition ticking : fake_clock := {| fk_now := 0; fk_mono := 100; fk_ticks := [5; 7; 9; 4; 3]; fk_sets := [] |}.
Definition step_of (op at_ service : string) (timeout duration tolerance : Z) : Step :=
  {| s_id := op; s_op := op; s_at := at_; s_action := ""; s_service := service; s_input := "";
     s_timeout := timeout; s_duration := duration; s_allow_live := false; s_tolerance := tolerance;
     s_expected := None; s_present := [] |}.
Definition wire_plan : list Step :=
  [step_of "clock.set" "2000-01-01T00:00:00Z" "" 0 0 1000; step_of "clock.read" "" "" 0 0 0;
   step_of "wait" "" "" 0 10 0; step_of "service.start" "" "missing" 5 0 0; step_of "clock.read" "" "" 0 0 0].
Definition local_run := execute_plan (local sample_text sample_server ticking (Some (secs 60))) wire_plan.
(** Three steps succeed, the start of an undeclared service is refused, and the plan stops. *)
Lemma plan_over_wire_witness :
  map is_ok local_run.1 = [true; true; true; false] ∧
  ∃ c', execute_plan (connected sample_text sample_server ticking (Some (secs 60))) wire_plan = (local_run.1, c') ∧
        in_sync c' local_run.2.
Proof.
  split; [vm_compute; reflexivity|].
  apply (plan_over_wire sample_text sample_server ticking (Some (secs 60)) wire_plan local_run.1 local_run.2).
  - vm_compute. reflexivity.
  - vm_compute. reflexivity.
Defined.
Definition change : ClockSetRequest := {| cs_at := "2000-01-01T00:00:00Z"; cs_tolerance := 1000; cs_allow_live := false |}.
Definition change_request : Request :=
  direct_request (local sample_text sample_server ticking (Some (secs 60))) "clock.set"
    (print (enc_clock_set_request (cs_at change) (cs_tolerance change) (cs_allow_live change))).
(** An action whose input has space to lose and escapes to keep. *)
Definition escaped_action : ActionRequest :=
  {| aq_action := "observe"; aq_input := js "{ 'path' : '\/tmp\u002f<' }"; aq_timeout := 5 |}.
Definition action_request : Request :=
  direct_request (local sample_text sample_server ticking (Some (secs 60))) "action.exec"
    (default ""%string (enc_action_request (aq_action escaped_action) (aq_input escaped_action) (aq_timeout escaped_action))).
