(* ===== verification/Disk.v ===== *)
(** * Disk: files by name, as the copy of an image and the reference workload use them

    Creating a file exclusively, appending to it, syncing, closing, renaming and removing,
    and the wall clock; [dk_content] is what a reader of a path would see.  [memdisk] is
    an implementation that never fails, for examples. *)

From S2P Require Import Prelude.
From Stdlib Require Import Ascii String.

(** [dk_write] appends to a file that was created and is open. *)
Class Disk (F : Type) := {
  dk_now : F → Z * F;
  dk_lstat : F → string → option error;
  dk_read : F → string → result string;
  dk_remove : F → string → option error * F;
  dk_create : F → string → option error * F;
  dk_write : F → string → string → option error * F;
  dk_sync : F → string → option error * F;
  dk_close : F → string → option error * F;
  dk_rename : F → string → string → option error * F;
  dk_sync_dir : F → string → option error * F
}.

(** The laws: what each call does to the contents, on success and otherwise. *)
Class LawfulDisk (F : Type) `{Disk F} := {
  dk_content : F → string → option string;
  read_law (f : F) p s : dk_read f p = Ok s → dk_content f p = Some s;
  now_law (f : F) q : dk_content (dk_now f).2 q = dk_content f q;
  remove_law (f : F) p : dk_content (dk_remove f p).2 p = None ∨
                         (is_Some (dk_remove f p).1 ∧ dk_content (dk_remove f p).2 p = dk_content f p);
  remove_frame (f : F) p q : q ≠ p → dk_content (dk_remove f p).2 q = dk_content f q;
  create_law (f : F) p : (dk_create f p).1 = None → dk_content (dk_create f p).2 p = Some ""%string;
  create_excl (f : F) p : (dk_create f p).1 = None → dk_content f p = None;
  create_fail (f : F) p : (dk_create f p).1 ≠ None → dk_content (dk_create f p).2 p = dk_content f p;
  create_frame (f : F) p q : q ≠ p → dk_content (dk_create f p).2 q = dk_content f q;
  write_law (f : F) p s d : (dk_write f p d).1 = None → dk_content f p = Some s →
                            dk_content (dk_write f p d).2 p = Some (s +:+ d)%string;
  write_frame (f : F) p d q : q ≠ p → dk_content (dk_write f p d).2 q = dk_content f q;
  sync_law (f : F) p q : dk_content (dk_sync f p).2 q = dk_content f q;
  close_law (f : F) p q : dk_content (dk_close f p).2 q = dk_content f q;
  sync_dir_law (f : F) p q : dk_content (dk_sync_dir f p).2 q = dk_content f q;
  rename_law (f : F) a b : (dk_rename f a b).1 = None → dk_content (dk_rename f a b).2 b = dk_content f a;
  rename_fail (f : F) a b : (dk_rename f a b).1 ≠ None → dk_content (dk_rename f a b).2 b = dk_content f b;
  rename_frame (f : F) a b q : q ≠ a → q ≠ b → dk_content (dk_rename f a b).2 q = dk_content f q
}.

(** *** Files in memory *)
Record memdisk := { md_files : gmap string string; md_time : Z }.
Definition md_set (m : memdisk) (files : gmap string string) : memdisk := {| md_files := files; md_time := md_time m |}.
#[export] Instance memdisk_disk : Disk memdisk := {|
  dk_now m := (md_time m, {| md_files := md_files m; md_time := md_time m + 1 |});
  dk_lstat m p := if md_files m !! p is Some _ then None else Some ErrNotExist;
  dk_read m p := match md_files m !! p with Some s => Ok s | None => Err ErrNotExist end;
  dk_remove m p := if md_files m !! p is Some _ then (None, md_set m (delete p (md_files m))) else (Some ErrNotExist, m);
  dk_create m p := if md_files m !! p is Some _ then (Some (ErrSentinel "os.ErrExist"), m)
                   else (None, md_set m (<[p := ""%string]> (md_files m)));
  dk_write m p d := (None, md_set m (alter (λ s, s +:+ d)%string p (md_files m)));
  dk_sync m _ := (None, m);
  dk_close m _ := (None, m);
  dk_rename m a b := match md_files m !! a with
                     | Some s => (None, md_set m (<[b := s]> (delete a (md_files m))))
                     | None => (Some ErrNotExist, m)
                     end;
  dk_sync_dir m _ := (None, m)
|}.
#[export] Instance memdisk_lawful : LawfulDisk memdisk.
Proof.
  unshelve econstructor; [exact (λ m p, md_files m !! p)|..].
  - intros f p s. cbn. destruct (md_files f !! p); [by intros [= ->]|done].
  - done.
  - intros f p. cbn. destruct (md_files f !! p) eqn:E; cbn; left; [apply lookup_delete_eq|done].
  - intros f p q Hq. cbn. destruct (md_files f !! p); cbn; [by rewrite lookup_delete_ne|done].
  - intros f p. cbn. destruct (md_files f !! p); cbn; [done|]. intros _. apply lookup_insert_eq.
  - intros f p. cbn. by destruct (md_files f !! p).
  - intros f p Hn. cbn in *. destruct (md_files f !! p) eqn:E; cbn in *; congruence.
  - intros f p q Hq. cbn. destruct (md_files f !! p); cbn; [done|]. by rewrite lookup_insert_ne.
  - intros f p s d _ Hs. cbn in *. by rewrite lookup_alter_eq, Hs.
  - intros f p d q Hq. cbn. by rewrite lookup_alter_ne.
  - done.
  - done.
  - done.
  - intros f a b. cbn. destruct (md_files f !! a) eqn:E; cbn; [|done]. intros _. by rewrite lookup_insert_eq.
  - intros f a b Hn. cbn in *. destruct (md_files f !! a) eqn:E; cbn in *; congruence.
  - intros f a b q Ha Hb. cbn. destruct (md_files f !! a); cbn; [|done]. by rewrite lookup_insert_ne, lookup_delete_ne.
Defined.

