(* ===== verification/SafeFS.v ===== *)
(** * SafeFS: internal/safefs

    The private, trusted filesystem boundary: symlink-free absolute paths with trusted
    ancestors, private directories and files, direct owned children, and publication of
    whole files by rename.  The operating system's calls are the [FS] class; [open_read]
    opens a file without following links and gives its status and bytes; [content] is
    what a reader of a path would see and is used only in the laws. *)

From S2P Require Import Prelude GoLib GoText.
From Stdlib Require Import Ascii String.

Inductive file_kind := KRegular | KDir | KSymlink | KSocket | KOther.
#[export] Instance file_kind_eq_dec : EqDecision file_kind.
Proof. solve_decision. Defined.
Record FileInfo := { fi_kind : file_kind; fi_perm : Z; fi_sticky : bool; fi_uid : Z; fi_size : Z }.

Class FS (F : Type) := {
  getuid : F → Z;
  geteuid : F → Z;
  lstat : F → string → result FileInfo;
  read_dir : F → string → result (list string);
  statfs : F → string → result (Z * Z);
  open_read : F → string → result (FileInfo * string);
  mkdir : F → string → Z → option error * F;
  remove : F → string → option error * F;
  create_temp : F → string → string → result string * F;
  chmod : F → string → Z → option error * F;
  write_data : F → string → string → option error * F;
  sync_file : F → string → option error * F;
  close_file : F → string → option error * F;
  rename : F → string → string → option error * F;
  sync_dir : F → string → option error * F;
  content : F → string → option string
}.

Definition not_exist (e : error) : bool := err_is "os.ErrNotExist" e.
Definition path_dir (p : string) : string :=
  match rev (split_on "/" p) with
  | _ :: rest => let dir := join_slash (rev rest) in
                 if is_abs p then path_clean (String "/" dir) else path_clean dir
  | [] => "."
  end.

Section checks.
Context {F : Type} `{FS F}.

Definition checkOwned (f : F) (fi : FileInfo) : result unit :=
  fail_if negb (fi_uid fi =? geteuid f) with Errorf "path is not owned by the operator" [] ;; Ok tt.
Definition checkTrusted (f : F) (fi : FileInfo) : result unit :=
  fail_if negb (fi_uid fi =? 0) && negb (fi_uid fi =? geteuid f)
    with Errorf "path owned by another UID" [] ;;
  fail_if negb (Z.land (fi_perm fi) 18 =? 0)
          && negb (bool_decide (fi_kind fi = KDir) && (fi_uid fi =? 0) && fi_sticky fi)
    with Errorf "path is group/other writable" [] ;;
  Ok tt.
Definition checkPrivate (f : F) (fi : FileInfo) (dir : bool) : result unit :=
  do? checkOwned f fi ;;
  let want := if dir then 448 else 384 in
  fail_if negb (fi_perm fi =? want) with Errorf "private path mode is %04o, require %04o" [] ;;
  Ok tt.

Fixpoint check_components (f : F) (current : string) (parts : list string) : result unit :=
  match parts with
  | [] => Ok tt
  | part :: parts =>
      if part =?s "" then check_components f current parts else
      let current := path_join [current; part] in
      let? fi := lstat f current in
      fail_if bool_decide (fi_kind fi = KSymlink) with Errorf "symlink path component: %s" [current] ;;
      do? map_err (Wrapf "%s: %w" [current]) (checkTrusted f fi) ;;
      check_components f current parts
  end.
Definition ValidateNoSymlinks (f : F) (path : string) : result unit :=
  fail_if negb (is_abs path) || (path_clean path <>?s path)
    with Errorf "path must be absolute and clean: %q" [path] ;;
  check_components f "/" (split_on "/" (default path (strip_prefix "/" path))).

Definition ValidatePrivateDir (f : F) (path : string) : result unit :=
  do? ValidateNoSymlinks f path ;;
  let? fi := lstat f path in
  fail_if negb (bool_decide (fi_kind fi = KDir)) with Errorf "private path is not a directory" [] ;;
  checkPrivate f fi true.
Definition ValidatePrivateFile (f : F) (path : string) : result unit :=
  do? ValidateNoSymlinks f path ;;
  let? fi := lstat f path in
  fail_if negb (bool_decide (fi_kind fi = KRegular)) with Errorf "private path is not a regular file" [] ;;
  checkPrivate f fi false.

(** Each round moves to the parent directory, so the path's length bounds them. *)
Fixpoint ensure_private_dir (fuel : nat) (f : F) (path : string) : result unit * F :=
  match fuel with
  | O => (Err (Errorf "unreachable" []), f)
  | S fuel =>
      if negb (is_abs path) || (path_clean path <>?s path)
      then (Err (Errorf "private directory must be absolute and clean" []), f) else
      match lstat f path with
      | Ok fi =>
          if negb (bool_decide (fi_kind fi = KDir)) then (Err (Errorf "private path is not directory" []), f)
          else (ValidatePrivateDir f path, f)
      | Err e =>
          if negb (not_exist e) then (Err e, f) else
          let parent := path_dir path in
          let '(made, f) := match lstat f parent with
                            | Ok _ => (Ok tt, f)
                            | Err e => if not_exist e then ensure_private_dir fuel f parent else (Err e, f)
                            end in
          match (do? made ;; ValidateNoSymlinks f parent) with
          | Err e => (Err e, f)
          | Ok _ =>
              let '(e, f) := mkdir f path 448 in
              match e with
              | Some e => (Err e, f)
              | None => (ValidatePrivateDir f path, f)
              end
          end
      end
  end.
Definition EnsurePrivateDir (f : F) (path : string) : result unit * F :=
  ensure_private_dir (S (String.length path)) f path.

Definition OwnedChild (f : F) (root name : string) : result string :=
  fail_if (name =?s "") || (name =?s ".") || (name =?s "..") || (path_base name <>?s name)
          || any_byte (λ c, is_one_of [47; 92; 0] c) name
    with Errorf "unsafe child name" [] ;;
  do? ValidatePrivateDir f root ;;
  let path := path_join [root; name] in
  let? fi := lstat f path in
  fail_if bool_decide (fi_kind fi = KSymlink) with Errorf "owned child is a symlink" [] ;;
  do? checkOwned f fi ;;
  Ok path.

(** [statfs] gives the available blocks and the block size; sums are [uint64]. *)
Definition CheckSpace (f : F) (path : string) (copyBytes reserveBytes : Z) : result unit :=
  fail_if (copyBytes <? 0) || (reserveBytes <? 0) with Errorf "negative space budget" [] ;;
  do? ValidatePrivateDir f path ;;
  let? st := statfs f path in
  fail_if st.2 <=? 0 with Errorf "invalid filesystem block size" [] ;;
  fail_if (st.1 * st.2) mod 2 ^ 64 <? (copyBytes + reserveBytes) mod 2 ^ 64
    with Errorf "insufficient free space: available %d bytes, require %d bytes including reserve" [] ;;
  Ok tt.

(** The deferred cleanup: close when still open, then remove the temporary name. *)
Definition abandon (f : F) (tmp : string) (open : bool) (e : error) : option error * F :=
  let f := if open then (close_file f tmp).2 else f in
  (Some e, (remove f tmp).2).
Definition AtomicWrite (f : F) (path data : string) : option error * F :=
  if negb (is_abs path) || (path_clean path <>?s path)
  then (Some (Errorf "publication path must be absolute and clean" []), f) else
  let parent := path_dir path in
  match (do? ValidatePrivateDir f parent ;;
         match lstat f path with
         | Ok _ => ValidatePrivateFile f path
         | Err e => if not_exist e then Ok tt else Err e
         end) with
  | Err e => (Some e, f)
  | Ok _ =>
      let '(tmp, f) := create_temp f parent ".epoch-json-*" in
      match tmp with
      | Err e => (Some e, f)
      | Ok tmp =>
          let '(e, f) := chmod f tmp 384 in
          match e with Some e => abandon f tmp true e | None =>
          let '(e, f) := write_data f tmp data in
          match e with Some e => abandon f tmp true e | None =>
          let '(e, f) := sync_file f tmp in
          match e with Some e => abandon f tmp true e | None =>
          let '(e, f) := close_file f tmp in
          match e with Some e => abandon f tmp true e | None =>
          let '(e, f) := rename f tmp path in
          match e with Some e => abandon f tmp false e | None =>
          let '(e, f) := sync_dir f parent in
          (e, (remove f tmp).2)
          end end end end end
      end
  end.
End checks.

(** ** What the operating system promises about file contents *)
Definition temp_prefix : string := ".epoch-json-".
Definition is_temp (p : string) : bool := has_prefix (path_base p) temp_prefix.

Definition same_content {F} `{FS F} (f f' : F) : Prop := ∀ q, content f' q = content f q.
Definition same_except {F} `{FS F} (p : string) (f f' : F) : Prop := ∀ q, q ≠ p → content f' q = content f q.

Class LawfulFS (F : Type) `{FS F} := {
  mkdir_content f p mode e f' : mkdir f p mode = (e, f') → same_content f f';
  remove_content f p e f' : remove f p = (e, f') → same_except p f f';
  create_content f d pat r f' : create_temp f d pat = (r, f') →
    match r with
    | Ok tmp => has_prefix (path_base tmp) (string_take (String.length pat - 1) pat) = true ∧
                content f' tmp = Some ""%string ∧ same_except tmp f f'
    | Err _ => same_content f f'
    end;
  chmod_content f p mode e f' : chmod f p mode = (e, f') → same_content f f';
  write_content f p data e f' : write_data f p data = (e, f') →
    same_except p f f' ∧ (e = None → content f p = Some ""%string → content f' p = Some data);
  sync_content f p e f' : sync_file f p = (e, f') → same_content f f';
  close_content f p e f' : close_file f p = (e, f') → same_content f f';
  rename_content f src dst e f' : rename f src dst = (e, f') →
    match e with
    | None => content f' dst = content f src ∧ ∀ q, q ≠ src → q ≠ dst → content f' q = content f q
    | Some _ => same_content f f'
    end;
  sync_dir_content f p e f' : sync_dir f p = (e, f') → same_content f f'
}.

Section atomic.
Context {F : Type} `{LawfulFS F}.

#[export] Instance same_content_preorder : PreOrder (same_content (F := F)).
Proof. split; [by intros f q|]. intros a b c Hab Hbc q. by rewrite Hbc, Hab. Qed.
#[export] Instance same_except_preorder p : PreOrder (same_except (F := F) p).
Proof. split; [by intros f q|]. intros a b c Hab Hbc q Hq. by rewrite Hbc, Hab. Qed.
Lemma same_except_of p (f f' : F) : same_content f f' → same_except p f f'.
Proof. intros Hs q _. apply Hs. Qed.

(** Making directories writes no file. *)
Lemma ensure_content fuel (f f' : F) path r : ensure_private_dir fuel f path = (r, f') → same_content f f'.
Proof.
  revert f f' path r. induction fuel as [|fuel IH]; intros f f' path r; cbn [ensure_private_dir];
    [by intros [_ <-]%pair_equal_spec|].
  destruct (_ || _); [by intros [_ <-]%pair_equal_spec|]. destruct (lstat f path) as [fi|e].
  { destruct (negb _); by intros [_ <-]%pair_equal_spec. }
  destruct (negb _); [by intros [_ <-]%pair_equal_spec|]. cbv zeta.
  destruct (match lstat f (path_dir path) with Ok _ => _ | Err _ => _ end) as [made f1] eqn:Em.
  assert (H1 : same_content f f1).
  { destruct (lstat f (path_dir path)) as [fi|e2]; [by apply pair_equal_spec in Em as [_ <-]|].
    destruct (not_exist e2); [by eapply IH|by apply pair_equal_spec in Em as [_ <-]]. }
  destruct (rbind _ _); [|by intros [_ <-]%pair_equal_spec].
  destruct (mkdir f1 path 448) as [[e2|] f2] eqn:Ed; apply mkdir_content in Ed; intros [_ <-]%pair_equal_spec; by etransitivity.
Qed.

Lemma abandon_content (f f' : F) tmp open e e' :
  abandon f tmp open e = (e', f') → same_except tmp f f' ∧ e' = Some e.
Proof.
  unfold abandon. intros Ha. apply pair_equal_spec in Ha as [<- <-]. split; [|done].
  destruct (remove _ tmp) as [e1 f1] eqn:Er. apply remove_content in Er. cbn.
  destruct open; [|done]. destruct (close_file f tmp) as [e2 f2] eqn:Ec. apply close_content in Ec.
  etransitivity; [by apply same_except_of|exact Er].
Qed.

(** The part of [AtomicWrite] after the checks. *)
Lemma atomic_write_effect (f f' : F) path data e :
  AtomicWrite f path data = (e, f') → is_temp path = false →
  (∀ q, q ≠ path → is_temp q = false → content f' q = content f q) ∧
  (content f' path = content f path ∨ content f' path = Some data) ∧
  (e = None → content f' path = Some data).
Proof.
  unfold AtomicWrite. intros Ha Hp. destruct (_ || _); [simplify_eq; naive_solver|].
  destruct (rbind _ _) as [u|]; [|simplify_eq; naive_solver].
  destruct (create_temp f _ _) as [[tmp|] f1] eqn:E1; apply create_content in E1.
  2:{ apply pair_equal_spec in Ha as [<- <-]. naive_solver. }
  destruct E1 as (Ht & Hc & S1). change (string_take _ _) with temp_prefix in Ht.
  assert (Hne : ∀ q, is_temp q = false → q ≠ tmp) by (intros q Hq ->; unfold is_temp in Hq; congruence).
  assert (Hfail : ∀ g open err, same_except tmp f g → abandon g tmp open err = (e, f') →
    (∀ q, q ≠ path → is_temp q = false → content f' q = content f q) ∧
    (content f' path = content f path ∨ content f' path = Some data) ∧ (e = None → content f' path = Some data)).
  { intros g open err Hg Hab. apply abandon_content in Hab as [Hab ->].
    assert (Hx : same_except tmp f f') by (etransitivity; eassumption).
    split; [by auto|]. split; [left; by auto|done]. }
  destruct (chmod f1 _ _) as [[err|] f2] eqn:E2; apply chmod_content in E2;
    (assert (S2 : same_except tmp f f2) by (etransitivity; [exact S1|by apply same_except_of])); [by eapply Hfail|].
  rewrite <-(E2 tmp) in Hc.
  destruct (write_data f2 _ _) as [[err|] f3] eqn:E3; apply write_content in E3 as [E3 Hw];
    (assert (S3 : same_except tmp f f3) by (etransitivity; eassumption)); [by eapply Hfail|].
  specialize (Hw eq_refl Hc).
  destruct (sync_file f3 _) as [[err|] f4] eqn:E4; apply sync_content in E4;
    (assert (S4 : same_except tmp f f4) by (etransitivity; [exact S3|by apply same_except_of])); [by eapply Hfail|].
  destruct (close_file f4 _) as [[err|] f5] eqn:E5; apply close_content in E5;
    (assert (S5 : same_except tmp f f5) by (etransitivity; [exact S4|by apply same_except_of])); [by eapply Hfail|].
  rewrite <-(E4 tmp), <-(E5 tmp) in Hw.
  destruct (rename f5 _ _) as [[err|] f6] eqn:E6; apply rename_content in E6;
    [eapply (Hfail f6); [etransitivity; [exact S5|by apply same_except_of]|exact Ha]|].
  destruct E6 as [Hr Hfr]. destruct (sync_dir f6 _) as [e7 f7] eqn:E7. apply sync_dir_content in E7.
  destruct (remove f7 tmp) as [e8 f8] eqn:E8. apply remove_content in E8.
  apply pair_equal_spec in Ha as [<- <-]. cbn [snd].
  assert (Hpath : content f8 path = Some data) by (rewrite E8, E7, Hr by (by apply Hne); exact Hw).
  split; [|split; [by right|done]]. intros q Hq Hqt. rewrite E8, E7, Hfr by auto. by apply S5, Hne.
Qed.
End atomic.

(** C35.  Publication is all or nothing: whatever step fails, a reader of the published
    path afterwards sees the previous content or the complete new content; success means the new content is there; and no other
    file is changed except the writer's own temporary one. *)
Theorem atomic_write_all_or_nothing {F} `{LawfulFS F} (f f' : F) path data e :
  AtomicWrite f path data = (e, f') → is_temp path = false →
  (∀ q, q ≠ path → is_temp q = false → content f' q = content f q) ∧
  (content f' path = content f path ∨ content f' path = Some data) ∧
  (e = None → content f' path = Some data).
Proof. apply atomic_write_effect. Qed.

(** *** What the validators check *)
Section validators.
Context {F : Type} `{FS F}.

Definition trusted (f : F) (fi : FileInfo) : Prop :=
  fi_kind fi ≠ KSymlink ∧ (fi_uid fi = 0 ∨ fi_uid fi = geteuid f).
(** The directories and the entry that a path's components name. *)
Fixpoint prefixes (current : string) (parts : list string) : list string :=
  match parts with
  | [] => []
  | part :: parts =>
      if part =?s "" then prefixes current parts
      else path_join [current; part] :: prefixes (path_join [current; part]) parts
  end.
Definition components (path : string) : list string :=
  prefixes "/" (split_on "/" (default path (strip_prefix "/" path))).

Lemma check_components_ok (f : F) cur parts : check_components f cur parts = Ok tt →
  Forall (λ p, ∃ fi, lstat f p = Ok fi ∧ trusted f fi) (prefixes cur parts).
Proof.
  revert cur. induction parts as [|part parts IH]; intros cur; [constructor|]. cbn [check_components prefixes].
  destruct (part =?s ""); [apply IH|]. intros Hc. inv_ok Hc. destruct a0. apply map_err_ok in E1.
  constructor; [|by apply IH]. exists a. split; [done|]. apply bool_decide_eq_false in E0. split; [done|].
  unfold checkTrusted in E1. inv_ok E1. apply andb_false_iff in E2 as [E2|E2]; to_prop; auto.
Qed.
Lemma private_dir_ok (f : F) p : ValidatePrivateDir f p = Ok tt →
  is_abs p = true ∧ path_clean p = p ∧
  Forall (λ q, ∃ fi, lstat f q = Ok fi ∧ trusted f fi) (components p) ∧
  ∃ fi, lstat f p = Ok fi ∧ fi_kind fi = KDir ∧ fi_perm fi = 448 ∧ fi_uid fi = geteuid f.
Proof.
  unfold ValidatePrivateDir, ValidateNoSymlinks. intros Hv. inv_ok Hv. inv_ok E. destruct a.
  apply check_components_ok in E. unfold checkPrivate, checkOwned in Hv. inv_ok Hv. inv_ok E3. to_prop.
  apply bool_decide_eq_true in E1. split_and!; try done. by exists a0.
Qed.
Lemma owned_child_ok (f : F) root name p : OwnedChild f root name = Ok p →
  p = path_join [root; name] ∧ ValidatePrivateDir f root = Ok tt ∧
  (∃ fi, lstat f p = Ok fi ∧ fi_kind fi ≠ KSymlink ∧ fi_uid fi = geteuid f) ∧
  no_slash name ∧ name ≠ ""%string ∧ name ≠ "."%string ∧ name ≠ ".."%string.
Proof.
  unfold OwnedChild. intros Hc. inv_ok Hc. injection Hc as <-. destruct a, a1. unfold checkOwned in E3. inv_ok E3.
  apply bool_decide_eq_false in E2. to_prop. split_and!; try done; [by exists a0|].
  unfold no_slash. clear -H1. induction name as [|c name IH]; [done|]. cbn in H1 |- *.
  apply orb_false_iff in H1 as [Hc Hn]. rewrite IH by done. rewrite andb_true_r.
  destruct (Ascii.eqb_spec c "/") as [->|]; [done|done].
Qed.
End validators.

(** ** A filesystem in memory *)
Record memfs := { mem_uid : Z; mem_files : gmap string (FileInfo * string) }.
Definition sized (fi : FileInfo) (data : string) : FileInfo :=
  {| fi_kind := fi_kind fi; fi_perm := fi_perm fi; fi_sticky := fi_sticky fi; fi_uid := fi_uid fi;
     fi_size := blen data |}.
Definition mem_update (f : memfs) (m : gmap string (FileInfo * string)) : memfs :=
  {| mem_uid := mem_uid f; mem_files := m |}.
Definition mem_temp (f : memfs) (dir pat : string) : string :=
  (dir +:+ "/" +:+ string_take (String.length pat - 1) pat +:+ utoa (Z.of_nat (size (mem_files f))))%string.
#[export] Instance memfs_fs : FS memfs := {|
  getuid := mem_uid;
  geteuid := mem_uid;
  lstat f p := match mem_files f !! p with Some (fi, data) => Ok (sized fi data) | None => Err ErrNotExist end;
  open_read f p := match mem_files f !! p with
                   | Some (fi, data) => Ok (sized fi data, data)
                   | None => Err ErrNotExist
                   end;
  read_dir f p :=
    match mem_files f !! p with
    | Some _ => Ok (omap (λ kv : string * (FileInfo * string),
                            match strip_prefix (p +:+ "/") kv.1 with
                            | Some name => if contains_byte 47 name then None else Some name
                            | None => None
                            end) (map_to_list (mem_files f)))
    | None => Err ErrNotExist
    end;
  statfs f p := Ok (1048576, 65536);
  mkdir f p mode :=
    match mem_files f !! p with
    | Some _ => (Some (Errorf "file exists" []), f)
    | None => (None, mem_update f (<[p := ({| fi_kind := KDir; fi_perm := mode; fi_sticky := false;
                                              fi_uid := mem_uid f; fi_size := 0 |}, ""%string)]> (mem_files f)))
    end;
  remove f p := match mem_files f !! p with
                | Some _ => (None, mem_update f (delete p (mem_files f)))
                | None => (Some ErrNotExist, f)
                end;
  create_temp f d pat :=
    let tmp := mem_temp f d pat in
    match mem_files f !! tmp with
    | None => if has_prefix (path_base tmp) (string_take (String.length pat - 1) pat)
              then (Ok tmp, mem_update f (<[tmp := ({| fi_kind := KRegular; fi_perm := 384; fi_sticky := false;
                                                  fi_uid := mem_uid f; fi_size := 0 |}, ""%string)]> (mem_files f)))
              else (Err (Errorf "pattern contains path separator" []), f)
    | Some _ => (Err (Errorf "file exists" []), f)
    end;
  chmod f p mode := (None, f);
  write_data f p data :=
    match mem_files f !! p with
    | Some (fi, old) =>
        (None, mem_update f (<[p := ({| fi_kind := KRegular; fi_perm := fi_perm fi; fi_sticky := fi_sticky fi;
                                        fi_uid := fi_uid fi; fi_size := 0 |}, old +:+ data)%string]> (mem_files f)))
    | None => (Some ErrNotExist, f)
    end;
  sync_file f p := (None, f);
  close_file f p := (None, f);
  rename f src dst :=
    match mem_files f !! src with
    | Some x => (None, mem_update f (<[dst := x]> (delete src (mem_files f))))
    | None => (Some ErrNotExist, f)
    end;
  sync_dir f p := (None, f);
  content f p := match mem_files f !! p with
                 | Some (fi, data) => if bool_decide (fi_kind fi = KRegular) then Some data else None
                 | None => None
                 end
|}.
#[export] Instance memfs_lawful : LawfulFS memfs.
Proof.
  split; intros f.
  - intros p mode e f' Hm q. cbn in *. destruct (mem_files f !! p) eqn:E; [by simplify_eq|].
    injection Hm as <- <-. cbn. destruct (decide (q = p)) as [->|]; [by rewrite lookup_insert_eq, E|].
    by rewrite lookup_insert_ne.
  - intros p e f' Hm q Hq. cbn in *. destruct (mem_files f !! p) eqn:E; [|by simplify_eq].
    injection Hm as <- <-. cbn. by rewrite lookup_delete_ne.
  - intros d pat r f' Hm. cbn in Hm. destruct (mem_files f !! mem_temp f d pat) eqn:E.
    { injection Hm as <- <-. by intros q. }
    destruct (has_prefix _ _) eqn:Eh; injection Hm as <- <-; [|by intros q]. split_and!; [done| |].
    + cbn. by rewrite lookup_insert_eq.
    + intros q Hq. cbn. by rewrite lookup_insert_ne.
  - intros p mode e f' [= <- <-]. by intros q.
  - intros p data e f' Hm. cbn in *. destruct (mem_files f !! p) as [[fi old]|] eqn:E.
    2:{ injection Hm as <- <-. split; [by intros q|done]. }
    injection Hm as <- <-. split.
    + intros q Hq. cbn. by rewrite lookup_insert_ne.
    + intros _. cbn. rewrite lookup_insert_eq. case_bool_decide; [|done]. by intros [= ->].
  - intros p e f' [= <- <-]. by intros q.
  - intros p e f' [= <- <-]. by intros q.
  - intros src dst e f' Hm. cbn in *. destruct (mem_files f !! src) as [x|] eqn:E.
    2:{ injection Hm as <- <-. by intros q. }
    injection Hm as <- <-. split.
    + cbn. by rewrite lookup_insert_eq.
    + intros q Hs Hd. cbn. by rewrite lookup_insert_ne, lookup_delete_ne.
  - intros p e f' [= <- <-]. by intros q.
Qed.

Definition mem_node (k : file_kind) (perm uid : Z) (data : string) : FileInfo * string :=
  ({| fi_kind := k; fi_perm := perm; fi_sticky := false; fi_uid := uid; fi_size := 0 |}, data).
Definition sample_fs : memfs := {|
  mem_uid := 1000;
  mem_files := list_to_map [("/srv", mem_node KDir 493 0 ""); ("/srv/evidence", mem_node KDir 448 1000 "");
                            ("/srv/evidence/m.json", mem_node KRegular 384 1000 "old")]%string
|}.
Definition sample_write := AtomicWrite sample_fs "/srv/evidence/m.json" "new".
Lemma atomic_write_all_or_nothing_witness :
  content sample_write.2 "/srv/evidence/m.json" = Some "new"%string.
Proof.
  apply (atomic_write_all_or_nothing sample_fs sample_write.2 "/srv/evidence/m.json" "new" sample_write.1).
  - apply surjective_pairing.
  - vm_compute. reflexivity.
  - vm_compute. reflexivity.
Defined.

(** ** The operator's lock (safefs_linux.go, lines 63-92)

    The lock file is opened (and created) without following links, checked by path, and
    locked without waiting; an open lock is the path it was opened under. *)
Class LockOps (F : Type) `{FS F} := {
  open_lock : F → string → option error * F;
  flock : F → string → option error * F;
  close_lock : F → string → option error * F
}.
Section lock.
Context {F : Type} `{LockOps F}.
Definition lock_path (root : string) : string := path_join [root; "operator.lock"%string].
Definition AcquireLock (f : F) (root : string) : result string * F :=
  match ValidatePrivateDir f root with
  | Err e => (Err e, f)
  | Ok _ =>
      let path := lock_path root in
      let '(opened, f) := open_lock f path in
      match opened with
      | Some e => (Err e, f)
      | None =>
          match ValidatePrivateFile f path with
          | Err e => (Err e, (close_lock f path).2)
          | Ok _ =>
              let '(locked, f) := flock f path in
              match locked with
              | Some e => (Err (Wrapf "another operator run holds runtime lock: %w" [] e), (close_lock f path).2)
              | None => (Ok path, f)
              end
          end
      end
  end.
(** [Lock.Close] leaves nothing to close a second time. *)
Definition Lock_Close (l : option string) (f : F) : option error * option string * F :=
  match l with
  | None => (None, None, f)
  | Some path => let '(e, f) := close_lock f path in (e, None, f)
  end.

(** A held lock is an exclusive lock on a private file in a private directory. *)
Lemma acquire_lock_held (f f' : F) root path : AcquireLock f root = (Ok path, f') →
  path = lock_path root ∧ ValidatePrivateDir f root = Ok tt ∧
  ∃ f1, open_lock f path = (None, f1) ∧ ValidatePrivateFile f1 path = Ok tt ∧ flock f1 path = (None, f').
Proof.
  unfold AcquireLock. destruct (ValidatePrivateDir f root) as [[]|]; [|done].
  destruct (open_lock f (lock_path root)) as [[e|] f1] eqn:Eo; [done|].
  destruct (ValidatePrivateFile f1 (lock_path root)) as [[]|] eqn:Ev; [|done].
  destruct (flock f1 (lock_path root)) as [[e|] f2] eqn:Ef; intros [= <- <-]. by eauto 10.
Qed.
End lock.
