(* ===== verification/Artifact.v ===== *)
(** * Artifact: internal/artifact (data)

    The prepared image: its manifest, the digest the run records for it and the workload
    manifest it carries. *)

From S2P Require Import Prelude GoLib Json GoTime JsonUtil JsonText Protocol.
From Stdlib Require Import Ascii String.

Record File := {
  f_path : string; f_sha256 : string; f_size : Z; f_source : string; f_origin : string
}.
Record Agent := { g_version : string; g_protocol : string; g_sha256 : string }.
Record Workload := { w_id : string; w_version : string; w_path : string; w_sha256 : string }.
Record Recipe := { rc_revision : string; rc_transformations : list string }.
Record ImageManifest := {
  im_api : string; im_id : string; im_arch : string; im_kernel : File; im_rootfs : File;
  im_firecracker : string; im_agent : Agent; im_workload : Workload; im_recipe : Recipe
}.
Record Prepared := { pr_manifest : ImageManifest; pr_sha256 : string; pr_workload : WorkloadManifest }.

Definition ArtifactValidID : string → bool := Protocol.ValidID.
Definition ValidDigest (s : string) : bool :=
  match hex_decoded_len s with
  | Some n => (n =? 32) && all_bytes (λ c, negb (is_upper c)) s
  | None => false
  end.

(** *** [json.Marshal] *)
Definition enc_file (f : File) : json :=
  JObject [("path", JString (f_path f)); ("sha256", JString (f_sha256 f)); ("size_bytes", enc_int (f_size f));
           ("source_identity", JString (f_source f)); ("checksum_origin", JString (f_origin f))]%string.
Definition enc_agent (a : Agent) : json :=
  JObject [("version", JString (g_version a)); ("protocol_version", JString (g_protocol a));
           ("sha256", JString (g_sha256 a))]%string.
Definition enc_workload (w : Workload) : json :=
  JObject [("id", JString (w_id w)); ("version", JString (w_version w)); ("manifest_path", JString (w_path w));
           ("manifest_sha256", JString (w_sha256 w))]%string.
Definition enc_recipe (r : Recipe) : json :=
  JObject [("revision", JString (rc_revision r));
           ("transformations", JArray (map JString (rc_transformations r)))]%string.
Definition enc_image (m : ImageManifest) : json :=
  JObject [("api_version", JString (im_api m)); ("id", JString (im_id m)); ("architecture", JString (im_arch m));
           ("kernel", enc_file (im_kernel m)); ("rootfs", enc_file (im_rootfs m));
           ("firecracker_version", JString (im_firecracker m)); ("guest_agent", enc_agent (im_agent m));
           ("workload", enc_workload (im_workload m)); ("recipe", enc_recipe (im_recipe m))]%string.

(** *** Struct destinations *)
Definition dec_file : decoder File :=
  Build_decoder
    (TStruct [("path", TString); ("sha256", TString); ("size_bytes", TInt 64); ("source_identity", TString);
              ("checksum_origin", TString)]%string)
    {| f_path := ""; f_sha256 := ""; f_size := 0; f_source := ""; f_origin := "" |}
    (λ old raw,
       let? fs := struct_fields raw in
       let? path := get_field dec_string "path" (f_path old) fs in
       let? sha := get_field dec_string "sha256" (f_sha256 old) fs in
       let? size := get_field (dec_int 64) "size_bytes" (f_size old) fs in
       let? source := get_field dec_string "source_identity" (f_source old) fs in
       let? origin := get_field dec_string "checksum_origin" (f_origin old) fs in
       Ok {| f_path := path; f_sha256 := sha; f_size := size; f_source := source; f_origin := origin |}).
Definition dec_agent : decoder Agent :=
  Build_decoder (TStruct [("version", TString); ("protocol_version", TString); ("sha256", TString)]%string)
    {| g_version := ""; g_protocol := ""; g_sha256 := "" |}
    (λ old raw,
       let? fs := struct_fields raw in
       let? version := get_field dec_string "version" (g_version old) fs in
       let? protocol := get_field dec_string "protocol_version" (g_protocol old) fs in
       let? sha := get_field dec_string "sha256" (g_sha256 old) fs in
       Ok {| g_version := version; g_protocol := protocol; g_sha256 := sha |}).
Definition dec_workload : decoder Workload :=
  Build_decoder
    (TStruct [("id", TString); ("version", TString); ("manifest_path", TString); ("manifest_sha256", TString)]%string)
    {| w_id := ""; w_version := ""; w_path := ""; w_sha256 := "" |}
    (λ old raw,
       let? fs := struct_fields raw in
       let? id := get_field dec_string "id" (w_id old) fs in
       let? version := get_field dec_string "version" (w_version old) fs in
       let? path := get_field dec_string "manifest_path" (w_path old) fs in
       let? sha := get_field dec_string "manifest_sha256" (w_sha256 old) fs in
       Ok {| w_id := id; w_version := version; w_path := path; w_sha256 := sha |}).
Definition dec_recipe : decoder Recipe :=
  Build_decoder (TStruct [("revision", TString); ("transformations", TSlice TString)]%string)
    {| rc_revision := ""; rc_transformations := [] |}
    (λ old raw,
       let? fs := struct_fields raw in
       let? revision := get_field dec_string "revision" (rc_revision old) fs in
       let? changes := get_field (dec_slice dec_string) "transformations" (rc_transformations old) fs in
       Ok {| rc_revision := revision; rc_transformations := changes |}).
Definition dec_image : decoder ImageManifest :=
  Build_decoder
    (TStruct [("api_version", TString); ("id", TString); ("architecture", TString); ("kernel", go_type dec_file);
              ("rootfs", go_type dec_file); ("firecracker_version", TString); ("guest_agent", go_type dec_agent);
              ("workload", go_type dec_workload); ("recipe", go_type dec_recipe)]%string)
    {| im_api := ""; im_id := ""; im_arch := ""; im_kernel := JsonUtil.zero dec_file;
       im_rootfs := JsonUtil.zero dec_file; im_firecracker := ""; im_agent := JsonUtil.zero dec_agent;
       im_workload := JsonUtil.zero dec_workload; im_recipe := JsonUtil.zero dec_recipe |}
    (λ old raw,
       let? fs := struct_fields raw in
       let? api := get_field dec_string "api_version" (im_api old) fs in
       let? id := get_field dec_string "id" (im_id old) fs in
       let? arch := get_field dec_string "architecture" (im_arch old) fs in
       let? kernel := get_field dec_file "kernel" (im_kernel old) fs in
       let? rootfs := get_field dec_file "rootfs" (im_rootfs old) fs in
       let? fc := get_field dec_string "firecracker_version" (im_firecracker old) fs in
       let? agent := get_field dec_agent "guest_agent" (im_agent old) fs in
       let? workload := get_field dec_workload "workload" (im_workload old) fs in
       let? recipe := get_field dec_recipe "recipe" (im_recipe old) fs in
       Ok {| im_api := api; im_id := id; im_arch := arch; im_kernel := kernel; im_rootfs := rootfs;
             im_firecracker := fc; im_agent := agent; im_workload := workload; im_recipe := recipe |}).
