(* ===== verification/Config.v ===== *)
(** * Config: internal/config (admission policy and bounded reading)

    The operator's configuration: paths, guest address and policy, with the validation
    that every command applies before it acts. *)

From S2P Require Import Prelude GoLib Json GoTime GoText JsonUtil SafeFS.
From Stdlib Require Import Ascii String.

Definition ConfigVersion : string := "epoch-config/v1".

Record Policy := {
  MaxVCPUs : Z; MaxMemoryMiB : Z; MaxDiskBytes : Z; ReserveBytes : Z; PolicyMaxTimeoutMS : Z;
  HostClockThresholdMS : Z
}.
Record Config := {
  c_api : string; FirecrackerPath : string; ArtifactDir : string; EvidenceDir : string;
  RuntimeRoot : string; c_cid : Z; c_port : Z; c_policy : Policy
}.
Definition Defaults : Config := {|
  c_api := ConfigVersion; FirecrackerPath := ""; ArtifactDir := ""; EvidenceDir := ""; RuntimeRoot := "";
  c_cid := 3; c_port := 7000;
  c_policy := {| MaxVCPUs := 2; MaxMemoryMiB := 2048; MaxDiskBytes := 4294967296;
                 ReserveBytes := 5368709120; PolicyMaxTimeoutMS := 600000; HostClockThresholdMS := 250 |}
|}.

Definition within (parent child : string) : bool :=
  match path_rel parent child with
  | Some r => (r <>?s "..") && negb (has_prefix r "../")
  | None => false
  end.

(** [strings.Repeat("a", 32)], the longest run ID. *)
Definition widest_id : string := fold_right String.append ""%string (repeat "a"%string 32).
Definition Config_Validate (c : Config) : result unit :=
  fail_if c_api c <>?s ConfigVersion with Errorf "unsupported config api_version %q" [c_api c] ;;
  fail_if negb (c_cid c =? 3) || negb (c_port c =? 7000)
    with Errorf "single-VM profile requires guest CID 3 and port 7000" [] ;;
  let p := c_policy c in
  fail_if (MaxVCPUs p <? 1) || (2 <? MaxVCPUs p) || (MaxMemoryMiB p <? 128) || (2048 <? MaxMemoryMiB p)
          || (MaxDiskBytes p <? 1) || (4294967296 <? MaxDiskBytes p) || (ReserveBytes p <? 5368709120)
          || (PolicyMaxTimeoutMS p <? 1) || (600000 <? PolicyMaxTimeoutMS p)
          || (HostClockThresholdMS p <? 1) || (60000 <? HostClockThresholdMS p)
    with Errorf "policy outside conservative single-host limits" [] ;;
  fail_if (RuntimeRoot c =?s EvidenceDir c) || within (RuntimeRoot c) (EvidenceDir c)
          || within (EvidenceDir c) (RuntimeRoot c)
    with Errorf "runtime and persistent evidence roots must be separate, non-nested directories" [] ;;
  fail_if 90 <? blen (path_join [RuntimeRoot c; widest_id; "vsock.sock"]%string)
    with Errorf "runtime_root is too long for the per-run Unix socket" [] ;;
  Ok tt.

(** ** Bounded reading *)
Definition ReadBounded {F} `{FS F} (f : F) (path : string) (limit : Z) : result string :=
  let? st := lstat f path in
  fail_if negb (bool_decide (fi_kind st = KRegular)) || (limit <? fi_size st)
    with Errorf "%s: expected bounded regular file, symlinks are not accepted" [path] ;;
  let? (st, data) := open_read f path in
  fail_if negb (bool_decide (fi_kind st = KRegular)) || (limit <? fi_size st)
    with Errorf "%s: expected regular file of at most %d bytes" [path] ;;
  let b := string_take (Z.to_nat (limit + 1)) data in
  fail_if limit <? blen b with Errorf "%s: file quota exceeded" [path] ;;
  Ok b.

(** ** Loading *)
Definition dec_policy : decoder Policy :=
  Build_decoder
    (TStruct [("max_vcpus", TInt 64); ("max_memory_mib", TInt 64); ("max_disk_bytes", TInt 64); ("reserve_bytes", TInt 64);
              ("max_timeout_ms", TInt 64); ("host_clock_threshold_ms", TInt 64)]%string)
    {| MaxVCPUs := 0; MaxMemoryMiB := 0; MaxDiskBytes := 0; ReserveBytes := 0; PolicyMaxTimeoutMS := 0;
       HostClockThresholdMS := 0 |}
    (λ old raw,
       let? fs := struct_fields raw in
       let? vcpus := get_field (dec_int 64) "max_vcpus" (MaxVCPUs old) fs in
       let? memory := get_field (dec_int 64) "max_memory_mib" (MaxMemoryMiB old) fs in
       let? disk := get_field (dec_int 64) "max_disk_bytes" (MaxDiskBytes old) fs in
       let? reserve := get_field (dec_int 64) "reserve_bytes" (ReserveBytes old) fs in
       let? timeout := get_field (dec_int 64) "max_timeout_ms" (PolicyMaxTimeoutMS old) fs in
       let? clock := get_field (dec_int 64) "host_clock_threshold_ms" (HostClockThresholdMS old) fs in
       Ok {| MaxVCPUs := vcpus; MaxMemoryMiB := memory; MaxDiskBytes := disk; ReserveBytes := reserve;
             PolicyMaxTimeoutMS := timeout; HostClockThresholdMS := clock |}).
Definition dec_config : decoder Config :=
  Build_decoder
    (TStruct [("api_version", TString); ("firecracker_path", TString); ("artifact_manifest_dir", TString);
              ("evidence_dir", TString); ("runtime_root", TString); ("guest_cid", TUint 32); ("guest_port", TUint 32);
              ("policy", go_type dec_policy)]%string)
    {| c_api := ""; FirecrackerPath := ""; ArtifactDir := ""; EvidenceDir := ""; RuntimeRoot := ""; c_cid := 0; c_port := 0;
       c_policy := JsonUtil.zero dec_policy |}
    (λ old raw,
       let? fs := struct_fields raw in
       let? api := get_field dec_string "api_version" (c_api old) fs in
       let? firecracker := get_field dec_string "firecracker_path" (FirecrackerPath old) fs in
       let? artifacts := get_field dec_string "artifact_manifest_dir" (ArtifactDir old) fs in
       let? evidence := get_field dec_string "evidence_dir" (EvidenceDir old) fs in
       let? runtime := get_field dec_string "runtime_root" (RuntimeRoot old) fs in
       let? cid := get_field (dec_uint 32) "guest_cid" (c_cid old) fs in
       let? port := get_field (dec_uint 32) "guest_port" (c_port old) fs in
       let? policy := get_field dec_policy "policy" (c_policy old) fs in
       Ok {| c_api := api; FirecrackerPath := firecracker; ArtifactDir := artifacts; EvidenceDir := evidence;
             RuntimeRoot := runtime; c_cid := cid; c_port := port; c_policy := policy |}).

(** Of several null fields Go's map order decides which one is named. *)
Definition rejectNulls (fields : list (string * string)) : result unit :=
  each (λ kv : string * string, fail_if trim_space kv.2 =?s "null" with Errorf "config field %s cannot be null" [kv.1] ;; Ok tt) fields.
Definition raw_map (b : string) : result (list (string * string)) :=
  match raw_object b with Some m => Ok (default [] m) | None => type_error "map" end.
Definition required_keys : list string :=
  ["api_version"; "firecracker_path"; "artifact_manifest_dir"; "evidence_dir"; "runtime_root"]%string.

(** [filepath.Abs]; [getwd] and [home] are the process's working and home directories. *)
Definition path_abs (getwd : result string) (path : string) : result string :=
  if is_abs path then Ok (path_clean path) else let? wd := getwd in Ok (path_join [wd; path]).
Definition expand (home : result string) (dir p : string) : result string :=
  fail_if p =?s "" with Errorf "all operator paths are required" [] ;;
  if has_prefix p "~/" || has_prefix p "~\"
  then let? home := home in Ok (path_clean (path_join [home; string_drop 2 p]))
  else Ok (path_clean (if is_abs p then p else path_join [dir; p])).

Definition Load {F} `{FS F} (getwd home : result string) (f : F) (path : string) : result Config :=
  let? b := ReadBounded f path 1048576 in
  let? c := map_err (Wrapf "config: %w" []) (JsonUtil.Decode dec_config Defaults b) in
  let? fields := raw_map b in
  do? each (λ key, match assoc key fields with
                   | Some _ => Ok tt
                   | None => Err (Errorf "config.%s is required" [key]) end) required_keys ;;
  do? rejectNulls fields ;;
  do? match assoc "policy"%string fields with
      | Some raw => let? policy := raw_map raw in rejectNulls policy
      | None => Ok tt
      end ;;
  let? abs := path_abs getwd path in
  let dir := path_dir abs in
  let? firecracker := expand home dir (FirecrackerPath c) in
  let? artifacts := expand home dir (ArtifactDir c) in
  let? evidence := expand home dir (EvidenceDir c) in
  let? runtime := expand home dir (RuntimeRoot c) in
  let c := {| c_api := c_api c; FirecrackerPath := firecracker; ArtifactDir := artifacts; EvidenceDir := evidence;
              RuntimeRoot := runtime; c_cid := c_cid c; c_port := c_port c; c_policy := c_policy c |} in
  do? Config_Validate c ;;
  Ok c.

Record policy_ok (p : Policy) : Prop := {
  po_vcpus : 1 <= MaxVCPUs p <= 2;
  po_memory : 128 <= MaxMemoryMiB p <= 2048;
  po_disk : 1 <= MaxDiskBytes p <= 4294967296;
  po_reserve : 5368709120 <= ReserveBytes p;
  po_timeout : 1 <= PolicyMaxTimeoutMS p <= 600000;
  po_clock : 1 <= HostClockThresholdMS p <= 60000
}.
Lemma config_validate_ok c : Config_Validate c = Ok tt →
  c_cid c = 3 ∧ c_port c = 7000 ∧ policy_ok (c_policy c) ∧ RuntimeRoot c ≠ EvidenceDir c ∧
  within (RuntimeRoot c) (EvidenceDir c) = false ∧ within (EvidenceDir c) (RuntimeRoot c) = false.
Proof.
  unfold Config_Validate. intros H. inv_ok H. to_prop. split_and!; try done.
Qed.
