(* ===== verification/FirecrackerStart.v ===== *)
(** * FirecrackerStart: launching the VMM (internal/firecracker/process_linux.go, lines 25-226)

    The executable is opened without following links, inspected and hashed through that
    one descriptor, probed for its version, and started from the same descriptor only if
    it is still the recorded file.  [opened] is what the descriptor shows; the calls that
    open, run and start it are the [VmmHost] class, and the state of the context at each
    check is an argument. *)

From S2P Require Import Prelude GoLib Json JsonFacts GoTime Sha256 GoText JsonUtil JsonText Protocol ProtocolFacts GuestClock HostCheck Firecracker SafeFS.
From Stdlib Require Import Ascii String.

(** An open file: its status, whether it is set-ID, what reading the capability attribute
    gave ([None] when it is there), its reads to the end, the seek back, its identity. *)
Record opened := {
  xf_info : FileInfo; xf_setid : bool; xf_xattr : option error;
  xf_reads : list string * option error; xf_seek : option error; xf_device : Z; xf_inode : Z
}.
(** A command about to be started: the descriptor it executes, arguments, environment and
    the attributes of the child. *)
Record launch := {
  ln_file : opened; ln_args : list string; ln_env : list string; ln_pdeathsig : bool; ln_setpgid : bool
}.

Class VmmHost (W : Type) `{FS W} := {
  vh_self : W → proc_self;
  vh_open : W → string → result opened;
  vh_run : W → launch → (list string * list string) * option error;
  vh_start : W → launch → result Z * W;
  vh_proc : W → host;
  vh_kill_wait : W → Z → W
}.

Inductive start_event := Launched (l : launch) (p : Z) | Discarded (p : Z).

(** [cancelled k] is [ctx.Err()] before the [k]th read. *)
Fixpoint hash_file (cancelled : nat → option error) (k : nat) (chunks : list string) (fin : option error)
    (h : string) : result string :=
  match cancelled k with
  | Some e => Err e
  | None =>
      match chunks with
      | [] => match fin with None => Ok h | Some e => Err e end
      | c :: chunks => hash_file cancelled (S k) chunks fin (h +:+ c)%string
      end
  end.

Definition plain_env : list string := ["LANG=C"; "LC_ALL=C"]%string.
Definition probe_limit : Z := 4096.
Definition capture (l : list string) : cappedWriter :=
  foldl (λ w p, (capped_write w p).2) {| dst := ""; limit := probe_limit; overflow := false |} l.

Section start.
Context {W : Type} `{VmmHost W}.

Definition openExecutable (cancelled : nat → option error) (w : W) (path : string) : result (opened * Executable) :=
  do? ValidateNoSymlinks w path ;;
  let? f := vh_open w path in
  let fi := xf_info f in
  fail_if negb (bool_decide (fi_kind fi = KRegular)) || (Z.land (fi_perm fi) 73 =? 0) || xf_setid f
    with Errorf "VMM must be a regular executable without setuid/setgid" [] ;;
  fail_if (fi_size fi <=? 0) || (Z.shiftl 256 20 <? fi_size fi)
    with Errorf "VMM executable exceeds 256 MiB profile limit or is empty" [] ;;
  match xf_xattr f with
  | None => Err (Errorf "VMM executable has file capabilities" [])
  | Some e =>
      fail_if negb (err_is "ENODATA" e) && negb (err_is "ENOTSUP" e)
        with Wrapf "cannot inspect VMM file capabilities: %w" [] e ;;
      let? h := hash_file cancelled 0 (xf_reads f).1 (xf_reads f).2 "" in
      match xf_seek f with
      | Some e => Err e
      | None => Ok (f, {| x_path := path; x_sha256 := sha256_hex h; x_size := fi_size fi; x_version := "";
                          x_stdout := ""; x_stderr := ""; x_device := xf_device f; x_inode := xf_inode f |})
      end
  end.

Definition ValidateExecutable (cancelled : nat → option error) (w : W) (path version : string) : result Executable :=
  do? CheckPrivilege (vh_self w) ;;
  let? (f, id) := openExecutable cancelled w path in
  let '((out, diag), e) := vh_run w {| ln_file := f; ln_args := [path; "--version"%string]; ln_env := plain_env;
                                       ln_pdeathsig := true; ln_setpgid := false |} in
  let out := capture out in let diag := capture diag in
  match e with
  | Some e => Err (Wrapf "VMM version probe: %w" [] e)
  | None =>
      fail_if overflow out || overflow diag with Errorf "VMM version output exceeded quota" [] ;;
      let? v := parseVersionOutput (dst out) version in
      Ok {| x_path := x_path id; x_sha256 := x_sha256 id; x_size := x_size id; x_version := v;
            x_stdout := dst out; x_stderr := dst diag; x_device := x_device id; x_inode := x_inode id |}
  end.

(** The goroutine of [startOwned] up to handing over the process; [last] is [ctx.Err()]
    there. *)
Definition startOwned (last : option error) (w : W) (cmd : launch) : result ProcessIdentity * W * list start_event :=
  match last with
  | Some e => (Err e, w, [])
  | None =>
      match vh_start w cmd with
      | (Err e, w) => (Err e, w, [])
      | (Ok p, w) =>
          match readIdentity (vh_proc w) p with
          | Err e => (Err (Wrapf "inspect newly owned process: %w" [] e), vh_kill_wait w p,
                      [Launched cmd p; Discarded p])
          | Ok (id, _) => (Ok id, w, [Launched cmd p])
          end
      end
  end.

Definition vmm_command (f : opened) (exe : Executable) (config : string) : launch :=
  {| ln_file := f; ln_args := [x_path exe; "--no-api"%string; "--config-file"%string; config]; ln_env := plain_env;
     ln_pdeathsig := true; ln_setpgid := true |}.
Definition same_file (id exe : Executable) : bool :=
  (x_sha256 id =?s x_sha256 exe) && (x_size id =? x_size exe) && (x_device id =? x_device exe)
  && (x_inode id =? x_inode exe).
Definition Start (first last : option error) (cancelled : nat → option error) (w : W) (exe : Executable)
    (config : string) : result ProcessIdentity * W * list start_event :=
  match (do? CheckPrivilege (vh_self w) ;;
         do? of_err first ;;
         do? ValidatePrivateFile w config ;;
         let? (f, id) := openExecutable cancelled w (x_path exe) in
         fail_if negb (same_file id exe) with Errorf "VMM executable identity changed before launch" [] ;;
         Ok f) with
  | Err e => (Err e, w, [])
  | Ok f => startOwned last w (vmm_command f exe config)
  end.
End start.

(** ** Facts *)
Definition file_bytes (f : opened) : string := foldr String.append ""%string (xf_reads f).1.

Lemma hash_file_ok cancelled k chunks fin h r : hash_file cancelled k chunks fin h = Ok r →
  r = (h +:+ foldr String.append "" chunks)%string ∧ fin = None.
Proof.
  revert k h. induction chunks as [|c chunks IH]; intros k h; cbn; destruct (cancelled k); try done.
  - destruct fin; [done|]. intros [= <-]. by rewrite sapp_nil_r.
  - intros [-> ->]%IH. split; [|done]. by rewrite sapp_assoc.
Qed.
Lemma capture_prefix l : ∀ w, limit w = probe_limit → blen (dst w) ≤ probe_limit →
  let w' := foldl (λ w p, (capped_write w p).2) w l in
  blen (dst w') ≤ probe_limit ∧
  (overflow w' = false → dst w' = (dst w +:+ foldr String.append "" l)%string ∧ overflow w = false).
Proof.
  induction l as [|p l IH]; intros w Hl Hb; cbn [foldl foldr]; [by rewrite sapp_nil_r|].
  destruct (IH (capped_write w p).2) as [H1 H2].
  - unfold capped_write. cbn. by destruct (_ <? _).
  - unfold capped_write. cbn. rewrite Hl. destruct (Z.ltb_spec (probe_limit - blen (dst w)) (blen p)); cbn.
    + rewrite blen_app, blen_take. lia.
    + rewrite blen_app. lia.
  - split; [done|]. intros [-> Ho]%H2. revert Ho. unfold capped_write. cbn. destruct (_ <? _); cbn; [done|].
    intros Ho. split; [|done]. by rewrite sapp_assoc.
Qed.

(** What the descriptor of an accepted executable shows. *)
Record launchable (f : opened) : Prop := {
  la_regular : fi_kind (xf_info f) = KRegular;
  la_plain : xf_setid f = false;
  la_caps : ∃ e, xf_xattr f = Some e;
  la_size : 0 < fi_size (xf_info f) ≤ 2 ^ 28;
  la_read : (xf_reads f).2 = None
}.
Section facts.
Context {W : Type} `{VmmHost W}.
Lemma openExecutable_ok cancelled (w : W) path f id : openExecutable cancelled w path = Ok (f, id) →
  ValidateNoSymlinks w path = Ok tt ∧ vh_open w path = Ok f ∧ launchable f ∧ x_path id = path ∧
  x_sha256 id = sha256_hex (file_bytes f) ∧ x_size id = fi_size (xf_info f) ∧
  x_device id = xf_device f ∧ x_inode id = xf_inode f.
Proof.
  unfold openExecutable. intros Ho. apply rbind_ok in Ho as ([] & Hv & Ho). apply rbind_ok in Ho as (f' & Hf & Ho).
  inv_ok1 Ho. inv_ok1 Ho. destruct (xf_xattr f') as [e|] eqn:Ex; [|done]. inv_ok1 Ho.
  apply rbind_ok in Ho as (h & Hh & Ho). destruct (xf_seek f'); [done|]. injection Ho as <- <-.
  apply hash_file_ok in Hh as [-> Hr]. to_prop. cbn. split_and!; try done.
  match goal with Hk : bool_decide _ = true |- _ => apply bool_decide_eq_true in Hk end.
  split; [done|done|by exists e| |done]. change (2 ^ 28) with (Z.shiftl 256 20). done.
Qed.

(** What is known of a started process. *)
Record started (w : W) (exe : Executable) (config : string) (id : ProcessIdentity) (t : list start_event) : Prop := {
  sd_user : CheckPrivilege (vh_self w) = Ok tt;
  sd_config : ValidatePrivateFile w config = Ok tt;
  sd_path : ValidateNoSymlinks w (x_path exe) = Ok tt;
  sd_file : ∃ f, vh_open w (x_path exe) = Ok f ∧ launchable f ∧ sha256_hex (file_bytes f) = x_sha256 exe ∧
                 fi_size (xf_info f) = x_size exe ∧ t = [Launched (vmm_command f exe config) (pid id)]
}.
Lemma startOwned_result last (w w' : W) cmd r t : startOwned last w cmd = (r, w', t) →
  match r with
  | Ok id => t = [Launched cmd (pid id)] ∧ 0 < pid id ∧ ∃ state, readIdentity (vh_proc w') (pid id) = Ok (id, state)
  | Err _ => t = [] ∨ ∃ p, t = [Launched cmd p; Discarded p]
  end.
Proof.
  unfold startOwned. destruct last as [e|]; [intros [= <- <- <-]; by left|].
  destruct (vh_start w cmd) as [[p|e] w1]; [|intros [= <- <- <-]; by left].
  destruct (readIdentity (vh_proc w1) p) as [[id state]|e] eqn:E; intros [= <- <- <-]; [|right; by exists p].
  assert (pid id = p ∧ 0 < p) as [-> Hp]; [|split; [done|split; [done|by exists state]]].
  unfold readIdentity in E. inv_ok1 E. repeat (apply rbind_ok in E as (? & _ & E)). case_match. injection E as <- <-.
  to_prop. cbn. split; [done|lia].
Qed.
End facts.

(** C18.  Starting the VMM executes only the recorded binary, and never leaks a process:
    on success the caller is unprivileged, the configuration file is private, no path
    component of the executable is a link, the descriptor executed shows a regular file
    without set-ID bits or file capabilities whose size and SHA-256 are the recorded ones,
    it was launched exactly once with the fixed arguments in its own process group, and
    the identity returned is that process's; on failure nothing was launched, or what was
    launched has been killed and waited for. *)
Theorem start_verified {W} `{VmmHost W} first last cancelled (w w' : W) exe config r t :
  Start first last cancelled w exe config = (r, w', t) →
  match r with
  | Ok id => started w exe config id t ∧ ∃ state, readIdentity (vh_proc w') (pid id) = Ok (id, state)
  | Err _ => t = [] ∨ ∃ cmd p, t = [Launched cmd p; Discarded p]
  end.
Proof.
  unfold Start. destruct (rbind (CheckPrivilege _) _) as [f|e] eqn:E; [|intros [= <- <- <-]; by left].
  intros Hs%startOwned_result. destruct r as [id|e]; [|destruct Hs as [->|[p ->]]; [by left|right; by eexists _, _]].
  destruct Hs as (-> & Hp & Hid). split; [|done].
  apply rbind_ok in E as ([] & Hu & E). apply rbind_ok in E as ([] & _ & E). apply rbind_ok in E as ([] & Hc & E).
  apply rbind_ok in E as ([f' i] & Ho & E). inv_ok1 E. injection E as ->.
  destruct (openExecutable_ok _ _ _ _ _ Ho) as (Hv & Hf & Hl & _ & Hh & Hz & _ & _).
  unfold same_file in E0. to_prop. split; [done..|]. exists f. split_and!; try done; congruence.
Qed.

(** A validated executable: its version line was the first line of its whole, bounded
    output, and its digest is that of the descriptor that was run. *)
Theorem validated_executable {W} `{VmmHost W} cancelled (w : W) path version id :
  ValidateExecutable cancelled w path version = Ok id →
  CheckPrivilege (vh_self w) = Ok tt ∧
  ∃ f out diag, vh_open w path = Ok f ∧ launchable f ∧ x_sha256 id = sha256_hex (file_bytes f) ∧
    vh_run w {| ln_file := f; ln_args := [path; "--version"%string]; ln_env := plain_env;
                ln_pdeathsig := true; ln_setpgid := false |} = ((out, diag), None) ∧
    x_stdout id = foldr String.append ""%string out ∧ x_stderr id = foldr String.append ""%string diag ∧
    blen (x_stdout id) ≤ probe_limit ∧ parseVersionOutput (x_stdout id) version = Ok (x_version id).
Proof.
  unfold ValidateExecutable. intros Hv. apply rbind_ok in Hv as ([] & Hp & Hv). split; [done|].
  apply rbind_ok in Hv as ([f i] & Ho & Hv). destruct (openExecutable_ok _ _ _ _ _ Ho) as (_ & Hf & Hl & _ & Hh & _).
  destruct (vh_run w _) as [[out diag] [e|]] eqn:Er; [done|]. inv_ok1 Hv. apply rbind_ok in Hv as (v & Hparse & Hv).
  injection Hv as <-. cbn. exists f, out, diag. to_prop.
  assert (H0l : limit {| dst := ""; limit := probe_limit; overflow := false |} = probe_limit) by done.
  assert (Hzero : blen (dst {| dst := ""; limit := probe_limit; overflow := false |}) ≤ probe_limit) by (cbn; done).
  destruct (capture_prefix out _ H0l Hzero) as [Hb Hout]. destruct (capture_prefix diag _ H0l Hzero) as [_ Hdiag].
  unfold capture in *. split_and!; try done; [by apply Hout|by apply Hdiag].
Qed.

(** A host on which the recorded binary is started as process 42. *)
Definition vmm_binary : opened := {|
  xf_info := {| fi_kind := KRegular; fi_perm := 493; fi_sticky := false; fi_uid := 0; fi_size := 3 |};
  xf_setid := false; xf_xattr := Some (ErrSentinel "ENODATA"); xf_reads := (["ab"; "c"]%string, None);
  xf_seek := None; xf_device := 8; xf_inode := 77
|}.
#[export] Instance memfs_vmm : VmmHost memfs := {|
  vh_self _ := {| ps_uid := 1000; ps_euid := 1000; ps_threads := Ok [("1"%string, Ok sample_status_text)] |};
  vh_open _ _ := Ok vmm_binary;
  vh_run _ _ := ((["Firecracker v1.16.1"%string; String (chr 10) ""], []), None);
  vh_start w _ := (Ok 42, w);
  vh_proc _ := sample_host;
  vh_kill_wait w _ := w
|}.
Definition recorded_binary : Executable :=
  match ValidateExecutable (λ _, None) sample_fs "/srv" "1.16.1" with
  | Ok x => x
  | Err _ => {| x_path := ""; x_sha256 := ""; x_size := 0; x_version := ""; x_stdout := ""; x_stderr := "";
                x_device := 0; x_inode := 0 |}
  end.
Definition sample_start := Start None None (λ _, None) sample_fs recorded_binary "/srv/evidence/m.json".
Lemma start_verified_witness :
  sample_start.1.1 = Ok sample_process ∧
  started sample_fs recorded_binary "/srv/evidence/m.json" sample_process sample_start.2.
Proof.
  assert (Hok : match sample_start with (Ok id, _, _) => id = sample_process | _ => False end)
    by (vm_compute; reflexivity).
  destruct sample_start as [[[id|e] w'] t] eqn:E; [|destruct Hok]. rewrite Hok in E |- *. split; [reflexivity|].
  exact (proj1 (start_verified None None (λ _, None) sample_fs w' recorded_binary "/srv/evidence/m.json" _ t E)).
Defined.
