(* ===== verification/VmmProcess.v ===== *)
(** * VmmProcess: the running VMM and its concurrent stops
    (internal/firecracker/firecracker.go, lines 45-78, and process_linux.go, lines 178-226)

    A [Process] is shared by the goroutine that waits for the child, the goroutine that
    watches the run's context, every caller of [Stop], and the one goroutine that the
    first of them starts to run the stop closure.  Each goroutine is a program counter in
    the shared state, and an [action] is one atomic step of one of them or of the
    environment; an interleaving is a sequence of actions.  [act] is executable: it gives
    [None] when the goroutine named cannot take that step. *)

From S2P Require Import Prelude GoLib Json GoTime GoText JsonUtil JsonText Protocol GuestClock HostCheck Firecracker.
From Stdlib Require Import Ascii String.

(** A caller of [Stop]: before its first select, waiting in the second, returned. *)
Inductive call_pc := CallEnter | CallWait | CallReturned (r : option error).
(** The stop closure: its first select, each signal, each wait, and its result before
    [stopDone] is closed. *)
Inductive stop_pc := AtCheck | AtTerm | AtGrace | AtKill | AtLast | AtReturn (r : option error).
(** The goroutine that watches the run's context. *)
Inductive watch_pc := Watching | WatchCalled (i : nat) | WatchEnded.
Record call := { cl_pc : call_pc; cl_ctx : option error }.

Record Process := {
  p_identity : ProcessIdentity;
  p_exited : bool;
  p_waited : option (option error);
  p_done : bool;
  p_err : option error;
  p_stop : option (nat * stop_pc);
  p_stopped : option (option error);
  p_calls : list call;
  p_parent : option error;
  p_watch : watch_pc;
  p_signals : list signal
}.
Definition new_process (id : ProcessIdentity) : Process := {|
  p_identity := id; p_exited := false; p_waited := None; p_done := false; p_err := None; p_stop := None;
  p_stopped := None; p_calls := []; p_parent := None; p_watch := Watching; p_signals := []
|}.

Definition set_exit (exited : bool) (waited : option (option error)) (done : bool) (err : option error) (p : Process) : Process :=
  {| p_identity := p_identity p; p_exited := exited; p_waited := waited; p_done := done; p_err := err; p_stop := p_stop p;
     p_stopped := p_stopped p; p_calls := p_calls p; p_parent := p_parent p; p_watch := p_watch p; p_signals := p_signals p |}.
Definition set_stop (stop : option (nat * stop_pc)) (stopped : option (option error)) (sent : list signal) (p : Process) : Process :=
  {| p_identity := p_identity p; p_exited := p_exited p; p_waited := p_waited p; p_done := p_done p; p_err := p_err p;
     p_stop := stop; p_stopped := stopped; p_calls := p_calls p; p_parent := p_parent p; p_watch := p_watch p;
     p_signals := p_signals p ++ sent |}.
Definition set_calls (calls : list call) (p : Process) : Process :=
  {| p_identity := p_identity p; p_exited := p_exited p; p_waited := p_waited p; p_done := p_done p; p_err := p_err p;
     p_stop := p_stop p; p_stopped := p_stopped p; p_calls := calls; p_parent := p_parent p; p_watch := p_watch p;
     p_signals := p_signals p |}.
Definition set_watch (parent : option error) (watch : watch_pc) (p : Process) : Process :=
  {| p_identity := p_identity p; p_exited := p_exited p; p_waited := p_waited p; p_done := p_done p; p_err := p_err p;
     p_stop := p_stop p; p_stopped := p_stopped p; p_calls := p_calls p; p_parent := parent; p_watch := watch;
     p_signals := p_signals p |}.

(** [Process.Err]. *)
Definition ProcessErr (p : Process) : option error := if p_done p then p_err p else None.

(** ** Steps *)
(** The outcome of a select or a signal where more than one is possible. *)
Inductive choice := ChDone | ChTimer | ChCtx | ChSent | ChError (e : error).
Inductive action :=
| ChildExits
| WaitReturns (e : option error)
| CloseDone
| ParentEnds (e : error)
| WatchStep (c : choice)
| CallStop
| CtxEnds (i : nat) (e : error)
| CallStep (i : nat) (c : choice)
| StopStep (c : choice).

(** [cmd.Process.Signal] and [Kill]: after [Wait] has released the handle nothing is sent
    and the error is [os.ErrProcessDone], which the closure ignores. *)
Definition send_owned (p : Process) (i : nat) (s : signal) (next : stop_pc) (c : choice) : option Process :=
  match p_waited p, c with
  | Some _, ChDone => Some (set_stop (Some (i, next)) (p_stopped p) [] p)
  | None, ChSent => Some (set_stop (Some (i, next)) (p_stopped p) [s] p)
  | None, ChError e =>
      Some (set_stop (Some (i, if err_is "os.ErrProcessDone" e then next else AtReturn (Some e))) (p_stopped p) [] p)
  | _, _ => None
  end.
Definition context_of (p : Process) (i : nat) : option error := p_calls p !! i ≫= cl_ctx.

(** One step of the stop closure, started by call [i] with that call's context. *)
Definition stop_step (p : Process) (i : nat) (pc : stop_pc) (c : choice) : option Process :=
  let goto pc := Some (set_stop (Some (i, pc)) (p_stopped p) [] p) in
  match pc, c with
  | AtCheck, ChDone => if p_done p then goto (AtReturn None) else goto AtTerm
  | AtTerm, _ => send_owned p i SIGTERM AtGrace c
  | AtGrace, ChDone => if p_done p then goto (AtReturn None) else None
  | AtGrace, ChTimer => goto AtKill
  | AtGrace, ChCtx => match context_of p i with Some _ => goto AtKill | None => None end
  | AtKill, _ => send_owned p i SIGKILL AtLast c
  | AtLast, ChDone => if p_done p then goto (AtReturn None) else None
  | AtLast, ChCtx => match context_of p i with Some e => goto (AtReturn (Some e)) | None => None end
  | AtReturn r, ChDone =>
      match p_stopped p with
      | None => Some (set_stop (p_stop p) (Some r) [] p)
      | Some _ => None
      end
  | _, _ => None
  end.

(** One step of a caller of [Stop]; [stopOnce] starts the closure for the first. *)
Definition call_step (p : Process) (i : nat) (k : call) (c : choice) : option Process :=
  let goto pc := set_calls (<[i := {| cl_pc := pc; cl_ctx := cl_ctx k |}]> (p_calls p)) in
  match cl_pc k, c with
  | CallEnter, ChDone =>
      if p_done p then Some (goto (CallReturned None) p)
      else Some (goto CallWait (match p_stop p with
                                | None => set_stop (Some (i, AtCheck)) (p_stopped p) [] p
                                | Some _ => p
                                end))
  | CallWait, ChDone => match p_stopped p with Some r => Some (goto (CallReturned r) p) | None => None end
  | CallWait, ChCtx => match cl_ctx k with Some e => Some (goto (CallReturned (Some e)) p) | None => None end
  | _, _ => None
  end.
Definition new_call (p : Process) : Process := set_calls (p_calls p ++ [{| cl_pc := CallEnter; cl_ctx := None |}]) p.

Definition act (a : action) (p : Process) : option Process :=
  match a with
  | ChildExits => if p_exited p then None else Some (set_exit true (p_waited p) (p_done p) (p_err p) p)
  | WaitReturns e =>
      match p_exited p, p_waited p with
      | true, None => Some (set_exit true (Some e) (p_done p) (p_err p) p)
      | _, _ => None
      end
  | CloseDone =>
      match p_waited p with
      | Some e => if p_done p then None else Some (set_exit (p_exited p) (p_waited p) true e p)
      | None => None
      end
  | ParentEnds e => match p_parent p with Some _ => None | None => Some (set_watch (Some e) (p_watch p) p) end
  | WatchStep c =>
      match p_watch p, c with
      | Watching, ChCtx =>
          match p_parent p with
          | Some _ => Some (set_watch (p_parent p) (WatchCalled (List.length (p_calls p))) (new_call p))
          | None => None
          end
      | Watching, ChDone => if p_done p then Some (set_watch (p_parent p) WatchEnded p) else None
      | _, _ => None
      end
  | CallStop => Some (new_call p)
  | CtxEnds i e =>
      match p_calls p !! i with
      | Some k => match cl_ctx k with
                  | None => Some (set_calls (<[i := {| cl_pc := cl_pc k; cl_ctx := Some e |}]> (p_calls p)) p)
                  | Some _ => None
                  end
      | None => None
      end
  | CallStep i c => match p_calls p !! i with Some k => call_step p i k c | None => None end
  | StopStep c => match p_stop p with Some (i, pc) => stop_step p i pc c | None => None end
  end.

(** Interleavings, from the state in which [startOwned] hands the process over. *)
Fixpoint acts (l : list action) (p : Process) : option Process :=
  match l with
  | [] => Some p
  | a :: l => act a p ≫= acts l
  end.
Inductive reachable (id : ProcessIdentity) : Process → Prop :=
| reach_start : reachable id (new_process id)
| reach_step p a p' : reachable id p → act a p = Some p' → reachable id p'.
Lemma acts_reachable id l p p' : reachable id p → acts l p = Some p' → reachable id p'.
Proof.
  revert p. induction l as [|a l IH]; intros p Hr; cbn; [by intros [= <-]|].
  destruct (act a p) as [p1|] eqn:E; [|done]. cbn. apply IH. by eapply reach_step.
Qed.

(** ** Invariant *)
Definition stop_invariant (p : Process) (pc : stop_pc) : Prop :=
  match pc with
  | AtCheck | AtTerm => p_signals p = []
  | AtGrace | AtKill => p_signals p `sublist_of` [SIGTERM]
  | AtLast => p_signals p `sublist_of` [SIGTERM; SIGKILL]
  | AtReturn r => p_signals p `sublist_of` [SIGTERM; SIGKILL] ∧ (r = None → p_done p = true)
  end.
Definition call_invariant (p : Process) (k : call) : Prop :=
  match cl_pc k with
  | CallEnter => True
  | CallWait => is_Some (p_stop p)
  | CallReturned r => r = None → p_done p = true
  end.
Record invariant (p : Process) : Prop := {
  inv_waited : is_Some (p_waited p) → p_exited p = true;
  inv_done : p_done p = true → p_waited p = Some (p_err p);
  inv_stop : match p_stop p with
             | None => p_stopped p = None ∧ p_signals p = []
             | Some (_, pc) => stop_invariant p pc
             end;
  inv_stopped r : p_stopped p = Some r → ∃ i, p_stop p = Some (i, AtReturn r);
  inv_calls : Forall (call_invariant p) (p_calls p)
}.

Lemma calls_weaken p p' l : (is_Some (p_stop p) → is_Some (p_stop p')) → (p_done p = true → p_done p' = true) →
  Forall (call_invariant p) l → Forall (call_invariant p') l.
Proof.
  intros Hs Hd Hl. eapply Forall_impl; [exact Hl|]. intros k. unfold call_invariant. destruct (cl_pc k); auto.
Qed.
Lemma stop_weaken p p' pc : p_signals p' = p_signals p → (p_done p = true → p_done p' = true) →
  stop_invariant p pc → stop_invariant p' pc.
Proof. intros Hs Hd. destruct pc; cbn; rewrite Hs; try done. intros [? ?]. auto. Qed.
Lemma term_then_kill l : l `sublist_of` [SIGTERM] → l ++ [SIGKILL] `sublist_of` [SIGTERM; SIGKILL].
Proof. intros Hl. exact (sublist_app _ _ _ _ Hl (reflexivity [SIGKILL])). Qed.
Lemma term_longer l : l `sublist_of` [SIGTERM] → l `sublist_of` [SIGTERM; SIGKILL].
Proof. intros Hl. exact (sublist_inserts_r [SIGKILL] _ _ Hl). Qed.

(** A step of the closure moves its counter and may send one signal. *)
Lemma moved p i pc pc' sent : invariant p → p_stop p = Some (i, pc) → p_stopped p = None →
  (stop_invariant p pc → stop_invariant (set_stop (Some (i, pc')) (p_stopped p) sent p) pc') →
  invariant (set_stop (Some (i, pc')) (p_stopped p) sent p).
Proof.
  intros [Hw Hd Hs Hr Hc] Hp Hn Hm. rewrite Hp in Hs. split; cbn; [done|done|by apply Hm| |].
  - rewrite Hn. done.
  - eapply calls_weaken; [| |exact Hc]; cbn; [by intros _; eexists|done].
Qed.
Lemma unstopped p i pc : invariant p → p_stop p = Some (i, pc) → (∀ r, pc ≠ AtReturn r) → p_stopped p = None.
Proof.
  intros Hi Hp Hpc. destruct (p_stopped p) as [r|] eqn:E; [|done].
  destruct (inv_stopped _ Hi r E) as [j Hj]. rewrite Hp in Hj. injection Hj as _ ->. by destruct (Hpc r).
Qed.
Lemma send_owned_invariant p i pc s next c p' : invariant p → p_stop p = Some (i, pc) → (∀ r, pc ≠ AtReturn r) →
  send_owned p i s next c = Some p' →
  (∀ sent, sent = [] ∨ sent = [s] → stop_invariant p pc →
     stop_invariant (set_stop (Some (i, next)) (p_stopped p) sent p) next) →
  (stop_invariant p pc → p_signals p `sublist_of` [SIGTERM; SIGKILL]) → invariant p'.
Proof.
  intros Hi Hp Hpc Hs Hn Hsub. pose proof (unstopped _ _ _ Hi Hp Hpc) as Hu. unfold send_owned in Hs.
  destruct (p_waited p), c; simplify_eq; try (eapply moved; eauto; done).
  destruct (err_is _ e); simplify_eq; (eapply moved; [done..|]); [by apply Hn; left|].
  intros Hinv. cbn. rewrite app_nil_r. by split; [apply Hsub|].
Qed.

Lemma stop_step_invariant p i pc c p' : invariant p → p_stop p = Some (i, pc) → stop_step p i pc c = Some p' → invariant p'.
Proof.
  intros Hi Hp Hs.
  assert (Hgoto : ∀ pc', (∀ r, pc ≠ AtReturn r) →
    (stop_invariant p pc → stop_invariant (set_stop (Some (i, pc')) (p_stopped p) [] p) pc') →
    invariant (set_stop (Some (i, pc')) (p_stopped p) [] p)).
  { intros pc' Hpc Hm. eapply moved; [done|done|by eapply unstopped|done]. }
  destruct pc; cbn in Hs.
  - destruct c; try done. destruct (p_done p) eqn:Ed; simplify_eq; apply Hgoto; try done; cbn; rewrite app_nil_r.
    + intros ->. split; [apply sublist_nil_l|done].
    + done.
  - eapply send_owned_invariant; [done..|exact Hs| |]; cbn.
    + intros sent [->| ->] ->; [apply sublist_nil_l|done].
    + intros ->. apply sublist_nil_l.
  - assert (Hk : invariant (set_stop (Some (i, AtKill)) (p_stopped p) [] p))
      by (apply Hgoto; [done|]; cbn; by rewrite app_nil_r).
    destruct c; try done.
    + destruct (p_done p) eqn:Ed; simplify_eq. apply Hgoto; [done|]. cbn. rewrite app_nil_r.
      intros ?%term_longer. done.
    + by simplify_eq.
    + destruct (context_of p i); by simplify_eq.
  - eapply send_owned_invariant; [done..|exact Hs| |]; cbn.
    + intros sent [->| ->] Hg; [rewrite app_nil_r; by apply term_longer|by apply term_then_kill].
    + apply term_longer.
  - destruct c; try done.
    + destruct (p_done p) eqn:Ed; simplify_eq. apply Hgoto; [done|]. cbn. by rewrite app_nil_r.
    + destruct (context_of p i) as [e|]; simplify_eq. apply Hgoto; [done|]. cbn. by rewrite app_nil_r.
  - destruct c; try done. destruct (p_stopped p) as [q|] eqn:Eq; simplify_eq. destruct Hi as [Hw Hd Hst Hr Hc].
    rewrite Hp in Hst. split; cbn; [done|done| | |].
    + rewrite Hp. cbn. by rewrite app_nil_r.
    + rewrite Hp. intros r' [= <-]. by exists i.
    + eapply calls_weaken; [| |exact Hc]; done.
Qed.

Lemma goto_invariant p i k : invariant p → call_invariant p k → invariant (set_calls (<[i := k]> (p_calls p)) p).
Proof. intros [Hw Hd Hs Hr Hc] Hk. split; cbn; [done..|]. by apply Forall_insert. Qed.
Lemma call_step_invariant p i k c p' : invariant p → call_step p i k c = Some p' → invariant p'.
Proof.
  intros Hi Hs. unfold call_step in Hs. destruct (cl_pc k); [..|done].
  - destruct c; try done. destruct (p_done p) eqn:Ed; simplify_eq; [by apply goto_invariant; [done|cbn]|].
    destruct (p_stop p) as [st|] eqn:Es.
    + apply goto_invariant; [done|]. cbn. by rewrite Es.
    + destruct Hi as [Hw Hd Hst Hr Hc]. rewrite Es in Hst. destruct Hst as [Hn Hsig].
      split; cbn; [done|done|by rewrite Hsig|by rewrite Hn|].
      apply Forall_insert; [|by cbn; eexists]. eapply calls_weaken; [| |exact Hc]; cbn; [by intros _; eexists|done].
  - destruct c; try done.
    + destruct (p_stopped p) as [r|] eqn:Er; simplify_eq. apply goto_invariant; [done|]. cbn. intros ->.
      destruct (inv_stopped _ Hi None Er) as [j Hj]. pose proof (inv_stop _ Hi) as Hst. rewrite Hj in Hst. by apply Hst.
    + destruct (cl_ctx k) as [e|]; simplify_eq. by apply goto_invariant; [done|cbn].
Qed.
Lemma new_call_invariant p : invariant p → invariant (new_call p).
Proof.
  intros [Hw Hd Hs Hr Hc]. split; cbn; [done..|]. apply Forall_app. split; [done|by repeat constructor].
Qed.
Lemma watch_invariant p parent watch : invariant p → invariant (set_watch parent watch p).
Proof. intros [Hw Hd Hs Hr Hc]. by split. Qed.

Lemma act_invariant a p p' : invariant p → act a p = Some p' → invariant p'.
Proof.
  intros Hi. destruct a; cbn.
  - destruct (p_exited p) eqn:Ee; intros [= <-]. destruct Hi as [Hw Hd Hs Hr Hc]. by split.
  - destruct (p_exited p) eqn:Ee; [|done]. destruct (p_waited p) eqn:Ew; intros [= <-].
    destruct Hi as [Hw Hd Hs Hr Hc]. split; cbn; try done. intros ?%Hd. congruence.
  - destruct (p_waited p) as [e|] eqn:Ew; [|done]. destruct (p_done p) eqn:Ed; intros [= <-].
    destruct Hi as [Hw Hd Hs Hr Hc]. rewrite Ew in Hw. split; cbn; [done|done| |done|].
    + destruct (p_stop p) as [[i pc]|]; [|done]. by eapply stop_weaken; [..|exact Hs].
    + by eapply calls_weaken; [..|exact Hc].
  - destruct (p_parent p); intros [= <-]. by apply watch_invariant.
  - destruct (p_watch p), c; try done.
    + destruct (p_done p); intros [= <-]. by apply watch_invariant.
    + destruct (p_parent p); intros [= <-]. by apply watch_invariant, new_call_invariant.
  - intros [= <-]. by apply new_call_invariant.
  - destruct (p_calls p !! i) as [k|] eqn:Ek; [|done]. destruct (cl_ctx k); intros [= <-].
    apply goto_invariant; [done|]. exact (Forall_lookup_1 _ _ _ _ (inv_calls _ Hi) Ek).
  - destruct (p_calls p !! i); [|done]. by apply call_step_invariant.
  - destruct (p_stop p) as [[i pc]|] eqn:Es; [|done]. by apply stop_step_invariant.
Qed.
Lemma reachable_invariant id p : reachable id p → invariant p.
Proof. induction 1 as [|p a p' _ IH Ha]; [|by eapply act_invariant]. by split; cbn; try intros [? ?]. Qed.

(** ** Every stop can finish once the child has exited *)

(** Steps of the program's goroutines, as opposed to the environment's. *)
Definition goroutine (a : action) : Prop :=
  match a with WaitReturns _ | CloseDone | WatchStep _ | CallStep _ _ | StopStep _ => True | _ => False end.
Definition runs_to (p p' : Process) : Prop := ∃ l, Forall goroutine l ∧ acts l p = Some p'.
Lemma acts_app l1 l2 p : acts (l1 ++ l2) p = acts l1 p ≫= acts l2.
Proof.
  revert p. induction l1 as [|a l1 IH]; intros p; cbn; [done|]. destruct (act a p) as [p1|]; cbn; [apply IH|done].
Qed.
#[export] Instance runs_to_preorder : PreOrder runs_to.
Proof.
  split; [by exists []|]. intros p1 p2 p3 (l1 & H1 & E1) (l2 & H2 & E2). exists (l1 ++ l2). split; [by apply Forall_app|].
  by rewrite acts_app, E1.
Qed.
Lemma runs_one a p p' : goroutine a → act a p = Some p' → runs_to p p'.
Proof. intros Ha E. exists [a]. split; [by constructor|]. cbn. by rewrite E. Qed.

Definition returned (p : Process) (i : nat) : Prop := ∃ k r, p_calls p !! i = Some k ∧ cl_pc k = CallReturned r.
Lemma reap p : invariant p → p_exited p = true → ∃ p', runs_to p p' ∧ p_done p' = true ∧ p_calls p' = p_calls p.
Proof.
  intros Hi He. destruct (p_done p) eqn:Ed; [by exists p|]. destruct (p_waited p) as [e|] eqn:Ew.
  - eexists. split; [eapply (runs_one CloseDone); [done|cbn; by rewrite Ew, Ed]|done].
  - eexists. split; [exists [WaitReturns None; CloseDone]; split; [by repeat constructor|]|].
    + cbn. rewrite He, Ew. cbn. by rewrite Ed.
    + done.
Qed.
(** With [done] closed, the closure runs through its remaining points. *)
Lemma drain p i pc : invariant p → p_done p = true → p_stop p = Some (i, pc) →
  ∃ p' r, runs_to p p' ∧ p_stopped p' = Some r ∧ p_calls p' = p_calls p.
Proof.
  intros Hi Hd Hp. destruct (p_stopped p) as [r|] eqn:Er; [by exists p, r|].
  pose proof (inv_done _ Hi Hd) as Hw.
  exists (set_stop (Some (i, match pc with AtReturn r => AtReturn r | _ => AtReturn None end))
            (Some (match pc with AtReturn r => r | _ => None end)) [] p).
  eexists. split; [|by split].
  exists (repeat (StopStep ChDone) match pc with AtTerm | AtKill => 3 | AtReturn _ => 1 | _ => 2 end).
  split; [by destruct pc; repeat constructor|].
  destruct p; cbn in *; subst; destruct pc; cbn; unfold set_stop; cbn; by rewrite ?app_nil_r.
Qed.

Lemma act_invariants l p p' : invariant p → acts l p = Some p' → invariant p'.
Proof.
  revert p. induction l as [|a l IH]; intros p Hi; cbn; [by intros [= <-]|].
  destruct (act a p) as [p1|] eqn:E; [|done]. cbn. apply IH. by eapply act_invariant.
Qed.
Lemma runs_invariant p p' : invariant p → runs_to p p' → invariant p'.
Proof. intros Hi (l & _ & E). by eapply act_invariants. Qed.

Lemma call_finishes p i k : invariant p → p_exited p = true → p_calls p !! i = Some k → ∃ p', runs_to p p' ∧ returned p' i.
Proof.
  intros Hi He Hk. destruct (reap p Hi He) as (p1 & H1 & Hd & Hc). pose proof (runs_invariant _ _ Hi H1) as Hi1.
  rewrite <-Hc in Hk. pose proof (lookup_lt_Some _ _ _ Hk) as Hlt. destruct (cl_pc k) as [| |r] eqn:Epc.
  - eexists. split; [etrans; [exact H1|]|].
    + apply (runs_one (CallStep i ChDone)); [done|]. cbn. rewrite Hk. unfold call_step. rewrite Epc, Hd. done.
    + eexists _, _. split; [cbn; by apply list_lookup_insert_eq|done].
  - pose proof (Forall_lookup_1 _ _ _ _ (inv_calls _ Hi1) Hk) as Hcall. unfold call_invariant in Hcall.
    rewrite Epc in Hcall. destruct Hcall as [[j pc] Hs].
    destruct (drain p1 j pc Hi1 Hd Hs) as (p2 & r & H2 & Hr & Hc2). rewrite <-Hc2 in Hk, Hlt.
    eexists. split; [etrans; [exact H1|]; etrans; [exact H2|]|].
    + apply (runs_one (CallStep i ChDone)); [done|]. cbn. rewrite Hk. unfold call_step. rewrite Epc, Hr. done.
    + eexists _, _. split; [cbn; by apply list_lookup_insert_eq|done].
  - exists p1. split; [done|]. by exists k, r.
Qed.
(** A caller whose context has ended returns by its own steps alone. *)
Lemma call_gives_up p i k e : p_calls p !! i = Some k → cl_ctx k = Some e →
  ∃ p', acts (match cl_pc k with CallEnter => if p_done p then [CallStep i ChDone] else [CallStep i ChDone; CallStep i ChCtx]
              | CallWait => [CallStep i ChCtx] | CallReturned _ => [] end) p = Some p' ∧ returned p' i.
Proof.
  intros Hk Hx. pose proof (lookup_lt_Some _ _ _ Hk) as Hlt. destruct (cl_pc k) as [| |r] eqn:Epc.
  - destruct (p_done p) eqn:Ed.
    + eexists. split; [cbn; rewrite Hk; unfold call_step; rewrite Epc, Ed; reflexivity|].
      eexists _, _. split; [cbn; by apply list_lookup_insert_eq|done].
    + eexists. split.
      * cbn. rewrite Hk. unfold call_step. rewrite Epc, Ed. cbn. rewrite list_lookup_insert_eq by by destruct (p_stop p).
        cbn. rewrite Hx. reflexivity.
      * eexists _, _. split; [cbn; apply list_lookup_insert_eq; rewrite length_insert; by destruct (p_stop p)|done].
  - eexists. split; [cbn; rewrite Hk; unfold call_step; rewrite Epc, Hx; reflexivity|].
    eexists _, _. split; [cbn; by apply list_lookup_insert_eq|done].
  - exists p. split; [done|]. by exists k, r.
Qed.

(** What is true of the process whoever stops it. *)
Lemma process_confirmed id p : reachable id p →
  p_signals p `sublist_of` [SIGTERM; SIGKILL] ∧ (p_done p = true → p_exited p = true ∧ is_Some (p_waited p)).
Proof.
  intros Hi%reachable_invariant. split.
  - pose proof (inv_stop _ Hi) as Hs. destruct (p_stop p) as [[j pc]|]; [|destruct Hs as [_ ->]; apply sublist_nil_l].
    destruct pc; cbn in Hs; try rewrite Hs; try (by apply term_longer); try apply sublist_nil_l; [done|by destruct Hs].
  - intros Hd%(inv_done _ Hi). assert (Hw : is_Some (p_waited p)) by (by eexists). split; [by apply (inv_waited _ Hi)|done].
Qed.

(** C17.  Concurrent stops of the VMM are safe under every interleaving of the callers, the
    stop closure, the reaper and the watcher of the run's context: whoever is told nil, the
    child has exited and has been waited for; the process is signalled at most once with
    SIGTERM and then at most once with SIGKILL, however many callers there are; and the
    exit error is reported only after the exit.  No caller is stuck: one whose context has
    ended can return by its own steps, and once the child has exited every caller returns
    by steps of the program alone. *)
Theorem stop_confirmed id p : reachable id p →
  (∀ i k, p_calls p !! i = Some k → cl_pc k = CallReturned None → p_exited p = true ∧ is_Some (p_waited p)) ∧
  p_signals p `sublist_of` [SIGTERM; SIGKILL] ∧
  (is_Some (ProcessErr p) → p_exited p = true ∧ p_waited p = Some (ProcessErr p)) ∧
  (∀ i k e, p_calls p !! i = Some k → cl_ctx k = Some e →
     ∃ l p', Forall (λ a, ∃ c, a = CallStep i c) l ∧ acts l p = Some p' ∧ returned p' i) ∧
  (∀ i k, p_exited p = true → p_calls p !! i = Some k → ∃ p', runs_to p p' ∧ returned p' i).
Proof.
  intros Hr. destruct (process_confirmed id p Hr) as [Hsignals _]. apply reachable_invariant in Hr as Hi.
  assert (Hdone : p_done p = true → p_exited p = true ∧ p_waited p = Some (p_err p)).
  { intros Hd%(inv_done _ Hi). split; [|done]. apply (inv_waited _ Hi). by eexists. }
  split; [|split; [|split; [|split]]].
  - intros i k Hk Hpc. pose proof (Forall_lookup_1 _ _ _ _ (inv_calls _ Hi) Hk) as Hc. unfold call_invariant in Hc.
    rewrite Hpc in Hc. destruct (Hdone (Hc eq_refl)) as [? Hw]. split; [done|]. by eexists.
  - exact Hsignals.
  - unfold ProcessErr. destruct (p_done p); [by intros _; apply Hdone|by intros [? ?]].
  - intros i k e Hk Hx. destruct (call_gives_up _ _ _ _ Hk Hx) as (p' & Ha & Hret). eexists _, p'.
    split; [|by split]. repeat case_match; repeat constructor; by eexists.
  - intros i k He Hk. by eapply call_finishes.
Qed.

(** Two callers and the watcher stop a child that dies of SIGKILL. *)
Definition contested : list action :=
  [CallStop; CallStop; CallStep 1 ChDone; CallStep 0 ChDone; StopStep ChDone; StopStep ChSent; ParentEnds Canceled;
   WatchStep ChCtx; StopStep ChTimer; StopStep ChSent; CallStep 2 ChDone; ChildExits; WaitReturns (Some (Errorf "signal: killed" []));
   CloseDone; StopStep ChDone; StopStep ChDone; CallStep 0 ChDone].
Lemma stop_confirmed_witness :
  match acts contested (new_process sample_process) with
  | Some p => p_signals p = [SIGTERM; SIGKILL] ∧ is_Some (p_waited p) ∧ ∃ p', runs_to p p' ∧ returned p' 2
  | None => False
  end.
Proof.
  assert (Hok : match acts contested (new_process sample_process) with
                | Some p => p_signals p = [SIGTERM; SIGKILL] ∧ p_exited p = true ∧
                            (∃ k, p_calls p !! 0%nat = Some k ∧ cl_pc k = CallReturned None) ∧ is_Some (p_calls p !! 2%nat)
                | None => False
                end) by (vm_compute; split_and!; try reflexivity; eexists; done).
  destruct (acts contested (new_process sample_process)) as [p|] eqn:E; [|exact Hok].
  destruct Hok as (Hsig & Hx & (k & Hk & Hpc) & [k2 Hk2]).
  pose proof (stop_confirmed sample_process p (acts_reachable _ _ _ _ (reach_start _) E)) as (H1 & _ & _ & _ & H5).
  split; [exact Hsig|]. split; [exact (proj2 (H1 _ _ Hk Hpc))|]. exact (H5 _ _ Hx Hk2).
Defined.
