(* ===== verification/ArtifactLoad.v ===== *)
(** * ArtifactLoad: loading, verifying and copying a prepared image
    (internal/artifact/artifact.go and copy.go, and LoadManifest of the guest agent)

    An image manifest is read, checked field by field, and every file it names is
    verified against its size and SHA-256; the root filesystem is copied for one run and
    published only if the bytes copied have the recorded digest.  Paths and file status
    are the [FS] class, the copy writes through [Disk]; how a file's bytes are handed out
    by [Read] is the [Reads] class, and the state of the context at every check is an
    argument. *)

From S2P Require Import Prelude GoLib Json JsonFacts GoTime Sha256 GoText JsonUtil JsonText Protocol ProtocolFacts Disk SafeFS Artifact Config.
From Stdlib Require Import Ascii String.

(** The results of reading a file to its end: non-empty chunks, then the end of the file
    or an error. *)
Class Reads := {
  handout : string → list string * option error;
  handout_whole (s : string) : (handout s).2 = None → foldr String.append ""%string (handout s).1 = s
}.

(** [copyContext]: [cancelled k] is [ctx.Err()] at the [k]th check. *)
Section copy_context.
Context {S : Type} (write : S → string → (Z * option error) * S) (cancelled : nat → option error).
Fixpoint copy_loop (k : nat) (chunks : list string) (fin : option error) (total : Z) (s : S) : (Z * option error) * S :=
  match cancelled k with
  | Some e => ((total, Some e), s)
  | None =>
      match chunks with
      | [] => ((total, fin), s)
      | c :: chunks =>
          let '((nw, ew), s) := write s c in
          let total := total + nw in
          match ew with
          | Some e => ((total, Some e), s)
          | None => if nw =? blen c then copy_loop (Datatypes.S k) chunks fin total s
                    else ((total, Some ErrShortWrite), s)
          end
      end
  end.
Definition copyContext (reads : list string * option error) (s : S) : (Z * option error) * S :=
  copy_loop 0 reads.1 reads.2 0 s.
End copy_context.
(** A hash takes every byte. *)
Definition hash_write (s c : string) : (Z * option error) * string := ((blen c, None), (s +:+ c)%string).

Definition Hash : string → string := sha256_hex.
Definition ImageVersion : string := "epoch-image/v1".

Section artifact.
Context {F : Type} `{FS F} `{Reads}.
Variable getwd : result string.

(** From the path up to the root; each round is shorter, so the length bounds them. *)
Fixpoint check_up (fuel : nat) (f : F) (abs p : string) : result unit :=
  match fuel with
  | O => Err (Errorf "unreachable" [])
  | S fuel =>
      let? st := lstat f p in
      fail_if bool_decide (fi_kind st = KSymlink) with Errorf "symlink rejected: %s" [p] ;;
      fail_if (p =?s abs) && negb (bool_decide (fi_kind st = KRegular)) with Errorf "not a regular file: %s" [p] ;;
      if path_dir p =?s p then Ok tt else check_up fuel f abs (path_dir p)
  end.
Definition CheckRegular (f : F) (path : string) : result unit :=
  let? abs := path_abs getwd path in
  do? ValidateNoSymlinks f abs ;;
  check_up (S (String.length abs)) f abs abs.

Definition VerifyFile (f : F) (cancelled : nat → option error) (a : File) : result unit :=
  do? CheckRegular f (f_path a) ;;
  let? (st, data) := open_read f (f_path a) in
  fail_if negb (bool_decide (fi_kind st = KRegular)) || negb (fi_size st =? f_size a)
    with Errorf "artifact size mismatch: %s" [f_path a] ;;
  let '((n, err), h) := copyContext hash_write cancelled (handout (string_take (Z.to_nat (f_size a + 1)) data)) ""%string in
  match err with
  | Some e => Err e
  | None =>
      fail_if negb (n =? f_size a) || (sha256_hex h <>?s f_sha256 a) with Errorf "artifact digest mismatch: %s" [f_path a] ;;
      Ok tt
  end.

Definition resolve (dir path : string) : string := if is_abs path then path_clean path else path_join [dir; path].

Definition check_identity (m : ImageManifest) (id : string) : result unit :=
  fail_if (im_api m <>?s ImageVersion) || (im_id m <>?s id) || (im_arch m <>?s "x86_64") || (im_firecracker m <>?s "1.16.1")
    with Errorf "unsupported or mismatched image/version/architecture identity" [] ;;
  fail_if (g_version (im_agent m) =?s "") || (g_protocol (im_agent m) <>?s Protocol.Version)
          || negb (ValidDigest (g_sha256 (im_agent m))) || negb (ArtifactValidID (w_id (im_workload m)))
          || (w_version (im_workload m) =?s "") || negb (ValidDigest (w_sha256 (im_workload m)))
          || (rc_revision (im_recipe m) =?s "") || (List.length (rc_transformations (im_recipe m)) =? 0)%nat
    with Errorf "incomplete guest/workload/recipe identity" [] ;;
  fail_if (64 <? List.length (rc_transformations (im_recipe m)))%nat
    with Errorf "image recipe has too many transformations" [] ;;
  each (λ change, fail_if (trim_space change =?s "") || (1024 <? blen change)
                    with Errorf "empty image recipe transformation" [] ;; Ok tt) (rc_transformations (im_recipe m)).

(** One content file: its metadata, then its bytes; the path becomes absolute. *)
Definition set_path (f : File) (path : string) : File :=
  {| f_path := path; f_sha256 := f_sha256 f; f_size := f_size f; f_source := f_source f; f_origin := f_origin f |}.
Definition load_file (f : F) (cancelled : nat → option error) (dir : string) (a : File) (max : Z) : result File :=
  fail_if (f_path a =?s "") || negb (ValidDigest (f_sha256 a)) || (f_size a <=? 0) || (max <? f_size a)
          || (f_source a =?s "") || ((f_origin a <>?s "locally-observed") && (f_origin a <>?s "upstream-published"))
    with Errorf "invalid artifact content/source metadata" [] ;;
  let a := set_path a (resolve dir (f_path a)) in
  do? VerifyFile f cancelled a ;;
  Ok a.

Definition load_workload (f : F) (dir : string) (w : Workload) : result (string * WorkloadManifest) :=
  fail_if w_path w =?s "" with Errorf "workload manifest_path is required" [] ;;
  let path := resolve dir (w_path w) in
  do? CheckRegular f path ;;
  let? b := ReadBounded f path 1048576 in
  fail_if Hash b <>?s w_sha256 w with Errorf "workload manifest digest mismatch" [] ;;
  let? m := JsonUtil.Decode dec_workload_manifest (JsonUtil.zero dec_workload_manifest) b in
  do? WorkloadManifest_Validate m ;;
  fail_if (m_id m <>?s w_id w) || (m_version m <>?s w_version w) with Errorf "workload identity mismatch" [] ;;
  Ok (path, m).

Definition image_path (dir id : string) : string := path_join [dir; (id +:+ ".json")%string].
(** [ctx] answers the context checks made while each path is read. *)
Definition Load (f : F) (ctx : string → nat → option error) (dir id : string) (maxDisk : Z) : result Prepared :=
  fail_if negb (ArtifactValidID id) with Errorf "invalid image ID" [] ;;
  let path := image_path dir id in
  do? CheckRegular f path ;;
  let? b := ReadBounded f path 32768 in
  let? m := map_err (Wrapf "image manifest: %w" []) (JsonUtil.Decode dec_image (JsonUtil.zero dec_image) b) in
  do? check_identity m id ;;
  let home := path_dir path in
  let? kernel := load_file f (ctx (f_path (im_kernel m))) home (im_kernel m) 134217728 in
  let? rootfs := load_file f (ctx (f_path (im_rootfs m))) home (im_rootfs m) maxDisk in
  let? (wpath, w) := load_workload f home (im_workload m) in
  Ok {| pr_manifest :=
          {| im_api := im_api m; im_id := im_id m; im_arch := im_arch m; im_kernel := kernel; im_rootfs := rootfs;
             im_firecracker := im_firecracker m; im_agent := im_agent m;
             im_workload := {| w_id := w_id (im_workload m); w_version := w_version (im_workload m); w_path := wpath;
                               w_sha256 := w_sha256 (im_workload m) |};
             im_recipe := im_recipe m |};
        pr_sha256 := Hash b; pr_workload := w |}.

(** The agent's own reading of its workload manifest. *)
Definition LoadManifest (f : F) (filename : string) : result (WorkloadManifest * string) :=
  let? (st, data) := open_read f filename in
  fail_if negb (bool_decide (fi_kind st = KRegular)) || (MaxFrame <? fi_size st)
    with Errorf "invalid workload manifest file" [] ;;
  let b := string_take (Z.to_nat (MaxFrame + 1)) data in
  fail_if MaxFrame <? blen b with Errorf "workload manifest quota exceeded" [] ;;
  let? m := JsonUtil.Decode dec_workload_manifest (JsonUtil.zero dec_workload_manifest) b in
  do? WorkloadManifest_Validate m ;;
  Ok (m, sha256_hex b).
End artifact.

Section copy_private.
Context {F : Type} `{FS F} `{Disk F} `{Reads}.
Variable getwd : result string.

(** [io.MultiWriter(tmp, h)]: the file first, then the hash. *)
Definition tee_write (tmp : string) (s : F * string) (c : string) : (Z * option error) * (F * string) :=
  let '(e, f) := dk_write s.1 tmp c in
  ((blen c, e), (f, match e with None => (s.2 +:+ c)%string | Some _ => s.2 end)).
(** [cancelled] is the context during the copy and [last] its state before the rename. *)
Definition CopyPrivate (f : F) (cancelled : nat → option error) (last : option error) (base : File)
    (destination : string) : option error * F :=
  match CheckRegular getwd f (f_path base) with Err e => (Some e, f) | Ok _ =>
  if path_clean (f_path base) =?s path_clean destination
  then (Some (Errorf "base and private disk must differ" []), f) else
  if match dk_lstat f destination with Some e => negb (not_exist e) | None => true end
  then (Some (Errorf "destination must not exist: %s" [destination]), f) else
  match open_read f (f_path base) with Err e => (Some e, f) | Ok (st, data) =>
  if negb (fi_size st =? f_size base) then (Some (Errorf "base size changed" []), f) else
  let tmp := (destination +:+ ".partial")%string in
  let '(created, f) := dk_create f tmp in
  match created with Some e => (Some e, f) | None =>
  let abandon e f := (Some e, (dk_remove f tmp).2) in
  let abandon_open e f := abandon e (dk_close f tmp).2 in
  let '((n, err), (f, h)) :=
    copyContext (tee_write tmp) cancelled (handout (string_take (Z.to_nat (f_size base + 1)) data)) (f, ""%string) in
  match err with Some e => abandon_open e f | None =>
  if negb (n =? f_size base) || (sha256_hex h <>?s f_sha256 base)
  then abandon_open (Errorf "base changed while copying" []) f else
  let '(synced, f) := dk_sync f tmp in
  match synced with Some e => abandon_open e f | None =>
  let '(closed, f) := dk_close f tmp in
  match closed with Some e => abandon e f | None =>
  match last with Some e => abandon e f | None =>
  let '(renamed, f) := dk_rename f tmp destination in
  match renamed with Some e => abandon e f | None => (None, f) end
  end end end end end end end.
End copy_private.

(** ** Facts *)
Definition joined_chunks (l : list string) : string := foldr String.append ""%string l.
Section copy_facts.
Context {S : Type} (write : S → string → (Z * option error) * S) (cancelled : nat → option error).
(** [P s text]: the sink [s] has taken [text]. *)
Variable P : S → string → Prop.
Hypothesis write_ok : ∀ s text c s', P s text → write s c = ((blen c, None), s') → P s' (text +:+ c)%string.
Lemma copy_loop_ok k chunks fin total s text n s' : P s text →
  copy_loop write cancelled k chunks fin total s = ((n, None), s') →
  fin = None ∧ P s' (text +:+ joined_chunks chunks)%string ∧ n = total + blen (joined_chunks chunks).
Proof.
  revert k total s text. induction chunks as [|c chunks IH]; intros k total s text Hs; cbn [copy_loop];
    (destruct (cancelled k); [done|]).
  { intros [= <- -> <-]. unfold joined_chunks, blen. cbn. rewrite sapp_nil_r. split_and!; [done..|lia]. }
  destruct (write s c) as [[nw ew] s1] eqn:Ew. destruct ew; [done|]. destruct (Z.eqb_spec nw (blen c)) as [->|]; [|done].
  intros Hc. apply (IH _ _ _ (text +:+ c)%string) in Hc as (-> & Hp & ->); [|by eapply write_ok].
  change (joined_chunks (c :: chunks)) with (c +:+ joined_chunks chunks)%string.
  rewrite <-sapp_assoc, blen_app. split_and!; [done..|lia].
Qed.
End copy_facts.
Lemma copy_loop_keeps {S} write cancelled (R : S → Prop) k chunks fin total s :
  (∀ s c, R s → R (write s c).2) → R s → R (copy_loop write cancelled k chunks fin total s).2.
Proof.
  intros Hw. revert k total s. induction chunks as [|c chunks IH]; intros k total s Hs; cbn [copy_loop];
    (destruct (cancelled k); [done|]); [done|].
  specialize (Hw s c Hs). destruct (write s c) as [[nw [e|]] s1]; [done|]. destruct (_ =? _); [by apply IH|done].
Qed.
Lemma hash_copy_ok cancelled reads n h : copyContext hash_write cancelled reads ""%string = ((n, None), h) →
  reads.2 = None ∧ h = joined_chunks reads.1 ∧ n = blen h.
Proof.
  unfold copyContext. intros Hc.
  apply (copy_loop_ok hash_write cancelled (λ s text, s = text)) with (text := ""%string) in Hc as (-> & -> & ->);
    [by split_and!| |done]. intros s text c s' -> [= <-]. done.
Qed.

(** A regular file whose bytes have this digest and size. *)
Definition holds {F} `{FS F} (f : F) (path : string) (size : Z) (sha : string) : Prop :=
  ∃ st data, open_read f path = Ok (st, data) ∧ fi_kind st = KRegular ∧ blen data = size ∧ sha256_hex data = sha.
Lemma whole_read size data : 0 ≤ size → blen (string_take (Z.to_nat (size + 1)) data) = size →
  string_take (Z.to_nat (size + 1)) data = data ∧ blen data = size.
Proof.
  intros Hs. unfold blen. destruct (Nat.le_gt_cases (String.length data) (Z.to_nat (size + 1))).
  - rewrite string_take_all by done. done.
  - rewrite take_length by lia. lia.
Qed.
Lemma VerifyFile_ok {F} `{FS F} `{Reads} getwd (f : F) cancelled a : 0 ≤ f_size a →
  VerifyFile getwd f cancelled a = Ok tt → holds f (f_path a) (f_size a) (f_sha256 a).
Proof.
  intros Hz Hv. unfold VerifyFile in Hv. apply rbind_ok in Hv as ([] & _ & Hv).
  apply rbind_ok in Hv as ([st data] & Ho & Hv). inv_ok Hv.
  destruct (copyContext _ _ _ _) as [[n err] h] eqn:Ec. destruct err as [e|]; [done|].
  apply hash_copy_ok in Ec as (Hend & -> & ->). inv_ok Hv. to_prop.
  pose proof (handout_whole _ Hend) as Hw. unfold joined_chunks in *. rewrite Hw in *.
  destruct (whole_read _ _ Hz ltac:(eassumption)) as [Ht Hlen]. rewrite Ht in *.
  exists st, data. split_and!; try done. by eapply bool_decide_eq_true_1.
Qed.

(** ** Claims *)
Lemma load_file_ok {F} `{FS F} `{Reads} getwd (f : F) cancelled dir a max a' : load_file getwd f cancelled dir a max = Ok a' →
  a' = set_path a (resolve dir (f_path a)) ∧ 0 < f_size a ≤ max ∧ ValidDigest (f_sha256 a) = true ∧
  holds f (f_path a') (f_size a') (f_sha256 a').
Proof.
  unfold load_file. intros Hl. inv_ok Hl. injection Hl as <-. to_prop.
  split_and!; try done. match goal with E : VerifyFile _ _ _ _ = Ok ?u |- _ => destruct u; by apply VerifyFile_ok in E; [|cbn; lia] end.
Qed.

(** The manifest with the paths of its files made absolute. *)
Definition resolved_image (home : string) (m : ImageManifest) : ImageManifest :=
  {| im_api := im_api m; im_id := im_id m; im_arch := im_arch m;
     im_kernel := set_path (im_kernel m) (resolve home (f_path (im_kernel m)));
     im_rootfs := set_path (im_rootfs m) (resolve home (f_path (im_rootfs m)));
     im_firecracker := im_firecracker m; im_agent := im_agent m;
     im_workload := {| w_id := w_id (im_workload m); w_version := w_version (im_workload m);
                       w_path := resolve home (w_path (im_workload m)); w_sha256 := w_sha256 (im_workload m) |};
     im_recipe := im_recipe m |}.

(** C24.  A loaded image is what its manifest says.  The manifest is the bounded regular
    file named by the image ID, with the digest that the run records, and what is loaded is
    what it decodes to with its paths resolved; its API version, image ID, architecture,
    Firecracker version and protocol are the expected ones.  The kernel and the root
    filesystem are regular files with exactly the sizes and SHA-256 digests that the decoded
    manifest states, within 128 MiB and the operator's limit; and the workload manifest is a
    regular file with the stated digest, is valid, and carries the stated workload ID and
    version. *)
Theorem load_authentic {F} `{FS F} `{Reads} getwd (f : F) ctx dir id maxDisk p :
  Load getwd f ctx dir id maxDisk = Ok p →
  let home := path_dir (image_path dir id) in
  ∃ b m, CheckRegular getwd f (image_path dir id) = Ok tt ∧ ReadBounded f (image_path dir id) 32768 = Ok b ∧
    pr_sha256 p = sha256_hex b ∧ JsonUtil.Decode dec_image (JsonUtil.zero dec_image) b = Ok m ∧
    pr_manifest p = resolved_image home m ∧
    im_api m = ImageVersion ∧ im_id m = id ∧ im_arch m = "x86_64"%string ∧ im_firecracker m = "1.16.1"%string ∧
    g_protocol (im_agent m) = Protocol.Version ∧
    (∀ a max, (a, max) ∈ [(im_kernel m, 134217728); (im_rootfs m, maxDisk)] →
       0 < f_size a ≤ max ∧ ValidDigest (f_sha256 a) = true ∧ holds f (resolve home (f_path a)) (f_size a) (f_sha256 a)) ∧
    ∃ w, CheckRegular getwd f (resolve home (w_path (im_workload m))) = Ok tt ∧
      ReadBounded f (resolve home (w_path (im_workload m))) 1048576 = Ok w ∧ sha256_hex w = w_sha256 (im_workload m) ∧
      JsonUtil.Decode dec_workload_manifest (JsonUtil.zero dec_workload_manifest) w = Ok (pr_workload p) ∧
      WorkloadManifest_Validate (pr_workload p) = Ok tt ∧
      m_id (pr_workload p) = w_id (im_workload m) ∧ m_version (pr_workload p) = w_version (im_workload m).
Proof.
  unfold Load. intros Hl. inv_ok1 Hl. apply rbind_ok in Hl as ([] & Hreg & Hl). apply rbind_ok in Hl as (b & Hb & Hl).
  apply rbind_ok in Hl as (m & Hm%map_err_ok & Hl). apply rbind_ok in Hl as ([] & Hid & Hl).
  apply rbind_ok in Hl as (kernel & Hk%load_file_ok & Hl). apply rbind_ok in Hl as (rootfs & Hr%load_file_ok & Hl).
  apply rbind_ok in Hl as ([wpath w] & Hw & Hl). injection Hl as <-.
  destruct Hk as (-> & Hk1 & Hk3 & Hk2). destruct Hr as (-> & Hr1 & Hr3 & Hr2).
  unfold load_workload in Hw. inv_ok1 Hw. apply rbind_ok in Hw as ([] & Hwreg & Hw). apply rbind_ok in Hw as (wb & Hwb & Hw).
  inv_ok1 Hw. apply rbind_ok in Hw as (wm & Hwm & Hw). apply rbind_ok in Hw as ([] & Hv & Hw). inv_ok1 Hw.
  injection Hw as <- <-. unfold check_identity in Hid. inv_ok1 Hid. inv_ok1 Hid. to_prop.
  exists b, m. split_and!; try done.
  - intros a max [[= -> ->]|[[= -> ->]|[]%elem_of_nil]%elem_of_cons]%elem_of_cons; (split; [done|]; split; done).
  - exists wb. by split_and!.
Qed.

Section copy_private_facts.
Context {F : Type} `{FS F} `{LawfulDisk F} `{Reads}.

Lemma tee_keeps tmp cancelled reads (f : F) h q : q ≠ tmp →
  dk_content (copyContext (tee_write tmp) cancelled reads (f, h)).2.1 q = dk_content f q.
Proof.
  intros Hq. unfold copyContext. apply (copy_loop_keeps _ _ (λ s : F * string, dk_content s.1 q = dk_content f q)); [|done].
  intros [g text] c Hg. unfold tee_write. pose proof (write_frame g tmp c q Hq) as Hw. cbn in *.
  destruct (dk_write g tmp c). cbn in *. congruence.
Qed.
Lemma tee_copies tmp cancelled reads (f : F) n f' h : dk_content f tmp = Some ""%string →
  copyContext (tee_write tmp) cancelled reads (f, ""%string) = ((n, None), (f', h)) →
  reads.2 = None ∧ h = joined_chunks reads.1 ∧ n = blen h ∧ dk_content f' tmp = Some h.
Proof.
  intros Hf. unfold copyContext. intros Hc.
  apply (copy_loop_ok (tee_write tmp) cancelled (λ s text, s.2 = text ∧ dk_content s.1 tmp = Some text))
    with (text := ""%string) in Hc as (-> & [Hh Hcont] & ->).
  - cbn in *. subst h. by split_and!.
  - intros [g text'] text c s' [Ht Hg] Hw. cbn in Ht, Hg. subst text'. unfold tee_write in Hw. cbn [fst snd] in Hw.
    pose proof (write_law g tmp text c) as Hl. destruct (dk_write g tmp c) as [[e|] g']; [done|].
    injection Hw as <-. cbn in *. split; [done|by apply Hl].
  - by split.
Qed.
Lemma partial_ne (d : string) : d ≠ (d +:+ ".partial")%string.
Proof. intros Hd%(f_equal String.length). rewrite slength_app in Hd. cbn in Hd. lia. Qed.

(** Giving up on the partial file changes no other path. *)
Lemma abandon_keeps tmp (f : F) q : q ≠ tmp → dk_content (dk_remove f tmp).2 q = dk_content f q.
Proof. apply remove_frame. Qed.
Lemma abandon_open_keeps tmp (f : F) q : q ≠ tmp → dk_content (dk_remove (dk_close f tmp).2 tmp).2 q = dk_content f q.
Proof. intros Hq. rewrite remove_frame by done. apply close_law. Qed.

Definition copy_result (f f' : F) (base : File) (dest : string) (e : option error) : Prop :=
  match e with
  | None => ∃ st data, open_read f (f_path base) = Ok (st, data) ∧ blen data = f_size base ∧
                       sha256_hex data = f_sha256 base ∧ dk_content f' dest = Some data
  | Some _ => dk_content f' dest = dk_content f dest
  end ∧
  ∀ s, dk_content f (f_path base) = Some s → dk_content f' (f_path base) = Some s.

Lemma copy_private_result getwd (f f' : F) cancelled last base dest e : 0 ≤ f_size base →
  CopyPrivate getwd f cancelled last base dest = (e, f') → copy_result f f' base dest e.
Proof.
  intros Hz. unfold CopyPrivate. cbv zeta.
  assert (Hsame : ∀ e', (Some e', f) = (e, f') → copy_result f f' base dest e) by (by intros e' [= <- <-]).
  destruct (CheckRegular _ _ _); [|by apply Hsame]. destruct (_ =?s _) eqn:Ene; [by apply Hsame|]. to_prop.
  assert (Hbd : f_path base ≠ dest) by congruence. clear Ene. pose proof (partial_ne dest) as Hpd.
  destruct (match dk_lstat f dest with Some e => _ | None => _ end); [by apply Hsame|].
  destruct (open_read f (f_path base)) as [[st data]|x] eqn:Eo; [|by apply Hsame].
  destruct (negb (fi_size st =? f_size base)); [by apply Hsame|].
  set (tmp := (dest +:+ ".partial")%string) in *.
  pose proof (create_excl f tmp) as Hex. pose proof (create_law f tmp) as Hcl. pose proof (create_fail f tmp) as Hcf.
  pose proof (λ q, create_frame f tmp q) as Hcr. destruct (dk_create f tmp) as [created f1]. cbn [fst snd] in *.
  destruct created as [x|].
  { intros [= <- <-]. split; [by apply Hcr|]. intros s Hs.
    destruct (decide (f_path base = tmp)) as [E|]; [rewrite E in *; by rewrite Hcf|by rewrite Hcr]. }
  specialize (Hex eq_refl). specialize (Hcl eq_refl). clear Hcf.
  assert (Hb : ∀ s, dk_content f (f_path base) = Some s → f_path base ≠ tmp) by (intros s Hs E; rewrite E in Hs; congruence).
  assert (Hquit : ∀ g e', (∀ q, q ≠ tmp → dk_content g q = dk_content f1 q) → (Some e', g) = (e, f') →
            copy_result f f' base dest e).
  { intros g e' Hg [= <- <-]. split; [by rewrite Hg, Hcr|]. intros s Hs. rewrite Hg, Hcr; eauto. }
  pose proof (λ q, tee_keeps tmp cancelled (handout (string_take (Z.to_nat (f_size base + 1)) data)) f1 ""%string q) as Hk.
  destruct (copyContext (tee_write tmp) _ _ _) as [[n err] [f2 h]] eqn:Ec. cbn [fst snd] in Hk.
  destruct err as [x|]; [apply Hquit; intros q Hq; by rewrite abandon_open_keeps, Hk|].
  destruct (negb (n =? f_size base) || _) eqn:En; [apply Hquit; intros q Hq; by rewrite abandon_open_keeps, Hk|].
  apply tee_copies in Ec as (Hend & -> & -> & Htmp); [|done]. apply orb_false_iff in En as [En Esha]. to_prop.
  pose proof (handout_whole _ Hend) as Hw. fold (joined_chunks (handout (string_take (Z.to_nat (f_size base + 1)) data)).1) in Hw.
  rewrite Hw in *. destruct (whole_read _ _ Hz En) as [Ht Hlen]. rewrite Ht in *.
  pose proof (sync_law f2 tmp) as Hs. destruct (dk_sync f2 tmp) as [synced f3]. cbn [snd] in Hs.
  destruct synced as [x|]; [apply Hquit; intros q Hq; by rewrite abandon_open_keeps, Hs, Hk|].
  pose proof (close_law f3 tmp) as Hc. destruct (dk_close f3 tmp) as [closed f4]. cbn [snd] in Hc.
  destruct closed as [x|]; [apply Hquit; intros q Hq; by rewrite abandon_keeps, Hc, Hs, Hk|].
  destruct last as [x|]; [apply Hquit; intros q Hq; by rewrite abandon_keeps, Hc, Hs, Hk|].
  pose proof (rename_law f4 tmp dest) as Hr. pose proof (rename_fail f4 tmp dest) as Hrf.
  pose proof (λ q, rename_frame f4 tmp dest q) as Hrr. destruct (dk_rename f4 tmp dest) as [renamed f5]. cbn [fst snd] in *.
  destruct renamed as [x|].
  { intros [= <- <-]. split.
    - rewrite abandon_keeps, Hrf, Hc, Hs, Hk, Hcr by done. done.
    - intros s Hs0. pose proof (Hb _ Hs0). rewrite abandon_keeps, Hrr, Hc, Hs, Hk, Hcr by done. done. }
  intros [= <- <-]. split.
  - exists st, data. split_and!; try done. rewrite Hr by done. by rewrite Hc, Hs.
  - intros s Hs0. pose proof (Hb _ Hs0). rewrite Hrr, Hc, Hs, Hk, Hcr by done. done.
Qed.
End copy_private_facts.

(** C25.  The private disk of a run: when the copy succeeds the destination holds exactly
    the bytes of the base image, with the recorded size and SHA-256; when it fails, for
    whatever reason and at whatever point (cancellation included), the destination is as
    it was; and the base image is never changed. *)
Theorem copy_private_exact {F} `{FS F} `{LawfulDisk F} `{Reads} getwd (f f' : F) cancelled last base dest e :
  0 ≤ f_size base → CopyPrivate getwd f cancelled last base dest = (e, f') → copy_result f f' base dest e.
Proof. apply copy_private_result. Qed.

(** *** Example: an image in memory *)
#[export] Instance one_read : Reads.
Proof. refine {| handout s := ([s], None) |}. intros s _. cbn. apply sapp_nil_r. Defined.
Definition node_info (kind : file_kind) (size : Z) : FileInfo :=
  {| fi_kind := kind; fi_perm := if bool_decide (kind = KDir) then 493 else 420; fi_sticky := false; fi_uid := 0; fi_size := size |}.
Definition md_done (m : memdisk) : option error * memdisk := (None, m).
#[export] Instance memdisk_fs : FS memdisk := {|
  getuid _ := 1000; geteuid _ := 1000;
  lstat m p := match md_files m !! p with
               | Some s => Ok (node_info KRegular (blen s))
               | None => if existsb (String.eqb p) ["/"; "/img"; "/run"]%string then Ok (node_info KDir 0) else Err ErrNotExist
               end;
  read_dir _ _ := Err ErrNotExist; statfs _ _ := Err ErrNotExist;
  open_read m p := match md_files m !! p with
                   | Some s => Ok (node_info KRegular (blen s), s) | None => Err ErrNotExist end;
  mkdir m _ _ := md_done m; remove m p := dk_remove m p; create_temp m d p := (Err ErrNotExist, m);
  chmod m _ _ := md_done m; write_data m p d := dk_write m p d; sync_file m p := md_done m; close_file m p := md_done m;
  rename m a b := dk_rename m a b; sync_dir m _ := md_done m; content m p := md_files m !! p
|}.
Definition sample_workload_text : string := js
  "{'api_version':'epoch-workload/v1','id':'clock-probe','version':'1','uid':1000,'gid':1000,'working_dir':'/var/lib/epoch','environment':{},'actions':{'observe':{'argv':['/usr/lib/epoch/clock-probe','observe']}},'services':{}}".
Definition sample_content (path text : string) : File :=
  {| f_path := path; f_sha256 := sha256_hex text; f_size := blen text; f_source := "build"; f_origin := "locally-observed" |}.
Definition probe_image : ImageManifest :=
  {| im_api := ImageVersion; im_id := "probe"; im_arch := "x86_64"; im_kernel := sample_content "k" "kernel";
     im_rootfs := sample_content "/img/r" "rootfs"; im_firecracker := "1.16.1";
     im_agent := {| g_version := "1"; g_protocol := Protocol.Version; g_sha256 := sha256_hex "agent" |};
     im_workload := {| w_id := "clock-probe"; w_version := "1"; w_path := "w.json"; w_sha256 := sha256_hex sample_workload_text |};
     im_recipe := {| rc_revision := "1"; rc_transformations := ["strip"%string] |} |}.
Definition image_disk : memdisk :=
  {| md_files := list_to_map [("/img/probe.json", print (enc_image probe_image)); ("/img/k", "kernel"); ("/img/r", "rootfs");
                              ("/img/w.json", sample_workload_text)]%string; md_time := 0 |}.
Definition no_wd : result string := Err ErrNotExist.
Definition never_path (_ : string) (_ : nat) : option error := None.
Definition never (_ : nat) : option error := None.
Lemma load_authentic_witness :
  match Load no_wd image_disk never_path "/img" "probe" 1024 with
  | Ok p => f_path (im_kernel (pr_manifest p)) = "/img/k"%string ∧
            ∃ b, ReadBounded image_disk (image_path "/img" "probe") 32768 = Ok b ∧ pr_sha256 p = sha256_hex b
  | Err _ => False
  end.
Proof.
  assert (Hok : match Load no_wd image_disk never_path "/img" "probe" 1024 with
                | Ok p => f_path (im_kernel (pr_manifest p)) = "/img/k"%string | Err _ => False end) by (vm_compute; reflexivity).
  destruct (Load no_wd image_disk never_path "/img" "probe" 1024) as [p|e] eqn:E; [|exact Hok]. split; [exact Hok|].
  destruct (load_authentic no_wd image_disk never_path "/img" "probe" 1024 p E) as (b & m & _ & Hb & Hs & _).
  exists b. split; [exact Hb|exact Hs].
Defined.
Definition private_copy := CopyPrivate no_wd image_disk never None (im_rootfs probe_image) "/run/disk".
Example private_copy_ok : private_copy.1 = None ∧ md_files private_copy.2 !! "/run/disk"%string = Some "rootfs"%string ∧
  md_files private_copy.2 !! "/run/disk.partial"%string = None.
Proof. vm_compute. split_and!; reflexivity. Qed.
Lemma copy_private_exact_witness :
  copy_result image_disk (CopyPrivate no_wd image_disk never None (im_rootfs probe_image) "/run/disk").2
    (im_rootfs probe_image) "/run/disk" (CopyPrivate no_wd image_disk never None (im_rootfs probe_image) "/run/disk").1.
Proof.
  apply (copy_private_exact no_wd image_disk _ never None (im_rootfs probe_image) "/run/disk"); [vm_compute; discriminate|].
  apply surjective_pairing.
Defined.
