(* ===== verification/GuestExec.v ===== *)
(** * GuestExec: starting the agent and its workloads
    (internal/guestagent/run_linux.go, guestclock/system_linux.go, cmd/epoch-agent)

    [startup] is the agent's start as guest root up to the server it serves, and
    [WorkloadExec] is what the re-executed, credential-dropped child does before it
    becomes the workload.  The kernel calls of the child are the [Child] class over the
    same world as its files; the log records the calls that change the process. *)

From S2P Require Import Prelude GoLib Json JsonFacts GoTime Sha256 GoText JsonUtil JsonText Protocol ProtocolFacts GuestClock GuestAgent Disk SafeFS Artifact Config ArtifactLoad.
From Stdlib Require Import Ascii String.

(** ** Files only root can change *)
Section trusted.
Context {F : Type} `{FS F}.
Fixpoint trusted_up (fuel : nat) (f : F) (filename p : string) : result unit :=
  match fuel with
  | O => Err (Errorf "unreachable" [])
  | S fuel =>
      let? st := lstat f p in
      fail_if negb (fi_uid st =? 0) || negb (Z.land (fi_perm st) 18 =? 0) || bool_decide (fi_kind st = KSymlink)
        with Errorf "guest manifest path is not trusted root-owned content: %s" [p] ;;
      fail_if (p =?s filename) && negb (bool_decide (fi_kind st = KRegular))
        with Errorf "guest manifest is not a regular file" [] ;;
      if p =?s "/" then Ok tt else trusted_up fuel f filename (path_dir p)
  end.
Definition trustedGuestFile (f : F) (filename : string) : result unit :=
  fail_if negb (is_abs filename) || (path_clean filename <>?s filename)
    with Errorf "guest manifest path must be absolute and clean" [] ;;
  trusted_up (S (String.length filename)) f filename filename.
End trusted.

(** ** The agent *)

(** What the agent reads of its own process. *)
Record agent_process := {
  ap_pid : Z; ap_euid : Z; ap_cmdline : result string; ap_context_id : result Z;
  ap_executable : result string; ap_self : result (FileInfo * result string)
}.
Definition NewSystem (p : agent_process) : result Identity :=
  fail_if ap_pid p =? 1 with Errorf "epoch-agent requires a real guest init; refusing PID 1" [] ;;
  fail_if negb (ap_euid p =? 0) with Errorf "guest agent must run as guest root" [] ;;
  let? cmdline := ap_cmdline p in
  let? identity := ParseIdentity cmdline in
  let? cid := ap_context_id p in
  do? Identity_Verify identity cid ;;
  Ok identity.
(** [Run] up to the listener: the server that will be served. *)
Definition startup {F} `{FS F} (f : F) (p : agent_process) (manifestPath version : string) : result Server :=
  let? identity := NewSystem p in
  do? trustedGuestFile f manifestPath ;;
  let? (m, digest) := LoadManifest f manifestPath in
  do? ap_executable p ;;
  let? (st, bytes) := ap_self p in
  fail_if negb (fi_uid st =? 0) || negb (Z.land (fi_perm st) 18 =? 0)
    with Errorf "agent executable must be root owned and not group/world writable" [] ;;
  let? bytes := bytes in
  Ok {| sv_identity := identity; sv_manifest := m; sv_manifest_sha := digest; sv_agent_version := version;
        sv_agent_sha := sha256_hex bytes; clock_ready := false |}.

(** ** The child that becomes a workload *)
Class Child (W : Type) := {
  ch_cmdline : W → result string;
  ch_local_cid : W → result Z;
  ch_close : W → option error * W;
  ch_ids : W → (Z * Z) * (Z * Z);
  ch_groups : W → result (list Z);
  ch_status : W → result string;
  ch_no_new_privs : W → option error * W;
  ch_chdir : W → string → option error * W;
  ch_environ : W → list string;
  ch_exec : W → list string → list string → option error
}.
Inductive child_event := ClosedVsock | NoNewPrivs | ChangedDir (dir : string) | Executed (argv env : list string).

Definition cap_names : list string := ["CapEff:"; "CapPrm:"; "CapAmb:"]%string.
Fixpoint count_caps (lines : list string) (checked : nat) : result nat :=
  match lines with
  | [] => Ok checked
  | line :: lines =>
      match fields line with
      | [name; value] =>
          if existsb (String.eqb name) cap_names then
            match parse_uint 16 64 value with
            | Some 0 => count_caps lines (S checked)
            | _ => Err (Errorf "workload active capabilities must be empty" [])
            end
          else count_caps lines checked
      | _ => count_caps lines checked
      end
  end.

Section child.
Context {W : Type} `{FS W} `{Child W}.

Definition check_child (w : W) (m : WorkloadManifest) : result unit :=
  let '((ruid, euid), (rgid, egid)) := ch_ids w in
  fail_if negb (ruid =? m_uid m) || negb (euid =? m_uid m) || negb (rgid =? m_gid m) || negb (egid =? m_gid m)
    with Errorf "workload identity mismatch" [] ;;
  let? groups := ch_groups w in
  fail_if negb (List.length groups =? 0)%nat with Errorf "unexpected workload supplementary groups" [] ;;
  let? status := ch_status w in
  let? checked := count_caps (split_on (chr 10) status) 0 in
  fail_if negb (checked =? 3)%nat with Errorf "cannot inspect workload capabilities" [] ;;
  Ok tt.
Definition declared_argv (m : WorkloadManifest) (kind id : string) : result (list string) :=
  if kind =?s "action" then
    match assoc id (m_actions m) with Some argv => Ok argv | None => Err (Errorf "undeclared action" []) end
  else if kind =?s "service" then
    match assoc id (m_services m) with Some s => Ok (sv_argv s) | None => Err (Errorf "undeclared service" []) end
  else Err (Errorf "invalid workload kind" []).

Definition WorkloadExec (args : list string) (w : W) : option error * W * list child_event :=
  match args with
  | [path; kind; id] =>
      match (let? cmdline := ch_cmdline w in
             let? identity := ParseIdentity cmdline in
             let? cid := ch_local_cid w in
             Identity_Verify identity cid) with Err e => (Some e, w, []) | Ok _ =>
      let '(closed, w) := ch_close w in
      match closed with Some e => (Some e, w, []) | None =>
      let t := [ClosedVsock] in
      match (let? (m, _) := LoadManifest w path in
             do? trustedGuestFile w path ;;
             do? check_child w m ;;
             Ok m) with Err e => (Some e, w, t) | Ok m =>
      let '(locked, w) := ch_no_new_privs w in
      match locked with Some e => (Some e, w, t) | None =>
      let t := t ++ [NoNewPrivs] in
      match declared_argv m kind id with Err e => (Some e, w, t) | Ok argv =>
      let '(moved, w) := ch_chdir w (m_dir m) in
      match moved with Some e => (Some e, w, t) | None =>
      let t := t ++ [ChangedDir (m_dir m); Executed argv (ch_environ w)] in
      (option_map (Wrapf "exec declared workload: %w" []) (ch_exec w argv (ch_environ w)), w, t)
      end end end end end end
  | _ => (Some (Errorf "invalid internal workload invocation" []), w, [])
  end.
End child.

(** ** Facts *)

(** [p] and every directory above it belong to root and nobody else can write them. *)
Definition root_owned {F} `{FS F} (f : F) (p : string) : Prop :=
  ∃ st, lstat f p = Ok st ∧ fi_uid st = 0 ∧ Z.land (fi_perm st) 18 = 0 ∧ fi_kind st ≠ KSymlink.
Definition root_path {F} `{FS F} (f : F) (p : string) : Prop :=
  ∃ k, Nat.iter k path_dir p = "/"%string ∧ ∀ j, (j ≤ k)%nat → root_owned f (Nat.iter j path_dir p).
Lemma iter_dir j p : Nat.iter j path_dir (path_dir p) = Nat.iter (S j) path_dir p.
Proof. symmetry. apply Nat.iter_succ_r. Qed.
Lemma trusted_up_ok {F} `{FS F} fuel (f : F) filename p : trusted_up fuel f filename p = Ok tt → root_path f p.
Proof.
  revert p. induction fuel as [|fuel IH]; intros p Ht; cbn [trusted_up] in Ht; [done|].
  apply rbind_ok in Ht as (st & Hst & Ht). inv_ok1 Ht. inv_ok1 Ht. to_prop.
  assert (Hp : root_owned f p). { exists st. split_and!; try done. intros Hk. by apply bool_decide_eq_false in H1. }
  destruct (p =?s "/") eqn:Es; to_prop.
  - exists 0%nat. split; [done|]. intros j Hj. assert (j = 0%nat) as -> by lia. done.
  - apply IH in Ht as (k & Hk & Hall). exists (S k). split; [by rewrite <-iter_dir|].
    intros [|j] Hj; [done|]. rewrite <-iter_dir. apply Hall. lia.
Qed.
Lemma trustedGuestFile_ok {F} `{FS F} (f : F) filename : trustedGuestFile f filename = Ok tt → root_path f filename.
Proof. unfold trustedGuestFile. intros Ht. inv_ok1 Ht. by eapply trusted_up_ok. Qed.

Definition is_cap_line (line value : string) : Prop := ∃ name, fields line = [name; value] ∧ name ∈ cap_names.
Lemma count_caps_zero lines n k : count_caps lines n = Ok k →
  ∀ line value, line ∈ lines → is_cap_line line value → parse_uint 16 64 value = Some 0.
Proof.
  revert n. induction lines as [|l lines IH]; intros n; cbn [count_caps].
  { intros _ line value []%elem_of_nil. }
  intros Hc line value Hin (name & Hf & Hn).
  assert (Hrest : ∀ n', count_caps lines n' = Ok k → line ∈ lines → parse_uint 16 64 value = Some 0).
  { intros n' Hn' Hl. eapply IH; [done..|]. by exists name. }
  apply elem_of_cons in Hin as [<-|Hin].
  - rewrite Hf in Hc. assert (existsb (String.eqb name) cap_names = true) as Ee.
    { apply existsb_exists. exists name. split; [by apply list_elem_of_In|by apply String.eqb_refl]. }
    rewrite Ee in Hc. destruct (parse_uint 16 64 value) as [[| |]|]; done.
  - destruct (fields l) as [|a [|b [|]]]; try by eapply Hrest. destruct (existsb _ _); [|by eapply Hrest].
    destruct (parse_uint 16 64 b) as [[| |]|]; try done. by eapply Hrest.
Qed.

Section exec_facts.
Context {W : Type} `{FS W} `{Child W}.
(** The process that is about to become the workload. *)
Record confined (w : W) (m : WorkloadManifest) : Prop := {
  cf_ids : ch_ids w = ((m_uid m, m_uid m), (m_gid m, m_gid m));
  cf_unprivileged : m_uid m ≠ 0 ∧ m_gid m ≠ 0;
  cf_groups : ch_groups w = Ok [];
  cf_caps : ∃ status, ch_status w = Ok status ∧ ∀ line value,
    line ∈ split_on (chr 10) status → is_cap_line line value → parse_uint 16 64 value = Some 0
}.
Lemma check_child_ok w m : WorkloadManifest_Validate m = Ok tt → check_child w m = Ok tt → confined w m.
Proof.
  intros Hv Hc. unfold check_child in Hc. destruct (ch_ids w) as [[ruid euid] [rgid egid]] eqn:Ei. inv_ok1 Hc.
  apply rbind_ok in Hc as (groups & Hg & Hc). inv_ok1 Hc. apply rbind_ok in Hc as (status & Hs & Hc).
  apply rbind_ok in Hc as (n & Hn & Hc). to_prop. apply validated_manifest in Hv as (Hu & Hgid & _). split; [congruence|done| |].
  - by destruct groups.
  - exists status. split; [done|]. by eapply count_caps_zero.
Qed.
Lemma declared_argv_ok m kind id argv : WorkloadManifest_Validate m = Ok tt → declared_argv m kind id = Ok argv →
  command_safe id argv ∧
  (kind = "action"%string ∧ (id, argv) ∈ m_actions m ∨
   kind = "service"%string ∧ ∃ s, (id, s) ∈ m_services m ∧ argv = sv_argv s).
Proof.
  intros (_ & _ & Ha & Hs & _)%validated_manifest Hd. unfold declared_argv in Hd.
  destruct (kind =?s "action") eqn:Ea; to_prop.
  - destruct (assoc id (m_actions m)) as [c|] eqn:E; [|done]. injection Hd as ->. apply assoc_in in E.
    rewrite Forall_forall in Ha. split; [by apply (Ha _ E)|by left].
  - destruct (kind =?s "service") eqn:Es; [|done]. to_prop.
    destruct (assoc id (m_services m)) as [c|] eqn:E; [|done]. injection Hd as <-. apply assoc_in in E.
    rewrite Forall_forall in Hs. split; [by apply (Hs _ E)|right; eauto].
Qed.
Lemma LoadManifest_ok (f : W) filename m digest : LoadManifest f filename = Ok (m, digest) →
  WorkloadManifest_Validate m = Ok tt ∧ ∃ st b, open_read f filename = Ok (st, b) ∧ digest = sha256_hex b ∧
    JsonUtil.Decode dec_workload_manifest (JsonUtil.zero dec_workload_manifest) b = Ok m.
Proof.
  unfold LoadManifest. intros Hl. apply rbind_ok in Hl as ([st data] & Ho & Hl). inv_ok1 Hl.
  remember (string_take (Z.to_nat (MaxFrame + 1)) data) as b eqn:Hb. inv_ok1 Hl.
  apply rbind_ok in Hl as (m' & Hm & Hl). apply rbind_ok in Hl as ([] & Hv & Hl). injection Hl as <- <-. to_prop.
  assert (b = data) as ->.
  { rewrite Hb. apply string_take_all. destruct (Nat.le_gt_cases (String.length data) (Z.to_nat (MaxFrame + 1))); [done|].
    assert (blen b = MaxFrame + 1) by (rewrite Hb; unfold blen; rewrite take_length by lia; unfold MaxFrame; lia). lia. }
  split; [done|]. by exists st, data.
Qed.

(** Everything that was true when a program was executed. *)
Record exec_state (args : list string) (w : W) (argv env : list string) (t : list child_event) : Prop := {
  xs_args : ∃ path kind id, args = [path; kind; id] ∧
    (∃ cmdline i cid, ch_cmdline w = Ok cmdline ∧ ParseIdentity cmdline = Ok i ∧ ch_local_cid w = Ok cid ∧
                      Identity_Verify i cid = Ok tt) ∧
    ∃ w1 w2 w3 m digest, ch_close w = (None, w1) ∧ LoadManifest w1 path = Ok (m, digest) ∧ root_path w1 path ∧
      confined w1 m ∧ ch_no_new_privs w1 = (None, w2) ∧ ch_chdir w2 (m_dir m) = (None, w3) ∧ env = ch_environ w3 ∧
      t = [ClosedVsock; NoNewPrivs; ChangedDir (m_dir m); Executed argv env] ∧ command_safe id argv ∧
      (kind = "action"%string ∧ (id, argv) ∈ m_actions m ∨
       kind = "service"%string ∧ ∃ s, (id, s) ∈ m_services m ∧ argv = sv_argv s)
}.
Lemma exec_only args (w w' : W) e t argv env : WorkloadExec args w = (e, w', t) → Executed argv env ∈ t →
  exec_state args w argv env t.
Proof.
  unfold WorkloadExec. intros Hx Hin.
  assert (Hno : ∀ l, t = l → Executed argv env ∉ l → exec_state args w argv env t) by (by intros l <-).
  destruct args as [|path [|kind [|id [|]]]]; try (injection Hx as _ _ <-; by apply elem_of_nil in Hin).
  destruct (rbind (ch_cmdline w) _) as [u|x] eqn:Ei; [|injection Hx as _ _ <-; by apply elem_of_nil in Hin].
  destruct (ch_close w) as [[x|] w1] eqn:Ec; [injection Hx as _ _ <-; by apply elem_of_nil in Hin|].
  destruct (rbind (LoadManifest w1 path) _) as [m|x] eqn:Em; [|injection Hx as _ _ <-; set_solver].
  destruct (ch_no_new_privs w1) as [[x|] w2] eqn:En; [injection Hx as _ _ <-; set_solver|].
  destruct (declared_argv m kind id) as [argv'|x] eqn:Ed; [|injection Hx as _ _ <-; set_solver].
  destruct (ch_chdir w2 (m_dir m)) as [[x|] w3] eqn:Eh; [injection Hx as _ _ <-; set_solver|].
  injection Hx as _ _ <-.
  assert (argv' = argv ∧ env = ch_environ w3) as [-> ->].
  { cbn in Hin. rewrite !elem_of_cons in Hin. destruct Hin as [[=]|[[=]|[[=]|[[= -> ->]|[]%elem_of_nil]]]]. done. }
  apply rbind_ok in Em as ([m' digest] & Hl & Em). apply rbind_ok in Em as ([] & Ht & Em).
  apply rbind_ok in Em as ([] & Hc & Em). injection Em as ->.
  apply rbind_ok in Ei as (cmdline & Hcmd & Ei). apply rbind_ok in Ei as (i & Hi & Ei). apply rbind_ok in Ei as (cid & Hcid & Hver).
  destruct u. destruct (LoadManifest_ok _ _ _ _ Hl) as [Hv _]. destruct (declared_argv_ok _ _ _ _ Hv Ed) as [Hs Hdecl].
  split. exists path, kind, id. split; [done|]. split; [by exists cmdline, i, cid|].
  exists w1, w2, w3, m, digest. split_and!; try done; [by apply trustedGuestFile_ok|by apply check_child_ok].
Qed.
End exec_facts.

(** C26.  A program runs as a workload only in a confined process: in a guest booted by
    Epoch, with the vsock handle closed and no-new-privileges set before, under exactly the
    manifest's non-root user and group, with no supplementary groups and no effective,
    permitted or ambient capability, from a manifest that only root can change; and the
    program is the absolute, non-shell command declared there for that action or service. *)
Theorem workload_exec_confined {W} `{FS W} `{Child W} args (w w' : W) e t argv env :
  WorkloadExec args w = (e, w', t) → Executed argv env ∈ t → exec_state args w argv env t.
Proof. apply exec_only. Qed.

(** *** Example: the observe action of the probe image *)
Definition cap_status : string :=
  ("CapPrm: 0000000000000000" +:+ String newline ("CapEff: 0000000000000000" +:+ String newline "CapAmb: 0000000000000000"))%string.
#[local] Instance memdisk_child : Child memdisk := {|
  ch_cmdline _ := Ok (marker_text "run-1" sample_nonce 3);
  ch_local_cid _ := Ok 3;
  ch_close w := (None, w);
  ch_ids _ := ((1000, 1000), (1000, 1000));
  ch_groups _ := Ok [];
  ch_status _ := Ok cap_status;
  ch_no_new_privs w := (None, w);
  ch_chdir w _ := (None, w);
  ch_environ _ := ["LANG=C"%string];
  ch_exec _ _ _ := None
|}.
Definition observe_args : list string := ["/img/w.json"; "action"; "observe"]%string.
Definition observe_argv : list string := ["/usr/lib/epoch/clock-probe"; "observe"]%string.
Lemma workload_exec_confined_witness :
  exec_state observe_args image_disk observe_argv ["LANG=C"%string]
    [ClosedVsock; NoNewPrivs; ChangedDir "/var/lib/epoch"; Executed observe_argv ["LANG=C"%string]].
Proof.
  apply (workload_exec_confined observe_args image_disk image_disk None); [vm_compute; reflexivity|].
  do 3 right. left.
Defined.
(** The agent's own start in the same guest. *)
Definition agent_start : agent_process :=
  {| ap_pid := 200; ap_euid := 0; ap_cmdline := Ok (marker_text "run-1" sample_nonce 3); ap_context_id := Ok 3;
     ap_executable := Ok "/usr/lib/epoch/agent"%string; ap_self := Ok (node_info KRegular 5, Ok "agent"%string) |}.
Example startup_identity :
  match startup image_disk agent_start "/img/w.json" "0.1.0" with
  | Ok s => sv_agent_sha s = g_sha256 (im_agent probe_image) ∧ sv_manifest_sha s = w_sha256 (im_workload probe_image) ∧
            clock_ready s = false
  | Err _ => False
  end.
Proof. vm_compute. split_and!; reflexivity. Qed.
