(* ===== verification/EnginePlan.v ===== *)
(** * EnginePlan: internal/engine/plan.go

    What a run may start from: a valid configuration, a valid scenario within the
    operator's policy, and a prepared image that declares every action and service the
    scenario names.  Reading the scenario file and loading the image are given. *)

From S2P Require Import Prelude GoLib Json GoTime GoText JsonUtil JsonText Assertions Scenario ScenarioFacts Protocol Artifact Config.
From Stdlib Require Import Ascii String.

Record Plan := { pl_scenario : Scenario; pl_input : string; pl_image : Prepared }.

Definition check_declared (w : WorkloadManifest) (s : Step) : result unit :=
  if s_op s =?s "action.exec" then
    match assoc (s_action s) (m_actions w) with
    | None => Err (Errorf "step %s: undeclared action %s" [s_id s; s_action s])
    | Some _ => Ok tt
    end
  else if (s_op s =?s "service.start") || (s_op s =?s "service.stop") then
    match assoc (s_service s) (m_services w) with
    | None => Err (Errorf "step %s: undeclared service %s" [s_id s; s_service s])
    | Some _ => Ok tt
    end
  else Ok tt.

(** [read] is [config.ReadBounded] on the scenario path, [load] is [artifact.Load]. *)
Definition PlanValidate (c : Config) (read : Z → result string)
    (load : string → string → Z → result Prepared) : result Plan :=
  do? Config_Validate c ;;
  let? b := read MaxFileSize in
  let? s := Scenario.Decode b in
  let p := c_policy c in
  fail_if (MaxVCPUs p <? VCPUCount (sc_resources s)) || (MaxMemoryMiB p <? MemoryMiB (sc_resources s))
          || (PolicyMaxTimeoutMS p <? sc_timeout s)
    with Errorf "scenario exceeds operator policy" [] ;;
  let? a := load (ArtifactDir c) (sc_image s) (MaxDiskBytes p) in
  fail_if sc_workload s <>?s m_id (pr_workload a)
    with Errorf "scenario workload differs from prepared image" [] ;;
  do? each (check_declared (pr_workload a)) (sc_steps s) ;;
  Ok {| pl_scenario := s; pl_input := b; pl_image := a |}.

(** What a run relies on in its plan. *)
Record plan_wf (p : Plan) : Prop := {
  pw_validated : ∃ s, Scenario.Validate s = Ok (pl_scenario p);
  pw_steps : Forall (step_wf (sc_timeout (pl_scenario p))) (sc_steps (pl_scenario p));
  pw_timeout : sc_timeout (pl_scenario p) <= 600000
}.
Definition declared (w : WorkloadManifest) (s : Step) : Prop :=
  (is_op "action.exec" s = true → is_Some (assoc (s_action s) (m_actions w))) ∧
  ((is_op "service.start" s || is_op "service.stop" s) = true → is_Some (assoc (s_service s) (m_services w))).

Lemma check_declared_ok w s : check_declared w s = Ok tt → declared w s.
Proof.
  unfold check_declared, declared, is_op. destruct (String.eqb_spec (s_op s) "action.exec") as [E|].
  - rewrite E. destruct (assoc _ _); done.
  - intros Hd. split; [done|]. intros Hs. rewrite Hs in Hd. destruct (assoc _ _); done.
Qed.
Lemma decode_validated b s : Scenario.Decode b = Ok s → ∃ s0, Scenario.Validate s0 = Ok s.
Proof.
  unfold Scenario.Decode. intros H. inv_ok H. destruct (raw_object b) as [[fs|]|]; [|done..].
  inv_ok H. destruct (raw_array _); [|done]. inv_ok H. by exists a.
Qed.

Lemma plan_validate_inv c read load p : PlanValidate c read load = Ok p →
  Config_Validate c = Ok tt ∧ plan_wf p ∧ read MaxFileSize = Ok (pl_input p) ∧
  Scenario.Decode (pl_input p) = Ok (pl_scenario p) ∧
  load (ArtifactDir c) (sc_image (pl_scenario p)) (MaxDiskBytes (c_policy c)) = Ok (pl_image p) ∧
  (VCPUCount (sc_resources (pl_scenario p)) <= MaxVCPUs (c_policy c) ∧
   MemoryMiB (sc_resources (pl_scenario p)) <= MaxMemoryMiB (c_policy c) ∧
   sc_timeout (pl_scenario p) <= PolicyMaxTimeoutMS (c_policy c)) ∧
  m_id (pr_workload (pl_image p)) = sc_workload (pl_scenario p) ∧
  Forall (declared (pr_workload (pl_image p))) (sc_steps (pl_scenario p)).
Proof.
  unfold PlanValidate. intros H. inv_ok H. injection H as <-. destruct a, a3. to_prop. cbn [pl_scenario pl_input pl_image].
  destruct (config_validate_ok _ E) as (_ & _ & Hp & _). destruct (decode_validated _ _ E1) as (s0 & Hs).
  destruct (validate_inv _ _ Hs) as (_ & _ & Hw & _).
  split_and!; try done.
  - split; cbn [pl_scenario]; [by exists s0|done|]. pose proof (po_timeout _ Hp). lia.
  - apply each_ok in E5. eapply Forall_impl; [exact E5|]. apply check_declared_ok.
Qed.


(** *** Example *)
Definition sample_config_file : Config := {|
  c_api := ConfigVersion; FirecrackerPath := "/usr/bin/firecracker"; ArtifactDir := "/srv/images";
  EvidenceDir := "/srv/evidence"; RuntimeRoot := "/run/epoch"; c_cid := 3; c_port := 7000;
  c_policy := c_policy Defaults
|}.
Definition sample_file (path : string) : File :=
  {| f_path := path; f_sha256 := ""; f_size := 4096; f_source := "local"; f_origin := "locally-observed" |}.
Definition sample_image : Prepared := {|
  pr_manifest := {|
    im_api := "epoch-image/v1"; im_id := "image-v1"; im_arch := "x86_64"; im_kernel := sample_file "/srv/vmlinux";
    im_rootfs := sample_file "/srv/rootfs.ext4"; im_firecracker := "1.16.1";
    im_agent := {| g_version := "1"; g_protocol := Protocol.Version; g_sha256 := "" |};
    im_workload := {| w_id := "clock-probe"; w_version := "1"; w_path := "/srv/w.json"; w_sha256 := "" |};
    im_recipe := {| rc_revision := "1"; rc_transformations := ["copy"%string] |} |};
  pr_sha256 := "";
  pr_workload := {| m_api := WorkloadVersion; m_id := "clock-probe"; m_version := "1"; m_uid := 1000; m_gid := 1000;
                    m_dir := "/work"; m_env := []; m_actions := [("observe", ["/usr/bin/clock-probe"])]%string;
                    m_services := [] |}
|}.
Definition sample_plan : result Plan :=
  PlanValidate sample_config_file (λ _, Ok valid_text) (λ _ _ _, Ok sample_image).
