(* ===== verification/EngineReady.v ===== *)
(** * EngineReady: the readiness loop of internal/engine/run.go

    Dial the guest until it answers, then accept it only if its hello names the prepared
    image, this run and this run's nonce.  The outcome of each [select] is the
    environment's choice, as it is the scheduler's in Go. *)

From S2P Require Import Prelude GoLib Json GoTime GoText JsonUtil JsonText Protocol ProtocolFacts GuestClient Artifact Config EnginePlan.
From Stdlib Require Import Ascii String.

Inductive boot_signal := Deadline (e : error) | VMMExited (text : string) | Quiet.

(** [boot_poll] is the select with a default, [boot_wait] the one with the ticker (whose
    case is [Quiet]), [boot_dial] one attempt of [guestclient.Dial]. *)
Class BootEnv (B C : Type) := {
  boot_poll : B → boot_signal * B;
  boot_dial : B → result (Client C) * B;
  boot_call_error : B → option error;
  boot_wait : B → boot_signal * B
}.

Section ready.
Context {B C : Type} `{Conn C} `{BootEnv B C}.

Definition hello_matches (image : Prepared) (id nonce : string) (h : HelloResult) : bool :=
  let m := pr_manifest image in
  negb ((h_agent_version h <>?s g_version (im_agent m)) || (h_agent_sha h <>?s g_sha256 (im_agent m))
        || (h_protocol h <>?s Protocol.Version) || (h_run h <>?s id) || (h_nonce h <>?s nonce)
        || negb (h_cid h =? 3) || (h_workload h <>?s w_id (im_workload m))
        || (h_workload_version h <>?s w_version (im_workload m))
        || (h_workload_sha h <>?s w_sha256 (im_workload m)) || negb (h_ready h)).

(** [None] is out of fuel. *)
Fixpoint ready (fuel : nat) (b : B) (id nonce : string) (image : Prepared) (last : option error) :
    option (result (Client C) * B) :=
  match fuel with
  | O => None
  | S fuel =>
      let '(signal, b) := boot_poll b in
      match signal with
      | Deadline e => Some (Err (Wrapf "boot readiness deadline: %w (last dial: %v)" [] e), b)
      | VMMExited text => Some (Err (Errorf "VMM exited before readiness: %v" [text]), b)
      | Quiet =>
          let '(g, b) := boot_dial b in
          match g with
          | Ok g =>
              let '(hello, g) := Call g (boot_call_error b) "hello" None dec_hello in
              match hello with
              | Err e => Some (Err (Wrapf "agent hello: %w" [] e), b)
              | Ok hello =>
                  if hello_matches image id nonce hello then Some (Ok g, b)
                  else Some (Err (Errorf "guest image/agent/workload identity mismatch" []), b)
              end
          | Err e =>
              let '(signal, b) := boot_wait b in
              match signal with
              | Deadline e => Some (Err (Wrapf "boot readiness deadline: %w" [] e), b)
              | VMMExited text => Some (Err (Errorf "VMM exited before readiness: %v" [text]), b)
              | Quiet => ready fuel b id nonce image (Some e)
              end
          end
      end
  end.
End ready.

(** The boot context has a deadline: only so many more ticks can win a select. *)
Class LawfulBoot (B C : Type) `{BootEnv B C} := {
  ticks_left : B → nat;
  poll_ticks b s b' : boot_poll b = (s, b') → (ticks_left b' ≤ ticks_left b)%nat;
  dial_ticks b r b' : boot_dial b = (r, b') → (ticks_left b' ≤ ticks_left b)%nat;
  wait_ticks b b' : boot_wait b = (Quiet, b') → (ticks_left b' < ticks_left b)%nat
}.

(** What the guest's hello must say. *)
Record hello_identity (image : Prepared) (id nonce : string) (h : HelloResult) : Prop := {
  hi_agent : h_agent_version h = g_version (im_agent (pr_manifest image)) ∧
             h_agent_sha h = g_sha256 (im_agent (pr_manifest image));
  hi_run : h_protocol h = Protocol.Version ∧ h_run h = id ∧ h_nonce h = nonce ∧ h_cid h = 3;
  hi_workload : h_workload h = w_id (im_workload (pr_manifest image)) ∧
                h_workload_version h = w_version (im_workload (pr_manifest image)) ∧
                h_workload_sha h = w_sha256 (im_workload (pr_manifest image));
  hi_ready : h_ready h = true
}.
Lemma hello_matches_ok image id nonce h : hello_matches image id nonce h = true → hello_identity image id nonce h.
Proof. unfold hello_matches. rewrite negb_true_iff. intros Hm. to_prop. by split. Qed.

(** C32.  Waiting for the guest ends, with the boot deadline at the latest; and the
    connection it returns is one on which the guest's own hello, answered for this very
    request, named the agent, workload and manifest digests of the prepared image, this
    run's ID and nonce, CID 3 and readiness. *)
Theorem ready_authentic {B C} `{Conn C} `{LawfulBoot B C} (b : B) id nonce image last :
  ∃ res b', ready (S (ticks_left b)) b id nonce image last = Some (res, b') ∧
    ∀ g, res = Ok g → ∃ b0 b1 g0 h,
      boot_dial b0 = (Ok g0, b1) ∧ Call g0 (boot_call_error b1) "hello" None dec_hello = (Ok h, g) ∧
      hello_identity image id nonce h.
Proof.
  remember (ticks_left b) as n eqn:En. assert (Hn : (ticks_left b ≤ n)%nat) by lia. clear En.
  revert b Hn last. induction n as [n IH] using lt_wf_ind. intros b Hn last. cbn [ready].
  destruct (boot_poll b) as [[e|t|] b1] eqn:Ep; [by eexists _, _| by eexists _, _|].
  apply poll_ticks in Ep. destruct (boot_dial b1) as [[g0|e] b2] eqn:Ed; apply dial_ticks in Ed as Ed'.
  - destruct (Call g0 _ _ _ _) as [[h|e] g1] eqn:Ec; [|by eexists _, _].
    destruct (hello_matches image id nonce h) eqn:Eh; [|by eexists _, _].
    eexists _, _. split; [reflexivity|]. intros g [= <-]. exists b1, b2, g0, h.
    split; [done|]. split; [done|by apply hello_matches_ok].
  - destruct (boot_wait b2) as [[e'|t|] b3] eqn:Ew; [by eexists _, _|by eexists _, _|].
    apply wait_ticks in Ew. destruct n as [|n]; [lia|]. apply (IH n); lia.
Qed.

(** *** Example: the guest answers on the second attempt *)
Definition hello_reply : string :=
  (js "{'version':'epoch-guest/v1','id':'1','op':'hello','run_id':'run','nonce':'00','result':{'agent_version':'1','agent_sha256':'','protocol_version':'epoch-guest/v1','run_id':'run','nonce':'00','cid':3,'workload_id':'clock-probe','workload_version':'1','workload_sha256':'','ready':true}}"
   +:+ String newline "")%string.
#[local] Instance patient_boot : BootEnv nat scripted := {|
  boot_poll n := (Quiet, n);
  boot_dial n := match n with
                 | O => (Ok (scripted_client [hello_reply]), n)
                 | S _ => (Err (Errorf "connection refused" []), n)
                 end;
  boot_call_error _ := None;
  boot_wait n := match n with O => (Deadline DeadlineExceeded, n) | S n => (Quiet, n) end
|}.
#[local] Instance patient_boot_lawful : LawfulBoot nat scripted.
Proof.
  refine {| ticks_left (n : nat) := n |}; cbn.
  - intros b s b' [= <- <-]. lia.
  - intros [|b] r b' [= <- <-]; lia.
  - intros [|b] b' [= <-]. lia.
Defined.
Definition sample_fuel : nat := S (ticks_left (B := nat) (C := scripted) 1%nat).
Definition sample_ready : option (result (Client scripted) * nat) :=
  ready sample_fuel 1%nat "run" "00" sample_image None.
Lemma ready_authentic_witness :
  (∃ g b', sample_ready = Some (Ok g, b')) ∧
  ∃ res b', sample_ready = Some (res, b') ∧
    ∀ g, res = Ok g → ∃ (b0 b1 : nat) g0 h, boot_dial b0 = (Ok g0, b1) ∧
      Call g0 (boot_call_error b1) "hello" None dec_hello = (Ok h, g) ∧ hello_identity sample_image "run" "00" h.
Proof.
  split; [eexists _, _; vm_compute; reflexivity|].
  exact (ready_authentic 1%nat "run" "00" sample_image None).
Defined.
