(* ===== verification/EngineTypes.v ===== *)
(** * EngineTypes: internal/engine/types.go

    The run's ownership manifest, the report with its step and assertion results, the
    exit code, and how they are marshalled. *)

From S2P Require Import Prelude GoLib Json JsonFacts GoTime JsonUtil JsonText Assertions Scenario Protocol Firecracker Artifact.
From Stdlib Require Import Ascii String.

Definition ReportVersion : string := "epoch-result/v1".

Record RunManifest := {
  mf_api : string; mf_run : string; mf_boot : string; mf_uid : Z; mf_stage : string; mf_started : Z;
  mf_runtime : string; mf_created : list string; mf_config_sha : string; mf_scenario_sha : string;
  mf_artifact_sha : string; mf_image : ImageManifest; mf_executable : Executable;
  mf_process : option ProcessIdentity; mf_cleanup : string
}.
Record StepResult := {
  sp_id : string; sp_op : string; sp_elapsed : Z; sp_result : string; sp_error : option Error
}.
Record Report := {
  rp_api : string; rp_run : string; rp_scenario : string; rp_mode : string; rp_execution : string;
  rp_assertion : string; rp_cleanup : string; rp_started : Z; rp_finished : Z; rp_elapsed : Z;
  rp_stage : string; rp_steps : list StepResult; rp_assertions : list AssertionResult;
  rp_causes : list string; rp_saved : bool
}.

Definition ExitCode (r : Report) : Z :=
  if rp_cleanup r <>?s "COMPLETE" then 4
  else if rp_execution r =?s "CANCELLED" then 130
  else if rp_execution r <>?s "COMPLETED" then 3
  else if rp_assertion r =?s "FAIL" then 1
  else if rp_assertion r <>?s "PASS" then 3
  else 0.

(** *** Field updates *)
Definition mf_set_stage (s : string) (m : RunManifest) : RunManifest :=
  {| mf_api := mf_api m; mf_run := mf_run m; mf_boot := mf_boot m; mf_uid := mf_uid m; mf_stage := s;
     mf_started := mf_started m; mf_runtime := mf_runtime m; mf_created := mf_created m;
     mf_config_sha := mf_config_sha m; mf_scenario_sha := mf_scenario_sha m;
     mf_artifact_sha := mf_artifact_sha m; mf_image := mf_image m; mf_executable := mf_executable m;
     mf_process := mf_process m; mf_cleanup := mf_cleanup m |}.
Definition mf_set_process (p : ProcessIdentity) (m : RunManifest) : RunManifest :=
  {| mf_api := mf_api m; mf_run := mf_run m; mf_boot := mf_boot m; mf_uid := mf_uid m;
     mf_stage := mf_stage m; mf_started := mf_started m; mf_runtime := mf_runtime m;
     mf_created := mf_created m; mf_config_sha := mf_config_sha m; mf_scenario_sha := mf_scenario_sha m;
     mf_artifact_sha := mf_artifact_sha m; mf_image := mf_image m; mf_executable := mf_executable m;
     mf_process := Some p; mf_cleanup := mf_cleanup m |}.
Definition mf_set_cleanup (c : string) (m : RunManifest) : RunManifest :=
  {| mf_api := mf_api m; mf_run := mf_run m; mf_boot := mf_boot m; mf_uid := mf_uid m;
     mf_stage := mf_stage m; mf_started := mf_started m; mf_runtime := mf_runtime m;
     mf_created := mf_created m; mf_config_sha := mf_config_sha m; mf_scenario_sha := mf_scenario_sha m;
     mf_artifact_sha := mf_artifact_sha m; mf_image := mf_image m; mf_executable := mf_executable m;
     mf_process := mf_process m; mf_cleanup := c |}.

(** The report with its outcomes, stage, results and causes replaced. *)
Definition rp_with (r : Report) (execution assertion cleanup stage : string) (steps : list StepResult)
    (asserted : list AssertionResult) (causes : list string) : Report :=
  {| rp_api := rp_api r; rp_run := rp_run r; rp_scenario := rp_scenario r; rp_mode := rp_mode r;
     rp_execution := execution; rp_assertion := assertion; rp_cleanup := cleanup; rp_started := rp_started r;
     rp_finished := rp_finished r; rp_elapsed := rp_elapsed r; rp_stage := stage; rp_steps := steps;
     rp_assertions := asserted; rp_causes := causes; rp_saved := rp_saved r |}.
Definition rp_set_execution (s : string) (r : Report) : Report :=
  rp_with r s (rp_assertion r) (rp_cleanup r) (rp_stage r) (rp_steps r) (rp_assertions r) (rp_causes r).
Definition rp_set_assertion (s : string) (r : Report) : Report :=
  rp_with r (rp_execution r) s (rp_cleanup r) (rp_stage r) (rp_steps r) (rp_assertions r) (rp_causes r).
Definition rp_set_cleanup (s : string) (r : Report) : Report :=
  rp_with r (rp_execution r) (rp_assertion r) s (rp_stage r) (rp_steps r) (rp_assertions r) (rp_causes r).
Definition rp_set_stage (s : string) (r : Report) : Report :=
  rp_with r (rp_execution r) (rp_assertion r) (rp_cleanup r) s (rp_steps r) (rp_assertions r) (rp_causes r).
Definition rp_add_step (x : StepResult) (r : Report) : Report :=
  rp_with r (rp_execution r) (rp_assertion r) (rp_cleanup r) (rp_stage r) (rp_steps r ++ [x]) (rp_assertions r)
    (rp_causes r).
Definition rp_add_assertion (x : AssertionResult) (r : Report) : Report :=
  rp_with r (rp_execution r) (rp_assertion r) (rp_cleanup r) (rp_stage r) (rp_steps r) (rp_assertions r ++ [x])
    (rp_causes r).
Definition rp_set_causes (l : list string) (r : Report) : Report :=
  rp_with r (rp_execution r) (rp_assertion r) (rp_cleanup r) (rp_stage r) (rp_steps r) (rp_assertions r) l.
Definition rp_finish (finished elapsed : Z) (r : Report) : Report :=
  {| rp_api := rp_api r; rp_run := rp_run r; rp_scenario := rp_scenario r; rp_mode := rp_mode r;
     rp_execution := rp_execution r; rp_assertion := rp_assertion r; rp_cleanup := rp_cleanup r;
     rp_started := rp_started r; rp_finished := finished; rp_elapsed := elapsed; rp_stage := rp_stage r;
     rp_steps := rp_steps r; rp_assertions := rp_assertions r; rp_causes := rp_causes r; rp_saved := rp_saved r |}.
Definition rp_mark_saved (r : Report) : Report :=
  {| rp_api := rp_api r; rp_run := rp_run r; rp_scenario := rp_scenario r; rp_mode := rp_mode r;
     rp_execution := rp_execution r; rp_assertion := rp_assertion r; rp_cleanup := rp_cleanup r;
     rp_started := rp_started r; rp_finished := rp_finished r; rp_elapsed := rp_elapsed r;
     rp_stage := rp_stage r; rp_steps := rp_steps r; rp_assertions := rp_assertions r;
     rp_causes := rp_causes r; rp_saved := true |}.

Definition rp_unsaved (r : Report) : Report :=
  {| rp_api := rp_api r; rp_run := rp_run r; rp_scenario := rp_scenario r; rp_mode := rp_mode r;
     rp_execution := rp_execution r; rp_assertion := rp_assertion r; rp_cleanup := rp_cleanup r;
     rp_started := rp_started r; rp_finished := rp_finished r; rp_elapsed := rp_elapsed r;
     rp_stage := rp_stage r; rp_steps := rp_steps r; rp_assertions := rp_assertions r;
     rp_causes := rp_causes r; rp_saved := false |}.

(** *** [json.Marshal], as text where raw JSON is inside *)
Fixpoint all_some {A} (l : list (option A)) : option (list A) :=
  match l with
  | [] => Some []
  | x :: l => let! x := x in let! l := all_some l in Some (x :: l)
  end.
Definition enc_executable (e : Executable) : json :=
  JObject ([("path", JString (x_path e)); ("sha256", JString (x_sha256 e)); ("size", enc_int (x_size e));
            ("version", JString (x_version e))]%string
           ++ omit_empty "version_stdout" (x_stdout e) ++ omit_empty "version_stderr" (x_stderr e)
           ++ [("device", enc_int (x_device e)); ("inode", enc_int (x_inode e))]%string).
Definition enc_process (p : ProcessIdentity) : json :=
  JObject [("pid", enc_int (pid p)); ("uid", enc_int (uid p)); ("start_ticks", enc_int (start_ticks p));
           ("host_boot_id", JString (host_boot_id p))]%string.
Definition enc_manifest (m : RunManifest) : json :=
  JObject ([("api_version", JString (mf_api m)); ("run_id", JString (mf_run m));
            ("host_boot_id", JString (mf_boot m)); ("uid", enc_int (mf_uid m)); ("stage", JString (mf_stage m));
            ("started_at", enc_time (mf_started m)); ("runtime_dir", JString (mf_runtime m));
            ("created_paths", JArray (map JString (mf_created m)));
            ("config_sha256", JString (mf_config_sha m)); ("scenario_sha256", JString (mf_scenario_sha m));
            ("artifact_manifest_sha256", JString (mf_artifact_sha m)); ("image", enc_image (mf_image m));
            ("executable", enc_executable (mf_executable m))]%string
           ++ match mf_process m with Some p => [("process"%string, enc_process p)] | None => [] end
           ++ [("cleanup_status"%string, JString (mf_cleanup m))]).
Definition enc_step_result (s : StepResult) : option string :=
  let! raw := omit_raw "result" (sp_result s) in
  let! err := match sp_error s with
              | None => Some []
              | Some e => let! t := enc_error e in Some [("error"%string, t)]
              end in
  Some (obj (raw_members [("id", JString (sp_id s)); ("op", JString (sp_op s)); ("elapsed_ns", enc_int (sp_elapsed s))]%string
             ++ raw ++ err)).
Definition enc_assertion_result (a : AssertionResult) : option string :=
  let! actual := omit_raw "actual" (r_actual a) in
  Some (obj (raw_members [("id", JString (r_id a)); ("step", JString (r_step a)); ("status", JString (r_status a))]%string
             ++ actual ++ raw_members (omit_empty "message" (r_message a)))).
Definition enc_report (r : Report) : option string :=
  let! steps := all_some (map enc_step_result (rp_steps r)) in
  let! asserted := all_some (map enc_assertion_result (rp_assertions r)) in
  Some (obj (raw_members [("api_version", JString (rp_api r)); ("run_id", JString (rp_run r));
                          ("scenario_name", JString (rp_scenario r)); ("temporal_mode", JString (rp_mode r));
                          ("execution_status", JString (rp_execution r)); ("assertion_status", JString (rp_assertion r));
                          ("cleanup_status", JString (rp_cleanup r)); ("started_at", enc_time (rp_started r));
                          ("finished_at", enc_time (rp_finished r)); ("elapsed_ns", enc_int (rp_elapsed r));
                          ("stage", JString (rp_stage r))]%string
             ++ [("steps", arr steps); ("assertions", arr asserted)]%string
             ++ raw_members [("causes", JArray (map JString (rp_causes r)))]%string)).

(** *** The scenario as recorded *)
Definition omit_int (k : string) (n : Z) : list (string * json) := if n =? 0 then [] else [(k, enc_int n)].
Definition enc_step (s : Step) : option string :=
  let! input := omit_raw "input" (s_input s) in
  Some (obj (raw_members ([("id", JString (s_id s)); ("op", JString (s_op s))]%string
                          ++ omit_empty "at" (s_at s) ++ omit_empty "action" (s_action s)
                          ++ omit_empty "service" (s_service s))
             ++ input
             ++ raw_members (omit_int "timeout_ms" (s_timeout s) ++ omit_int "duration_ms" (s_duration s)
                             ++ (if s_allow_live s then [("allow_live"%string, JBool true)] else [])
                             ++ omit_int "tolerance_ms" (s_tolerance s)
                             ++ match s_expected s with Some n => [("expected_exit_code"%string, enc_int n)] | None => [] end))).
Definition enc_assertion (a : Assertion) : option string :=
  let! value := omit_raw "value" (a_value a) in
  Some (obj (raw_members [("id", JString (a_id a)); ("step", JString (a_step a)); ("pointer", JString (a_pointer a));
                          ("op", JString (a_op a))]%string ++ value)).
Definition enc_scenario (s : Scenario) : option string :=
  let! steps := all_some (map enc_step (sc_steps s)) in
  let! asserted := all_some (map enc_assertion (sc_assertions s)) in
  Some (obj (raw_members [("api_version", JString (sc_api s)); ("name", JString (sc_name s)); ("image", JString (sc_image s));
                          ("workload", JString (sc_workload s));
                          ("resources", JObject [("vcpu_count", enc_int (VCPUCount (sc_resources s)));
                                                 ("memory_mib", enc_int (MemoryMiB (sc_resources s)))]);
                          ("timeout_ms", enc_int (sc_timeout s)); ("boot_timeout_ms", enc_int (sc_boot_timeout s))]%string
             ++ [("steps", arr steps); ("assertions", arr asserted)]%string)).

(** *** Struct destinations *)
Definition dec_executable : decoder Executable :=
  Build_decoder
    (TStruct [("path", TString); ("sha256", TString); ("size", TInt 64); ("version", TString);
              ("version_stdout", TString); ("version_stderr", TString); ("device", TUint 64); ("inode", TUint 64)]%string)
    {| x_path := ""; x_sha256 := ""; x_size := 0; x_version := ""; x_stdout := ""; x_stderr := ""; x_device := 0;
       x_inode := 0 |}
    (λ old raw,
       let? fs := struct_fields raw in
       let? path := get_field dec_string "path" (x_path old) fs in
       let? sha := get_field dec_string "sha256" (x_sha256 old) fs in
       let? size := get_field (dec_int 64) "size" (x_size old) fs in
       let? version := get_field dec_string "version" (x_version old) fs in
       let? out := get_field dec_string "version_stdout" (x_stdout old) fs in
       let? err := get_field dec_string "version_stderr" (x_stderr old) fs in
       let? device := get_field (dec_uint 64) "device" (x_device old) fs in
       let? inode := get_field (dec_uint 64) "inode" (x_inode old) fs in
       Ok {| x_path := path; x_sha256 := sha; x_size := size; x_version := version; x_stdout := out;
             x_stderr := err; x_device := device; x_inode := inode |}).
Definition dec_process : decoder ProcessIdentity :=
  Build_decoder (TStruct [("pid", TInt 64); ("uid", TInt 64); ("start_ticks", TUint 64); ("host_boot_id", TString)]%string)
    {| pid := 0; uid := 0; start_ticks := 0; host_boot_id := "" |}
    (λ old raw,
       let? fs := struct_fields raw in
       let? p := get_field (dec_int 64) "pid" (pid old) fs in
       let? u := get_field (dec_int 64) "uid" (uid old) fs in
       let? ticks := get_field (dec_uint 64) "start_ticks" (start_ticks old) fs in
       let? boot := get_field dec_string "host_boot_id" (host_boot_id old) fs in
       Ok {| pid := p; uid := u; start_ticks := ticks; host_boot_id := boot |}).
Definition zero_manifest : RunManifest :=
  {| mf_api := ""; mf_run := ""; mf_boot := ""; mf_uid := 0; mf_stage := ""; mf_started := zero_time;
     mf_runtime := ""; mf_created := []; mf_config_sha := ""; mf_scenario_sha := ""; mf_artifact_sha := "";
     mf_image := JsonUtil.zero dec_image; mf_executable := JsonUtil.zero dec_executable; mf_process := None;
     mf_cleanup := "" |}.
Definition dec_manifest : decoder RunManifest :=
  Build_decoder
    (TStruct [("api_version", TString); ("run_id", TString); ("host_boot_id", TString); ("uid", TInt 64);
              ("stage", TString); ("started_at", TTime); ("runtime_dir", TString); ("created_paths", TSlice TString);
              ("config_sha256", TString); ("scenario_sha256", TString); ("artifact_manifest_sha256", TString);
              ("image", go_type dec_image); ("executable", go_type dec_executable);
              ("process", TPtr (go_type dec_process)); ("cleanup_status", TString)]%string)
    zero_manifest
    (λ old raw,
       let? fs := struct_fields raw in
       let? api := get_field dec_string "api_version" (mf_api old) fs in
       let? run := get_field dec_string "run_id" (mf_run old) fs in
       let? boot := get_field dec_string "host_boot_id" (mf_boot old) fs in
       let? u := get_field (dec_int 64) "uid" (mf_uid old) fs in
       let? stage := get_field dec_string "stage" (mf_stage old) fs in
       let? started := get_field dec_time "started_at" (mf_started old) fs in
       let? runtime := get_field dec_string "runtime_dir" (mf_runtime old) fs in
       let? created := get_field (dec_slice dec_string) "created_paths" (mf_created old) fs in
       let? csha := get_field dec_string "config_sha256" (mf_config_sha old) fs in
       let? ssha := get_field dec_string "scenario_sha256" (mf_scenario_sha old) fs in
       let? asha := get_field dec_string "artifact_manifest_sha256" (mf_artifact_sha old) fs in
       let? image := get_field dec_image "image" (mf_image old) fs in
       let? exe := get_field dec_executable "executable" (mf_executable old) fs in
       let? proc := get_field (dec_ptr dec_process) "process" (mf_process old) fs in
       let? cleanup := get_field dec_string "cleanup_status" (mf_cleanup old) fs in
       Ok {| mf_api := api; mf_run := run; mf_boot := boot; mf_uid := u; mf_stage := stage; mf_started := started;
             mf_runtime := runtime; mf_created := created; mf_config_sha := csha; mf_scenario_sha := ssha;
             mf_artifact_sha := asha; mf_image := image; mf_executable := exe; mf_process := proc;
             mf_cleanup := cleanup |}).
Definition dec_step_result : decoder StepResult :=
  Build_decoder
    (TStruct [("id", TString); ("op", TString); ("elapsed_ns", TInt 64); ("result", TRaw);
              ("error", TPtr (go_type dec_error))]%string)
    {| sp_id := ""; sp_op := ""; sp_elapsed := 0; sp_result := ""; sp_error := None |}
    (λ old raw,
       let? fs := struct_fields raw in
       let? id := get_field dec_string "id" (sp_id old) fs in
       let? op := get_field dec_string "op" (sp_op old) fs in
       let? elapsed := get_field (dec_int 64) "elapsed_ns" (sp_elapsed old) fs in
       let? res := get_field dec_raw "result" (sp_result old) fs in
       let? err := get_field (dec_ptr dec_error) "error" (sp_error old) fs in
       Ok {| sp_id := id; sp_op := op; sp_elapsed := elapsed; sp_result := res; sp_error := err |}).
Definition dec_assertion_result : decoder AssertionResult :=
  Build_decoder
    (TStruct [("id", TString); ("step", TString); ("status", TString); ("actual", TRaw); ("message", TString)]%string)
    {| r_id := ""; r_step := ""; r_status := ""; r_actual := ""; r_message := "" |}
    (λ old raw,
       let? fs := struct_fields raw in
       let? id := get_field dec_string "id" (r_id old) fs in
       let? step := get_field dec_string "step" (r_step old) fs in
       let? status := get_field dec_string "status" (r_status old) fs in
       let? actual := get_field dec_raw "actual" (r_actual old) fs in
       let? message := get_field dec_string "message" (r_message old) fs in
       Ok {| r_id := id; r_step := step; r_status := status; r_actual := actual; r_message := message |}).
Definition zero_report : Report :=
  {| rp_api := ""; rp_run := ""; rp_scenario := ""; rp_mode := ""; rp_execution := ""; rp_assertion := "";
     rp_cleanup := ""; rp_started := zero_time; rp_finished := zero_time; rp_elapsed := 0; rp_stage := "";
     rp_steps := []; rp_assertions := []; rp_causes := []; rp_saved := false |}.
Definition dec_report : decoder Report :=
  Build_decoder
    (TStruct [("api_version", TString); ("run_id", TString); ("scenario_name", TString); ("temporal_mode", TString);
              ("execution_status", TString); ("assertion_status", TString); ("cleanup_status", TString);
              ("started_at", TTime); ("finished_at", TTime); ("elapsed_ns", TInt 64); ("stage", TString);
              ("steps", TSlice (go_type dec_step_result)); ("assertions", TSlice (go_type dec_assertion_result));
              ("causes", TSlice TString)]%string)
    zero_report
    (λ old raw,
       let? fs := struct_fields raw in
       let? api := get_field dec_string "api_version" (rp_api old) fs in
       let? run := get_field dec_string "run_id" (rp_run old) fs in
       let? name := get_field dec_string "scenario_name" (rp_scenario old) fs in
       let? mode := get_field dec_string "temporal_mode" (rp_mode old) fs in
       let? execution := get_field dec_string "execution_status" (rp_execution old) fs in
       let? assertion := get_field dec_string "assertion_status" (rp_assertion old) fs in
       let? cleanup := get_field dec_string "cleanup_status" (rp_cleanup old) fs in
       let? started := get_field dec_time "started_at" (rp_started old) fs in
       let? finished := get_field dec_time "finished_at" (rp_finished old) fs in
       let? elapsed := get_field (dec_int 64) "elapsed_ns" (rp_elapsed old) fs in
       let? stage := get_field dec_string "stage" (rp_stage old) fs in
       let? steps := get_field (dec_slice dec_step_result) "steps" (rp_steps old) fs in
       let? asserted := get_field (dec_slice dec_assertion_result) "assertions" (rp_assertions old) fs in
       let? causes := get_field (dec_slice dec_string) "causes" (rp_causes old) fs in
       Ok {| rp_api := api; rp_run := run; rp_scenario := name; rp_mode := mode; rp_execution := execution;
             rp_assertion := assertion; rp_cleanup := cleanup; rp_started := started; rp_finished := finished;
             rp_elapsed := elapsed; rp_stage := stage; rp_steps := steps; rp_assertions := asserted;
             rp_causes := causes; rp_saved := rp_saved old |}).

