(* ===== verification/EngineRecover.v ===== *)
(** * EngineRecover: internal/engine/recover.go (ownership and reading)

    What the engine may delete, publish and build upon: run identities, the ownership
    manifest, the removal of a run's own runtime directory, the reports of earlier runs
    and the admission of a new one. *)

From S2P Require Import Prelude GoLib Json GoTime GoText JsonUtil JsonText Assertions Scenario Protocol SafeFS Firecracker Artifact Config EngineTypes.
From Stdlib Require Import Ascii String.

Definition ValidRunID (id : string) : bool :=
  (blen id =? 32) && all_bytes (λ c, is_digit c || in_range 97 102 c) id.

(** The entries a run creates in its runtime directory. *)
Definition runtime_names : list string :=
  ["rootfs.ext4"; "rootfs.ext4.partial"; "firecracker.json"; "vsock.sock"]%string.

Section runtime.
Context {F : Type} `{FS F}.

Definition saveManifest (f : F) (path : string) (m : RunManifest) : option error * F :=
  let b := (print (enc_manifest m) +:+ String newline "")%string in
  if 65536 <? blen b then (Some (Errorf "ownership metadata exceeds reserved 64 KiB" []), f)
  else AtomicWrite f path b.

Definition check_entry (f : F) (dir name : string) : result string :=
  fail_if negb (existsb (String.eqb name) runtime_names)
    with Errorf "unrecognized runtime entry %q retained for review" [name] ;;
  let? path := OwnedChild f dir name in
  let? st := lstat f path in
  fail_if bool_decide (fi_kind st = KDir)
          || negb (bool_decide (fi_kind st = KRegular)) && negb (bool_decide (fi_kind st = KSocket))
    with Errorf "unexpected runtime entry type" [] ;;
  Ok path.
Fixpoint remove_paths (f : F) (paths : list string) : option error * F :=
  match paths with
  | [] => (None, f)
  | p :: paths =>
      let '(e, f) := remove f p in
      match e with Some e => (Some e, f) | None => remove_paths f paths end
  end.
Definition removeOwnedRuntime (f : F) (c : Config) (m : RunManifest) : option error * F :=
  if negb (ValidRunID (mf_run m)) || (mf_runtime m <>?s path_join [RuntimeRoot c; mf_run m])
     || negb (mf_uid m =? getuid f)
  then (Some (Errorf "runtime ownership mismatch; refusing cleanup" []), f) else
  match lstat f (mf_runtime m) with
  | Err e => if not_exist e then (None, f) else (Some e, f)
  | Ok _ =>
      match (do? ValidatePrivateDir f (mf_runtime m) ;;
             let? entries := read_dir f (mf_runtime m) in
             traverse (check_entry f (mf_runtime m)) entries) with
      | Err e => (Some e, f)
      | Ok paths =>
          let '(e, f) := remove_paths f paths in
          match e with Some e => (Some e, f) | None => remove f (mf_runtime m) end
      end
  end.
End runtime.

Definition validOutcomes (r : Report) : bool :=
  let e := (rp_execution r =?s "COMPLETED") || (rp_execution r =?s "ERROR")
           || (rp_execution r =?s "CANCELLED") || (rp_execution r =?s "INTERRUPTED") in
  let a := (rp_assertion r =?s "PASS") || (rp_assertion r =?s "FAIL") || (rp_assertion r =?s "NOT_EVALUATED") in
  let c := (rp_cleanup r =?s "COMPLETE") || (rp_cleanup r =?s "INCOMPLETE") in
  if (rp_execution r =?s "COMPLETED") && (rp_assertion r =?s "PASS")
     && ((List.length (rp_assertions r) =? 0)%nat
         || negb (forallb (λ v, r_status v =?s "PASS") (rp_assertions r)))
  then false else e && a && c.

(** ** Reading what earlier runs left *)
Definition interrupted_cause : string :=
  "final report absent; partial evidence does not establish a completed experiment".
Section reading.
Context {F : Type} `{FS F}.

Definition evidencePath (f : F) (c : Config) (id name : string) : result string :=
  fail_if negb (ValidRunID id) with Errorf "run ID must be 32 lowercase hex characters" [] ;;
  let dir := path_join [EvidenceDir c; id] in
  do? ValidatePrivateDir f dir ;;
  let path := path_join [dir; name] in
  do? ValidatePrivateFile f path ;;
  Ok path.

Definition loadManifest (f : F) (c : Config) (id : string) : result RunManifest :=
  let? path := evidencePath f c id "manifest.json" in
  let? b := ReadBounded f path 65536 in
  let? m := JsonUtil.Decode dec_manifest zero_manifest b in
  fail_if (mf_api m <>?s "epoch-run/v1") || (mf_run m <>?s id) || (mf_boot m =?s "")
          || negb (mf_uid m =? getuid f) || (mf_runtime m <>?s path_join [RuntimeRoot c; id])
    with Errorf "ownership manifest does not match configured operator/run roots" [] ;;
  fail_if match mf_process m with
          | Some p => negb (uid p =? mf_uid m) || (host_boot_id p <>?s mf_boot m)
          | None => false
          end
    with Errorf "process identity differs from run owner" [] ;;
  Ok m.

(** The report of a run that never saved one. *)
Definition interrupted_report (id name : string) (m : RunManifest) : Report := {|
  rp_api := ReportVersion; rp_run := id; rp_scenario := name; rp_mode := "guest-wall-clock-step/v1";
  rp_execution := "INTERRUPTED"; rp_assertion := "NOT_EVALUATED"; rp_cleanup := mf_cleanup m;
  rp_started := mf_started m; rp_finished := zero_time; rp_elapsed := 0; rp_stage := mf_stage m; rp_steps := [];
  rp_assertions := []; rp_causes := [interrupted_cause]; rp_saved := false
|}.
Definition recorded_name (f : F) (c : Config) (id : string) : string :=
  match (let? path := evidencePath f c id "scenario.resolved.json" in
         let? b := ReadBounded f path 1048576 in
         JsonUtil.Decode dec_scenario zero_scenario b) with
  | Ok s => if sc_name s <>?s "" then sc_name s else "unknown-interrupted"
  | Err _ => "unknown-interrupted"
  end.
Definition ReadReport (f : F) (c : Config) (id : string) : result Report :=
  match evidencePath f c id "report.json" with
  | Err e =>
      fail_if negb (not_exist e) with e ;;
      let? m := map_err (Wrapf "report absent and ownership evidence unreadable: %w" []) (loadManifest f c id) in
      Ok (interrupted_report id (recorded_name f c id) m)
  | Ok path =>
      let? b := ReadBounded f path 2097152 in
      let? r := map_err (Wrapf "invalid final report: %w" []) (JsonUtil.Decode dec_report zero_report b) in
      fail_if (rp_api r <>?s ReportVersion) || (rp_run r <>?s id) || (rp_stage r <>?s "FINISHED")
              || negb (validOutcomes r)
        with Errorf "invalid final report identity/outcome" [] ;;
      Ok (rp_mark_saved r)
  end.

Definition is_dir (f : F) (path : string) : bool :=
  match lstat f path with Ok fi => bool_decide (fi_kind fi = KDir) | Err _ => false end.
(** [admit]: a new run only beside finished, cleaned ones. *)
Definition admit_run (f : F) (c : Config) : result unit :=
  let? entries := read_dir f (RuntimeRoot c) in
  do? each (λ name, fail_if name <>?s "operator.lock"
                      with Errorf "runtime contains unresolved entry %q; inspect/recover before another run" [name] ;;
                    Ok tt) entries ;;
  let? entries := read_dir f (EvidenceDir c) in
  each (λ name,
          fail_if negb (ValidRunID name) || negb (is_dir f (path_join [EvidenceDir c; name]))
            with Errorf "unexpected evidence-root entry %q requires review" [name] ;;
          let? r := map_err (Wrapf "prior run %s needs inspection: %w" [name]) (ReadReport f c name) in
          fail_if negb (rp_saved r) || (rp_cleanup r <>?s "COMPLETE")
            with Errorf "prior run %s requires recover before admission" [name] ;;
          Ok tt) entries.
End reading.

(** ** Removal *)
Definition own_path (m : RunManifest) (p : string) : Prop :=
  ∃ name, name ∈ runtime_names ∧ p = path_join [mf_runtime m; name].

(** An entry cleanup may remove: a recognized name, and a regular file or a socket owned by
    the operator. *)
Definition removable {F} `{FS F} (f : F) (m : RunManifest) (name : string) : Prop :=
  name ∈ runtime_names ∧
  ∃ fi, lstat f (path_join [mf_runtime m; name]) = Ok fi ∧ fi_uid fi = geteuid f ∧
        (fi_kind fi = KRegular ∨ fi_kind fi = KSocket).

Section removal.
Context {F : Type} `{LawfulFS F}.

Lemma check_entry_ok (f : F) dir name p : check_entry f dir name = Ok p →
  name ∈ runtime_names ∧ p = path_join [dir; name] ∧
  ∃ fi, lstat f p = Ok fi ∧ fi_uid fi = geteuid f ∧ (fi_kind fi = KRegular ∨ fi_kind fi = KSocket).
Proof.
  unfold check_entry. intros Hc. inv_ok Hc. injection Hc as <-. to_prop.
  apply owned_child_ok in E0 as (-> & _ & (fi & Hl & Hk & Hu) & _). rewrite E1 in Hl. injection Hl as ->.
  split_and!; [|done|].
  - apply existsb_exists in E as (x & Hx & Ex). apply String.eqb_eq in Ex as ->. by apply list_elem_of_In.
  - exists fi. split_and!; [done..|]. apply bool_decide_eq_false in H1.
    destruct (fi_kind fi); cbn in H2; naive_solver.
Qed.
Lemma remove_paths_content (f f' : F) paths e :
  remove_paths f paths = (e, f') → ∀ q, q ∉ paths → content f' q = content f q.
Proof.
  revert f. induction paths as [|p paths IH]; intros f; cbn [remove_paths]; [by intros [= <- <-]|].
  destruct (remove f p) as [[err|] f1] eqn:Er; apply remove_content in Er.
  - intros [= <- <-] q Hq. apply Er. set_solver.
  - intros Hr q Hq. rewrite (IH _ Hr) by set_solver. apply Er. set_solver.
Qed.

Lemma remove_owned_effect (f f' : F) c m e :
  removeOwnedRuntime f c m = (e, f') →
  f' = f ∧ (e = None → ∃ err, lstat f (mf_runtime m) = Err err ∧ not_exist err = true) ∨
  ∃ entries,
    read_dir f (mf_runtime m) = Ok entries ∧ ValidatePrivateDir f (mf_runtime m) = Ok tt ∧
    mf_runtime m = path_join [RuntimeRoot c; mf_run m] ∧ ValidRunID (mf_run m) = true ∧ mf_uid m = getuid f ∧
    Forall (removable f m) entries ∧
    ∀ q, q ≠ mf_runtime m → ¬ own_path m q → content f' q = content f q.
Proof.
  unfold removeOwnedRuntime. destruct (_ || _) eqn:Eg; [intros [= <- <-]; by left|]. to_prop.
  destruct (lstat f (mf_runtime m)) as [fi|err] eqn:El.
  2:{ destruct (not_exist err) eqn:Ee; intros [= <- <-]; left; naive_solver. }
  destruct (rbind _ _) as [paths|] eqn:Ev; [|intros [= <- <-]; by left].
  inv_ok Ev. destruct a. apply traverse_ok in Ev. intros Hr. right. exists a0. split_and!; try done.
  - clear -Ev. induction Ev as [|name p names ps Hc _ IH]; constructor; [|done].
    apply check_entry_ok in Hc as (? & -> & ?). done.
  - assert (Hown : ∀ q, q ∈ paths → own_path m q).
    { clear -Ev. induction Ev as [|name p names ps Hc _ IH]; intros q Hq; [by apply not_elem_of_nil in Hq|].
      apply elem_of_cons in Hq as [->|]; [|by apply IH]. apply check_entry_ok in Hc as (? & -> & _). by exists name. }
    destruct (remove_paths f paths) as [[err|] f1] eqn:Ep; intros q Hm Hq;
      pose proof (remove_paths_content _ _ _ _ Ep q) as Hc; (assert (q ∉ paths) by auto).
    + injection Hr as <- <-. by apply Hc.
    + apply remove_content in Hr. rewrite (Hr q Hm). by apply Hc.
Qed.
End removal.

(** C5.  Cleanup never touches what is not the run's own.  Only the four recognized
    entries directly inside the run's runtime directory, and that directory, can change;
    this happens only for a well-formed run identity whose directory is the configured
    one, recorded for the calling user, with a private directory and every entry of it
    checked first to have a recognized name and to be a regular file or socket owned by the
    operator; and if any entry fails one of these checks nothing at all is removed and an
    error is returned. *)
Theorem removal_confined {F} `{LawfulFS F} (f f' : F) c m e :
  removeOwnedRuntime f c m = (e, f') →
  (∀ q, q ≠ mf_runtime m → ¬ own_path m q → content f' q = content f q) ∧
  (f' ≠ f → mf_runtime m = path_join [RuntimeRoot c; mf_run m] ∧ ValidRunID (mf_run m) = true ∧
            mf_uid m = getuid f ∧ ValidatePrivateDir f (mf_runtime m) = Ok tt ∧
            ∃ entries, read_dir f (mf_runtime m) = Ok entries ∧ Forall (removable f m) entries) ∧
  (∀ entries name, is_ok (lstat f (mf_runtime m)) = true → read_dir f (mf_runtime m) = Ok entries →
     name ∈ entries → ¬ removable f m name → f' = f ∧ is_Some e).
Proof.
  intros Hr. destruct (remove_owned_effect _ _ _ _ _ Hr) as [[-> He]|(es & Hd & Hp & Hm & Hi & Hu & Hall & Hc)].
  - split_and!; [done|done|]. intros entries name Hl _ _ _. split; [done|]. destruct e; [done|].
    destruct (He eq_refl) as (err & Hx & _). by rewrite Hx in Hl.
  - split_and!; [done|by eauto 10|]. intros entries name _ Hd' Hin Hn. rewrite Hd in Hd'. injection Hd' as <-.
    rewrite Forall_forall in Hall. by destruct (Hn (Hall name Hin)).
Qed.

(** *** Example: a runtime directory with a stray file *)
Definition sample_run_id : string := widest_id.
Definition sample_executable : Executable :=
  {| x_path := "/usr/bin/firecracker"; x_sha256 := ""; x_size := 1; x_version := "1.16.1"; x_stdout := "";
     x_stderr := ""; x_device := 1; x_inode := 2 |}.
Definition sample_image_file : File := {| f_path := ""; f_sha256 := ""; f_size := 0; f_source := ""; f_origin := "" |}.
Definition sample_manifest : RunManifest := {|
  mf_api := "epoch-run/v1"; mf_run := sample_run_id; mf_boot := "boot"; mf_uid := 1000; mf_stage := "CLEANING";
  mf_started := 0; mf_runtime := path_join ["/run"; sample_run_id]%string; mf_created := runtime_names;
  mf_config_sha := ""; mf_scenario_sha := ""; mf_artifact_sha := "";
  mf_image := {| im_api := ""; im_id := ""; im_arch := ""; im_kernel := sample_image_file;
                 im_rootfs := sample_image_file; im_firecracker := "";
                 im_agent := {| g_version := ""; g_protocol := ""; g_sha256 := "" |};
                 im_workload := {| w_id := ""; w_version := ""; w_path := ""; w_sha256 := "" |};
                 im_recipe := {| rc_revision := ""; rc_transformations := [] |} |};
  mf_executable := sample_executable; mf_process := None; mf_cleanup := "INCOMPLETE"
|}.
Definition sample_roots : Config := {|
  c_api := ConfigVersion; FirecrackerPath := "/usr/bin/firecracker"; ArtifactDir := "/srv/images";
  EvidenceDir := "/srv/evidence"; RuntimeRoot := "/run"; c_cid := 3; c_port := 7000; c_policy := c_policy Defaults
|}.
Definition in_runtime (name : string) : string := path_join [mf_runtime sample_manifest; name].
Definition runtime_fs (extra : list (string * (FileInfo * string))) : memfs := {|
  mem_uid := 1000;
  mem_files := list_to_map (extra ++
    [("/run"%string, mem_node KDir 448 1000 ""); (mf_runtime sample_manifest, mem_node KDir 448 1000 "");
     (in_runtime "rootfs.ext4", mem_node KRegular 384 1000 "disk");
     (in_runtime "vsock.sock", mem_node KSocket 493 1000 "")])
|}.
Example remove_sample :
  map fst (map_to_list (mem_files (removeOwnedRuntime (runtime_fs []) sample_roots sample_manifest).2)) = ["/run"%string].
Proof. vm_compute. reflexivity. Qed.
(** A link planted under a recognized name is not removed either. *)
Definition planted_fs : memfs := runtime_fs [(in_runtime "firecracker.json", mem_node KSymlink 511 1000 "/etc/passwd")].
Definition planted_removal := removeOwnedRuntime planted_fs sample_roots sample_manifest.
Definition stray_fs : memfs := runtime_fs [(in_runtime "notes.txt", mem_node KRegular 384 1000 "keep")].
Definition stray_removal := removeOwnedRuntime stray_fs sample_roots sample_manifest.
Lemma removal_confined_witness :
  (stray_removal.2 = stray_fs ∧ is_Some stray_removal.1) ∧ (planted_removal.2 = planted_fs ∧ is_Some planted_removal.1).
Proof.
  split.
  - destruct (removal_confined stray_fs stray_removal.2 sample_roots sample_manifest stray_removal.1
                (surjective_pairing stray_removal)) as (_ & _ & Hstray).
    apply (Hstray (match read_dir stray_fs (mf_runtime sample_manifest) with Ok l => l | Err _ => [] end) "notes.txt"%string).
    + vm_compute. reflexivity.
    + vm_compute. reflexivity.
    + apply (bool_decide_eq_true_1 _). vm_compute. reflexivity.
    + intros [Hn _]. revert Hn. apply (bool_decide_eq_true_1 _). vm_compute. reflexivity.
  - destruct (removal_confined planted_fs planted_removal.2 sample_roots sample_manifest planted_removal.1
                (surjective_pairing planted_removal)) as (_ & _ & Hstray).
    apply (Hstray (match read_dir planted_fs (mf_runtime sample_manifest) with Ok l => l | Err _ => [] end) "firecracker.json"%string).
    + vm_compute. reflexivity.
    + vm_compute. reflexivity.
    + apply (bool_decide_eq_true_1 _). vm_compute. reflexivity.
    + intros (_ & fi & Hl & _ & Hk). vm_compute in Hl. injection Hl as <-. destruct Hk as [[=]|[=]].
Defined.
