(* ===== verification/EngineRecovery.v ===== *)
(** * EngineRecovery: Recover of internal/engine/recover.go

    Inspecting and cleaning up after a run that did not finish.  The trace records every
    inspection, stop and removal in order. *)

From S2P Require Import Prelude GoLib Json GoTime GoText JsonUtil JsonText Assertions Scenario Protocol HostCheck SafeFS Firecracker Artifact Config EngineTypes EngineRecover.
From Stdlib Require Import Ascii String.

Record Recovery := {
  rv_run : string; rv_apply : bool; rv_alive : bool; rv_clean : bool; rv_message : string; rv_report : option Report
}.

(** What recovery uses besides files, locks and processes. *)
Class RecoverOps (W : Type) `{FS W} `{LockOps W} `{StopOps W} := {
  host_boot : W → result string * W;
  clock_now : W → Z * W
}.

Inductive recover_event :=
| Looked (r : result ProcessState)
| StopAsked (e : option error)
| RuntimeRemoved (e : option error).

Section recover.
Context {W : Type} `{RecoverOps W}.

(** A result with the recovery so far, as the code returns [out, err]. *)
Definition recovered : Type := ((option Recovery * option error) * W * list recover_event)%type.
Definition stopped_at (out : option Recovery) (e : error) (w : W) (t : list recover_event) : option recovered :=
  Some ((out, Some e), w, t).

(** After the process is known dead: remove, then publish the outcome. *)
Definition publish (c : Config) (id : string) (m : RunManifest) (out : Recovery) (w : W) (t : list recover_event) :
    option recovered :=
  let '(e, w) := removeOwnedRuntime w c m in
  let t := t ++ [RuntimeRemoved e] in
  match e with Some e => stopped_at (Some out) e w t | None =>
  match ReadReport w c id with Err e => stopped_at (Some out) e w t | Ok r =>
  let r := if rp_saved r then r else rp_set_assertion "NOT_EVALUATED" (rp_set_execution "INTERRUPTED" r) in
  let r := rp_set_stage "FINISHED" (rp_set_cleanup "COMPLETE" r) in
  let '(now, w) := clock_now w in
  let r := rp_unsaved (rp_finish now (rp_elapsed r) r) in
  let m := mf_set_stage "FINISHED" (mf_set_cleanup "COMPLETE" m) in
  let '(e, w) := saveManifest w (path_join [EvidenceDir c; id; "manifest.json"%string]) m in
  match e with Some e => stopped_at (Some out) e w t | None =>
  match enc_report r with
  | None => stopped_at (Some out) (Errorf "json: unsupported value" []) w t
  | Some b =>
      if 2097152 <? blen b then stopped_at (Some out) (Errorf "recovered report exceeds reserved size" []) w t else
      let '(e, w) := AtomicWrite w (path_join [EvidenceDir c; id; "report.json"%string])
                       (b +:+ String newline "")%string in
      match e with
      | Some e => stopped_at (Some out) e w t
      | None =>
          Some ((Some {| rv_run := rv_run out; rv_apply := rv_apply out; rv_alive := rv_alive out;
                         rv_clean := rv_clean out;
                         rv_message := "owned runtime resources cleaned; no workload action replayed";
                         rv_report := Some (rp_mark_saved r) |}, None), w, t)
      end
  end end end end.

(** With the lock held (or the root gone): inspect, stop, clean. *)
Definition recover_locked (fuel : nat) (c : Config) (id : string) (apply : bool) (m : RunManifest) (boot : string)
    (w : W) : option recovered :=
  let out alive clean message :=
    {| rv_run := id; rv_apply := apply; rv_alive := alive; rv_clean := clean; rv_message := message;
       rv_report := None |} in
  match mf_process m with
  | Some p =>
      let '(state, w) := op_inspect w p in
      let t := [Looked state] in
      match state with
      | Err e => stopped_at (Some (out false false ""%string)) e w t
      | Ok st =>
          let o := out (Alive st) true (Reason st) in
          if negb apply then Some ((Some o, None), w, t) else
          if negb (Alive st) then publish c id m o w t else
          let '(stop, w, _) := StopOwned fuel w p in
          match stop with
          | None => None
          | Some e =>
              let t := t ++ [StopAsked e] in
              match e with Some e => stopped_at (Some o) e w t | None =>
              let '(state, w) := op_inspect w p in
              let t := t ++ [Looked state] in
              match state with
              | Err e => stopped_at (Some o) e w t
              | Ok st =>
                  if Alive st then stopped_at (Some o) (Errorf "VMM still alive; disk retained" []) w t
                  else publish c id m (out false true (rv_message o)) w t
              end end
          end
      end
  | None =>
      if (mf_boot m <>?s boot) || (mf_stage m =?s "VALIDATING") || (mf_stage m =?s "PREPARING")
         || (mf_cleanup m =?s "COMPLETE") then
        let o := out false true "no live VMM ownership ambiguity"%string in
        if negb apply then Some ((Some o, None), w, []) else publish c id m o w []
      else
        Some ((Some (out false false
          "launch may have occurred before process identity was persisted; manual review required"%string), None), w, [])
  end.

(** [rootErr] and [lockErr]: after a reboot the runtime root may be gone. *)
Definition recover_root (c : Config) (apply : bool) (same_boot : bool) (w : W) : result bool * W :=
  match ValidatePrivateDir w (RuntimeRoot c) with
  | Ok _ => (Ok true, w)
  | Err e =>
      if negb (not_exist e) || same_boot then (Err e, w) else
      if apply then
        let '(made, w) := EnsurePrivateDir w (RuntimeRoot c) in
        match made with Err e => (Err e, w) | Ok _ => (Ok true, w) end
      else (Ok false, w)
  end.
(** The lock that is held from here on, if any. *)
Definition recover_lock (c : Config) (apply : bool) (same_boot : bool) (root : bool) (w : W) : result (option string) * W :=
  if negb root then (Ok None, w) else
  let lockErr := err_of (ValidatePrivateFile w (lock_path (RuntimeRoot c))) in
  let take w := let '(lock, w) := AcquireLock w (RuntimeRoot c) in ((let? path := lock in Ok (Some path)), w) in
  match lockErr with
  | Some e => if negb (not_exist e) || same_boot then (Err e, w) else if apply then take w else (Ok None, w)
  | None => take w
  end.

Definition Recover (fuel : nat) (c : Config) (id : string) (apply : bool) (w : W) : option recovered :=
  match op_privilege w with
  | (Err e, w) => stopped_at None e w []
  | (Ok _, w) =>
  match loadManifest w c id with Err e => stopped_at None e w [] | Ok m =>
  let '(boot, w) := host_boot w in
  match boot with Err e => stopped_at None e w [] | Ok boot =>
  let same_boot := mf_boot m =?s boot in
  let '(root, w) := recover_root c apply same_boot w in
  match root with Err e => stopped_at None e w [] | Ok root =>
  let '(lock, w) := recover_lock c apply same_boot root w in
  match lock with Err e => stopped_at None e w [] | Ok lock =>
  match recover_locked fuel c id apply m boot w with
  | None => None
  | Some (res, w, t) => Some (res, (Lock_Close lock w).2, t)
  end end end end end
  end.
End recover.

(** ** Facts *)
Definition is_removal (e : recover_event) : Prop := match e with RuntimeRemoved _ => True | _ => False end.
Definition is_change (e : recover_event) : Prop := match e with Looked _ => False | _ => True end.

(** Nothing can be running in the recorded VMM: it was just seen dead, or it never got
    far enough to be started on this boot of the host. *)
Definition known_dead (m : RunManifest) (boot : string) (pre : list recover_event) : Prop :=
  match mf_process m with
  | Some _ => ∃ pre' st, pre = pre' ++ [Looked (Ok st)] ∧ Alive st = false
  | None => pre = [] ∧ (mf_boot m ≠ boot ∨ mf_stage m = "VALIDATING"%string ∨ mf_stage m = "PREPARING"%string
                        ∨ mf_cleanup m = "COMPLETE"%string)
  end.
(** A removal, when there is one, is the last thing in the trace and was safe. *)
Definition trace_safe (apply : bool) (m : RunManifest) (boot : string) (t : list recover_event) : Prop :=
  (apply = false → Forall (λ e, ¬ is_change e) t) ∧
  ∀ pre x post, t = pre ++ x :: post → is_removal x → post = [] ∧ known_dead m boot pre.
(** A report that recovery returns. *)
Definition closed_report (t : list recover_event) (out : option Recovery) : Prop :=
  ∀ o r, out = Some o → rv_report o = Some r →
    rp_cleanup r = "COMPLETE"%string ∧ rp_stage r = "FINISHED"%string ∧ rp_saved r = true ∧
    rv_alive o = false ∧ last t = Some (RuntimeRemoved None).

Section recover_facts.
Context {W : Type} `{RecoverOps W}.

Lemma publish_spec c id m out (w w' : W) t res t' :
  publish c id m out w t = Some (res, w', t') → rv_alive out = false → rv_report out = None →
  ∃ e, t' = t ++ [RuntimeRemoved e] ∧ closed_report t' res.1.
Proof.
  intros Hp Ha Hr. unfold publish in Hp. destruct (removeOwnedRuntime w c m) as [e w1].
  exists e. unfold stopped_at in Hp. unfold closed_report.
  assert (Hout : ∀ e' w'', Some ((Some out, Some e'), w'', t ++ [RuntimeRemoved e]) = Some (res, w', t') →
    t' = t ++ [RuntimeRemoved e] ∧ closed_report t' res.1).
  { intros e' w'' Hx. injection Hx as <- _ <-. split; [done|]. intros o r [= <-] Ho. congruence. }
  destruct e as [e|]; [by eapply Hout|]. destruct (ReadReport w1 c id) as [r|]; [|by eapply Hout].
  destruct (clock_now w1) as [now w2]. cbv zeta in Hp. destruct (saveManifest w2 _ _) as [[e|] w3]; [by eapply Hout|].
  destruct (enc_report _) as [b|]; [|by eapply Hout]. destruct (_ <? _); [by eapply Hout|].
  destruct (AtomicWrite w3 _ _) as [[e|] w4]; [by eapply Hout|]. injection Hp as <- _ <-. split; [done|].
  intros o x [= <-] [= <-]. split_and!; try done. by rewrite last_snoc.
Qed.

Lemma trace_safe_quiet apply m boot t : Forall (λ e, ¬ is_removal e) t → (apply = false → Forall (λ e, ¬ is_change e) t) →
  trace_safe apply m boot t.
Proof.
  intros Hr Ha. split; [done|]. intros pre x post -> Hx. apply Forall_app in Hr as [_ [Hr _]%Forall_cons]. done.
Qed.
Lemma trace_safe_removal m boot t e : Forall (λ e, ¬ is_removal e) t → known_dead m boot t →
  trace_safe true m boot (t ++ [RuntimeRemoved e]).
Proof.
  intros Hr Hd. split; [done|]. intros pre x post Heq Hx. destruct post as [|y post].
  - apply app_inj_tail in Heq as [-> _]. done.
  - exfalso. assert (Hin : x ∈ t); [|rewrite Forall_forall in Hr; by apply (Hr x)].
    destruct (exists_last (l := y :: post)) as (l & z & Hl); [done|]. rewrite Hl in Heq.
    change (pre ++ x :: l ++ [z]) with (pre ++ (x :: l) ++ [z]) in Heq. rewrite app_assoc in Heq.
    apply app_inj_tail in Heq as [-> _]. set_solver.
Qed.

Ltac quiet := apply trace_safe_quiet; [repeat constructor; cbn; tauto|intros Happ; first [discriminate Happ|repeat constructor; cbn; tauto]].

Lemma recover_locked_spec fuel c id apply m boot (w w' : W) res t :
  recover_locked fuel c id apply m boot w = Some (res, w', t) →
  trace_safe apply m boot t ∧ closed_report t res.1.
Proof.
  unfold recover_locked. cbv zeta. unfold stopped_at.
  assert (Hno : ∀ (o : Recovery) e (w1 w2 : W) t1, rv_report o = None →
    Some ((Some o, e), w1, t1) = Some (res, w2, t) → closed_report t res.1 ∧ t1 = t).
  { intros o e w1 w2 t1 Ho Heq. injection Heq as <- _ <-. split; [|done]. intros o' r [= <-]. congruence. }
  destruct (mf_process m) as [p|] eqn:Ep.
  - destruct (op_inspect w p) as [[st|e] w1].
    2:{ intros Hx. apply Hno in Hx as [Hc <-]; [|done]. split; [quiet|done]. }
    destruct apply; cbn [negb].
    2:{ intros Hx. apply Hno in Hx as [Hc <-]; [|done]. split; [quiet|done]. }
    destruct (Alive st) eqn:Est; cbn [negb].
    + destruct (StopOwned fuel w1 p) as [[[stop|] w2] tr]; [|done]. destruct stop as [e|].
      { intros Hx. apply Hno in Hx as [Hc <-]; [|done]. split; [quiet|done]. }
      destruct (op_inspect w2 p) as [[st2|e] w3].
      2:{ intros Hx. apply Hno in Hx as [Hc <-]; [|done]. split; [quiet|done]. }
      destruct (Alive st2) eqn:E2.
      { intros Hx. apply Hno in Hx as [Hc <-]; [|done]. split; [quiet|done]. }
      intros Hp. apply publish_spec in Hp as (e & -> & Hc); [|done..]. split; [|done].
      apply trace_safe_removal; [repeat constructor; cbn; tauto|]. unfold known_dead. rewrite Ep.
      by exists [Looked (Ok st); StopAsked None], st2.
    + intros Hp. apply publish_spec in Hp as (e & -> & Hc); [|done..]. split; [|done].
      apply trace_safe_removal; [repeat constructor; cbn; tauto|]. unfold known_dead. rewrite Ep. by exists [], st.
  - destruct (_ || _) eqn:Eg.
    2:{ intros Hx. apply Hno in Hx as [Hc <-]; [|done]. split; [quiet|done]. }
    destruct apply; cbn [negb].
    2:{ intros Hx. apply Hno in Hx as [Hc <-]; [|done]. split; [quiet|done]. }
    intros Hp. apply publish_spec in Hp as (e & -> & Hc); [|done..]. split; [|done].
    apply trace_safe_removal; [constructor|]. unfold known_dead. rewrite Ep. split; [done|].
    repeat (apply orb_true_iff in Eg as [Eg|Eg]); to_prop; auto.
Qed.
Lemma publish_returns c id m out (w : W) t : is_Some (publish c id m out w t).
Proof.
  unfold publish, stopped_at. destruct (removeOwnedRuntime w c m) as [[e|] w1]; [done|].
  destruct (ReadReport w1 c id); [|done]. destruct (clock_now w1) as [now w2]. cbv zeta.
  destruct (saveManifest w2 _ _) as [[e|] w3]; [done|]. destruct (enc_report _); [|done]. destruct (_ <? _); [done|].
  by destruct (AtomicWrite w3 _ _) as [[e|] w4].
Qed.
Lemma recover_locked_returns `{!LawfulStop W} c id apply m boot (w : W) :
  ∃ n, ∀ fuel, (n ≤ fuel)%nat → is_Some (recover_locked fuel c id apply m boot w).
Proof.
  unfold recover_locked. cbv zeta. destruct (mf_process m) as [p|].
  - destruct (op_inspect w p) as [[st|e] w1]; [|by exists O]. destruct (negb apply); [by exists O|].
    destruct (negb (Alive st)); [exists O; intros; apply publish_returns|].
    destruct (stop_owned_returns w1 p) as [n Hn]. exists n. intros fuel Hf. specialize (Hn fuel Hf).
    destruct (StopOwned fuel w1 p) as [[[[e|]|] w2] tr]; [done| |by destruct Hn].
    destruct (op_inspect w2 p) as [[st2|e] w3]; [|done]. destruct (Alive st2); [done|apply publish_returns].
  - exists O. intros fuel _. destruct (_ || _); [|done]. destruct (negb apply); [done|apply publish_returns].
Qed.
End recover_facts.

(** ** Which calls change the world *)
(** The calls of an inspection.  The lock file is opened only where it exists already. *)
Inductive looks {W} `{RecoverOps W} : W → W → Prop :=
| looks_privilege w : looks w (op_privilege w).2
| looks_boot w : looks w (host_boot w).2
| looks_inspect w p : looks w (op_inspect w p).2
| looks_open_lock w p : is_ok (lstat w p) = true → looks w (open_lock w p).2
| looks_flock w p : looks w (flock w p).2
| looks_close_lock w p : looks w (close_lock w p).2.

(** What these calls, and those of a stop, do to files: nothing, except that opening the lock
    creates it where it is missing. *)
Class LawfulRecover (W : Type) `{RecoverOps W} := {
  privilege_content (w : W) : same_content w (op_privilege w).2;
  boot_content (w : W) : same_content w (host_boot w).2;
  inspect_content (w : W) p : same_content w (op_inspect w p).2;
  pidfd_open_content (w : W) p : same_content w (op_pidfd_open w p).2;
  pidfd_signal_content (w : W) s : same_content w (op_pidfd_signal w s).2;
  poll_content (w : W) : same_content w (op_poll w).2;
  select_content (w : W) : same_content w (op_select w).2;
  flock_content (w : W) p : same_content w (flock w p).2;
  close_lock_content (w : W) p : same_content w (close_lock w p).2;
  open_lock_content (w : W) p : same_except p w (open_lock w p).2;
  open_lock_existing (w : W) p : is_ok (lstat w p) = true → content (open_lock w p).2 p = content w p
}.

Section world.
Context {W : Type} `{RecoverOps W}.
#[local] Abbreviation looked := (rtc (looks (W := W))).
Lemma looked_once (w w' : W) : looks w w' → looked w w'.
Proof. apply rtc_once. Qed.

Lemma private_file_exists (w : W) p : ValidatePrivateFile w p = Ok tt → is_ok (lstat w p) = true.
Proof.
  unfold ValidatePrivateFile. destruct (ValidateNoSymlinks w p); [|done]. cbn [rbind]. by destruct (lstat w p).
Qed.
Lemma close_looked l (w : W) : looked w (Lock_Close l w).2.
Proof.
  destruct l as [p|]; cbn; [|done]. pose proof (looks_close_lock w p) as Hl. destruct (close_lock w p) as [e w1].
  by apply looked_once.
Qed.
Lemma acquire_looked (w w' : W) root r : ValidatePrivateFile w (lock_path root) = Ok tt → AcquireLock w root = (r, w') → looked w w'.
Proof.
  intros Hv%private_file_exists. unfold AcquireLock. destruct (ValidatePrivateDir w root); [|by intros [_ <-]%pair_equal_spec].
  cbv zeta. pose proof (looks_open_lock w _ Hv) as Ho%looked_once. destruct (open_lock w _) as [[e|] w1]; cbn [snd] in Ho;
    [by intros [_ <-]%pair_equal_spec|].
  assert (Hc : ∀ x, looked w x → looked w (close_lock x (lock_path root)).2) by
    (intros x Hx; etrans; [exact Hx|apply looked_once, looks_close_lock]).
  destruct (ValidatePrivateFile w1 _); [|intros [_ <-]%pair_equal_spec; by apply Hc].
  pose proof (looks_flock w1 (lock_path root)) as Hf%looked_once. destruct (flock w1 _) as [[e|] w2]; cbn [snd] in Hf;
    intros [_ <-]%pair_equal_spec; [apply Hc|]; by etrans.
Qed.

Lemma recover_locked_looked fuel c id m boot lock (w0 w w' : W) res t : looked w0 w →
  match recover_locked fuel c id false m boot w with
  | None => None
  | Some (res, w, t) => Some (res, (Lock_Close lock w).2, t)
  end = Some (res, w', t) → looked w0 w'.
Proof.
  assert (Hclose : ∀ x, looked w0 x → looked w0 (Lock_Close lock x).2) by (intros x Hx; etrans; [exact Hx|apply close_looked]).
  intros Hw. unfold recover_locked, stopped_at. cbv zeta. cbn [negb]. destruct (mf_process m) as [p|].
  - pose proof (looks_inspect w p) as Hi%looked_once. destruct (op_inspect w p) as [[st|e] w1]; cbn [snd] in Hi;
      intros [= _ <- _]; apply Hclose; by etrans.
  - destruct (_ || _); intros [= _ <- _]; by apply Hclose.
Qed.

(** Without [apply] only inspections are made. *)
Lemma recover_inspects fuel c id (w w' : W) res t : Recover fuel c id false w = Some (res, w', t) → looked w w'.
Proof.
  unfold Recover, stopped_at. pose proof (looks_privilege w) as L1%looked_once. destruct (op_privilege w) as [[u|e] w1]; cbn [snd] in L1;
    [|by intros [= _ <- _]].
  destruct (loadManifest w1 c id) as [m|e]; [|by intros [= _ <- _]].
  pose proof (looks_boot w1) as L2%looked_once. destruct (host_boot w1) as [[boot|e] w2]; cbn [snd] in L2;
    (assert (L12 : looked w w2) by (by etrans)); [|by intros [= _ <- _]].
  cbv zeta. unfold recover_root. destruct (ValidatePrivateDir w2 _) as [u'|e]; [|destruct (_ || _); [by intros [= _ <- _]|]].
  - unfold recover_lock. cbn [negb]. destruct (ValidatePrivateFile w2 (lock_path _)) as [[]|e] eqn:Ev; cbn [err_of].
    + destruct (AcquireLock w2 (RuntimeRoot c)) as [r w3] eqn:Ea. pose proof (acquire_looked _ _ _ _ Ev Ea) as L3.
      assert (L13 : looked w w3) by (by etrans). destruct r as [l|e]; cbn [rbind]; [|by intros [= _ <- _]].
      intros Hx. eapply recover_locked_looked; [exact L13|exact Hx].
    + destruct (_ || _); [by intros [= _ <- _]|]. apply recover_locked_looked, L12.
  - unfold recover_lock. cbn [negb]. apply recover_locked_looked, L12.
Qed.

Context `{!LawfulFS W, !LawfulRecover W}.
Lemma looks_content (w w' : W) : looks w w' → same_content w w'.
Proof.
  destruct 1 as [w|w|w p|w p Hp|w p|w p]; [apply privilege_content|apply boot_content|apply inspect_content| |apply flock_content|
    apply close_lock_content].
  intros q. destruct (decide (q = p)) as [->|Hq]; [by apply open_lock_existing|by apply open_lock_content].
Qed.
Lemma looked_content (w w' : W) : looked w w' → same_content w w'.
Proof. induction 1 as [|w w1 w2 Hl _ IH]; [done|]. etrans; [by apply looks_content|done]. Qed.

Lemma send_content (w : W) s : same_content w (send w s).2.
Proof. pose proof (pidfd_signal_content w s) as Hs. unfold send. by destruct (op_pidfd_signal w s) as [[u|e] w1]. Qed.
Lemma stop_loop_content fuel killed (w w' : W) r t : stop_loop fuel killed w = (r, w', t) → same_content w w'.
Proof.
  revert killed w r t. induction fuel as [|fuel IH]; intros killed w r t; cbn [stop_loop]; [by intros [= _ <- _]|].
  pose proof (poll_content w) as Hp. destruct (op_poll w) as [polled w1]. cbn [snd] in Hp. cbv zeta.
  pose proof (select_content w1) as Hs. destruct (op_select w1) as [k w2]. cbn [snd] in Hs.
  assert (L2 : same_content w w2) by (by etrans).
  assert (Hk : same_content w (send w2 SIGKILL).2) by (etrans; [exact L2|apply send_content]).
  assert (Hwait : ∀ r t, match k with
    | CtxDone e => if killed then (Some (Some e), w2, [])
                   else let '(_, env) := send w2 SIGKILL in (Some (Some e), env, [Signalled SIGKILL])
    | GraceExpired =>
        let '(err, env) := send w2 SIGKILL in
        match err with
        | Some e => (Some (Some e), env, [Signalled SIGKILL])
        | None => let '(r, env, t) := stop_loop fuel true env in (r, env, Signalled SIGKILL :: t)
        end
    | Tick => stop_loop fuel killed w2
    end = (r, w', t) → same_content w w').
  { clear r t. intros r t. destruct k as [e| |].
    - destruct killed; [by intros [= _ <- _]|]. destruct (send w2 SIGKILL) as [x w3]. by intros [= _ <- _].
    - destruct (send w2 SIGKILL) as [[e|] w3]; cbn [snd] in Hk; [by intros [= _ <- _]|].
      destruct (stop_loop fuel true w3) as [[r1 w4] t1] eqn:El. intros [= _ <- _]. etrans; [exact Hk|by eapply IH].
    - intros Hl. etrans; [exact L2|by eapply IH]. }
  destruct polled as [n|e]; [destruct (0 <? n)|destruct (err_is "EINTR" e)]; try (by intros [= _ <- _]); apply Hwait.
Qed.
Lemma stop_owned_content fuel (w w' : W) p r t : StopOwned fuel w p = (r, w', t) → same_content w w'.
Proof.
  unfold StopOwned. pose proof (privilege_content w) as L1. destruct (op_privilege w) as [[u|e] w1]; cbn [snd] in L1; [|by intros [= _ <- _]].
  pose proof (inspect_content w1 p) as L2. destruct (op_inspect w1 p) as [[st|e] w2]; cbn [snd] in L2;
    (assert (K2 : same_content w w2) by (by etrans)); [|by intros [= _ <- _]].
  destruct (negb _); [by intros [= _ <- _]|]. pose proof (pidfd_open_content w2 (pid p)) as L3.
  destruct (op_pidfd_open w2 (pid p)) as [[u1|e] w3]; cbn [snd] in L3; (assert (K3 : same_content w w3) by (by etrans)); [|by intros [= _ <- _]].
  pose proof (inspect_content w3 p) as L4. destruct (op_inspect w3 p) as [[st2|e] w4]; cbn [snd] in L4;
    (assert (K4 : same_content w w4) by (by etrans)); [|by intros [= _ <- _]].
  destruct (negb _); [by intros [= _ <- _]|]. pose proof (send_content w4 SIGTERM) as L5.
  destruct (send w4 SIGTERM) as [[e|] w5]; cbn [snd] in L5; (assert (K5 : same_content w w5) by (by etrans)); [by intros [= _ <- _]|].
  destruct (stop_loop fuel false w5) as [[r1 w6] t1] eqn:El. intros [= _ <- _]. etrans; [exact K5|by eapply stop_loop_content].
Qed.

(** Without a removal nothing is written, except that the lock may be created. *)
Lemma acquire_content (w w' : W) root r : AcquireLock w root = (r, w') → same_except (lock_path root) w w'.
Proof.
  unfold AcquireLock. destruct (ValidatePrivateDir w root); [|by intros [_ <-]%pair_equal_spec].
  cbv zeta. pose proof (open_lock_content w (lock_path root)) as Ho. destruct (open_lock w _) as [[e|] w1]; cbn [snd] in Ho;
    [by intros [_ <-]%pair_equal_spec|].
  assert (Hc : ∀ x, same_except (lock_path root) w x → same_except (lock_path root) w (close_lock x (lock_path root)).2) by
    (intros x Hx; etrans; [exact Hx|apply same_except_of, close_lock_content]).
  destruct (ValidatePrivateFile w1 _); [|intros [_ <-]%pair_equal_spec; by apply Hc].
  pose proof (flock_content w1 (lock_path root)) as Hf%(same_except_of (lock_path root)).
  destruct (flock w1 _) as [[e|] w2]; cbn [snd] in Hf; intros [_ <-]%pair_equal_spec; [apply Hc|]; by etrans.
Qed.
Lemma recover_locked_quiet fuel c id apply m boot (w w' : W) res t :
  recover_locked fuel c id apply m boot w = Some (res, w', t) → Forall (λ e, ¬ is_removal e) t → same_content w w'.
Proof.
  assert (Hpub : ∀ out x t0, publish c id m out x t0 = Some (res, w', t) → Forall (λ e, ¬ is_removal e) t → False).
  { intros out x t0. unfold publish, stopped_at. destruct (removeOwnedRuntime x c m) as [e w1]. intros Hx Hf.
    assert (Ht : t = t0 ++ [RuntimeRemoved e]); [|subst t; apply Forall_app in Hf as [_ [Hf _]%Forall_cons]; by apply Hf].
    revert Hx. cbv zeta. repeat case_match; intros Hx; by simplify_eq. }
  unfold recover_locked, stopped_at. cbv zeta. intros Hx Ht. destruct (mf_process m) as [p|].
  - pose proof (inspect_content w p) as L1. destruct (op_inspect w p) as [[st|e] w1]; cbn [snd] in L1; [|by simplify_eq].
    destruct (negb apply); [by simplify_eq|]. destruct (negb _); [by destruct (Hpub _ _ _ Hx Ht)|].
    destruct (StopOwned fuel w1 p) as [[[stop|] w2] tr] eqn:Es; [|done]. apply stop_owned_content in Es.
    assert (K2 : same_content w w2) by (by etrans). destruct stop as [e|]; [by simplify_eq|].
    pose proof (inspect_content w2 p) as L3. destruct (op_inspect w2 p) as [[st2|e] w3]; cbn [snd] in L3;
      (assert (K3 : same_content w w3) by (by etrans)); [|by simplify_eq].
    destruct (Alive st2); [by simplify_eq|]. by destruct (Hpub _ _ _ Hx Ht).
  - destruct (_ || _); [|by simplify_eq]. destruct (negb apply); [by simplify_eq|]. by destruct (Hpub _ _ _ Hx Ht).
Qed.
Lemma recover_quiet fuel c id apply (w w' : W) res t : Recover fuel c id apply w = Some (res, w', t) →
  Forall (λ e, ¬ is_removal e) t → same_except (lock_path (RuntimeRoot c)) w w'.
Proof.
  set (lp := lock_path (RuntimeRoot c)). unfold Recover, stopped_at. intros Hx Ht.
  pose proof (privilege_content w) as L1%(same_except_of lp). destruct (op_privilege w) as [[u|e] w1]; cbn [snd] in L1; [|by simplify_eq].
  destruct (loadManifest w1 c id) as [m|e]; [|by simplify_eq].
  pose proof (boot_content w1) as L2%(same_except_of lp). destruct (host_boot w1) as [[boot|e] w2]; cbn [snd] in L2;
    (assert (K2 : same_except lp w w2) by (by etrans)); [|by simplify_eq].
  cbv zeta in Hx. destruct (recover_root _ _ _ w2) as [root w3] eqn:Er.
  assert (L3 : same_content w2 w3).
  { revert Er. unfold recover_root. destruct (ValidatePrivateDir w2 _); [by intros [_ <-]%pair_equal_spec|].
    destruct (_ || _); [by intros [_ <-]%pair_equal_spec|]. destruct apply; [|by intros [_ <-]%pair_equal_spec].
    destruct (EnsurePrivateDir w2 _) as [[u'|e'] w4] eqn:Ee; apply ensure_content in Ee; by intros [_ <-]%pair_equal_spec. }
  apply (same_except_of lp) in L3. assert (K3 : same_except lp w w3) by (by etrans). destruct root as [root|e]; [|by simplify_eq].
  destruct (recover_lock _ _ _ _ w3) as [lock w4] eqn:El.
  assert (L4 : same_except lp w3 w4).
  { revert El. unfold recover_lock. destruct (negb root); [by intros [_ <-]%pair_equal_spec|]. cbv zeta.
    destruct (AcquireLock w3 _) as [r w5] eqn:Ea. apply acquire_content in Ea.
    destruct (err_of _); [destruct (_ || _); [by intros [_ <-]%pair_equal_spec|]; destruct apply|];
      by intros [_ <-]%pair_equal_spec. }
  assert (K4 : same_except lp w w4) by (by etrans). destruct lock as [lock|e]; [|by simplify_eq].
  destruct (recover_locked _ _ _ _ _ _ w4) as [[[res' w5] t']|] eqn:Ek; [|done]. injection Hx as <- <- <-.
  apply recover_locked_quiet in Ek; [|done]. etrans; [exact K4|]. etrans; [by apply same_except_of|].
  apply same_except_of, looked_content, close_looked.
Qed.
End world.

Lemma recover_returns {W} `{RecoverOps W} `{!LawfulStop W} c id apply (w : W) :
  ∃ n, ∀ fuel, (n ≤ fuel)%nat → is_Some (Recover fuel c id apply w).
Proof.
  unfold Recover, stopped_at. destruct (op_privilege w) as [[u|e] w1]; [|by exists O].
  destruct (loadManifest w1 c id) as [m|e]; [|by exists O]. destruct (host_boot w1) as [[boot|e] w2]; [|by exists O].
  cbv zeta. destruct (recover_root _ _ _ _) as [[root|e] w3]; [|by exists O].
  destruct (recover_lock _ _ _ _ _) as [[lock|e] w4]; [|by exists O].
  destruct (recover_locked_returns c id apply m boot w4) as [n Hn]. exists n. intros fuel Hf. specialize (Hn fuel Hf).
  destruct (recover_locked _ _ _ _ _ _ _) as [[[res' w5] t']|]; [done|by destruct Hn].
Qed.
Lemma recover_traced {W} `{RecoverOps W} fuel c id apply (w w' : W) res t :
  Recover fuel c id apply w = Some (res, w', t) →
  closed_report t res.1 ∧
  (t = [] ∨ ∃ m boot, loadManifest (op_privilege w).2 c id = Ok m ∧
                      (host_boot (op_privilege w).2).1 = Ok boot ∧ trace_safe apply m boot t).
Proof.
  unfold Recover, stopped_at. destruct (op_privilege w) as [[u|e] w1]; cbn [snd];
    [|intros Hx; injection Hx as <- _ <-; split; [by intros o r|by left]].
  destruct (loadManifest w1 c id) as [m|e]; [|intros Hx; injection Hx as <- _ <-; split; [by intros o r|by left]].
  destruct (host_boot w1) as [[boot|e] w2] eqn:Eb; [|intros Hx; injection Hx as <- _ <-; split; [by intros o r|by left]].
  cbv zeta. destruct (recover_root _ _ _ _) as [[root|e] w3];
    [|intros Hx; injection Hx as <- _ <-; split; [by intros o r|by left]].
  destruct (recover_lock _ _ _ _ _) as [[lock|e] w4];
    [|intros Hx; injection Hx as <- _ <-; split; [by intros o r|by left]].
  destruct (recover_locked _ _ _ _ _ _ _) as [[[res' w5] t']|] eqn:Er; [|done].
  apply recover_locked_spec in Er as [Ht Hc]. intros Hx. injection Hx as <- _ <-. split; [done|].
  right. by exists m, boot.
Qed.

(** C6.  Recovery returns, given enough rounds for the deadline of the stop.  Without
    [apply] it is read-only: every call it makes is one of an inspection (privileges, boot
    identity, the process, an existing lock), so that no process is signalled and no file of
    the final world differs.  With [apply], files other than the lock change only if the
    runtime directory's removal was reached, and that is only if nothing can be using it: the
    recorded process was inspected immediately before and found dead (after a stop, if it
    was alive), or no process was recorded and the manifest shows that no VMM can have been
    started on this boot.  A report it returns was saved, is marked FINISHED and COMPLETE,
    and follows a removal that succeeded. *)
Theorem recover_safe {W} `{RecoverOps W} `{!LawfulFS W, !LawfulRecover W, !LawfulStop W} c id apply (w : W) :
  (∃ n, ∀ fuel, (n ≤ fuel)%nat → is_Some (Recover fuel c id apply w)) ∧
  ∀ fuel res w' t, Recover fuel c id apply w = Some (res, w', t) →
    (apply = false → rtc looks w w' ∧ same_content w w') ∧
    (Forall (λ e, ¬ is_removal e) t → same_except (lock_path (RuntimeRoot c)) w w') ∧
    closed_report t res.1 ∧
    (t = [] ∨ ∃ m boot, loadManifest (op_privilege w).2 c id = Ok m ∧
                        (host_boot (op_privilege w).2).1 = Ok boot ∧ trace_safe apply m boot t).
Proof.
  split; [apply recover_returns|]. intros fuel res w' t Hx. split_and!.
  - intros ->. apply recover_inspects in Hx. split; [done|by apply looked_content].
  - by eapply recover_quiet.
  - by eapply recover_traced.
  - by eapply recover_traced.
Qed.

(** *** Example: an interrupted run whose VMM is still alive *)
(** [rs_wakes] is what is left of the stop's deadline. *)
Record rsim := { rs_fs : memfs; rs_alive : bool; rs_wakes : nat }.
Definition rs_files (w : rsim) (x : option error * memfs) : option error * rsim :=
  (x.1, {| rs_fs := x.2; rs_alive := rs_alive w; rs_wakes := rs_wakes w |}).
#[local] Instance rsim_fs : FS rsim := {|
  getuid w := getuid (rs_fs w);
  geteuid w := geteuid (rs_fs w);
  lstat w := lstat (rs_fs w);
  read_dir w := read_dir (rs_fs w);
  statfs w := statfs (rs_fs w);
  open_read w := open_read (rs_fs w);
  mkdir w p mode := rs_files w (mkdir (rs_fs w) p mode);
  remove w p := rs_files w (remove (rs_fs w) p);
  create_temp w d pat := let '(r, f) := create_temp (rs_fs w) d pat in (r, (rs_files w (None, f)).2);
  chmod w p mode := rs_files w (chmod (rs_fs w) p mode);
  write_data w p data := rs_files w (write_data (rs_fs w) p data);
  sync_file w p := rs_files w (sync_file (rs_fs w) p);
  close_file w p := rs_files w (close_file (rs_fs w) p);
  rename w src dst := rs_files w (rename (rs_fs w) src dst);
  sync_dir w p := rs_files w (sync_dir (rs_fs w) p);
  content w := content (rs_fs w)
|}.
#[local] Instance rsim_lock : LockOps rsim := {|
  open_lock w p := match mem_files (rs_fs w) !! p with
                   | Some _ => (None, w)
                   | None => rs_files w (None, mem_update (rs_fs w) (<[p := mem_node KRegular 384 1000 ""]> (mem_files (rs_fs w))))
                   end;
  flock w _ := (None, w);
  close_lock w _ := (None, w)
|}.
#[local] Instance rsim_stop : StopOps rsim := {|
  op_privilege w := (Ok tt, w);
  op_inspect w _ := (Ok {| Alive := rs_alive w; Reason := if rs_alive w then "verified live owned process" else "process exited" |}, w);
  op_pidfd_open w _ := (Ok tt, w);
  op_pidfd_signal w _ := (Ok tt, {| rs_fs := rs_fs w; rs_alive := false; rs_wakes := rs_wakes w |});
  op_poll w := (Ok (if rs_alive w then 0 else 1), w);
  op_select w := match rs_wakes w with
                 | O => (CtxDone DeadlineExceeded, w)
                 | S n => (Tick, {| rs_fs := rs_fs w; rs_alive := rs_alive w; rs_wakes := n |})
                 end
|}.
#[local] Instance rsim_recover : RecoverOps rsim := {|
  host_boot w := (Ok "boot"%string, w);
  clock_now w := (1, w)
|}.
#[local] Instance rsim_lawful_fs : LawfulFS rsim.
Proof.
  split; intros w.
  - intros p mode e w' [_ <-]%pair_equal_spec. exact (mkdir_content (rs_fs w) p mode _ _ (surjective_pairing _)).
  - intros p e w' [_ <-]%pair_equal_spec. exact (remove_content (rs_fs w) p _ _ (surjective_pairing _)).
  - intros d pat r w' Hc. cbn [create_temp rsim_fs] in Hc. destruct (create_temp (rs_fs w) d pat) as [r0 f] eqn:E.
    apply pair_equal_spec in Hc as [<- <-]. exact (create_content _ _ _ _ _ E).
  - intros p mode e w' [_ <-]%pair_equal_spec. exact (chmod_content (rs_fs w) p mode _ _ (surjective_pairing _)).
  - intros p data e w' [<- <-]%pair_equal_spec. exact (write_content (rs_fs w) p data _ _ (surjective_pairing _)).
  - intros p e w' [_ <-]%pair_equal_spec. exact (sync_content (rs_fs w) p _ _ (surjective_pairing _)).
  - intros p e w' [_ <-]%pair_equal_spec. exact (close_content (rs_fs w) p _ _ (surjective_pairing _)).
  - intros src dst e w' [<- <-]%pair_equal_spec. exact (rename_content (rs_fs w) src dst _ _ (surjective_pairing _)).
  - intros p e w' [_ <-]%pair_equal_spec. exact (sync_dir_content (rs_fs w) p _ _ (surjective_pairing _)).
Qed.
#[local] Instance rsim_lawful : LawfulRecover rsim.
Proof.
  split; try (intros w; intros; intros q; done).
  - intros w q. cbn. by destruct (rs_wakes w).
  - intros w p q Hq. cbn. destruct (mem_files (rs_fs w) !! p); [done|]. cbn. by rewrite lookup_insert_ne.
  - intros w p Hl. cbn in *. destruct (mem_files (rs_fs w) !! p) as [x|] eqn:E; [|done]. cbn. by rewrite E.
Qed.
#[local] Instance rsim_stops : LawfulStop rsim.
Proof.
  refine {| wakes_left := rs_wakes |}; [done|done|]. intros w. cbn. destruct (rs_wakes w) as [|n] eqn:E; cbn; [left; by eexists|right; lia].
Defined.
Definition live_manifest : RunManifest :=
  mf_set_process {| pid := 42; uid := 1000; start_ticks := 7; host_boot_id := "boot" |} sample_manifest.
Definition in_evidence (name : string) : string := path_join ["/srv/evidence"; sample_run_id; name]%string.
Definition crashed : rsim := {|
  rs_fs := runtime_fs
    [("/run/operator.lock"%string, mem_node KRegular 384 1000 "");
     ("/srv"%string, mem_node KDir 493 0 ""); ("/srv/evidence"%string, mem_node KDir 448 1000 "");
     (path_join ["/srv/evidence"; sample_run_id]%string, mem_node KDir 448 1000 "");
     (in_evidence "manifest.json", mem_node KRegular 384 1000 (print (enc_manifest live_manifest)))];
  rs_alive := true; rs_wakes := 400
|}.
Definition recovery_events : list recover_event :=
  [Looked (Ok {| Alive := true; Reason := "verified live owned process" |}); StopAsked None;
   Looked (Ok {| Alive := false; Reason := "process exited" |}); RuntimeRemoved None].
Definition reported (res : option Recovery * option error) : Prop :=
  match res with (Some o, None) => is_Some (rv_report o) | _ => False end.
Lemma recover_safe_witness :
  match Recover 5 sample_roots sample_run_id true crashed with
  | Some (res, _, t) => (t = recovery_events ∧ reported res) ∧ closed_report t res.1
  | None => False
  end ∧
  match Recover 5 sample_roots sample_run_id false crashed with
  | Some (_, w', _) => rtc looks crashed w' ∧ same_content crashed w'
  | None => False
  end.
Proof.
  assert (Hrun : match Recover 5 sample_roots sample_run_id true crashed with
                 | Some (res, _, t) => t = recovery_events ∧ reported res
                 | None => False
                 end) by (vm_compute; split; [reflexivity|eexists; reflexivity]).
  assert (Hlook : match Recover 5 sample_roots sample_run_id false crashed with
                  | Some (_, _, t) => t = firstn 1 recovery_events
                  | None => False
                  end) by (vm_compute; reflexivity).
  split.
  - destruct (Recover 5 sample_roots sample_run_id true crashed) as [[[res w'] t]|] eqn:E; [|exact Hrun].
    split; [exact Hrun|]. apply (proj2 (recover_safe sample_roots sample_run_id true crashed) 5%nat res w' t E).
  - destruct (Recover 5 sample_roots sample_run_id false crashed) as [[[res w'] t]|] eqn:E; [|exact Hlook].
    apply (proj2 (recover_safe sample_roots sample_run_id false crashed) 5%nat res w' t E). reflexivity.
Defined.
