(* ===== verification/EngineRun.v ===== *)
(** * EngineRun: internal/engine/run.go

    One run from admission to the saved report: the staged execution, the step loop with
    its observations and assertions, and the cleanup that follows every outcome.  The
    state a run keeps is the [state] record; code threads it and an error as the closures
    of [run] do.  The machine it runs on (filesystem, clocks, VMM, guest, randomness) is
    the [Machine] class on top of [FS] and [Link]; the trace records VMM and directory
    operations in order. *)

From S2P Require Import Prelude GoLib Json JsonFacts GoTime GoText JsonUtil JsonText Assertions AssertionFacts Scenario ScenarioFacts Protocol ProtocolFacts HostCheck Firecracker Evidence SafeFS Artifact Config EnginePlan EngineSteps EngineTypes EngineRecover.
From Stdlib Require Import Ascii String.

(** The operations of the host that the run sequences. *)
Class Machine (W : Type) `{FS W} `{Link W} := {
  time_now : W → Z * W;
  observe_host : W → result Observation * W;
  copy_private : W → File → string → option error * W;
  vmm_start : W → Executable → string → result ProcessIdentity * W;
  vmm_exited : W → option string;
  vmm_output : W → list (string * string) * W;
  vmm_stop : W → option error * W;
  guest_ready : W → Z → string → Z → string → string → Prepared → option error * W;
  guest_shutdown : W → option error * W;
  guest_close : W → W;
  cancel_run : W → W;
  parent_error : W → option error;
  begin_run : W → Z → W;
  acquire_lock : W → string → option error * W;
  release_lock : W → W;
  random_bytes : W → nat → result string * W;
  doctor : W → string → result string * W;
  check_executable : W → string → string → result Executable * W;
  sha256_hex : string → string;
  error_text : error → string
}.

Inductive run_event := Started | Stopped (ok : bool) | Removed (ok : bool).

Record state (W D : Type) := {
  st_world : W;
  st_rec : Recorder D;
  st_report : Report;
  st_manifest : RunManifest;
  st_last : option Observation;
  st_proc : bool;
  st_guest : bool;
  st_trace : list run_event
}.
Arguments st_world {W D} _.
Arguments st_rec {W D} _.
Arguments st_report {W D} _.
Arguments st_manifest {W D} _.
Arguments st_last {W D} _.
Arguments st_proc {W D} _.
Arguments st_guest {W D} _.
Arguments st_trace {W D} _.
Arguments Build_state {W D} _ _ _ _ _ _ _ _.

(** What [run] fixes before it executes. *)
Record run_env := {
  rn_config : Config; rn_plan : Plan; rn_id : string; rn_nonce : string; rn_runtime : string;
  rn_manifest_path : string; rn_executable : Executable; rn_start : Z; rn_rec_start : Z
}.

(** *** Causes *)
Definition addCause (text : error → string) (r : Report) (e : option error) : Report :=
  match e with
  | None => r
  | Some e =>
      let s := text e in
      let s := if 4096 <? blen s then (string_take 4096 s +:+ " [cause truncated]")%string else s in
      if (List.length (rp_causes r) <? 64)%nat then rp_set_causes (rp_causes r ++ [s]) r else r
  end.
Definition demote (r : Report) : Report :=
  if rp_execution r =?s "COMPLETED" then rp_set_execution "ERROR" r else r.

(** *** The VMM configuration file *)
Definition enc_vmconfig (c : VMConfig) : json :=
  JObject [("boot-source", JObject [("kernel_image_path", JString (kernel_image_path c));
                                    ("boot_args", JString (boot_args c))]);
           ("drives", JArray (map (λ d, JObject [("drive_id", JString (d_id d)); ("path_on_host", JString (d_path d));
                                                 ("is_root_device", JBool (d_root d));
                                                 ("is_read_only", JBool (d_read_only d))]) (drives c)));
           ("machine-config", JObject [("vcpu_count", enc_int (vcpu_count c)); ("mem_size_mib", enc_int (mem_size_mib c));
                                       ("smt", JBool (smt c))]);
           ("vsock", JObject [("guest_cid", enc_int (guest_cid c)); ("uds_path", JString (uds_path c))])]%string.
Definition AtomicJSON {F} `{FS F} (f : F) (path : string) (v : json) : option error * F :=
  AtomicWrite f path (indent Outside false 0 (print v) +:+ String newline "").
Definition WriteConfig {F} `{FS F} (f : F) (path : string) (o : ConfigOptions) : option error * F :=
  match BuildConfig o with
  | Err e => (Some e, f)
  | Ok c => AtomicJSON f path (enc_vmconfig c)
  end.

(** *** Records of the evidence logs *)
Definition enc_observation (o : Observation) : json :=
  JObject [("realtime_utc", enc_time (o_realtime o)); ("monotonic_ns", enc_int (o_monotonic o));
           ("boottime_ns", enc_int (o_boottime o))]%string.
Definition host_record (label : string) (o : Observation) : json :=
  JObject [("api_version", JString "epoch-clocks/v1"); ("label", JString label);
           ("observation", enc_observation o); ("source", JString "host")]%string.
Definition guest_failure (step : string) (e : Error) : option string :=
  let! err := enc_error e in
  Some (obj (raw_members [("api_version", JString "epoch-clocks/v1")]%string ++ ("error"%string, err) ::
             raw_members [("source", JString "guest"); ("step", JString step)]%string)).
Definition guest_record (s : Step) (raw : string) : option string :=
  let! result := enc_raw raw in
  Some (obj (raw_members [("api_version", JString "epoch-clocks/v1"); ("op", JString (s_op s))]%string
             ++ ("result"%string, result) ::
             raw_members [("source", JString "guest"); ("step", JString (s_id s))]%string)).
Definition enc_event (seq : Z) (stage : string) (elapsed utc : Z) (kind : string) (data : option json) : json :=
  JObject ([("api_version", JString "epoch-event/v1"); ("sequence", enc_int seq); ("stage", JString stage);
            ("elapsed_ns", enc_int elapsed); ("host_utc", enc_time utc); ("kind", JString kind)]%string
           ++ match data with Some d => [("data"%string, d)] | None => [] end).

Definition report_budget : Z := 1048576.

Section run.
Context {W D : Type} `{Machine W} `{Disk D}.
Variable env : run_env.
#[local] Abbreviation scn := (pl_scenario (rn_plan env)).
#[local] Abbreviation image := (pr_manifest (pl_image (rn_plan env))).

(** *** Stateful code that may fail *)
Definition M (A : Type) : Type := state W D → result A * state W D.
#[global] Instance M_ret : MRet M := λ A a st, (Ok a, st).
#[global] Instance M_bind : MBind M := λ A B k m st,
  let '(r, st) := m st in match r with Ok a => k a st | Err e => (Err e, st) end.

Definition set_world (w : W) (st : state W D) : state W D :=
  Build_state w (st_rec st) (st_report st) (st_manifest st) (st_last st) (st_proc st) (st_guest st) (st_trace st).
Definition set_rec (w : W) (r : Recorder D) (st : state W D) : state W D :=
  Build_state w r (st_report st) (st_manifest st) (st_last st) (st_proc st) (st_guest st) (st_trace st).
Definition set_report (f : Report → Report) (st : state W D) : state W D :=
  Build_state (st_world st) (st_rec st) (f (st_report st)) (st_manifest st) (st_last st) (st_proc st)
    (st_guest st) (st_trace st).
Definition set_manifest (f : RunManifest → RunManifest) (st : state W D) : state W D :=
  Build_state (st_world st) (st_rec st) (st_report st) (f (st_manifest st)) (st_last st) (st_proc st)
    (st_guest st) (st_trace st).
Definition set_last (o : Observation) (st : state W D) : state W D :=
  Build_state (st_world st) (st_rec st) (st_report st) (st_manifest st) (Some o) (st_proc st) (st_guest st)
    (st_trace st).
Definition set_proc (st : state W D) : state W D :=
  Build_state (st_world st) (st_rec st) (st_report st) (st_manifest st) (st_last st) true (st_guest st)
    (st_trace st).
Definition set_guest (st : state W D) : state W D :=
  Build_state (st_world st) (st_rec st) (st_report st) (st_manifest st) (st_last st) (st_proc st) true
    (st_trace st).
Definition add_trace (e : run_event) (st : state W D) : state W D :=
  Build_state (st_world st) (st_rec st) (st_report st) (st_manifest st) (st_last st) (st_proc st) (st_guest st)
    (st_trace st ++ [e]).

Definition act {A} (f : state W D → result A * state W D) : M A := f.
Definition modify (f : state W D → state W D) : M unit := λ st, (Ok tt, f st).
Definition check (r : result unit) : M unit := λ st, (r, st).
Definition effect (f : W → option error * W) : M unit :=
  λ st, let '(e, w) := f (st_world st) in (of_err e, set_world w st).
Definition asks {A} (f : W → result A * W) : M A :=
  λ st, let '(r, w) := f (st_world st) in (r, set_world w st).
Definition now : M Z := asks (λ w, let '(t, w) := time_now w in (Ok t, w)).
Definition ctx_err : M unit := λ st, (of_err (ctx_error (st_world st)), st).

(** A recorder operation.  The VMM's output reaches its logs between operations; the
    recorder cancels the run when it first fails. *)
Definition recorded (f : Recorder D → option error * Recorder D) : M unit :=
  λ st, let '(out, w) := vmm_output (st_world st) in
        let rec := fold_left (λ r x, drain_write r x.1 x.2) out (st_rec st) in
        let '(e, rec) := f rec in
        let w := if cancelled rec && negb (cancelled (st_rec st)) then cancel_run w else w in
        (of_err e, set_rec w rec st).
Definition event (stage kind : string) (data : option json) : M unit :=
  t1 ← now;
  t2 ← now;
  recorded (λ r, Event r (λ seq, Some (print (enc_event seq stage (t1 - rn_rec_start env) t2 kind data)))).
Definition clocks (b : option string) : M unit := recorded (λ r, Clocks r b).
Definition action (b : option string) : M unit := recorded (λ r, Action r b).
Definition save_manifest : M unit := act (λ st, effect (λ w, saveManifest w (rn_manifest_path env) (st_manifest st)) st).

Definition stage (s : string) : M unit :=
  _ ← modify (set_report (rp_set_stage s));
  _ ← modify (set_manifest (mf_set_stage s));
  _ ← save_manifest;
  event s "stage" None.

Definition observe (label : string) : M unit :=
  v ← asks observe_host;
  _ ← clocks (Some (print (host_record label v)));
  act (λ st,
        let cmp := match st_last st with
                   | Some last => HostCheck.Compare last v
                                    (wrap64 (HostClockThresholdMS (c_policy (rn_config env)) * millisecond))
                   | None => Ok tt
                   end in
        (cmp, set_last v st)).

(** *** Steps *)
Definition failure_of (stepErr : option error) (combined : error) : Error :=
  match stepErr with
  | Some e => match as_protocol e with
              | Some (c, m, d) => {| e_code := c; e_message := m; e_details := d |}
              | None => {| e_code := "execution"; e_message := error_text combined; e_details := "" |}
              end
  | None => {| e_code := "execution"; e_message := error_text combined; e_details := "" |}
  end.

(** A failed step is reported, and its evidence recorded as far as possible. *)
Definition step_failed (s : Step) (t0 : Z) (raw : string) (stepErr : option error) (combined : error) : M Z :=
  t1 ← now;
  let failure := failure_of stepErr combined in
  let failed := {| sp_id := s_id s; sp_op := s_op s; sp_elapsed := t1 - t0; sp_result := raw;
                   sp_error := Some failure |} in
  _ ← modify (set_report (rp_add_step failed));
  _ ← act (λ st, (Ok tt, (action (enc_step_result failed) st).2));
  _ ← act (λ st, (Ok tt, (clocks (guest_failure (s_id s) failure) st).2));
  act (λ st, (Err combined, st)).

Fixpoint add_results (bytes : Z) (results : list AssertionResult) : M Z :=
  match results with
  | [] => mret bytes
  | r :: results =>
      let bytes := bytes + blen (r_actual r) in
      if report_budget <? bytes
      then act (λ st, (Err (Errorf "combined observation/assertion detail quota exceeded" []), st))
      else _ ← modify (set_report (rp_add_assertion r)); add_results bytes results
  end.

Definition exit_assertion (s : Step) (raw : string) : AssertionResult :=
  let code := match store dec_action zero_action raw with Ok a => ar_exit a | Err _ => 0 end in
  let want := default 0 (s_expected s) in
  {| r_id := "auto:" +:+ s_id s +:+ ":exit_code"; r_step := s_id s;
     r_status := if code =? want then "PASS" else "FAIL"; r_actual := itoa code;
     r_message := "expected exit code " +:+ itoa want |}.

Definition step_succeeded (s : Step) (t0 bytes : Z) (raw : string) : M Z :=
  let bytes := bytes + blen raw in
  _ ← check (fail_if report_budget <? bytes
               with Errorf "combined step result quota exceeded (1 MiB report budget)" [] ;; Ok tt);
  t1 ← now;
  let sr := {| sp_id := s_id s; sp_op := s_op s; sp_elapsed := t1 - t0; sp_result := raw; sp_error := None |} in
  _ ← modify (set_report (rp_add_step sr));
  _ ← action (enc_step_result sr);
  _ ← clocks (guest_record s raw);
  let selected := List.filter (λ a, a_step a =?s s_id s) (sc_assertions scn) in
  let '(results, evalErr) := Evaluate selected [(s_id s, raw)] in
  bytes ← add_results bytes results;
  _ ← check (of_err evalErr);
  _ ← modify (if s_op s =?s "action.exec" then set_report (rp_add_assertion (exit_assertion s raw)) else id);
  _ ← act (λ st, event (rp_stage (st_report st)) "step.complete" (Some (JObject [("id"%string, JString (s_id s))])) st);
  mret bytes.

(** [errors.Join(stepErr, afterErr)] decides between the two. *)
Definition run_step (bytes : Z) (s : Step) : M Z :=
  _ ← ctx_err;
  _ ← observe (s_id s +:+ ".before");
  _ ← act (λ st, event (rp_stage (st_report st)) "step.begin"
                   (Some (JObject [("id", JString (s_id s)); ("op", JString (s_op s))]%string)) st);
  t0 ← now;
  act (λ st,
    let '(res, w) := executeStep (st_world st) s in
    let '(after, st) := observe (s_id s +:+ ".after") (set_world w st) in
    let stepErr := err_of res in
    let raw := match res with Ok raw => raw | Err _ => ""%string end in
    match join_errors [stepErr; err_of after] with
    | Some combined => step_failed s t0 raw stepErr combined st
    | None => step_succeeded s t0 bytes raw st
    end).
Fixpoint run_steps (bytes : Z) (steps : list Step) : M Z :=
  match steps with
  | [] => mret bytes
  | s :: steps => bytes ← run_step bytes s; run_steps bytes steps
  end.

(** *** Execution *)
Definition vm_options : ConfigOptions :=
  {| KernelPath := f_path (im_kernel image);
     RootFSPath := path_join [rn_runtime env; "rootfs.ext4"%string];
     SocketPath := path_join [rn_runtime env; "vsock.sock"%string];
     o_run := rn_id env; o_nonce := rn_nonce env; o_cid := c_cid (rn_config env);
     VCPUs := VCPUCount (sc_resources scn); MemMiB := MemoryMiB (sc_resources scn) |}.
Definition prepare : M unit :=
  _ ← stage "VALIDATING";
  _ ← recorded (λ r, SaveRaw r "scenario.input.json" (pl_input (rn_plan env)));
  _ ← recorded (λ r, Save r "scenario.resolved.json" (MarshalIndent (enc_scenario scn)));
  _ ← observe "run.begin";
  _ ← stage "PREPARING";
  _ ← asks (λ w, EnsurePrivateDir w (rn_runtime env));
  _ ← asks (λ w, (CheckSpace w (rn_runtime env) (f_size (im_rootfs image))
                    (ReserveBytes (c_policy (rn_config env))), w));
  _ ← effect (λ w, copy_private w (im_rootfs image) (path_join [rn_runtime env; "rootfs.ext4"%string]));
  _ ← effect (λ w, WriteConfig w (path_join [rn_runtime env; "firecracker.json"%string]) vm_options);
  _ ← recorded (λ r, OpenLog r "firecracker.stdout.log");
  recorded (λ r, OpenLog r "firecracker.stderr.log").
Definition boot : M unit :=
  _ ← stage "BOOTING";
  identity ← asks (λ w, vmm_start w (rn_executable env) (path_join [rn_runtime env; "firecracker.json"%string]));
  _ ← modify (add_trace Started);
  _ ← modify set_proc;
  _ ← modify (set_manifest (mf_set_process identity));
  _ ← save_manifest;
  _ ← effect (λ w, guest_ready w (wrap64 (sc_boot_timeout scn * millisecond))
                     (path_join [rn_runtime env; "vsock.sock"%string]) (c_port (rn_config env))
                     (rn_id env) (rn_nonce env) (pl_image (rn_plan env)));
  _ ← modify set_guest;
  _ ← stage "READY";
  stage "RUNNING".
Definition execute : M unit :=
  _ ← prepare;
  _ ← boot;
  _ ← run_steps 0 (sc_steps scn);
  _ ← observe "run.end";
  _ ← ctx_err;
  _ ← stage "COLLECTING";
  act (λ st, (of_err (rec_err (st_rec st)), st)).

(** *** The outcome and the cleanup *)
Definition is_canceled (e : option error) : bool :=
  match e with Some e => is_sentinel "context.Canceled" e | None => false end.
Definition conclude (runErr : option error) (st : state W D) : state W D :=
  let runErr := if st_proc st then
                  match vmm_exited (st_world st) with
                  | Some text => join_errors [runErr; Some (Errorf "VMM exited during execution: %v" [text])]
                  | None => runErr
                  end
                else runErr in
  match runErr with
  | None =>
      set_report (λ r, rp_set_assertion
        (if forallb (λ a, r_status a =?s "PASS") (rp_assertions r) then "PASS"%string else "FAIL"%string)
        (rp_set_execution "COMPLETED" r)) st
  | Some e =>
      set_report (λ r, let r := addCause error_text r (Some e) in
                       if is_canceled (parent_error (st_world st)) then rp_set_execution "CANCELLED" r else r) st
  end.

(** Run [m]; a failure becomes a cause, and no completed execution survives it. *)
Definition attempt (wrap : error → error) (m : M unit) (st : state W D) : state W D :=
  let '(r, st) := m st in
  match r with
  | Ok _ => st
  | Err e => set_report (λ r, demote (addCause error_text r (Some (wrap e)))) st
  end.
Definition shut_down_guest (st : state W D) : state W D :=
  if st_guest st then
    let st := attempt (Wrapf "guest shutdown: %w" []) (effect guest_shutdown) st in
    set_world (guest_close (st_world st)) st
  else st.
Definition stop_vmm (st : state W D) : bool * state W D :=
  if st_proc st then
    let '(e, w) := vmm_stop (st_world st) in
    let st := add_trace (Stopped (match e with None => true | Some _ => false end)) (set_world w st) in
    match e with
    | Some e => (false, set_report (λ r, addCause error_text r (Some (Wrapf "VMM cleanup: %w" [] e))) st)
    | None => (true, st)
    end
  else (true, st).
Definition remove_runtime (st : state W D) : state W D :=
  let '(e, w) := removeOwnedRuntime (st_world st) (rn_config env) (st_manifest st) in
  let st := add_trace (Removed (match e with None => true | Some _ => false end)) (set_world w st) in
  match e with
  | Some e => set_report (λ r, addCause error_text r (Some e)) st
  | None => set_report (rp_set_cleanup "COMPLETE") st
  end.
Definition clean_up (st : state W D) : state W D :=
  let st := attempt id (stage "CLEANING") st in
  let st := shut_down_guest st in
  let '(dead, st) := stop_vmm st in
  let st := attempt id (observe "cleanup.end") st in
  let st := if dead : bool then remove_runtime st else st in
  let st := set_manifest (mf_set_cleanup (rp_cleanup (st_report st))) st in
  let st := attempt id (stage "FINISHED") st in
  let st := attempt id (recorded (λ r, Close r)) st in
  attempt id (λ st, (of_err (rec_err (st_rec st)), st)) st.
Definition finish (st : state W D) : option error * state W D :=
  let st := if is_canceled (parent_error (st_world st)) && (rp_execution (st_report st) <>?s "CANCELLED") then
              set_report (λ r, rp_set_execution "CANCELLED"
                (addCause error_text r (Some (Wrapf "run cancelled during cleanup: %w" []
                                          (default Canceled (parent_error (st_world st))))))) st
            else st in
  let '(t1, w) := time_now (st_world st) in
  let '(t2, w) := time_now w in
  let st := set_report (rp_finish t1 (t2 - rn_start env)) (set_world w st) in
  match recorded (λ r, Final r (enc_report (st_report st))) st with
  | (Err e, st) =>
      (Some e, set_report (λ r, demote (addCause error_text r (Some (Wrapf "report not saved: %w" [] e)))) st)
  | (Ok _, st) => (None, set_report rp_mark_saved st)
  end.
Definition execute_and_finish (st : state W D) : option error * state W D :=
  let '(r, st) := execute st in
  finish (clean_up (conclude (err_of r) st)).
End run.

(** *** From the command line to the report *)
Definition hex_digit (n : Z) : ascii := if n <? 10 then chr (48 + n) else chr (87 + n).
Fixpoint hex_encode (b : string) : string :=
  match b with
  | EmptyString => ""
  | String c b => String (hex_digit (bz c / 16)) (String (hex_digit (bz c mod 16)) (hex_encode b))
  end.

Section whole_run.
Context {W D : Type} `{Machine W} `{Disk D}.

Definition randomID (w : W) (n : nat) : result string * W :=
  let '(b, w) := random_bytes w n in ((let? b := b in Ok (hex_encode b)), w).

Definition initial_report (env : run_env) : Report := {|
  rp_api := ReportVersion; rp_run := rn_id env; rp_scenario := sc_name (pl_scenario (rn_plan env));
  rp_mode := "guest-wall-clock-step/v1"; rp_execution := "ERROR"; rp_assertion := "NOT_EVALUATED";
  rp_cleanup := "INCOMPLETE"; rp_started := rn_start env; rp_finished := zero_time; rp_elapsed := 0;
  rp_stage := "VALIDATING"; rp_steps := []; rp_assertions := []; rp_causes := []; rp_saved := false
|}.
Definition initial_manifest (env : run_env) (boot : string) (uid : Z) (config_sha : string) : RunManifest := {|
  mf_api := "epoch-run/v1"; mf_run := rn_id env; mf_boot := boot; mf_uid := uid; mf_stage := "VALIDATING";
  mf_started := rn_start env; mf_runtime := rn_runtime env;
  mf_created := ["firecracker.json"; "rootfs.ext4.partial"; "rootfs.ext4"; "vsock.sock"]%string;
  mf_config_sha := config_sha; mf_scenario_sha := sha256_hex (pl_input (rn_plan env));
  mf_artifact_sha := pr_sha256 (pl_image (rn_plan env)); mf_image := pr_manifest (pl_image (rn_plan env));
  mf_executable := rn_executable env; mf_process := None; mf_cleanup := "INCOMPLETE"
|}.

(** Everything up to the first run directory; no VMM exists yet, and every refusal is
    an error without a report. *)
Definition admission (c : Config) (privilege : result unit) (plan : result Plan) (w : W) :
    result (Plan * string * Executable) * W :=
  match (do? privilege ;; map_err ErrValidation plan) with
  | Err e => (Err e, w)
  | Ok p =>
      let '(boot, w) := doctor w (FirecrackerPath c) in
      match boot with Err e => (Err e, w) | Ok boot =>
      let '(exe, w) := check_executable w (FirecrackerPath c) (im_firecracker (pr_manifest (pl_image p))) in
      match exe with Err e => (Err e, w) | Ok exe =>
      let '(r, w) := EnsurePrivateDir w (RuntimeRoot c) in
      match r with Err e => (Err e, w) | Ok _ =>
      let '(r, w) := EnsurePrivateDir w (EvidenceDir c) in
      match r with Err e => (Err e, w) | Ok _ =>
      let '(e, w) := acquire_lock w (RuntimeRoot c) in
      match e with Some e => (Err e, w) | None => (Ok (p, boot, exe), w) end
      end end end end
  end.

(** [evidence_disk] is the evidence directory of the new run; [config_text] the
    marshalled configuration. *)
Definition run (c : Config) (config_text : string) (privilege : result unit) (plan : result Plan)
    (evidence_disk : D) (w : W) : (option Report * option error) * W :=
  let '(adm, w) := admission c privilege plan w in
  match adm with
  | Err e => ((None, Some e), w)
  | Ok (p, boot, exe) =>
      let refuse e w := ((None, Some e), release_lock w) in
      match admit_run w c with
      | Err e => refuse e w
      | Ok _ =>
      let '(id, w) := randomID w 16 in
      match id with Err e => refuse e w | Ok id =>
      let '(nonce, w) := randomID w 32 in
      match nonce with Err e => refuse e w | Ok nonce =>
      let evidence_dir := path_join [EvidenceDir c; id] in
      let '(r, w) := EnsurePrivateDir w evidence_dir in
      match r with Err e => refuse e w | Ok _ =>
      let '(start, w) := time_now w in
      let w := begin_run w (wrap64 (sc_timeout (pl_scenario p) * millisecond)) in
      let '(rec_start, w) := time_now w in
      let '(rec, _) := NewRecorder evidence_disk in
      match rec with
      | Err e => refuse (Wrapf "evidence initialization: %w" [] e) w
      | Ok rec =>
          let env := {| rn_config := c; rn_plan := p; rn_id := id; rn_nonce := nonce;
                        rn_runtime := path_join [RuntimeRoot c; id];
                        rn_manifest_path := path_join [evidence_dir; "manifest.json"%string];
                        rn_executable := exe; rn_start := start; rn_rec_start := rec_start |} in
          let st := Build_state w rec (initial_report env)
                      (initial_manifest env boot (getuid w) (sha256_hex config_text)) None false false [] in
          let '(e, st) := execute_and_finish env st in
          ((Some (st_report st), e), release_lock (st_world st))
      end end end end end
  end.
End whole_run.
