(* ===== verification/EngineRunFacts.v ===== *)
(** * EngineRunFacts: what a finished run's report means

    The verdict: a run that exits with 0 executed every planned step with host-checked
    evidence and passed every declared assertion, cleaned up, and saved its report.  The
    cleanup: the runtime directory is removed only when no VMM can be using it. *)

From S2P Require Import Prelude GoLib Json JsonFacts GoTime GoText JsonUtil JsonText Assertions AssertionFacts Scenario ScenarioFacts Protocol ProtocolFacts HostCheck Firecracker GuestClient Evidence SafeFS Artifact Config EnginePlan EngineSteps EngineTypes EngineRecover EngineRun.
From Stdlib Require Import Ascii String.

#[local] Arguments addCause : simpl never.
#[local] Arguments demote : simpl never.

Section facts.
Context {W D : Type} `{Machine W} `{Disk D}.
Variable env : run_env.
#[local] Abbreviation St := (state W D).
#[local] Abbreviation MM := (M (W := W) (D := D)).

(** ** Projections that code leaves alone *)
Definition keeps {A B} (f : St → B) (m : MM A) : Prop := ∀ st, f (m st).2 = f st.
(** A projection that sees neither the world, the evidence, the last observation nor
    the stage. *)
Record blind {B} (f : St → B) : Prop := {
  bl_world w st : f (set_world w st) = f st;
  bl_rec w r st : f (set_rec w r st) = f st;
  bl_last o st : f (set_last o st) = f st;
  bl_stage s st : f (set_report (rp_set_stage s) st) = f st;
  bl_manifest s st : f (set_manifest (mf_set_stage s) st) = f st
}.
(** What the cleanup depends on, and what the verdict depends on. *)
Definition control (st : St) :=
  (rp_execution (st_report st), rp_assertion (st_report st), rp_cleanup (st_report st),
   (st_trace st, st_proc st, st_guest st, mf_process (st_manifest st))).
Definition data (st : St) := (rp_steps (st_report st), rp_assertions (st_report st)).
Lemma control_blind : blind control.
Proof. by split. Qed.
Lemma data_blind : blind data.
Proof. by split. Qed.

Section blind.
Context {B : Type} (f : St → B) (Hf : blind f).

Lemma keeps_ret {A} (a : A) : keeps f (mret a).
Proof. by intros st. Qed.
Lemma keeps_bind {A C} (m : MM A) (k : A → MM C) :
  keeps f m → (∀ a, keeps f (k a)) → keeps f (m ≫= k).
Proof.
  intros Hm Hk st. unfold mbind, M_bind. specialize (Hm st). destruct (m st) as [[a|e] st1]; cbn in *; [|done].
  by rewrite Hk.
Qed.
Lemma keeps_check r : keeps f (check r).
Proof. by intros st. Qed.
Lemma keeps_asks {A} (g : W → result A * W) : keeps f (asks g).
Proof. intros st. unfold asks. destruct (g _) as [r w]. apply (bl_world _ Hf). Qed.
Lemma keeps_effect g : keeps f (effect g).
Proof. intros st. unfold effect. destruct (g _) as [e w]. apply (bl_world _ Hf). Qed.
Lemma keeps_recorded g : keeps f (recorded g).
Proof.
  intros st. unfold recorded. destruct (vmm_output _) as [out w]. cbv zeta. destruct (g _) as [e r].
  apply (bl_rec _ Hf).
Qed.
Lemma keeps_modify g : (∀ st, f (g st) = f st) → keeps f (modify g).
Proof. intros Hg st. apply Hg. Qed.
Lemma keeps_act {A} (m : St → result A * St) : (∀ st, f (m st).2 = f st) → keeps f (act m).
Proof. intros Hm st. apply Hm. Qed.
Lemma keeps_now : keeps f now.
Proof. apply keeps_asks. Qed.
Lemma keeps_event s k d : keeps f (event env s k d).
Proof.
  unfold event. apply keeps_bind; [apply keeps_now|intros t1]. apply keeps_bind; [apply keeps_now|intros t2].
  apply keeps_recorded.
Qed.
Lemma keeps_clocks v : keeps f (clocks v).
Proof. apply keeps_recorded. Qed.
Lemma keeps_action v : keeps f (action v).
Proof. apply keeps_recorded. Qed.
Lemma keeps_save_manifest : keeps f (save_manifest env).
Proof. apply keeps_act. intros st. apply keeps_effect. Qed.
Lemma keeps_stage s : keeps f (stage env s).
Proof.
  unfold stage. apply keeps_bind; [apply keeps_modify, (bl_stage _ Hf)|intros _].
  apply keeps_bind; [apply keeps_modify, (bl_manifest _ Hf)|intros _].
  apply keeps_bind; [apply keeps_save_manifest|intros _]. apply keeps_event.
Qed.
Lemma keeps_observe l : keeps f (observe env l).
Proof.
  unfold observe. apply keeps_bind; [apply keeps_asks|intros v].
  apply keeps_bind; [apply keeps_clocks|intros _]. apply keeps_act. intros st. apply (bl_last _ Hf).
Qed.
Lemma keeps_ctx_err : keeps f ctx_err.
Proof. by intros st. Qed.
End blind.

(** Discharge [keeps f m] along the structure of [m]. *)
Ltac keep Hf :=
  repeat lazymatch goal with
    | |- keeps _ (stage _ _) => apply (keeps_stage _ Hf)
    | |- keeps _ (observe _ _) => apply (keeps_observe _ Hf)
    | |- keeps _ (event _ _ _ _) => apply (keeps_event _ Hf)
    | |- keeps _ (clocks _) => apply (keeps_clocks _ Hf)
    | |- keeps _ (action _) => apply (keeps_action _ Hf)
    | |- keeps _ (save_manifest _) => apply (keeps_save_manifest _ Hf)
    | |- keeps _ (recorded _) => apply (keeps_recorded _ Hf)
    | |- keeps _ now => apply (keeps_now _ Hf)
    | |- keeps _ (asks _) => apply (keeps_asks _ Hf)
    | |- keeps _ (effect _) => apply (keeps_effect _ Hf)
    | |- keeps _ ctx_err => apply keeps_ctx_err
    | |- keeps _ (check _) => apply keeps_check
    | |- keeps _ (mret _) => apply keeps_ret
    | |- keeps _ (mbind _ _) => apply keeps_bind; [|intros ?]
    | |- keeps _ (modify _) => apply keeps_modify; intros ?; reflexivity
    end.

Lemma keeps_prepare {B} (f : St → B) (Hf : blind f) : keeps f (prepare env).
Proof. unfold prepare. keep Hf. Qed.

Lemma bind_ok {A C} (m : MM A) (k : A → MM C) st c st' :
  (m ≫= k) st = (Ok c, st') → ∃ a st1, m st = (Ok a, st1) ∧ k a st1 = (Ok c, st').
Proof. unfold mbind, M_bind. destruct (m st) as [[a|e] st1]; [|done]. eauto. Qed.
Lemma keeps_eq {A B} (f : St → B) (m : MM A) st r st' : keeps f m → m st = (r, st') → f st' = f st.
Proof. intros Hk Hm. specialize (Hk st). by rewrite Hm in Hk. Qed.

(** ** The step loop *)
Definition selected (s : Step) : list Assertion :=
  List.filter (λ a, a_step a =?s s_id s) (sc_assertions (pl_scenario (rn_plan env))).

Lemma add_results_control bytes results : keeps control (add_results bytes results).
Proof.
  revert bytes. induction results as [|r results IH]; intros bytes; cbn [add_results]; [apply keeps_ret|].
  cbv zeta. destruct (_ <? _); [by apply keeps_act|]. apply keeps_bind; [by apply keeps_modify|]. intros _. apply IH.
Qed.
Lemma step_failed_control s t0 raw e c : keeps control (step_failed s t0 raw e c).
Proof.
  unfold step_failed. apply keeps_bind; [apply (keeps_now _ control_blind)|intros t1]. cbv zeta.
  apply keeps_bind; [by apply keeps_modify|intros _].
  apply keeps_bind; [apply keeps_act; intros st; apply (keeps_action _ control_blind)|intros _].
  apply keeps_bind; [apply keeps_act; intros st; apply (keeps_clocks _ control_blind)|intros _].
  by apply keeps_act.
Qed.
Lemma step_succeeded_control s t0 bytes raw : keeps control (step_succeeded env s t0 bytes raw).
Proof.
  unfold step_succeeded. cbv zeta. apply keeps_bind; [apply keeps_check|intros _].
  apply keeps_bind; [apply (keeps_now _ control_blind)|intros t1].
  apply keeps_bind; [by apply keeps_modify|intros _].
  apply keeps_bind; [apply (keeps_action _ control_blind)|intros _].
  apply keeps_bind; [apply (keeps_clocks _ control_blind)|intros _].
  destruct (Evaluate _ _) as [results evalErr]. apply keeps_bind; [apply add_results_control|intros bytes'].
  apply keeps_bind; [apply keeps_check|intros _].
  apply keeps_bind; [apply keeps_modify; intros st; by destruct (s_op s =?s _)|intros _].
  apply keeps_bind; [apply keeps_act; intros st; apply (keeps_event _ control_blind)|intros _]. apply keeps_ret.
Qed.
Lemma run_step_control bytes s : keeps control (run_step env bytes s).
Proof.
  unfold run_step. apply keeps_bind; [apply keeps_ctx_err|intros _].
  apply keeps_bind; [apply (keeps_observe _ control_blind)|intros _].
  apply keeps_bind; [apply keeps_act; intros st; apply (keeps_event _ control_blind)|intros _].
  apply keeps_bind; [apply (keeps_now _ control_blind)|intros t0]. apply keeps_act. intros st.
  destruct (executeStep _ _) as [res w]. destruct (observe _ _ _) as [after st1] eqn:Eo.
  apply (keeps_eq control) in Eo; [|apply (keeps_observe _ control_blind)]. rewrite (bl_world _ control_blind) in Eo.
  cbv zeta. destruct (join_errors _); rewrite <-Eo; [apply step_failed_control|apply step_succeeded_control].
Qed.
Lemma run_steps_control bytes steps : keeps control (run_steps env bytes steps).
Proof.
  revert bytes. induction steps as [|s steps IH]; intros bytes; cbn [run_steps]; [apply keeps_ret|].
  apply keeps_bind; [apply run_step_control|apply IH].
Qed.

(** What a successful step adds to the report. *)
Record step_done (s : Step) (x : StepResult) (rs : list AssertionResult) : Prop := {
  sd_id : sp_id x = s_id s ∧ sp_op x = s_op s ∧ sp_error x = None;
  sd_executed : ∃ w w' : W, executeStep w s = (Ok (sp_result x), w');
  sd_evaluated : ∃ results, Evaluate (selected s) [(s_id s, sp_result x)] = (results, None) ∧
    rs = results ++ (if s_op s =?s "action.exec" then [exit_assertion s (sp_result x)] else [])
}.

Definition actual_bytes (rs : list AssertionResult) : Z := fold_right (λ r n, blen (r_actual r) + n) 0 rs.
Lemma add_results_data bytes results st b st' :
  add_results bytes results st = (Ok b, st') → bytes <= report_budget →
  data st' = ((data st).1, (data st).2 ++ results) ∧ b = bytes + actual_bytes results ∧ b <= report_budget.
Proof.
  revert bytes st. induction results as [|r results IH]; intros bytes st; cbn [add_results].
  { intros [= <- <-] Hb. rewrite app_nil_r. split; [reflexivity|cbn; lia]. }
  cbv zeta. destruct (Z.ltb_spec report_budget (bytes + blen (r_actual r))); [done|].
  intros (? & st1 & [= <- <-] & Ha)%bind_ok _. destruct (IH _ _ Ha ltac:(lia)) as (Hd & -> & Hb').
  change (actual_bytes (r :: results)) with (blen (r_actual r) + actual_bytes results).
  split_and!; [|lia|done]. rewrite Hd. cbn. by rewrite <-app_assoc.
Qed.

Lemma step_succeeded_data s t0 bytes raw st b st' :
  step_succeeded env s t0 bytes raw st = (Ok b, st') →
  ∃ x results,
    Evaluate (selected s) [(s_id s, raw)] = (results, None) ∧
    sp_id x = s_id s ∧ sp_op x = s_op s ∧ sp_error x = None ∧ sp_result x = raw ∧
    data st' = ((data st).1 ++ [x],
                (data st).2 ++ results ++ (if s_op s =?s "action.exec" then [exit_assertion s raw] else [])) ∧
    b = bytes + blen raw + actual_bytes results ∧ b <= report_budget.
Proof.
  unfold step_succeeded. cbv zeta. intros Hs.
  apply bind_ok in Hs as ([] & s1 & Hc & Hs). unfold check in Hc. apply pair_eq in Hc as [Hc <-].
  destruct (Z.ltb_spec report_budget (bytes + blen raw)) as [|Hb]; [done|].
  apply bind_ok in Hs as (t1 & s2 & Ht & Hs). apply (keeps_eq data) in Ht; [|apply (keeps_now _ data_blind)].
  apply bind_ok in Hs as ([] & s3 & Hm & Hs). apply pair_eq in Hm as [_ <-].
  apply bind_ok in Hs as ([] & s4 & Ha & Hs). apply (keeps_eq data) in Ha; [|apply (keeps_action _ data_blind)].
  apply bind_ok in Hs as ([] & s5 & Hk & Hs). apply (keeps_eq data) in Hk; [|apply (keeps_clocks _ data_blind)].
  fold (selected s) in Hs. destruct (Evaluate (selected s) _) as [results evalErr] eqn:Ee.
  apply bind_ok in Hs as (b1 & s6 & Hr & Hs). apply add_results_data in Hr as (Hr & -> & Hb'); [|done].
  apply bind_ok in Hs as ([] & s7 & Hc' & Hs). unfold check in Hc'. apply pair_eq in Hc' as [Hc' <-].
  destruct evalErr; [done|]. apply bind_ok in Hs as ([] & s8 & Hm & Hs).
  apply pair_eq in Hm as [_ <-].
  apply bind_ok in Hs as ([] & s9 & Hv & Hs).
  apply (keeps_eq data) in Hv; [|apply keeps_act; intros x; apply (keeps_event _ data_blind)].
  injection Hs as <- <-.
  exists {| sp_id := s_id s; sp_op := s_op s; sp_elapsed := t1 - t0; sp_result := raw; sp_error := None |}, results.
  split_and!; try done. rewrite Hv.
  assert (Hd : data s6 = ((data st).1 ++ [{| sp_id := s_id s; sp_op := s_op s; sp_elapsed := t1 - t0;
                                             sp_result := raw; sp_error := None |}], (data st).2 ++ results)).
  { rewrite Hr, Hk, Ha. unfold data in Ht |- *. cbn in *. injection Ht as -> ->. done. }
  destruct (s_op s =?s "action.exec").
  - unfold data in Hd |- *. cbn in *. injection Hd as -> ->. by rewrite app_assoc.
  - unfold id. by rewrite Hd, app_nil_r.
Qed.

Lemma run_step_data bytes s st b st' :
  run_step env bytes s st = (Ok b, st') →
  ∃ x rs, step_done s x rs ∧ data st' = ((data st).1 ++ [x], (data st).2 ++ rs) ∧
          b <= report_budget ∧ bytes + blen (sp_result x) <= b.
Proof.
  unfold run_step. intros Hs.
  apply bind_ok in Hs as ([] & s1 & Hc & Hs). apply (keeps_eq data) in Hc; [|apply keeps_ctx_err].
  apply bind_ok in Hs as ([] & s2 & Ho & Hs). apply (keeps_eq data) in Ho; [|apply (keeps_observe _ data_blind)].
  apply bind_ok in Hs as ([] & s3 & Hv & Hs).
  apply (keeps_eq data) in Hv; [|apply keeps_act; intros x; apply (keeps_event _ data_blind)].
  apply bind_ok in Hs as (t0 & s4 & Ht & Hs). apply (keeps_eq data) in Ht; [|apply (keeps_now _ data_blind)].
  unfold act in Hs. destruct (executeStep (st_world s4) s) as [res w] eqn:Ex.
  destruct (observe env _ _) as [after s5] eqn:Eo.
  apply (keeps_eq data) in Eo; [|apply (keeps_observe _ data_blind)]. cbv zeta in Hs.
  destruct (join_errors _) as [combined|] eqn:Ej.
  { unfold step_failed in Hs. apply bind_ok in Hs as (t1 & q1 & _ & Hs).
    repeat (apply bind_ok in Hs as (? & ? & _ & Hs)). done. }
  apply join_errors_none in Ej. rewrite !Forall_cons in Ej. destruct Ej as (Er & _ & _).
  destruct res as [raw|]; [|done].
  apply step_succeeded_data in Hs as (x & results & He & Hid & Hop & Herr & <- & Hd & -> & Hb).
  exists x, (results ++ (if s_op s =?s "action.exec" then [exit_assertion s (sp_result x)] else [])).
  split; [split; [done|by exists (st_world s4), w|by exists results]|].
  assert (Hnn : 0 <= actual_bytes results).
  { clear. induction results as [|r l IH]; [done|].
    change (actual_bytes (r :: l)) with (blen (r_actual r) + actual_bytes l). unfold blen. lia. }
  split_and!; [|done|lia]. rewrite Hd, Eo, (bl_world _ data_blind), Ht, Hv, Ho, Hc. done.
Qed.

Lemma run_steps_data bytes steps st b st' :
  run_steps env bytes steps st = (Ok b, st') → bytes <= report_budget →
  ∃ xrs, Forall2 (λ s xr, step_done s xr.1 xr.2) steps xrs ∧
         data st' = ((data st).1 ++ map fst xrs, (data st).2 ++ List.concat (map snd xrs)) ∧ b <= report_budget ∧
         bytes + fold_right (λ x n, blen (sp_result x) + n) 0 (map fst xrs) <= b.
Proof.
  revert bytes st. induction steps as [|s steps IH]; intros bytes st; cbn [run_steps].
  { intros [= <- <-] Hb. exists []. rewrite !app_nil_r. split_and!; [constructor|reflexivity|done|cbn; lia]. }
  intros (b1 & st1 & Hs & Hr)%bind_ok _. apply run_step_data in Hs as (x & rs & Hx & Hd & Hb & Hle).
  destruct (IH _ _ Hr Hb) as (xrs & Hall & Hd' & Hb' & Hle'). exists ((x, rs) :: xrs).
  split_and!; [by constructor| |done|cbn in *; lia]. rewrite Hd', Hd. cbn. by rewrite <-!app_assoc.
Qed.

(** ** Execution *)
Definition outcome (st : St) :=
  (rp_execution (st_report st), rp_assertion (st_report st), rp_cleanup (st_report st)).
Definition vm (st : St) := (st_trace st, st_proc st).
Lemma outcome_blind : blind outcome.
Proof. by split. Qed.
Lemma vm_blind : blind vm.
Proof. by split. Qed.

Lemma boot_outcome : keeps outcome (boot env).
Proof. unfold boot. keep outcome_blind. Qed.
Lemma boot_data : keeps data (boot env).
Proof. unfold boot. keep data_blind. Qed.
Lemma bind_state {A C} (m : MM A) (k : A → MM C) st :
  ((m ≫= k) st).2 = match m st with (Ok a, st1) => (k a st1).2 | (Err _, st1) => st1 end.
Proof. unfold mbind, M_bind. by destruct (m st) as [[a|e] st1]. Qed.
Lemma boot_vm st : vm (boot env st).2 = vm st ∨ vm (boot env st).2 = (st_trace st ++ [Started], true).
Proof.
  unfold boot. rewrite bind_state. destruct (stage env "BOOTING" st) as [[u|e] s1] eqn:E1;
    apply (keeps_eq vm) in E1; try apply (keeps_stage _ vm_blind); [|by left].
  rewrite bind_state. destruct (asks _ s1) as [[identity|e] s2] eqn:E2;
    apply (keeps_eq vm) in E2; try apply (keeps_asks _ vm_blind); [|left; by rewrite E2].
  right. rewrite bind_state. cbn [modify]. rewrite bind_state. cbn [modify].
  match goal with |- vm (?m ?s).2 = _ => assert (K : keeps vm m); [keep vm_blind|rewrite (K s)] end.
  unfold vm in *. cbn in *. rewrite E1 in E2. injection E2 as -> _. done.
Qed.

Lemma control_vm {A} (m : MM A) : keeps control m → keeps vm m ∧ keeps outcome m.
Proof.
  intros Hk. split; intros st; specialize (Hk st); unfold control, vm, outcome in *; congruence.
Qed.
(** What the run knows of its VMM: that it started one, and the identity it was given. *)
Definition known (st : St) := (st_proc st, mf_process (st_manifest st)).
Lemma known_blind : blind known.
Proof. by split. Qed.
Lemma control_known {A} (m : MM A) : keeps control m → keeps known m.
Proof. intros Hk st. specialize (Hk st). unfold control, known in *. congruence. Qed.
Lemma execute_outcome : keeps outcome (execute env).
Proof.
  unfold execute. apply keeps_bind; [apply (keeps_prepare _ outcome_blind)|intros _].
  apply keeps_bind; [apply boot_outcome|intros _].
  apply keeps_bind; [apply control_vm, run_steps_control|intros b]. keep outcome_blind. by apply keeps_act.
Qed.
Lemma execute_vm st : vm st = ([], false) →
  vm (execute env st).2 = ([], false) ∨ vm (execute env st).2 = ([Started], true).
Proof.
  intros Hst. unfold execute. rewrite bind_state. destruct (prepare env st) as [[u|e] s1] eqn:E1;
    apply (keeps_eq vm) in E1; try apply (keeps_prepare _ vm_blind); [|left; by rewrite E1].
  rewrite bind_state. pose proof (boot_vm s1) as Hb. unfold vm in Hst, E1. rewrite Hst in E1. injection E1 as Et Ep.
  destruct (boot env s1) as [[u'|e] s2]; cbn [snd] in Hb |- *.
  2:{ unfold vm at 2 in Hb. rewrite Et, Ep in Hb. done. }
  match goal with |- vm (?m ?s).2 = _ ∨ _ => assert (K : keeps vm m); [|rewrite (K s)] end.
  { apply keeps_bind; [apply control_vm, run_steps_control|intros b]. keep vm_blind. by apply keeps_act. }
  unfold vm at 2 in Hb. rewrite Et, Ep in Hb. done.
Qed.

Lemma execute_ok st st' : execute env st = (Ok tt, st') →
  ∃ xrs, Forall2 (λ s xr, step_done s xr.1 xr.2) (sc_steps (pl_scenario (rn_plan env))) xrs ∧
         data st' = ((data st).1 ++ map fst xrs, (data st).2 ++ List.concat (map snd xrs)) ∧
         fold_right (λ x n, blen (sp_result x) + n) 0 (map fst xrs) <= report_budget.
Proof.
  unfold execute. intros He.
  apply bind_ok in He as (? & s1 & Hp & He). apply (keeps_eq data) in Hp; [|apply (keeps_prepare _ data_blind)].
  apply bind_ok in He as (? & s2 & Hb & He). apply (keeps_eq data) in Hb; [|apply boot_data].
  apply bind_ok in He as (b & s3 & Hr & He).
  apply run_steps_data in Hr as (xrs & Hall & Hd & Hle & Hle'); [|done].
  apply bind_ok in He as (? & s4 & Ho & He). apply (keeps_eq data) in Ho; [|apply (keeps_observe _ data_blind)].
  apply bind_ok in He as (? & s5 & Hc & He). apply (keeps_eq data) in Hc; [|apply keeps_ctx_err].
  apply bind_ok in He as (? & s6 & Hs & He). apply (keeps_eq data) in Hs; [|apply (keeps_stage _ data_blind)].
  apply pair_eq in He as [_ <-]. exists xrs. split_and!; [done| |lia].
  by rewrite Hs, Hc, Ho, Hd, Hb, Hp.
Qed.

(** ** The outcome and the cleanup *)
Definition verdict (r : Report) := (rp_steps r, rp_assertions r, rp_assertion r).
Definition completed (r : Report) : Prop := rp_execution r = "COMPLETED"%string.

Lemma add_cause_keeps (text : error → string) r e :
  verdict (addCause text r e) = verdict r ∧ rp_execution (addCause text r e) = rp_execution r ∧
  rp_cleanup (addCause text r e) = rp_cleanup r.
Proof. unfold addCause. destruct e; [|done]. cbv zeta. by destruct (_ <? _)%nat. Qed.
Lemma demote_keeps r : verdict (demote r) = verdict r ∧ rp_cleanup (demote r) = rp_cleanup r ∧ ¬ completed (demote r).
Proof.
  unfold demote, completed. destruct (String.eqb_spec (rp_execution r) "COMPLETED") as [E|E]; [by cbn|done].
Qed.

(** From [a] to [b] the verdict stands and a run does not become completed. *)
Record winding (a b : St) : Prop := {
  wd_verdict : verdict (st_report b) = verdict (st_report a);
  wd_completed : completed (st_report b) → completed (st_report a)
}.
#[export] Instance winding_preorder : PreOrder winding.
Proof. split; [by split|]. intros a b c [] []. split; [congruence|auto]. Qed.

Lemma winding_report (f : Report → Report) st :
  (∀ r, verdict (f r) = verdict r) → (∀ r, completed (f r) → completed r) → winding st (set_report f st).
Proof. intros Hv Hc. split; [apply Hv|apply Hc]. Qed.

Lemma attempt_winding wrap (m : MM unit) st :
  keeps outcome m → keeps data m → keeps vm m →
  winding st (attempt wrap m st) ∧ vm (attempt wrap m st) = vm st ∧
  rp_cleanup (st_report (attempt wrap m st)) = rp_cleanup (st_report st).
Proof.
  intros Ho Hd Hv. specialize (Ho st). specialize (Hd st). specialize (Hv st). unfold attempt.
  destruct (m st) as [[u|e] st1]; cbn [snd] in *; cbv beta iota zeta; unfold outcome, data, vm in *;
    [split_and!; [split; [unfold verdict; congruence|unfold completed; intros; congruence]|done|congruence]|].
  destruct (add_cause_keeps error_text (st_report st1) (Some (wrap e))) as (A1 & A2 & A3).
  destruct (demote_keeps (addCause error_text (st_report st1) (Some (wrap e)))) as (D1 & D2 & D3).
  unfold set_report. cbn [st_report st_trace st_proc].
  split_and!; [split; cbn [st_report]; [|done]|done|congruence]. rewrite D1, A1. unfold verdict. congruence.
Qed.

Lemma shut_down_winding st :
  winding st (shut_down_guest st) ∧ vm (shut_down_guest st) = vm st ∧
  rp_cleanup (st_report (shut_down_guest st)) = rp_cleanup (st_report st).
Proof.
  unfold shut_down_guest. destruct (st_guest st); [|done].
  destruct (attempt_winding (Wrapf "guest shutdown: %w" []) (effect guest_shutdown) st) as ([] & Hv & Hc);
    [apply (keeps_effect _ outcome_blind)|apply (keeps_effect _ data_blind)|apply (keeps_effect _ vm_blind)|].
  split_and!; [by split|exact Hv|exact Hc].
Qed.
Lemma stop_vmm_spec st dead st' : stop_vmm st = (dead, st') →
  winding st st' ∧ rp_cleanup (st_report st') = rp_cleanup (st_report st) ∧ st_proc st' = st_proc st ∧
  (st_proc st = true → st_trace st' = st_trace st ++ [Stopped dead]) ∧
  (st_proc st = false → dead = true ∧ st_trace st' = st_trace st).
Proof.
  unfold stop_vmm. destruct (st_proc st) eqn:Ep; [|intros [= <- <-]; by rewrite Ep].
  destruct (vmm_stop _) as [[e|] w]; intros [= <- <-]; cbn; split_and!; try done.
  - destruct (add_cause_keeps error_text (st_report st) (Some (Wrapf "VMM cleanup: %w" [] e))) as (A1 & A2 & _).
    split; [exact A1|]. unfold completed. cbn. by rewrite A2.
  - by apply add_cause_keeps.
Qed.
Lemma remove_runtime_spec st : ∃ gone,
  winding st (remove_runtime env st) ∧ st_trace (remove_runtime env st) = st_trace st ++ [Removed gone] ∧
  st_proc (remove_runtime env st) = st_proc st ∧
  rp_cleanup (st_report (remove_runtime env st)) = if gone then "COMPLETE"%string else rp_cleanup (st_report st).
Proof.
  unfold remove_runtime. destruct (removeOwnedRuntime _ _ _) as [[e|] w]; [exists false|exists true]; cbn.
  - destruct (add_cause_keeps error_text (st_report st) (Some e)) as (A1 & A2 & A3).
    split_and!; [split; [exact A1|unfold completed; cbn; by rewrite A2]|done|done|done].
  - by split_and!.
Qed.
Lemma keeps_rec_err {B} (f : St → B) : keeps f (λ st : St, (of_err (rec_err (st_rec st)), st)).
Proof. by intros st. Qed.

(** Each cleanup stage, as [attempt] runs it. *)
Ltac attempted m st Hv Hc :=
  let Hw := fresh "Hw" in
  destruct (attempt_winding id m st) as (Hw & Hv & Hc);
  [ first [apply keeps_rec_err | keep outcome_blind] | first [apply keeps_rec_err | keep data_blind]
  | first [apply keeps_rec_err | keep vm_blind] | ].

Lemma clean_up_spec st : ∃ ok gone,
  let dead := negb (st_proc st) || ok in
  winding st (clean_up env st) ∧
  st_trace (clean_up env st)
    = st_trace st ++ (if st_proc st then [Stopped ok] else []) ++ (if dead then [Removed gone] else []) ∧
  rp_cleanup (st_report (clean_up env st))
    = if dead && gone then "COMPLETE"%string else rp_cleanup (st_report st).
Proof.
  unfold clean_up. cbv zeta.
  attempted (stage env "CLEANING") st V1 C1. set (s1 := attempt id (stage env "CLEANING") st) in *.
  destruct (shut_down_winding s1) as (W2 & V2 & C2). set (s2 := shut_down_guest s1) in *.
  destruct (stop_vmm s2) as [dead s3] eqn:E3. apply stop_vmm_spec in E3 as (W3 & C3 & P3 & T3 & N3).
  attempted (observe env "cleanup.end") s3 V4 C4. set (s4 := attempt id (observe env "cleanup.end") s3) in *.
  assert (Hr : ∃ gone, let s5 := if dead then remove_runtime env s4 else s4 in
    winding s4 s5 ∧ st_trace s5 = st_trace s4 ++ (if dead then [Removed gone] else []) ∧
    rp_cleanup (st_report s5) = if dead && gone then "COMPLETE"%string else rp_cleanup (st_report s4)).
  { destruct dead; [|exists false; by rewrite app_nil_r].
    destruct (remove_runtime_spec s4) as (gone & ? & ? & ? & ?). by exists gone. }
  destruct Hr as (gone & W5 & T5 & C5). cbv zeta in *. set (s5 := if dead then _ else s4) in *.
  set (s6 := set_manifest _ s5).
  assert (W6 : winding s5 s6) by (by split). assert (T6 : st_trace s6 = st_trace s5) by done.
  assert (C6 : rp_cleanup (st_report s6) = rp_cleanup (st_report s5)) by done. clearbody s6.
  attempted (stage env "FINISHED") s6 V7 C7. set (s7 := attempt id (stage env "FINISHED") s6) in *.
  attempted (recorded (W := W) (λ r : Recorder D, Close r)) s7 V8 C8.
  set (s8 := attempt id (recorded (λ r, Close r)) s7) in *.
  attempted (λ st : St, (of_err (rec_err (st_rec st)), st)) s8 V9 C9.
  set (s9 := attempt id _ s8) in *. clearbody s1 s2 s4 s5 s7 s8 s9.
  exists dead, gone. unfold vm in *. simplify_eq/=.
  assert (Hp : st_proc s2 = st_proc st) by congruence.
  assert (Ht : st_trace s2 = st_trace st) by congruence.
  assert (Hd : negb (st_proc st) || dead = dead) by (destruct (st_proc st); [done|]; rewrite Hp in N3; by destruct (N3 eq_refl) as [-> _]).
  rewrite Hd. split_and!.
  - repeat (etransitivity; [eassumption|]). done.
  - transitivity (st_trace s5); [congruence|]. rewrite T5, app_assoc. f_equal. transitivity (st_trace s3); [congruence|].
    destruct (st_proc st); [rewrite T3 by done|destruct (N3 Hp) as [_ ->]]; rewrite Ht; [done|by rewrite app_nil_r].
  - rewrite C9, C8, C7, C6, C5. destruct (dead && gone); [done|]. congruence.
Qed.

Lemma conclude_spec runErr st :
  ¬ completed (st_report st) →
  vm (conclude runErr st) = vm st ∧ rp_cleanup (st_report (conclude runErr st)) = rp_cleanup (st_report st) ∧
  data (conclude runErr st) = data st ∧
  (completed (st_report (conclude runErr st)) → runErr = None ∧
     rp_assertion (st_report (conclude runErr st))
       = if forallb (λ a, r_status a =?s "PASS") (rp_assertions (st_report st)) then "PASS"%string else "FAIL"%string).
Proof.
  intros Hn. unfold conclude.
  set (err := if st_proc st then _ else runErr).
  assert (He : err = None → runErr = None).
  { unfold err. destruct (st_proc st); [|done]. destruct (vmm_exited _); [|done].
    rewrite join_errors_none, !Forall_cons. naive_solver. }
  clearbody err. destruct err as [e|]; cbn.
  - destruct (add_cause_keeps error_text (st_report st) (Some e)) as (A1 & A2 & A3). unfold verdict in A1.
    injection A1 as A1 A1' A1''. destruct (is_canceled _); unfold data, completed in *; cbn;
      (split_and!; [done|congruence|congruence|intros Hx; exfalso; congruence]).
  - split_and!; try done. intros _. split; [by apply He|done].
Qed.

Lemma finish_spec st e st' : finish env st = (e, st') →
  winding st st' ∧ st_trace st' = st_trace st ∧ rp_cleanup (st_report st') = rp_cleanup (st_report st) ∧
  (completed (st_report st') → e = None ∧ rp_saved (st_report st') = true).
Proof.
  unfold finish. cbv zeta. set (s1 := if _ : bool then _ else st).
  assert (H1' : winding st s1 ∧ st_trace s1 = st_trace st ∧ rp_cleanup (st_report s1) = rp_cleanup (st_report st)).
  { unfold s1. destruct (_ && _); [|done]. cbn.
    edestruct (add_cause_keeps error_text (st_report st)) as (A1 & A2 & A3). split_and!; [split|done|exact A3].
    - cbn. exact A1.
    - by unfold completed. }
  clearbody s1. destruct H1' as ([Wv Wc] & T1 & C1). destruct (time_now _) as [t1 w1]. destruct (time_now w1) as [t2 w2].
  set (s2 := set_report _ _). destruct (recorded _ s2) as [r s3] eqn:Er.
  pose proof (keeps_eq outcome _ _ _ _ (keeps_recorded _ outcome_blind _) Er) as K1.
  pose proof (keeps_eq data _ _ _ _ (keeps_recorded _ data_blind _) Er) as K2.
  pose proof (keeps_eq vm _ _ _ _ (keeps_recorded _ vm_blind _) Er) as K3.
  unfold outcome, data, vm, s2 in K1, K2, K3. cbn in K1, K2, K3. unfold verdict, completed in *.
  destruct r as [u|err]; intros [= <- <-].
  - cbn. split_and!; [split; unfold verdict, completed; cbn; [congruence|]|congruence|congruence|done].
    intros Hx. apply Wc. congruence.
  - destruct (add_cause_keeps error_text (st_report s3) (Some (Wrapf "report not saved: %w" [] err))) as (A1 & A2 & A3).
    destruct (demote_keeps (addCause error_text (st_report s3) (Some (Wrapf "report not saved: %w" [] err)))) as (D1 & D2 & D3).
    unfold verdict, completed in *. cbn. split_and!; [split; unfold verdict, completed; cbn; [congruence|done]|congruence|congruence|done].
Qed.

(** *** The whole of execution and cleanup *)
Definition fresh (st : St) : Prop :=
  outcome st = ("ERROR", "NOT_EVALUATED", "INCOMPLETE")%string ∧ data st = ([], []) ∧ vm st = ([], false).

Lemma run_trace st e st' : fresh st → execute_and_finish env st = (e, st') →
  ∃ started ok gone,
    let dead := negb started || ok in
    st_trace st' = (if started then [Started; Stopped ok] else []) ++ (if dead then [Removed gone] else []) ∧
    rp_cleanup (st_report st') = if dead && gone then "COMPLETE"%string else "INCOMPLETE"%string.
Proof.
  intros (Ho & Hd & Hv). unfold execute_and_finish. pose proof (execute_vm st Hv) as Hx.
  pose proof (execute_outcome st) as Hxo. rewrite Ho in Hxo.
  destruct (execute env st) as [r s1]. cbn [snd] in *. intros Hf. unfold outcome in Hxo. injection Hxo as X1 X2 X3.
  destruct (conclude_spec (err_of r) s1) as (Cv & Cc & _ & _); [unfold completed; by rewrite X1|].
  destruct (clean_up_spec (conclude (err_of r) s1)) as (ok & gone & _ & Ct & Cc').
  apply finish_spec in Hf as (_ & Ft & Fc & _). unfold vm in Cv, Hx. injection Cv as Cv1 Cv2.
  exists (st_proc s1), ok, gone. cbv zeta in *. rewrite Cv2 in *. rewrite Ft, Ct, Fc, Cc', Cc, X3, Cv1. split; [|done].
  destruct Hx as [[= -> ->]|[= -> ->]]; [done|]. by destruct ok.
Qed.

Lemma run_completed st e st' : fresh st → execute_and_finish env st = (e, st') → completed (st_report st') →
  e = None ∧ rp_saved (st_report st') = true ∧
  ∃ xrs, Forall2 (λ s xr, step_done s xr.1 xr.2) (sc_steps (pl_scenario (rn_plan env))) xrs ∧
    rp_steps (st_report st') = map fst xrs ∧ rp_assertions (st_report st') = List.concat (map snd xrs) ∧
    rp_assertion (st_report st') = if forallb (λ a, r_status a =?s "PASS") (List.concat (map snd xrs))
                                   then "PASS"%string else "FAIL"%string.
Proof.
  intros (Ho & Hd & Hv) Hf Hc. unfold execute_and_finish in Hf.
  pose proof (execute_outcome st) as Hxo. rewrite Ho in Hxo. destruct (execute env st) as [r s1] eqn:Ex.
  cbn [snd] in Hxo. unfold outcome in Hxo. injection Hxo as X1 _ _.
  destruct (conclude_spec (err_of r) s1) as (_ & _ & Cd & Cc); [unfold completed; by rewrite X1|].
  destruct (clean_up_spec (conclude (err_of r) s1)) as (ok & gone & [Wv Wc] & _).
  apply finish_spec in Hf as ([Fv Fc] & _ & _ & Hs). destruct (Hs Hc) as [-> Hsaved].
  destruct (Cc (Wc (Fc Hc))) as [He Ha]. destruct r as [[]|]; [|done].
  destruct (execute_ok _ _ Ex) as (xrs & Hall & Hdata & _). rewrite Hd in Hdata. cbn in Hdata.
  unfold data in Cd, Hdata. injection Hdata as D1 D2. injection Cd as E1 E2. unfold verdict in Fv, Wv.
  split_and!; [done|done|]. exists xrs. rewrite D2 in Ha. split_and!; [done|congruence|congruence|congruence].
Qed.
End facts.

(** ** Theorems *)
Section theorems.
Context {W D : Type} `{Machine W} `{Disk D}.

Lemma admission_plan c privilege plan (w w' : W) p boot exe :
  admission c privilege plan w = (Ok (p, boot, exe), w') → privilege = Ok tt ∧ plan = Ok p.
Proof.
  unfold admission. destruct (rbind privilege _) as [q|] eqn:Ep; [|done].
  apply rbind_ok in Ep as ([] & Hp & Hq%map_err_ok).
  destruct (doctor _ _) as [[b|] w1]; [|done]. destruct (check_executable _ _ _) as [[x|] w2]; [|done].
  destruct (EnsurePrivateDir w2 _) as [[u|] w3]; [|done]. destruct (EnsurePrivateDir w3 _) as [[u'|] w4]; [|done].
  destruct (acquire_lock _ _) as [[e|] w5]; [done|]. intros [= <- <- <- <-]. done.
Qed.

(** A run that produced a report executed its plan from a fresh state. *)
Lemma run_inv c text privilege plan (d : D) (w w' : W) r e :
  run c text privilege plan d w = ((Some r, e), w') →
  privilege = Ok tt ∧ ∃ env st st', plan = Ok (rn_plan env) ∧ rn_config env = c ∧ fresh st ∧
    execute_and_finish env st = (e, st') ∧ r = st_report st'.
Proof.
  unfold run. destruct (admission _ _ _ _) as [[[[p boot] exe]|] w1] eqn:Ea; [|done].
  apply admission_plan in Ea as [-> ->]. cbv zeta. destruct (admit_run _ _); [|done].
  destruct (randomID w1 16) as [[id|] w2]; [|done]. destruct (randomID w2 32) as [[nonce|] w3]; [|done].
  destruct (EnsurePrivateDir w3 _) as [[u|] w4]; [|done]. destruct (time_now w4) as [start w5].
  destruct (time_now _) as [rec_start w6]. destruct (NewRecorder d) as [[rec|] d']; [|done].
  match goal with |- context [execute_and_finish ?e ?s] =>
    assert (Hfresh : fresh s) by done; assert (Henv : rn_plan e = p ∧ rn_config e = c) by done;
    generalize dependent s; generalize dependent e
  end.
  intros env [<- <-] st Hfresh. destruct (execute_and_finish env st) as [err st'] eqn:Ex.
  intros [[Hr ->]%pair_eq _]%pair_eq. apply (inj Some) in Hr as <-. split; [done|]. by exists env, st, st'.
Qed.
End theorems.

Lemma exit_zero r : ExitCode r = 0 →
  rp_cleanup r = "COMPLETE"%string ∧ rp_execution r = "COMPLETED"%string ∧ rp_assertion r = "PASS"%string.
Proof.
  unfold ExitCode. destruct (String.eqb_spec (rp_cleanup r) "COMPLETE"); [|done]. cbn [negb].
  destruct (rp_execution r =?s "CANCELLED"); [done|].
  destruct (String.eqb_spec (rp_execution r) "COMPLETED"); [|done]. cbn [negb].
  destruct (rp_assertion r =?s "FAIL"); [done|]. by destruct (String.eqb_spec (rp_assertion r) "PASS").
Qed.

(** The step's result in the report. *)
Definition step_reported (s : Step) (x : StepResult) : Prop :=
  sp_id x = s_id s ∧ sp_op x = s_op s ∧ sp_error x = None ∧ step_evidence s (sp_result x) ∧
  (is_op "action.exec" s = true → r_status (exit_assertion s (sp_result x)) = "PASS"%string).
(** A declared assertion that was evaluated on its step's recorded result and holds. *)
Definition assertion_passed (r : Report) (a : Assertion) : Prop :=
  ∃ x res, x ∈ rp_steps r ∧ sp_id x = a_step a ∧ res ∈ rp_assertions r ∧ r_status res = "PASS"%string ∧
           result_means [(a_step a, sp_result x)] a res.

Lemma step_done_means {W} `{Machine W} `{!LawfulLink W} env s x rs t :
  step_done env s x rs → step_wf t s → Forall (λ r, r_status r = "PASS"%string) rs → step_reported s x.
Proof.
  intros [(Hi & Ho & He) (w & w' & Hx) (results & _ & ->)] Hwf Hall. split_and!; try done.
  - by eapply execute_step_evidence.
  - unfold is_op. intros Hop. rewrite Hop in Hall. apply Forall_app in Hall as [_ Hall]. by apply Forall_cons in Hall as [? _].
Qed.

Section reported.
Context {W : Type} `{Machine W} `{!LawfulLink W}.
Variable env : run_env.

Lemma all_pass (rs : list AssertionResult) :
  forallb (λ a, r_status a =?s "PASS") rs = true → Forall (λ r, r_status r = "PASS"%string) rs.
Proof. induction rs as [|r rs IH]; cbn; [constructor|]. intros Hp. to_prop. constructor; auto. Qed.

Lemma steps_reported t steps (xrs : list (StepResult * list AssertionResult)) :
  Forall2 (λ s xr, step_done env s xr.1 xr.2) steps xrs → Forall (step_wf t) steps →
  Forall (λ r, r_status r = "PASS"%string) (List.concat (map snd xrs)) →
  Forall2 step_reported steps (map fst xrs).
Proof.
  induction 1 as [|s [x rs] steps xrs Hd _ IH]; cbn [map List.concat fst snd]; [constructor|].
  intros [Hwf Hwfs]%Forall_cons [Hrs Hrest]%Forall_app. constructor; [by eapply step_done_means|by apply IH].
Qed.

Lemma step_assertion s x rs a :
  step_done env s x rs → a ∈ sc_assertions (pl_scenario (rn_plan env)) → a_step a = s_id s →
  ∃ res, res ∈ rs ∧ result_means [(a_step a, sp_result x)] a res.
Proof.
  intros [_ _ (results & He & ->)] Ha Hs.
  assert (Hsel : a ∈ selected env s).
  { apply list_elem_of_In, filter_In. split; [by apply list_elem_of_In|]. rewrite Hs. by apply String.eqb_eq. }
  apply evaluate_prefix in He as (l & l' & Hl & Hall & ->). rewrite app_nil_r in Hl. rewrite Hl in Hsel.
  apply list_elem_of_lookup in Hsel as (i & Hi). destruct (Forall2_lookup_l _ _ _ _ _ Hall Hi) as (res & Hr & Hone).
  exists res. split; [apply elem_of_app; left; by eapply list_elem_of_lookup_2|].
  rewrite Hs. by apply evaluate_one_means.
Qed.

Lemma assertions_reported (r : Report) (xrs : list (StepResult * list AssertionResult)) :
  plan_wf (rn_plan env) →
  Forall2 (λ s xr, step_done env s xr.1 xr.2) (sc_steps (pl_scenario (rn_plan env))) xrs →
  rp_steps r = map fst xrs → rp_assertions r = List.concat (map snd xrs) →
  Forall (λ r, r_status r = "PASS"%string) (rp_assertions r) →
  Forall (assertion_passed r) (sc_assertions (pl_scenario (rn_plan env))).
Proof.
  intros [(s0 & Hv) _ _] Hall Hs Ha Hpass. apply Forall_forall. intros a Hin.
  destruct (validate_inv _ _ Hv) as (_ & _ & _ & _ & _ & _ & Haw & _).
  rewrite Forall_forall in Haw. destruct (aw_step _ _ (Haw a Hin)) as (s & Hsin & Hid & _).
  apply list_elem_of_lookup in Hsin as (i & Hi). destruct (Forall2_lookup_l _ _ _ _ _ Hall Hi) as ([x rs] & Hx & Hd).
  destruct (step_assertion s x rs a Hd Hin (eq_sym Hid)) as (res & Hres & Hm).
  apply list_elem_of_lookup_2 in Hx. assert (Hr : res ∈ rp_assertions r).
  { rewrite Ha. apply list_elem_of_In, in_concat. exists rs. split; [|by apply list_elem_of_In].
    apply in_map_iff. exists (x, rs). split; [done|by apply list_elem_of_In]. }
  exists x, res. split_and!; [|destruct Hd as [(Hxi & _) _ _]; by rewrite <-Hid|done| |done].
  - rewrite Hs. apply list_elem_of_In, in_map_iff. exists (x, rs). split; [done|by apply list_elem_of_In].
  - rewrite Forall_forall in Hpass. by apply Hpass.
Qed.
End reported.

(** C1.  The meaning of exit status 0.  A run that reports success had a valid plan and
    an unprivileged operator; its report has exactly one result per planned step, in plan
    order, each without error and with the host-checked evidence of its operation, each
    action with the expected exit code; every declared assertion was evaluated on the
    recorded result of its own step and holds there; cleanup is complete; and the report
    was saved. *)
Theorem run_success_means {W D} `{Machine W} `{!LawfulLink W} `{Disk D} c text privilege read load (d : D) (w w' : W) r e :
  run c text privilege (PlanValidate c read load) d w = ((Some r, e), w') → ExitCode r = 0 →
  privilege = Ok tt ∧ e = None ∧ rp_saved r = true ∧ rp_cleanup r = "COMPLETE"%string ∧
  ∃ p, PlanValidate c read load = Ok p ∧
    Forall2 step_reported (sc_steps (pl_scenario p)) (rp_steps r) ∧
    Forall (assertion_passed r) (sc_assertions (pl_scenario p)).
Proof.
  intros Hrun Hx. apply exit_zero in Hx as (Hc & He & Ha).
  destruct (run_inv _ _ _ _ _ _ _ _ _ Hrun) as (Hpriv & env & st & st' & Hplan & _ & Hf & Hex & ->).
  destruct (run_completed env st e st' Hf Hex He) as (-> & Hs & xrs & Hall & Hsteps & Hasserts & Hv).
  rewrite Ha in Hv. destruct (forallb _ _) eqn:Ep; [clear Hv|done]. apply all_pass in Ep.
  destruct (plan_validate_inv _ _ _ _ Hplan) as (_ & Hwf & _). split_and!; try done.
  exists (rn_plan env). split; [done|]. split.
  - rewrite Hsteps. eapply steps_reported; [done|by destruct Hwf|done].
  - eapply assertions_reported; [done..|]. by rewrite Hasserts.
Qed.

(** C2.  Cleanup never pulls the disk from under a running VMM and never loses one: in
    every run the VMM, once started, is stopped exactly once; the runtime directory is
    removed at most once, only after the stop succeeded (or if no VMM was started); and
    the report says COMPLETE exactly when that removal succeeded. *)
Theorem cleanup_ordered {W D} `{Machine W} `{Disk D} env (st st' : state W D) e :
  fresh st → execute_and_finish env st = (e, st') →
  ∃ started ok gone,
    let dead := negb started || ok in
    st_trace st' = (if started then [Started; Stopped ok] else []) ++ (if dead then [Removed gone] else []) ∧
    (rp_cleanup (st_report st') = "COMPLETE"%string ↔ dead = true ∧ gone = true).
Proof.
  intros Hf Hx. destruct (run_trace env st e st' Hf Hx) as (started & ok & gone & Ht & Hc).
  exists started, ok, gone. cbv zeta in *. split; [done|]. rewrite Hc.
  destruct (negb started || ok), gone; cbn; naive_solver.
Qed.

(** ** A simulated machine

    A guest that answers from a script, a VMM that starts and stops, and a filesystem in
    memory: enough to run the example scenario to a saved report. *)
Record sim := { sim_fs : memfs; sim_link : Client scripted * option Z; sim_time : Z }.
Definition sim_files (w : sim) (x : option error * memfs) : option error * sim :=
  (x.1, {| sim_fs := x.2; sim_link := sim_link w; sim_time := sim_time w |}).
#[export] Instance sim_fs_ops : FS sim := {|
  getuid w := getuid (sim_fs w);
  geteuid w := geteuid (sim_fs w);
  lstat w := lstat (sim_fs w);
  read_dir w := read_dir (sim_fs w);
  statfs w := statfs (sim_fs w);
  open_read w := open_read (sim_fs w);
  mkdir w p mode := sim_files w (mkdir (sim_fs w) p mode);
  remove w p := sim_files w (remove (sim_fs w) p);
  create_temp w d pat := let '(r, f) := create_temp (sim_fs w) d pat in (r, (sim_files w (None, f)).2);
  chmod w p mode := sim_files w (chmod (sim_fs w) p mode);
  write_data w p data := sim_files w (write_data (sim_fs w) p data);
  sync_file w p := sim_files w (sync_file (sim_fs w) p);
  close_file w p := sim_files w (close_file (sim_fs w) p);
  rename w src dst := sim_files w (rename (sim_fs w) src dst);
  sync_dir w p := sim_files w (sync_dir (sim_fs w) p);
  content w := content (sim_fs w)
|}.
#[local] Instance sim_context : RunContext (option Z) := {|
  cx_remaining x := x; cx_error _ := None; cx_child_error _ _ := None; cx_sleep x _ := (None, x); cx_elapse x := x
|}.
Definition sim_relink (w : sim) (l : Client scripted * option Z) : sim :=
  {| sim_fs := sim_fs w; sim_link := l; sim_time := sim_time w |}.
#[export] Instance sim_link_ops : Link sim := {|
  call A w t op p d := let '(r, l) := call (A := A) (sim_link w) t op p d in (r, sim_relink w l);
  remaining w := remaining (sim_link w);
  ctx_error w := ctx_error (sim_link w);
  sleep w t := let '(e, l) := sleep (sim_link w) t in (e, sim_relink w l)
|}.
#[export] Instance sim_link_lawful : LawfulLink sim.
Proof.
  intros A w t op p d v w' Hc. cbn [call sim_link_ops] in Hc. destruct (call (sim_link w) t op p d) as [r l] eqn:E.
  apply pair_eq in Hc as [-> _]. by apply call_decodes in E.
Qed.
Definition sim_tick (w : sim) : sim := {| sim_fs := sim_fs w; sim_link := sim_link w; sim_time := sim_time w + 1000 |}.
#[export] Instance sim_machine : Machine sim := {|
  time_now w := (sim_time w, sim_tick w);
  observe_host w := (Ok {| o_realtime := sim_time w; o_monotonic := sim_time w; o_boottime := sim_time w |}, sim_tick w);
  copy_private w file dst :=
    sim_files w (None, mem_update (sim_fs w) (<[dst := mem_node KRegular 384 1000 (f_sha256 file)]> (mem_files (sim_fs w))));
  vmm_start w _ _ := (Ok {| pid := 42; uid := 1000; start_ticks := 7; host_boot_id := "boot" |}, w);
  vmm_exited _ := None;
  vmm_output w := ([], w);
  vmm_stop w := (None, w);
  guest_ready w _ _ _ _ _ _ := (None, w);
  guest_shutdown w := (None, w);
  guest_close w := w;
  cancel_run w := w;
  parent_error _ := None;
  begin_run w _ := w;
  acquire_lock w _ := (None, w);
  release_lock w := w;
  random_bytes w n := (Ok (fold_right String.append ""%string (repeat "x"%string n)), w);
  doctor w _ := (Ok "boot"%string, w);
  check_executable w _ _ := (Ok sample_executable, w);
  sha256_hex _ := ""%string;
  error_text _ := "error"%string
|}.

Definition observed_reply : string :=
  (js "{'version':'epoch-guest/v1','id':'2','op':'action.exec','run_id':'run','nonce':'00','result':{'exit_code':0,'stdout_json':{'year_utc':2000},'stdout_truncated':false,'stderr_truncated':false,'before':{'realtime':'2000-01-01T00:00:01Z','monotonic_ns':20},'after':{'realtime':'2000-01-01T00:00:02Z','monotonic_ns':30}}}"
   +:+ String newline "")%string.
Definition sim_world : sim := {|
  sim_fs := {| mem_uid := 1000;
               mem_files := list_to_map [("/srv", mem_node KDir 493 0 ""); ("/srv/evidence", mem_node KDir 448 1000 "");
                                         ("/run", mem_node KDir 493 0 ""); ("/run/epoch", mem_node KDir 448 1000 "")]%string |};
  sim_link := (scripted_client [set_reply; observed_reply], Some (secs 60));
  sim_time := utc_midnight 2026 1 1
|}.
Definition sim_run :=
  run sample_config_file "{}" (Ok tt) (PlanValidate sample_config_file (λ _, Ok valid_text) (λ _ _ _, Ok sample_image))
    ([] : list (string * string)) sim_world.
Definition sim_env : run_env :=
  {| rn_config := sample_config_file;
     rn_plan := {| pl_scenario := validated; pl_input := valid_text; pl_image := sample_image |};
     rn_id := sample_run_id; rn_nonce := "00"; rn_runtime := path_join ["/run/epoch"; sample_run_id]%string;
     rn_manifest_path := "/srv/evidence/manifest.json"; rn_executable := sample_executable; rn_start := 0;
     rn_rec_start := 0 |}.
Definition sim_report : Report := default (initial_report sim_env) sim_run.1.1.
Lemma run_success_means_witness :
  ExitCode sim_report = 0 ∧ rp_saved sim_report = true ∧
  ∃ p, sample_plan = Ok p ∧ Forall2 step_reported (sc_steps (pl_scenario p)) (rp_steps sim_report) ∧
       Forall (assertion_passed sim_report) (sc_assertions (pl_scenario p)).
Proof.
  assert (Hr : sim_run = ((Some sim_report, None), sim_run.2)) by (vm_compute; reflexivity).
  assert (Hx : ExitCode sim_report = 0) by (vm_compute; reflexivity).
  destruct (run_success_means sample_config_file "{}" (Ok tt) (λ _, Ok valid_text) (λ _ _ _, Ok sample_image)
              ([] : list (string * string)) sim_world sim_run.2 sim_report None Hr Hx) as (_ & _ & Hs & _ & p & Hp & H2 & Ha).
  split; [exact Hx|]. split; [exact Hs|]. exists p. split; [exact Hp|]. split; [exact H2|exact Ha].
Defined.

Definition sim_state : state sim (list (string * string)) :=
  Build_state sim_world (Build_Recorder 0 0 None false [] []) (initial_report sim_env)
    (initial_manifest sim_env "boot" 1000 "") None false false [].
Definition sim_finished := execute_and_finish sim_env sim_state.
Lemma cleanup_ordered_witness :
  st_trace sim_finished.2 = [Started; Stopped true; Removed true] ∧
  ∃ started ok gone, let dead := negb started || ok in
    st_trace sim_finished.2 = (if started then [Started; Stopped ok] else []) ++ (if dead then [Removed gone] else []) ∧
    (rp_cleanup (st_report sim_finished.2) = "COMPLETE"%string ↔ dead = true ∧ gone = true).
Proof.
  split; [vm_compute; reflexivity|].
  apply (cleanup_ordered sim_env sim_state sim_finished.2 sim_finished.1).
  - vm_compute. repeat split.
  - exact (surjective_pairing sim_finished).
Defined.
