(* ===== verification/EngineHost.v ===== *)
(** * EngineHost: a run and its VMM process, composed

    internal/engine/run.go over internal/firecracker/process_linux.go.  [hosted] puts the
    shared [Process] of [VmmProcess] beside any machine the run can work on: starting the
    VMM creates the process, stopping it is one more caller of [Stop], with the context
    the cleanup gives it, and between any two operations of the run the goroutines of the
    process and the child itself take whatever steps the schedule gives them.  The run's
    own trace is then related to what really happened to the process. *)

From S2P Require Import Prelude GoLib Json JsonFacts GoTime GoText JsonUtil JsonText Assertions AssertionFacts Scenario ScenarioFacts Protocol ProtocolFacts HostCheck Firecracker GuestClient Evidence SafeFS Artifact Config VmmProcess EnginePlan EngineSteps EngineTypes EngineRecover EngineRun EngineRunFacts.
From Stdlib Require Import Ascii String.

Record hosted (W : Type) := { ho_base : W; ho_vmm : option Process }.
Arguments ho_base {W} _.
Arguments ho_vmm {W} _.
Arguments Build_hosted {W} _ _.

(** The steps the goroutines of the process take next; those that cannot be taken are
    not. *)
Class Schedule (W : Type) := { next_steps : W → list VmmProcess.action }.
Fixpoint take_steps (l : list VmmProcess.action) (p : Process) : Process :=
  match l with
  | [] => p
  | a :: l => take_steps l (default p (VmmProcess.act a p))
  end.

Section hosted.
Context {W : Type} `{Machine W} `{Schedule W}.

Definition lift {A} (v : hosted W) (r : A * W) : A * hosted W :=
  (r.1, Build_hosted r.2 (take_steps (next_steps r.2) <$> ho_vmm v)).

#[export] Instance hosted_fs : FS (hosted W) := {|
  getuid v := getuid (ho_base v);
  geteuid v := geteuid (ho_base v);
  lstat v := lstat (ho_base v);
  read_dir v := read_dir (ho_base v);
  statfs v := statfs (ho_base v);
  open_read v := open_read (ho_base v);
  mkdir v p mode := lift v (mkdir (ho_base v) p mode);
  remove v p := lift v (remove (ho_base v) p);
  create_temp v d pat := lift v (create_temp (ho_base v) d pat);
  chmod v p mode := lift v (chmod (ho_base v) p mode);
  write_data v p data := lift v (write_data (ho_base v) p data);
  sync_file v p := lift v (sync_file (ho_base v) p);
  close_file v p := lift v (close_file (ho_base v) p);
  rename v src dst := lift v (rename (ho_base v) src dst);
  sync_dir v p := lift v (sync_dir (ho_base v) p);
  content v := content (ho_base v)
|}.
#[export] Instance hosted_link : Link (hosted W) := {|
  call A v t op p d := lift v (call (A := A) (ho_base v) t op p d);
  remaining v := remaining (ho_base v);
  ctx_error v := ctx_error (ho_base v);
  sleep v t := lift v (sleep (ho_base v) t)
|}.

(** [proc.Stop(cleanupCtx)]: a new caller; the schedule runs, and when the call has not
    returned by the cleanup deadline its context ends. *)
Definition answer (p : Process) (i : nat) : option (option error) :=
  match p_calls p !! i with
  | Some k => match cl_pc k with CallReturned r => Some r | _ => None end
  | None => None
  end.
Definition deadline_steps (i : nat) : list VmmProcess.action :=
  [CtxEnds i DeadlineExceeded; CallStep i ChDone; CallStep i ChCtx].
Definition lost_call : error := Errorf "unreachable" [].
Definition stop_process (steps : list VmmProcess.action) (p : Process) : option error * Process :=
  let i := List.length (p_calls p) in
  let p := take_steps (CallStop :: steps) p in
  match answer p i with
  | Some r => (r, p)
  | None => let p := take_steps (deadline_steps i) p in (default (Some lost_call) (answer p i), p)
  end.

#[export] Instance hosted_machine : Machine (hosted W) := {|
  time_now v := lift v (time_now (ho_base v));
  observe_host v := lift v (observe_host (ho_base v));
  copy_private v file dst := lift v (copy_private (ho_base v) file dst);
  vmm_start v x config :=
    let '(r, w) := vmm_start (ho_base v) x config in
    match r with
    | Ok id => (Ok id, Build_hosted w (Some (new_process id)))
    | Err e => (Err e, Build_hosted w (ho_vmm v))
    end;
  vmm_exited v := match ho_vmm v with
                  | Some p => if p_done p
                              then Some (match p_err p with Some e => error_text e | None => "<nil>"%string end)
                              else None
                  | None => None
                  end;
  vmm_output v := lift v (vmm_output (ho_base v));
  vmm_stop v := match ho_vmm v with
                | Some p => let '(e, p) := stop_process (next_steps (ho_base v)) p in (e, Build_hosted (ho_base v) (Some p))
                | None => (None, v)
                end;
  guest_ready v t s port run nonce image := lift v (guest_ready (ho_base v) t s port run nonce image);
  guest_shutdown v := lift v (guest_shutdown (ho_base v));
  guest_close v := (lift v (tt, guest_close (ho_base v))).2;
  cancel_run v := (lift v (tt, cancel_run (ho_base v))).2;
  parent_error v := parent_error (ho_base v);
  begin_run v t := (lift v (tt, begin_run (ho_base v) t)).2;
  acquire_lock v p := lift v (acquire_lock (ho_base v) p);
  release_lock v := (lift v (tt, release_lock (ho_base v))).2;
  random_bytes v n := lift v (random_bytes (ho_base v) n);
  doctor v p := lift v (doctor (ho_base v) p);
  check_executable v p sha := lift v (check_executable (ho_base v) p sha);
  sha256_hex := sha256_hex (W := W);
  error_text := error_text (W := W)
|}.
End hosted.

(** ** What the rest of the run does to the process *)
Definition proc_steps : Process → Process → Prop := rtc (λ p p', ∃ a, VmmProcess.act a p = Some p').
(** The process moves on by its own steps; none appears or disappears. *)
Definition evolves (o o' : option Process) : Prop :=
  match o, o' with
  | None, None => True
  | Some p, Some p' => proc_steps p p'
  | _, _ => False
  end.
#[export] Instance evolves_preorder : PreOrder evolves.
Proof.
  split; [intros [p|]; [apply rtc_refl|done]|]. intros [p|] [q|] [r|]; cbn; try done. intros Hp Hq. by etrans.
Qed.
Lemma take_steps_proc l p : proc_steps p (take_steps l p).
Proof.
  revert p. induction l as [|a l IH]; intros p; cbn; [apply rtc_refl|].
  destruct (VmmProcess.act a p) as [p1|] eqn:E; [|apply IH]. eapply rtc_l; [by exists a|apply IH].
Qed.
Lemma proc_steps_reachable id p p' : proc_steps p p' → reachable id p → reachable id p'.
Proof. induction 1 as [|p p1 p2 [a Ha] _ IH]; [done|]. intros Hr. apply IH. by eapply reach_step. Qed.

Section drift.
Context {W D : Type} `{Machine W} `{Schedule W} `{Disk D}.
#[local] Abbreviation V := (hosted W).
#[local] Abbreviation St := (state V D).
#[local] Abbreviation MM := (M (W := V) (D := D)).

Definition drifts (v v' : V) : Prop := evolves (ho_vmm v) (ho_vmm v').
#[export] Instance drifts_preorder : PreOrder drifts.
Proof. split; [intros v; unfold drifts; reflexivity|]. intros a b c. unfold drifts. apply transitivity. Qed.

Lemma lift_drifts {A} (v : V) (r : A * W) a v' : lift v r = (a, v') → drifts v v'.
Proof.
  intros [= _ <-]. unfold drifts. cbn. destruct (ho_vmm v) as [p|]; cbn; [apply take_steps_proc|done].
Qed.
(** Follow the operations of a function one by one. *)
Ltac lifted E := match type of E with _ = (_, ?v') => match goal with Hd : drifts ?u ?v |- _ =>
  assert (drifts u v') by (etrans; [exact Hd|eapply lift_drifts; exact E]); clear Hd; clear E end end.

Lemma abandon_drifts (v : V) tmp open e : drifts v (abandon v tmp open e).2.
Proof.
  unfold abandon. cbn [snd]. assert (Hd : drifts v v) by reflexivity. destruct open.
  - destruct (close_file v tmp) as [x v1] eqn:E1. lifted E1. cbn [snd].
    destruct (remove v1 tmp) as [y v2] eqn:E2. lifted E2. done.
  - destruct (remove v tmp) as [y v2] eqn:E2. lifted E2. done.
Qed.
Lemma AtomicWrite_drifts (v : V) path text : drifts v (AtomicWrite v path text).2.
Proof.
  unfold AtomicWrite. assert (Hd : drifts v v) by reflexivity. destruct (_ || _); [done|]. cbv zeta.
  destruct (rbind _ _) as [u|e]; [|done].
  destruct (create_temp v _ _) as [[tmp|e] v1] eqn:E1; lifted E1; [|done].
  destruct (chmod v1 tmp 384) as [[e|] v2] eqn:E2; lifted E2; [etrans; [eassumption|apply abandon_drifts]|].
  destruct (write_data v2 tmp text) as [[e|] v3] eqn:E3; lifted E3; [etrans; [eassumption|apply abandon_drifts]|].
  destruct (sync_file v3 tmp) as [[e|] v4] eqn:E4; lifted E4; [etrans; [eassumption|apply abandon_drifts]|].
  destruct (close_file v4 tmp) as [[e|] v5] eqn:E5; lifted E5; [etrans; [eassumption|apply abandon_drifts]|].
  destruct (rename v5 tmp path) as [[e|] v6] eqn:E6; lifted E6; [etrans; [eassumption|apply abandon_drifts]|].
  destruct (sync_dir v6 _) as [e v7] eqn:E7; lifted E7.
  destruct (remove v7 tmp) as [y v8] eqn:E8; lifted E8. done.
Qed.
Lemma ensure_drifts n (v : V) path : drifts v (ensure_private_dir n v path).2.
Proof.
  revert v path. induction n as [|n IH]; intros v path; cbn [ensure_private_dir]; [reflexivity|].
  destruct (_ || _); [reflexivity|]. destruct (lstat v path) as [fi|e]; [by destruct (negb _)|].
  destruct (negb _); [reflexivity|]. cbv zeta.
  assert (Hd : drifts v (match lstat v (path_dir path) with
    | Ok _ => (Ok tt, v) | Err e => if not_exist e then ensure_private_dir n v (path_dir path) else (Err e, v) end).2).
  { destruct (lstat v _) as [u|x]; [reflexivity|]. destruct (not_exist x); [apply IH|reflexivity]. }
  destruct (match lstat v (path_dir path) with Ok _ => _ | Err e => _ end) as [made v1]. cbn [snd] in Hd.
  destruct (rbind _ _); [|done]. destruct (mkdir v1 path 448) as [[x|] v2] eqn:E; lifted E; done.
Qed.
Lemma remove_paths_drifts (v : V) paths : drifts v (remove_paths v paths).2.
Proof.
  revert v. induction paths as [|p paths IH]; intros v; cbn [remove_paths]; [reflexivity|].
  assert (Hd : drifts v v) by reflexivity. destruct (remove v p) as [[e|] v1] eqn:E; lifted E; [done|]. etrans; [eassumption|apply IH].
Qed.
Lemma remove_owned_drifts (v : V) c m : drifts v (removeOwnedRuntime v c m).2.
Proof.
  unfold removeOwnedRuntime. destruct (_ || _); [reflexivity|]. destruct (lstat v _) as [u|e]; [|by destruct (not_exist e)].
  destruct (rbind _ _) as [paths|e]; [|reflexivity]. pose proof (remove_paths_drifts v paths) as Hd.
  destruct (remove_paths v paths) as [[e|] v1]; cbn [snd] in Hd; [done|].
  destruct (remove v1 (mf_runtime m)) as [x v2] eqn:E; lifted E. done.
Qed.
Lemma execute_step_drifts (v : V) s : drifts v (executeStep v s).2.
Proof.
  unfold executeStep. destruct (step_timeouts v s) as [[timeout ms]|e]; [|reflexivity]. assert (Hd : drifts v v) by reflexivity.
  destruct (s_op s =?s "clock.read"); [destruct (call v timeout _ _ _) as [x v1] eqn:E; lifted E; done|].
  destruct (s_op s =?s "clock.set"); [destruct (call v timeout _ _ _) as [x v1] eqn:E; lifted E; done|].
  destruct (s_op s =?s "action.exec"); [destruct (call v timeout _ _ _) as [x v1] eqn:E; lifted E; done|].
  destruct (_ || _); [destruct (call v timeout _ _ _) as [x v1] eqn:E; lifted E; done|].
  destruct (s_op s =?s "wait"); [|done]. destruct (call v timeout _ _ _) as [[before|x] v1] eqn:E; lifted E; [|done].
  destruct (sleep v1 _) as [[x|] v2] eqn:E2; lifted E2; [done|].
  destruct (call v2 timeout _ _ _) as [after v3] eqn:E3; lifted E3. done.
Qed.
(** *** The run's code *)
Variable env : run_env.
Definition moves {A} (m : MM A) : Prop := ∀ st : St, drifts (st_world st) (st_world (m st).2).
Lemma moves_ret {A} (a : A) : moves (mret a).
Proof. intros st. reflexivity. Qed.
Lemma moves_bind {A B} (m : MM A) (k : A → MM B) : moves m → (∀ a, moves (k a)) → moves (m ≫= k).
Proof.
  intros Hm Hk st. unfold mbind, M_bind. specialize (Hm st). destruct (m st) as [[a|e] st1]; cbn [snd] in *; [|done].
  etrans; [exact Hm|apply Hk].
Qed.
Lemma moves_check r : moves (check r).
Proof. intros st. reflexivity. Qed.
Lemma moves_modify (f : St → St) : (∀ st, st_world (f st) = st_world st) → moves (modify f).
Proof. intros Hf st. cbn. rewrite Hf. reflexivity. Qed.
Lemma moves_asks {A} (g : V → result A * V) : (∀ v, drifts v (g v).2) → moves (asks g).
Proof. intros Hg st. unfold asks. specialize (Hg (st_world st)). by destruct (g _) as [r v]. Qed.
Lemma moves_effect (g : V → option error * V) : (∀ v, drifts v (g v).2) → moves (effect g).
Proof. intros Hg st. unfold effect. specialize (Hg (st_world st)). by destruct (g _) as [r v]. Qed.
Lemma moves_act {A} (m : MM A) : moves m → moves (act m).
Proof. done. Qed.
Lemma lift_moves {A} (v : V) (r : A * W) : drifts v (lift v r).2.
Proof. eapply lift_drifts. apply surjective_pairing. Qed.
Lemma moves_now : moves now.
Proof.
  apply moves_asks. intros v. destruct (time_now v) as [t v1] eqn:E. cbn [snd]. eapply lift_drifts; exact E.
Qed.
Lemma moves_recorded g : moves (recorded g).
Proof.
  intros st. unfold recorded. destruct (vmm_output (st_world st)) as [out v1] eqn:E. assert (Hd : drifts (st_world st) v1) by (eapply lift_drifts; exact E). cbv zeta.
  destruct (g _) as [e r]. cbn [snd set_rec st_world]. destruct (_ && _); [|done]. etrans; [exact Hd|apply (lift_moves v1)].
Qed.
Lemma moves_event s k d : moves (event env s k d).
Proof.
  unfold event. apply moves_bind; [apply moves_now|intros t1]. apply moves_bind; [apply moves_now|intros t2].
  apply moves_recorded.
Qed.
Lemma moves_save_manifest : moves (save_manifest env).
Proof.
  intros st. apply moves_effect. intros v. unfold saveManifest. cbv zeta. destruct (_ <? _); [reflexivity|apply AtomicWrite_drifts].
Qed.
Lemma moves_stage s : moves (stage env s).
Proof.
  unfold stage. apply moves_bind; [by apply moves_modify|intros _]. apply moves_bind; [by apply moves_modify|intros _].
  apply moves_bind; [apply moves_save_manifest|intros _]. apply moves_event.
Qed.
Lemma moves_observe l : moves (observe env l).
Proof.
  unfold observe. apply moves_bind; [apply moves_asks; intros v; apply lift_moves|intros o].
  apply moves_bind; [apply moves_recorded|intros _]. intros st. reflexivity.
Qed.

End drift.

(** Discharge [moves m] along the structure of [m]. *)
Ltac follow_moves :=
  repeat lazymatch goal with
    | |- moves (stage _ _) => apply moves_stage
    | |- moves (observe _ _) => apply moves_observe
    | |- moves (event _ _ _ _) => apply moves_event
    | |- moves (clocks _) => apply moves_recorded
    | |- moves (action _) => apply moves_recorded
    | |- moves (save_manifest _) => apply moves_save_manifest
    | |- moves (recorded _) => apply moves_recorded
    | |- moves now => apply moves_now
    | |- moves ctx_err => intros ?; reflexivity
    | |- moves (check _) => apply moves_check
    | |- moves (mret _) => apply moves_ret
    | |- moves (mbind _ _) => apply moves_bind; [|intros ?]
    | |- moves (modify _) => apply moves_modify; intros ?; reflexivity
    | |- moves (asks _) => apply moves_asks; intros ?
    | |- moves (effect _) => apply moves_effect; intros ?
    end.
(** The same for what the run knows of its VMM, [keeps known m]. *)
Ltac follow_keeps :=
  repeat lazymatch goal with
    | |- keeps _ (stage _ _) => apply (keeps_stage _ _ known_blind)
    | |- keeps _ (save_manifest _) => apply (keeps_save_manifest _ _ known_blind)
    | |- keeps _ (effect _) => apply (keeps_effect _ known_blind)
    | |- keeps _ (mbind _ _) => apply keeps_bind; [|intros ?]
    | |- keeps _ (modify _) => apply keeps_modify; intros ?; reflexivity
    end.

Section run_moves.
Context {W D : Type} `{Machine W} `{Schedule W} `{Disk D}.
Variable env : run_env.
#[local] Abbreviation V := (hosted W).
#[local] Abbreviation St := (state V D).
#[local] Abbreviation MM := (M (W := V) (D := D)).
Lemma moves_prepare : moves (W := W) (D := D) (prepare env).
Proof.
  unfold prepare. follow_moves.
  - apply ensure_drifts.
  - reflexivity.
  - apply lift_moves.
  - unfold WriteConfig. destruct (BuildConfig _); [apply AtomicWrite_drifts|reflexivity].
Qed.
Lemma moves_add_results bytes results : moves (W := W) (D := D) (add_results bytes results).
Proof.
  revert bytes. induction results as [|r results IH]; intros bytes; cbn [add_results]; [apply moves_ret|].
  cbv zeta. destruct (_ <? _); [intros st; reflexivity|]. apply moves_bind; [by apply moves_modify|]. intros _. apply IH.
Qed.
Lemma moves_step_failed s t0 raw e c : moves (W := W) (D := D) (step_failed s t0 raw e c).
Proof.
  unfold step_failed. cbv zeta. follow_moves; intros st; [apply (moves_recorded _ st)|apply (moves_recorded _ st)|reflexivity].
Qed.
Lemma moves_step_succeeded s t0 bytes raw : moves (W := W) (D := D) (step_succeeded env s t0 bytes raw).
Proof.
  unfold step_succeeded. cbv zeta. follow_moves. destruct (Evaluate _ _) as [results evalErr]. follow_moves; [apply moves_add_results| |].
  - apply moves_modify. intros st. by destruct (s_op s =?s _).
  - intros st. apply moves_event.
Qed.
Lemma moves_run_step bytes s : moves (W := W) (D := D) (run_step env bytes s).
Proof.
  unfold run_step. follow_moves; [intros st; apply moves_event|]. intros st. unfold act.
  pose proof (execute_step_drifts (st_world st) s) as Hd. destruct (executeStep _ _) as [res v]. cbn [snd] in Hd.
  pose proof (moves_observe env (s_id s +:+ ".after") (set_world v st)) as Ho. destruct (observe _ _ _) as [after st1].
  cbn [snd set_world st_world] in Ho. cbv zeta.
  destruct (join_errors _); etrans; [exact Hd| |exact Hd|]; (etrans; [exact Ho|]); [apply moves_step_failed|apply moves_step_succeeded].
Qed.
Lemma moves_run_steps bytes steps : moves (W := W) (D := D) (run_steps env bytes steps).
Proof.
  revert bytes. induction steps as [|s steps IH]; intros bytes; cbn [run_steps]; [apply moves_ret|].
  apply moves_bind; [apply moves_run_step|apply IH].
Qed.
End run_moves.

(** ** Stopping *)
Definition over (o : option Process) : Prop := match o with None => True | Some p => p_done p = true end.
Lemma act_done a p p' : VmmProcess.act a p = Some p' → p_done p = true → p_done p' = true.
Proof.
  intros Ha Hd. destruct a; cbn in Ha; unfold call_step, stop_step, send_owned in Ha; repeat case_match; simplify_eq; cbn; congruence.
Qed.
Lemma evolves_over o o' : evolves o o' → over o → over o'.
Proof.
  destruct o as [p|], o' as [p'|]; cbn; try done. induction 1 as [|p p1 p2 [a Ha] _ IH]; [done|].
  intros Hd. by eapply IH, act_done.
Qed.
(** A process keeps its identity, and a call its answer. *)
Lemma act_identity a p p' : VmmProcess.act a p = Some p' → p_identity p' = p_identity p.
Proof.
  intros Ha. destruct a; cbn in Ha; unfold call_step, stop_step, send_owned in Ha; repeat case_match; simplify_eq; done.
Qed.
Lemma answer_call p i r : answer p i = Some r ↔ ∃ k, p_calls p !! i = Some k ∧ cl_pc k = CallReturned r.
Proof.
  unfold answer. split.
  - intros Ha. destruct (p_calls p !! i) as [k|]; [|done]. exists k. split; [done|]. destruct (cl_pc k); congruence.
  - intros (k & -> & ->). done.
Qed.
Lemma insert_answer p (i j : nat) k k' r : p_calls p !! j = Some k → cl_pc k ≠ CallReturned r →
  answer p i = Some r → ∃ x, <[j := k']> (p_calls p) !! i = Some x ∧ cl_pc x = CallReturned r.
Proof.
  intros Hk Hne (x & Hx & Hr)%answer_call. exists x. split; [|done]. rewrite list_lookup_insert_ne; [done|]. intros ->. congruence.
Qed.
Lemma act_answer a p p' i r : VmmProcess.act a p = Some p' → answer p i = Some r → answer p' i = Some r.
Proof.
  intros Hact Ha. apply answer_call. destruct a; cbn in Hact; unfold call_step, stop_step, send_owned in Hact;
    repeat case_match; simplify_eq; cbn; try (by apply answer_call);
    try (by eapply insert_answer; [eassumption|congruence|]);
    try (apply answer_call in Ha as (x & Hx & Hr); exists x; split; [|done]; cbn in *;
         by apply lookup_app_l_Some).
  apply answer_call in Ha as (x & Hx & Hr). destruct (decide (i = i0)) as [<-|Hne].
  - simplify_eq. eexists. split; [apply list_lookup_insert_eq; by eapply lookup_lt_Some|done].
  - exists x. split; [by rewrite list_lookup_insert_ne|done].
Qed.
Lemma evolves_identity o o' p : evolves o o' → o = Some p → ∃ p', o' = Some p' ∧ p_identity p' = p_identity p ∧
  ∀ i r, answer p i = Some r → answer p' i = Some r.
Proof.
  intros He ->. destruct o' as [p'|]; [|done]. exists p'. split; [done|]. cbn in He.
  induction He as [p|p p1 p2 [a Ha] _ [IH1 IH2]]; [done|]. split; [by rewrite IH1, (act_identity _ _ _ Ha)|].
  intros i r Hr. by eapply IH2, act_answer.
Qed.
Lemma answer_done id p i r : reachable id p → answer p i = Some r → r = None → p_done p = true.
Proof.
  intros Hr%reachable_invariant Ha ->. unfold answer in Ha. destruct (p_calls p !! i) as [k|] eqn:Ek; [|done].
  pose proof (Forall_lookup_1 _ _ _ _ (inv_calls _ Hr) Ek) as Hc. unfold call_invariant in Hc.
  destruct (cl_pc k); [done..|]. injection Ha as ->. by apply Hc.
Qed.

(** When the context has ended, the caller returns. *)
Lemma ctx_ended i e p k : p_calls p !! i = Some k →
  ∃ k' e', p_calls (take_steps [CtxEnds i e] p) !! i = Some k' ∧ cl_ctx k' = Some e'.
Proof.
  intros Hk. pose proof (lookup_lt_Some _ _ _ Hk) as Hlt. cbn [take_steps VmmProcess.act]. rewrite Hk.
  destruct (cl_ctx k) as [x|] eqn:Ex; cbn [default]; [by exists k, x|].
  eexists _, e. split; [cbn; by apply list_lookup_insert_eq|done].
Qed.
Lemma call_entered i p k e : p_calls p !! i = Some k → cl_ctx k = Some e →
  ∃ k', p_calls (take_steps [CallStep i ChDone] p) !! i = Some k' ∧ cl_ctx k' = Some e ∧ cl_pc k' ≠ CallEnter.
Proof.
  intros Hk Hx. pose proof (lookup_lt_Some _ _ _ Hk) as Hlt. cbn [take_steps VmmProcess.act]. rewrite Hk. unfold call_step.
  destruct (cl_pc k) as [| |r] eqn:Ep.
  - destruct (p_done p); [|destruct (p_stop p)]; eexists; (split; [cbn; by apply list_lookup_insert_eq|by split]).
  - destruct (p_stopped p) as [r|]; [|exists k; split; [done|]; split; [done|by rewrite Ep]].
    eexists. split; [cbn; by apply list_lookup_insert_eq|by split].
  - exists k. split; [done|]. split; [done|]. by rewrite Ep.
Qed.
Lemma deadline_answers p i : (i < List.length (p_calls p))%nat → is_Some (answer (take_steps (deadline_steps i) p) i).
Proof.
  intros [k Hk]%lookup_lt_is_Some.
  destruct (ctx_ended i DeadlineExceeded p k Hk) as (k1 & e & Hk1 & Hx1).
  destruct (call_entered i _ k1 e Hk1 Hx1) as (k2 & Hk2 & Hx2 & Hne).
  unfold deadline_steps. change (take_steps [CtxEnds i DeadlineExceeded; CallStep i ChDone; CallStep i ChCtx] p)
    with (take_steps [CallStep i ChCtx] (take_steps [CallStep i ChDone] (take_steps [CtxEnds i DeadlineExceeded] p))).
  set (q := take_steps [CallStep i ChDone] _) in *. clearbody q. pose proof (lookup_lt_Some _ _ _ Hk2) as Hlt.
  unfold answer. cbn [take_steps VmmProcess.act]. rewrite Hk2. unfold call_step. rewrite Hx2.
  destruct (cl_pc k2) as [| |r] eqn:Ep; [done| |].
  - cbn [default]. cbn. rewrite list_lookup_insert_eq by done. by eexists.
  - cbn [default]. rewrite Hk2, Ep. by eexists.
Qed.

(** Calls are never forgotten. *)
Lemma act_calls a p p' : VmmProcess.act a p = Some p' → (List.length (p_calls p) ≤ List.length (p_calls p'))%nat.
Proof.
  intros Ha. destruct a; cbn in Ha; unfold call_step, stop_step, send_owned in Ha; repeat case_match; simplify_eq; cbn;
    rewrite ?length_insert, ?length_app; cbn; lia.
Qed.
Lemma take_steps_calls l p : (List.length (p_calls p) ≤ List.length (p_calls (take_steps l p)))%nat.
Proof.
  revert p. induction l as [|a l IH]; intros p; cbn; [done|]. destruct (VmmProcess.act a p) as [p1|] eqn:E; cbn; [|apply IH].
  etrans; [by eapply act_calls|apply IH].
Qed.

(** The call of [Stop]: it returns, and [nil] means that the process is over. *)
Lemma stop_process_spec id steps p e p' : reachable id p → stop_process steps p = (e, p') →
  reachable id p' ∧ answer p' (List.length (p_calls p)) = Some e ∧ (e = None → p_done p' = true).
Proof.
  intros Hr. unfold stop_process. cbv zeta. set (i := List.length (p_calls p)).
  pose proof (proc_steps_reachable id _ _ (take_steps_proc (CallStop :: steps) p) Hr) as Hr1.
  pose proof (take_steps_calls steps (new_call p)) as Hlen. change (take_steps (CallStop :: steps) p) with (take_steps steps (new_call p)) in *.
  cbn [new_call set_calls p_calls] in Hlen. rewrite length_app in Hlen. cbn [List.length] in Hlen. fold i in Hlen.
  set (p1 := take_steps steps (new_call p)) in *. clearbody p1.
  destruct (answer p1 i) as [r|] eqn:Ea.
  - intros [= <- <-]. split; [done|]. split; [done|]. by eapply answer_done.
  - pose proof (proc_steps_reachable id _ _ (take_steps_proc (deadline_steps i) p1) Hr1) as Hr2.
    destruct (deadline_answers p1 i) as [r Hr3]; [lia|]. rewrite Hr3. intros [= <- <-]. split; [done|]. split; [done|].
    by eapply answer_done.
Qed.

Lemma take_steps_identity l p : p_identity (take_steps l p) = p_identity p.
Proof.
  revert p. induction l as [|a l IH]; intros p; cbn; [done|]. rewrite IH.
  destruct (VmmProcess.act a p) as [p1|] eqn:E; cbn; [by eapply act_identity|done].
Qed.
Lemma stop_process_identity steps p e p' : stop_process steps p = (e, p') → p_identity p' = p_identity p.
Proof.
  unfold stop_process. cbv zeta. destruct (answer _ _); intros [_ <-]%pair_equal_spec; by rewrite ?(take_steps_identity (deadline_steps _)), (take_steps_identity (CallStop :: _)).
Qed.

(** ** The run *)
Section run_facts.
Context {W D : Type} `{Machine W} `{Schedule W} `{Disk D}.
Variable env : run_env.
#[local] Abbreviation V := (hosted W).
#[local] Abbreviation St := (state V D).
#[local] Abbreviation MM := (M (W := V) (D := D)).

(** The call of [firecracker.Start] that returned [id], in some state of the machine. *)
Definition started (id : ProcessIdentity) : Prop :=
  ∃ w w' : W, vmm_start w (rn_executable env) (path_join [rn_runtime env; "firecracker.json"%string]) = (Ok id, w').
(** The run knows of a VMM exactly when there is one, and it is the process it started:
    the one whose identity [Start] returned, which the manifest may name. *)
Definition tracked (st : St) : Prop :=
  match ho_vmm (st_world st) with
  | None => st_proc st = false
  | Some p => st_proc st = true ∧ reachable (p_identity p) p ∧ started (p_identity p) ∧
              mf_process (st_manifest st) = Some (p_identity p)
  end.
Lemma tracked_drifts (st st' : St) : drifts (st_world st) (st_world st') → known st' = known st → tracked st → tracked st'.
Proof.
  unfold tracked, drifts, known. intros Hd [-> Hm]%pair_equal_spec. destruct (ho_vmm (st_world st)) as [p|] eqn:Ep;
    [|by destruct (ho_vmm (st_world st'))].
  destruct (evolves_identity _ _ p Hd eq_refl) as (p' & Ep' & Hid & _). rewrite Ep' in *. cbn in Hd. rewrite Hid, Hm.
  intros (Hp & Hr & Hs & Hi). split_and!; [done|by eapply proc_steps_reachable|done..].
Qed.
Lemma tracked_moves {A} (m : MM A) st : moves m → keeps known m → tracked st → tracked (m st).2.
Proof. intros Hm Hk. apply tracked_drifts; [apply Hm|apply Hk]. Qed.

(** What [boot] does once the VMM has started and the manifest names it. *)
Definition boot_tail : MM unit :=
  _ ← save_manifest env;
  _ ← effect (λ w, guest_ready w (wrap64 (sc_boot_timeout (pl_scenario (rn_plan env)) * millisecond))
                     (path_join [rn_runtime env; "vsock.sock"%string]) (c_port (rn_config env))
                     (rn_id env) (rn_nonce env) (pl_image (rn_plan env)));
  _ ← modify set_guest;
  _ ← stage env "READY";
  stage env "RUNNING".
Lemma moves_boot_tail : moves boot_tail.
Proof. unfold boot_tail. follow_moves. apply lift_moves. Qed.
Lemma keeps_boot_tail : keeps known boot_tail.
Proof. unfold boot_tail. follow_keeps. Qed.
Lemma boot_tracked st : st_proc st = false → tracked st → tracked (boot env st).2.
Proof.
  intros Hf Ht. unfold boot. rewrite bind_state.
  pose proof (tracked_moves (stage env "BOOTING") st (moves_stage env _) (keeps_stage _ _ known_blind _) Ht) as T1.
  pose proof (keeps_stage env _ known_blind "BOOTING" st) as K1.
  destruct (stage env "BOOTING" st) as [[u|e] s1]; cbn [snd] in *; [|done].
  rewrite bind_state. unfold asks. cbn [vmm_start hosted_machine].
  assert (Hn : ho_vmm (st_world s1) = None).
  { unfold tracked in T1. destruct (ho_vmm _); [|done]. unfold known in K1. destruct T1 as [T1 _]. congruence. }
  destruct (vmm_start (ho_base (st_world s1)) _ _) as [[id|e] w] eqn:Es; cbn [set_world snd].
  - do 3 (rewrite bind_state; cbn [modify]).
    apply tracked_moves; [apply moves_boot_tail|apply keeps_boot_tail|].
    unfold tracked. cbn. split_and!; [done|apply reach_start|by eexists _, _|done].
  - unfold tracked in *. cbn. by rewrite Hn in *.
Qed.
Lemma execute_tracked st : st_proc st = false → tracked st → tracked (execute env st).2.
Proof.
  intros Hf Ht. unfold execute. rewrite bind_state.
  pose proof (tracked_moves (prepare env) st (moves_prepare env) (keeps_prepare _ _ known_blind) Ht) as T1.
  pose proof (keeps_prepare env _ known_blind st) as K1.
  destruct (prepare env st) as [[u|e] s1]; cbn [snd] in *; [|done]. rewrite bind_state.
  assert (Hf1 : st_proc s1 = false) by (unfold known in K1; congruence). pose proof (boot_tracked s1 Hf1 T1) as T2.
  destruct (boot env s1) as [[u'|e] s2]; cbn [snd] in *; [|done].
  apply tracked_moves; [| |done].
  - apply moves_bind; [apply moves_run_steps|intros b]. follow_moves. intros st'. reflexivity.
  - apply keeps_bind; [by apply control_known, run_steps_control|intros b].
    apply keeps_bind; [apply (keeps_observe _ _ known_blind)|intros _]. apply keeps_bind; [apply keeps_ctx_err|intros _].
    apply keeps_bind; [apply (keeps_stage _ _ known_blind)|intros _]. intros st'. reflexivity.
Qed.
Lemma conclude_tracked runErr st : tracked st → tracked (conclude runErr st).
Proof.
  apply tracked_drifts; unfold conclude; destruct (if st_proc st then _ else runErr); try done; reflexivity.
Qed.
Lemma attempt_drifts wrap (m : MM unit) st : moves m → drifts (st_world st) (st_world (attempt wrap m st)).
Proof. intros Hm. specialize (Hm st). unfold attempt. by destruct (m st) as [[u|e] st1]. Qed.
Lemma attempt_known wrap (m : MM unit) st : keeps known m → known (attempt wrap m st) = known st.
Proof. intros Hk. specialize (Hk st). unfold attempt. by destruct (m st) as [[u|e] st1]. Qed.
Lemma attempt_tracked wrap (m : MM unit) st : moves m → keeps known m → tracked st → tracked (attempt wrap m st).
Proof. intros Hm Hk. apply tracked_drifts; [by apply attempt_drifts|by apply attempt_known]. Qed.
Lemma shut_down_tracked st : tracked st → tracked (shut_down_guest st).
Proof.
  intros Ht. unfold shut_down_guest. destruct (st_guest st); [|done]. cbv zeta.
  assert (Hm : moves (D := D) (effect (W := V) guest_shutdown)) by (apply moves_effect; intros v; apply lift_moves).
  pose proof (attempt_tracked (Wrapf "guest shutdown: %w" []) _ st Hm (keeps_effect _ known_blind _) Ht) as T1.
  revert T1. apply tracked_drifts; [|done]. cbn [set_world st_world]. apply (lift_moves (st_world _)).
Qed.

(** The cleanup up to the call of [Stop], up to the point where the runtime directory may be
    removed, and after. *)
Definition before_stop (st : St) : St := shut_down_guest (attempt id (stage env "CLEANING") st).
Definition before_removal (st : St) : bool * St :=
  let '(dead, st) := stop_vmm (before_stop st) in (dead, attempt id (observe env "cleanup.end") st).
Definition after_removal (st : St) : St :=
  let st := set_manifest (mf_set_cleanup (rp_cleanup (st_report st))) st in
  let st := attempt id (stage env "FINISHED") st in
  let st := attempt id (recorded (λ r, Close r)) st in
  attempt id (λ st, (of_err (rec_err (st_rec st)), st)) st.
Lemma clean_up_split st :
  clean_up env st = let '(dead, s) := before_removal st in after_removal (if dead then remove_runtime env s else s).
Proof. unfold clean_up, before_removal, before_stop, after_removal. cbv zeta. by destruct (stop_vmm _) as [dead s]. Qed.

(** The call of [Stop] made in [st] has its answer in [p], and [dead] says whether it is nil. *)
Definition stop_verdict (st : St) (p : Process) (dead : bool) : Prop :=
  ∃ q a, ho_vmm (st_world st) = Some q ∧ answer p (List.length (p_calls q)) = Some a ∧ (dead = true ↔ a = None).

(** Stopping asks the process, and believes only its answer. *)
Lemma stop_vmm_over st dead st' : tracked st → stop_vmm st = (dead, st') →
  tracked st' ∧ (dead = true → over (ho_vmm (st_world st'))) ∧
  match ho_vmm (st_world st') with None => dead = true | Some p => stop_verdict st p dead end.
Proof.
  unfold tracked, stop_vmm, stop_verdict. cbn [vmm_stop hosted_machine]. destruct (ho_vmm (st_world st)) as [p|] eqn:Ep.
  - intros (Hp & Hr & Hs & Hi). rewrite Hp. destruct (stop_process _ p) as [e p'] eqn:Es.
    destruct (stop_process_spec _ _ _ _ _ Hr Es) as (Hr' & Ha & Hd). pose proof (stop_process_identity _ _ _ _ Es) as Hid.
    destruct e as [e|]; intros [= <- <-]; cbn; rewrite Hid; (split; [by split_and!|]); (split; [try done; by intros _; apply Hd|]);
      (eexists p, _; split; [done|]; split; [exact Ha|done]).
  - intros Hf. rewrite Hf. intros [= <- <-]. rewrite Ep. split_and!; cbn; done.
Qed.
Lemma before_removal_over st dead s : tracked st → before_removal st = (dead, s) →
  tracked s ∧ (dead = true → over (ho_vmm (st_world s))) ∧
  match ho_vmm (st_world s) with None => dead = true | Some p => stop_verdict (before_stop st) p dead end.
Proof.
  intros Ht. unfold before_removal. set (s2 := before_stop st).
  assert (T2 : tracked s2).
  { apply shut_down_tracked, attempt_tracked; [apply moves_stage|apply (keeps_stage _ _ known_blind)|done]. }
  clearbody s2. destruct (stop_vmm s2) as [d s3] eqn:E. destruct (stop_vmm_over _ _ _ T2 E) as (T3 & Ho & Hk).
  intros [= <- <-]. pose proof (attempt_drifts id (observe env "cleanup.end") s3 (moves_observe env _)) as Hd.
  split; [by apply attempt_tracked; [apply moves_observe|apply (keeps_observe _ _ known_blind)|]|]. split.
  - intros Hdead. eapply evolves_over; [exact Hd|by apply Ho].
  - unfold drifts in Hd. destruct (ho_vmm (st_world s3)) as [p|] eqn:Ep;
      [|by destruct (ho_vmm (st_world (attempt _ _ _)))].
    destruct (evolves_identity _ _ p Hd eq_refl) as (p' & -> & _ & Ha).
    destruct Hk as (q & a & Hq & Hans & Hv). exists q, a. split_and!; [done|by apply Ha|done..].
Qed.
End run_facts.

(** *** Claims *)

(** C3.  The engine's cleanup against the real process.  For every machine and every
    interleaving of the VMM's goroutines with the run: when the cleanup decides, there is a
    VMM process exactly when the run believes so, and it is the one the run started: its
    identity is the one [Start] returned for the run's executable and configuration, and the
    one the run's manifest names.  The runtime directory is removed exactly when the run's
    own call of [Stop] answered nil (or no VMM was ever started), and in that state the
    process has exited and been waited for; when it is kept, that call answered with an
    error.  The process is signalled at most once with SIGTERM and then SIGKILL. *)
Theorem removal_after_exit {W D} `{Machine W} `{Schedule W} `{Disk D} env (st : state (hosted W) D) e st' :
  fresh st → ho_vmm (st_world st) = None → execute_and_finish env st = (e, st') →
  ∃ r s1 dead s,
    execute env st = (r, s1) ∧ before_removal env (conclude (err_of r) s1) = (dead, s) ∧
    finish env (after_removal env (if dead then remove_runtime env s else s)) = (e, st') ∧
    match ho_vmm (st_world s) with
    | None => st_proc s = false ∧ dead = true
    | Some p =>
        st_proc s = true ∧ started (W := W) env (p_identity p) ∧ mf_process (st_manifest s) = Some (p_identity p) ∧
        p_signals p `sublist_of` [SIGTERM; SIGKILL] ∧ (dead = true → p_exited p = true ∧ is_Some (p_waited p)) ∧
        stop_verdict (before_stop env (conclude (err_of r) s1)) p dead
    end.
Proof.
  intros (_ & _ & Hv) Hn. unfold execute_and_finish. assert (Hf : st_proc st = false) by (unfold vm in Hv; congruence).
  assert (Ht : tracked env st) by (unfold tracked; by rewrite Hn). apply execute_tracked in Ht; [|done].
  destruct (execute env st) as [r s1]. cbn [snd] in Ht. rewrite clean_up_split.
  destruct (before_removal env (conclude (err_of r) s1)) as [dead s] eqn:Eb. intros Hx.
  apply (conclude_tracked _ (err_of r)) in Ht. destruct (before_removal_over _ _ _ _ Ht Eb) as (Ts & Ho & Hk).
  exists r, s1, dead, s. split_and!; [done..|]. unfold tracked in Ts. destruct (ho_vmm (st_world s)) as [p|]; [|done].
  destruct Ts as (Hp & Hr & Hs & Hi). pose proof (process_confirmed _ p Hr) as (Hsig & Hdone).
  split_and!; [done..| |done]. intros Hd. by apply Hdone, Ho.
Qed.

(** *** Example: the run of [EngineRunFacts], whose VMM exits during the cleanup *)
#[local] Instance sim_schedule : Schedule sim := {|
  next_steps w := if sim_time w <? utc_midnight 2026 1 1 + 32000 then []
                  else [ChildExits; WaitReturns None; CloseDone; CallStep 0 ChDone]
|}.
Definition hosted_state : state (hosted sim) (list (string * string)) :=
  Build_state (Build_hosted sim_world None) (Build_Recorder 0 0 None false [] []) (initial_report sim_env)
    (initial_manifest sim_env "boot" 1000 "") None false false [].
Definition hosted_finished := execute_and_finish sim_env hosted_state.
Definition started_vmm (s : state (hosted sim) (list (string * string))) : bool :=
  match ho_vmm (st_world s) with Some _ => true | None => false end.
Lemma removal_after_exit_witness :
  st_trace hosted_finished.2 = [Started; Stopped true; Removed true] ∧
  ∃ s p, ho_vmm (st_world s) = Some p ∧ p_exited p = true ∧ is_Some (p_waited p) ∧
         finish sim_env (after_removal sim_env (remove_runtime sim_env s)) = hosted_finished.
Proof.
  assert (Htrace : st_trace hosted_finished.2 = [Started; Stopped true; Removed true]) by (vm_compute; reflexivity).
  assert (Hdead : (let '(r, s1) := execute sim_env hosted_state in
                   let '(dead, s) := before_removal sim_env (conclude (err_of r) s1) in dead && started_vmm s) = true)
    by (vm_compute; reflexivity).
  assert (Hfresh : fresh hosted_state) by (vm_compute; repeat split).
  split; [exact Htrace|]. clear Htrace. destruct hosted_finished as [e st'] eqn:E. unfold hosted_finished in E.
  destruct (removal_after_exit sim_env hosted_state e st' Hfresh eq_refl E) as (r & s1 & dead & s & Hx & Hb & Hf & Hp).
  rewrite Hx, Hb in Hdead. destruct dead; [|discriminate Hdead]. unfold started_vmm in Hdead.
  destruct (ho_vmm (st_world s)) as [p|] eqn:Ep; [|discriminate Hdead].
  destruct Hp as (_ & _ & _ & _ & Hdone & _). destruct (Hdone eq_refl) as [H1 H2]. exists s, p. split; [exact Ep|]. split; [exact H1|].
  split; [exact H2|exact Hf].
Defined.
