(* ===== verification/Terminal.v ===== *)
(** * Terminal: what the command line shows (Quote of internal/evidence/evidence.go,
    printReport and usage of cmd/epoch/main.go)

    Text that comes from a workload goes through strconv.QuoteToASCII before it reaches a
    terminal.  A rune is its bytes; [rune_value] is its code point. *)

From S2P Require Import Prelude GoLib Json JsonFacts GoTime GoText JsonUtil JsonText Assertions EngineTypes.
From Stdlib Require Import Ascii String.

Definition low_bits (c : ascii) : Z := bz c mod 64.
(** The code point of the encoding of [n] bytes at the front. *)
Definition rune_value (n : nat) (s : string) : Z :=
  match n, s with
  | 1%nat, String a _ => bz a
  | 2%nat, String a (String b _) => bz a mod 32 * 64 + low_bits b
  | 3%nat, String a (String b (String c _)) => bz a mod 16 * 4096 + low_bits b * 64 + low_bits c
  | 4%nat, String a (String b (String c (String d _))) =>
      bz a mod 8 * 262144 + low_bits b * 4096 + low_bits c * 64 + low_bits d
  | _, _ => 65533
  end.
Definition escape_x (z : Z) : string := bytes_of [92; 120] +:+ String (hex_char (z / 16)) (String (hex_char (z mod 16)) "").
Definition escape_U (z : Z) : string :=
  bytes_of [92; 85] +:+ String (hex_char (z / 268435456)) (String (hex_char (z / 16777216 mod 16))
    (String (hex_char (z / 1048576 mod 16)) (String (hex_char (z / 65536 mod 16)) (String (hex_char (z / 4096 mod 16))
      (String (hex_char (z / 256 mod 16)) (String (hex_char (z / 16 mod 16)) (String (hex_char (z mod 16)) ""))))))).
(** appendEscapedRune for ASCII output inside double quotes. *)
Definition escape_rune (r : Z) : string :=
  if (r =? 34) || (r =? 92) then String (chr 92) (String (chr r) "")
  else if (32 <=? r) && (r <? 127) then String (chr r) ""
  else if r =? 7 then bytes_of [92; 97] else if r =? 8 then bytes_of [92; 98]
  else if r =? 12 then bytes_of [92; 102] else if r =? 10 then bytes_of [92; 110]
  else if r =? 13 then bytes_of [92; 114] else if r =? 9 then bytes_of [92; 116]
  else if r =? 11 then bytes_of [92; 118]
  else if (r <? 32) || (r =? 127) then escape_x r
  else if r <? 65536 then escape_u r else escape_U r.
(** [skip] bytes belong to the rune written last. *)
Fixpoint quote_runes (skip : nat) (s : string) : string :=
  match s with
  | EmptyString => ""
  | String c r =>
      match skip with
      | S skip => quote_runes skip r
      | O => match utf8_head s with
             | Some n => escape_rune (rune_value n s) +:+ quote_runes (Nat.pred n) r
             | None => escape_x (bz c) +:+ quote_runes 0 r
             end
      end
  end.
(** [evidence.Quote]. *)
Definition Quote (s : string) : string := String (chr 34) (quote_runes 0 s +:+ String (chr 34) "").

Definition line (s : string) : string := s +:+ String (chr 10) "".
Definition report_head (r : Report) : string :=
  "Run " +:+ rp_run r +:+ ": execution=" +:+ rp_execution r +:+ " assertions=" +:+ rp_assertion r +:+ " cleanup=" +:+ rp_cleanup r.
Definition printReport (r : Report) : string :=
  line (report_head r)
  +:+ List.fold_right (λ a t, line ("  " +:+ r_status a +:+ " " +:+ Quote (r_id a)) +:+ t)%string ""%string (rp_assertions r)
  +:+ List.fold_right (λ cause t, line ("  Cause: " +:+ Quote cause) +:+ t)%string ""%string (rp_causes r).
Definition usage : string :=
  List.fold_right (λ l t, line l +:+ t)%string ""%string
    ["Usage:"; "  epoch version"; "  epoch doctor --config epoch.local.json [--probe] [--json]";
     "  epoch validate SCENARIO --config epoch.local.json"; "  epoch run SCENARIO --config epoch.local.json [--json]";
     "  epoch report RUN_ID --config epoch.local.json [--json]"; "  epoch recover RUN_ID --config epoch.local.json [--apply]"]%string.

(** ** Facts *)
Definition visible (s : string) : Prop := all_bytes (in_range 32 126) s = true.
Lemma visible_app a b : visible (a +:+ b) ↔ visible a ∧ visible b.
Proof. unfold visible. by rewrite all_bytes_app, andb_true_iff. Qed.
Lemma visible_hex z : 0 ≤ z < 16 → in_range 32 126 (hex_char z) = true.
Proof. intros Hz. apply (all_from_spec 16 0 (λ z, in_range 32 126 (hex_char z)) z); [reflexivity|lia]. Qed.
Ltac visible_digits := unfold visible; cbn [String.append bytes_of map fold_right all_bytes]; rewrite !visible_hex by (Z.div_mod_to_equations; lia); reflexivity.
Lemma visible_x z : 0 ≤ z < 256 → visible (escape_x z).
Proof. intros Hz. unfold escape_x. visible_digits. Qed.
Lemma visible_u z : 0 ≤ z < 65536 → visible (escape_u z).
Proof. intros Hz. unfold escape_u. visible_digits. Qed.
Lemma visible_U z : 0 ≤ z < 2 ^ 32 → visible (escape_U z).
Proof. intros Hz. unfold escape_U. visible_digits. Qed.
Lemma visible_rune r : 0 ≤ r < 2 ^ 21 → visible (escape_rune r).
Proof.
  intros Hr. unfold escape_rune. destruct (Z.eqb_spec r 34) as [->|]; [done|]. destruct (Z.eqb_spec r 92) as [->|]; [done|]. cbn [orb].
  destruct ((32 <=? r) && (r <? 127)) eqn:Ep.
  { apply (all_from_spec 95 32 (λ r, all_bytes (in_range 32 126) (String (chr r) "")) r); [vm_compute; reflexivity|to_prop; lia]. }
  do 7 (destruct (_ =? _); [done|]). destruct (_ || _) eqn:Ex; [apply visible_x; apply orb_true_iff in Ex as [?|?]; to_prop; lia|].
  destruct (Z.ltb_spec r 65536); [apply visible_u; lia|apply visible_U; lia].
Qed.
Lemma rune_value_bound n s : 0 ≤ rune_value n s < 2 ^ 21.
Proof.
  unfold rune_value, low_bits. repeat case_match; subst; try lia;
    repeat match goal with c : ascii |- _ => pose proof (bz_bound c); generalize dependent (bz c); clear c end;
    intros; Z.div_mod_to_equations; lia.
Qed.
Lemma quote_runes_visible s : ∀ k, visible (quote_runes k s).
Proof.
  induction s as [|c s IH]; intros k; [done|]. cbn [quote_runes]. destruct k as [|k]; [|apply IH].
  destruct (utf8_head _); apply visible_app; (split; [|apply IH]); [apply visible_rune, rune_value_bound|apply visible_x, bz_bound].
Qed.
Lemma quote_visible s : visible (Quote s).
Proof.
  unfold Quote. apply (visible_app (String (chr 34) "")). split; [done|]. apply visible_app. split; [apply quote_runes_visible|done].
Qed.

(** Lines of visible text, each ended once. *)
Definition shown (text : string) (n : nat) : Prop :=
  ∃ l, List.length l = n ∧ Forall visible l ∧ text = List.fold_right (λ x t, line x +:+ t)%string ""%string l.
Lemma shown_lines {A} (f : A → string) l : (∀ x, x ∈ l → visible (f x)) →
  shown (List.fold_right (λ x t, line (f x) +:+ t)%string ""%string l) (List.length l).
Proof.
  intros Hf. exists (map f l). rewrite length_map. split; [done|]. split; [apply Forall_fmap, Forall_forall, Hf|].
  clear Hf. induction l as [|x l IH]; [done|]. cbn. by rewrite IH.
Qed.
Lemma shown_app a b n m : shown a n → shown b m → shown (a +:+ b) (n + m).
Proof.
  intros (la & Hn & Ha & ->) (lb & Hm & Hb & ->). exists (la ++ lb). rewrite length_app, Hn, Hm. split; [done|].
  split; [by apply Forall_app|]. clear. induction la as [|x la IH]; [done|]. cbn. by rewrite sapp_assoc, IH.
Qed.
(** A workload cannot write to the operator's terminal through a report: whatever the
    identifiers of assertions and the causes contain, the report is one line, then one per
    assertion, then one per cause, all of visible ASCII. *)
Lemma report_shown r : visible (rp_run r) → visible (rp_execution r) → visible (rp_assertion r) → visible (rp_cleanup r) →
  Forall (λ a, visible (r_status a)) (rp_assertions r) →
  shown (printReport r) (1 + List.length (rp_assertions r) + List.length (rp_causes r)).
Proof.
  intros H1 H2 H3 H4 Hs. unfold printReport. rewrite <-sapp_assoc. apply shown_app; [apply shown_app|].
  - exists [report_head r]. split; [done|]. split; [|cbn; by rewrite sapp_nil_r]. constructor; [|done].
    unfold report_head. repeat (apply visible_app; split; [done|]). done.
  - apply shown_lines. intros a Ha. rewrite Forall_forall in Hs. repeat (apply visible_app; split; [first [done|by apply Hs]|]). apply quote_visible.
  - apply shown_lines. intros c _. apply visible_app. split; [done|apply quote_visible].
Qed.
Example quote_sample : Quote (bytes_of [27; 91; 50; 74; 10; 195; 169; 255; 240; 159; 152; 128; 34])
  = String (chr 34) (bytes_of [92; 120; 49; 98] +:+ "[2J" +:+ bytes_of [92; 110; 92; 117; 48; 48; 101; 57; 92; 120; 102; 102]
      +:+ bytes_of [92; 85; 48; 48; 48; 49; 102; 54; 48; 48; 92; 34; 34]).
Proof. vm_compute. reflexivity. Qed.
