(* ===== verification/Cli.v ===== *)
(** * Cli: cmd/epoch/main.go

    The operator's command line: splitting arguments into flags and positionals, the
    flags of each command as Go's [flag] package parses them, and the exit code of every
    outcome.  What the commands call is the [Epoch] class; the log records each call with
    its arguments.  Texts written to the terminal are not modelled, except that encoding
    JSON to the output may fail ([ep_encode]). *)

From S2P Require Import Prelude GoLib Json JsonFacts GoTime GoText JsonUtil JsonText Assertions Scenario Protocol HostCheck SafeFS Firecracker Artifact Config EnginePlan EngineTypes EngineRecover EngineRecovery.
From Stdlib Require Import Ascii String.

(** ** Arguments *)
Record options := { op_config : string; op_json : bool; op_probe : bool; op_apply : bool }.
Definition default_options : options :=
  {| op_config := "epoch.local.json"; op_json := false; op_probe := false; op_apply := false |}.

(** [partition]: [--config] takes the next argument with it. *)
Fixpoint partition (args : list string) : result (list string * list string) :=
  match args with
  | [] => Ok ([], [])
  | a :: rest =>
      if a =?s "--" then Ok ([], rest) else
      if has_prefix a "-" then
        if (a =?s "--config") || (a =?s "-config") then
          match rest with
          | [] => Err (Errorf "--config requires a path" [])
          | v :: rest => let? (flags, pos) := partition rest in Ok (a :: v :: flags, pos)
          end
        else let? (flags, pos) := partition rest in Ok (a :: flags, pos)
      else let? (flags, pos) := partition rest in Ok (flags, a :: pos)
  end.

(** The flags of a [flag.FlagSet], and [strconv.ParseBool]. *)
Inductive flag_kind := FConfig | FJson | FProbe | FApply.
Definition flags_of (cmd : string) : list (string * flag_kind) :=
  [("config"%string, FConfig)]
  ++ (if (cmd =?s "doctor") || (cmd =?s "report") || (cmd =?s "run") then [("json"%string, FJson)] else [])
  ++ (if cmd =?s "doctor" then [("probe"%string, FProbe)] else [])
  ++ (if cmd =?s "recover" then [("apply"%string, FApply)] else []).
Definition parse_bool (s : string) : option bool :=
  if existsb (String.eqb s) ["1"; "t"; "T"; "TRUE"; "true"; "True"]%string then Some true
  else if existsb (String.eqb s) ["0"; "f"; "F"; "FALSE"; "false"; "False"]%string then Some false else None.
Definition set_flag (k : flag_kind) (b : bool) (o : options) : options :=
  match k with
  | FConfig => o
  | FJson => {| op_config := op_config o; op_json := b; op_probe := op_probe o; op_apply := op_apply o |}
  | FProbe => {| op_config := op_config o; op_json := op_json o; op_probe := b; op_apply := op_apply o |}
  | FApply => {| op_config := op_config o; op_json := op_json o; op_probe := op_probe o; op_apply := b |}
  end.
Definition set_config (v : string) (o : options) : options :=
  {| op_config := v; op_json := op_json o; op_probe := op_probe o; op_apply := op_apply o |}.

(** [-name] or [--name] without its dashes; [None] ends the flags, as a lone [-] does. *)
Definition flag_name (s : string) : option string :=
  match s with
  | String a (String b r) =>
      if negb (Ascii.eqb a "-") then None
      else if Ascii.eqb b "-" then (if r =?s "" then None else Some r) else Some (String b r)
  | _ => None
  end.
Definition bad_flag : error := Errorf "bad flag syntax: %s" [].
Fixpoint parse_flags (known : list (string * flag_kind)) (args : list string) (o : options) : result options :=
  match args with
  | [] => Ok o
  | s :: rest =>
      match flag_name s with
      | None => Ok o
      | Some name =>
          if (name =?s "") || has_prefix name "-" || has_prefix name "=" then Err bad_flag else
          let '(key, value, has_value) := cut "=" name in
          match assoc key known with
          | None => Err (Errorf "flag provided but not defined: -%s" [key])
          | Some FConfig =>
              if has_value : bool then parse_flags known rest (set_config value o)
              else match rest with
                   | [] => Err (Errorf "flag needs an argument: -%s" [key])
                   | v :: rest => parse_flags known rest (set_config v o)
                   end
          | Some k =>
              if has_value : bool
              then match parse_bool value with
                   | Some b => parse_flags known rest (set_flag k b o)
                   | None => Err (Errorf "invalid boolean value %q for -%s" [value; key])
                   end
              else parse_flags known rest (set_flag k true o)
          end
      end
  end.

(** ** Commands *)
Class Epoch (W : Type) := {
  ep_config : W → string → result Config;
  ep_doctor : W → string → bool → option error * W;
  ep_executable : W → string → option error * W;
  ep_validate : W → Config → string → result Plan * W;
  ep_run : W → Config → string → (option Report * option error) * W;
  ep_report : W → Config → string → result Report;
  ep_recover : W → Config → string → bool → (option Recovery * option error) * W;
  ep_encode : W → option error * W;
  ep_cancelled : W → bool
}.
Inductive cli_call :=
| CallDoctor (path : string) (probe : bool)
| CallValidate (c : Config) (scenario : string)
| CallRun (c : Config) (scenario : string)
| CallReport (c : Config) (id : string)
| CallRecover (c : Config) (id : string) (apply : bool).

(** [errors.As(e, &invalid)] for [*engine.ValidationError]. *)
Fixpoint as_validation (e : error) : bool :=
  match e with
  | ErrValidation _ => true
  | Wrapf _ _ i | ErrOutcomeUnknown i => as_validation i
  | ErrJoin es => (fix go es := match es with [] => false | e :: es => as_validation e || go es end) es
  | _ => false
  end.

Section cli.
Context {W : Type} `{Epoch W}.

(** Encode when JSON was asked for: [true] when that failed. *)
Definition encode_failed (json : bool) (w : W) : bool * W :=
  if json then let '(e, w) := ep_encode w in (match e with Some _ => true | None => false end, w) else (false, w).
Definition doctor (c : Config) (o : options) (w : W) : Z * W :=
  let '(e, w) := ep_doctor w (FirecrackerPath c) (op_probe o) in
  let '(e, w) := match e with None => ep_executable w (FirecrackerPath c) | Some _ => (e, w) end in
  let '(bad, w) := encode_failed (op_json o) w in
  (if (match e with Some _ => true | None => false end) || bad then 3 else 0, w).
Definition cli_run (c : Config) (o : options) (path : string) (w : W) : Z * W :=
  let '((r, e), w) := ep_run w c path in
  match r with
  | Some r => let '(bad, w) := encode_failed (op_json o) w in (if bad : bool then 3 else ExitCode r, w)
  | None => (if match e with Some e => as_validation e | None => false end then 2
             else if ep_cancelled w then 130 else 3, w)
  end.
Definition cli_report (c : Config) (o : options) (id : string) (w : W) : Z * W :=
  match ep_report w c id with
  | Err _ => (3, w)
  | Ok r => let '(bad, w) := encode_failed (op_json o) w in (if (bad : bool) || negb (rp_saved r) then 3 else 0, w)
  end.
Definition cli_recover (c : Config) (o : options) (id : string) (w : W) : Z * W :=
  let '((r, e), w) := ep_recover w c id (op_apply o) in
  (match e, r with
   | None, Some r => if rv_clean r then 0 else 4
   | _, _ => 4
   end, w).

Definition known_commands : list string := ["doctor"; "validate"; "run"; "report"; "recover"]%string.
Definition dispatch (cmd : string) (c : Config) (o : options) (pos : list string) (w : W) : Z * W * list cli_call :=
  match pos with
  | [] => let '(code, w) := doctor c o w in (code, w, [CallDoctor (FirecrackerPath c) (op_probe o)])
  | arg :: _ =>
      if cmd =?s "validate" then
        let '(p, w) := ep_validate w c arg in (if is_ok p then 0 else 2, w, [CallValidate c arg])
      else if cmd =?s "run" then let '(code, w) := cli_run c o arg w in (code, w, [CallRun c arg])
      else if negb (ValidRunID arg) then (2, w, [])
      else if cmd =?s "report" then let '(code, w) := cli_report c o arg w in (code, w, [CallReport c arg])
      else let '(code, w) := cli_recover c o arg w in (code, w, [CallRecover c arg (op_apply o)])
  end.

Definition command (args : list string) (w : W) : Z * W * list cli_call :=
  match args with
  | [] => (2, w, [])
  | cmd :: rest =>
      if cmd =?s "version" then (if (List.length args =? 1)%nat then 0 else 2, w, []) else
      if (cmd =?s "--help") || (cmd =?s "help") then (0, w, []) else
      if negb (existsb (String.eqb cmd) known_commands) then (2, w, []) else
      match (let? (flags, pos) := partition rest in
             let? o := parse_flags (flags_of cmd) flags default_options in
             fail_if negb (List.length pos =? (if cmd =?s "doctor" then 0 else 1))%nat with Errorf "usage" [] ;;
             let? c := ep_config w (op_config o) in
             Ok (c, o, pos)) with
      | Err _ => (2, w, [])
      | Ok (c, o, pos) => dispatch cmd c o pos w
      end
  end.
End cli.

(** ** Facts *)

(** The argument [a] asks for [--apply]: with no value, or with a true one. *)
Definition asks_apply (a : string) : Prop :=
  ∃ name value has, flag_name a = Some name ∧ cut "=" name = ("apply"%string, value, has) ∧
                    (has = true → parse_bool value = Some true).

Lemma partition_subset n args flags pos : (List.length args ≤ n)%nat → partition args = Ok (flags, pos) →
  flags ⊆ args ∧ pos ⊆ args.
Proof.
  revert args flags pos. induction n as [|n IH]; intros [|a rest] flags pos Hn; cbn [partition] in *;
    try (intros [= <- <-]; set_solver); [cbn in Hn; lia|]. cbn in Hn.
  destruct (a =?s "--"); [intros [= <- <-]; set_solver|].
  destruct (has_prefix a "-"); [destruct ((a =?s "--config") || (a =?s "-config"))|].
  1: destruct rest as [|v rest]; [done|].
  all: intros ([f p] & [Hf Hp]%IH & [= <- <-])%rbind_ok; [set_solver|cbn in Hn; lia].
Qed.
Lemma apply_key cmd key : assoc key (flags_of cmd) = Some FApply → key = "apply"%string ∧ cmd = "recover"%string.
Proof.
  intros Hk%assoc_in. unfold flags_of in Hk. destruct (String.eqb_spec cmd "recover") as [->|].
  - cbn in Hk. set_solver.
  - exfalso. repeat case_match; set_solver.
Qed.
Lemma parse_flags_apply cmd n args o o' : (List.length args ≤ n)%nat → parse_flags (flags_of cmd) args o = Ok o' →
  op_apply o' = true → op_apply o = true ∨ cmd = "recover"%string ∧ ∃ a, a ∈ args ∧ asks_apply a.
Proof.
  revert args o. induction n as [|n IH]; intros [|s rest] o Hn; cbn [parse_flags] in *;
    try (intros [= <-]; by left); [cbn in Hn; lia|]. cbn in Hn.
  destruct (flag_name s) as [name|] eqn:Ef; [|intros [= <-]; by left]. destruct (_ || _); [done|].
  destruct (cut "=" name) as [[key value] has] eqn:Ec. destruct (assoc key (flags_of cmd)) as [k|] eqn:Ek; [|done].
  assert (Hrest : ∀ rest' o1, rest' ⊆ rest → (List.length rest' ≤ n)%nat → parse_flags (flags_of cmd) rest' o1 = Ok o' →
    op_apply o' = true → op_apply o1 = op_apply o →
    op_apply o = true ∨ cmd = "recover"%string ∧ ∃ a, a ∈ s :: rest ∧ asks_apply a).
  { intros rest' o1 Hsub Hl Hp Ha Ho. destruct (IH _ _ Hl Hp Ha) as [?|(? & a & ? & ?)]; [left; congruence|].
    right. split; [done|]. exists a. split; [right; by apply Hsub|done]. }
  assert (Hn' : (List.length rest ≤ n)%nat) by lia.
  destruct k.
  - destruct has; [by intros ? ?; eapply Hrest|]. destruct rest as [|v rest]; [done|]. cbn in Hn'.
    intros ? ?. eapply Hrest; [|..|done|done|done]; [set_solver|lia].
  - destruct has; [destruct (parse_bool value); [|done]|]; intros ? ?; by eapply Hrest.
  - destruct has; [destruct (parse_bool value); [|done]|]; intros ? ?; by eapply Hrest.
  - apply apply_key in Ek as [-> ->].
    assert (Hyes : (has = true → parse_bool value = Some true) →
      op_apply o = true ∨ "recover"%string = "recover"%string ∧ ∃ a, a ∈ s :: rest ∧ asks_apply a).
    { intros Hv. right. split; [done|]. exists s. split; [left|]. by exists name, value, has. }
    destruct has; [|intros _ _; by apply Hyes]. destruct (parse_bool value) as [[]|]; [intros _ _; by apply Hyes| |done].
    intros Hp Ha. destruct (IH _ _ Hn' Hp Ha) as [?|(? & a & ? & ?)]; [done|]. right. split; [done|]. exists a. set_solver.
Qed.

(** What each call's exit code 0 means. *)
Definition exit_zero {W} `{Epoch W} (w : W) (k : cli_call) : Prop :=
  match k with
  | CallDoctor path probe => (ep_doctor w path probe).1 = None ∧ (ep_executable (ep_doctor w path probe).2 path).1 = None
  | CallValidate c s => is_ok (ep_validate w c s).1 = true
  | CallRun c s => ∃ r, (ep_run w c s).1.1 = Some r ∧ ExitCode r = 0
  | CallReport c id => ∃ r, ep_report w c id = Ok r ∧ rp_saved r = true
  | CallRecover c id apply => ∃ r, (ep_recover w c id apply).1 = (Some r, None) ∧ rv_clean r = true
  end.
Definition call_config (k : cli_call) (c : Config) : Prop :=
  match k with
  | CallDoctor path _ => path = FirecrackerPath c
  | CallValidate c' _ | CallRun c' _ | CallReport c' _ | CallRecover c' _ _ => c' = c
  end.
Definition well_called (args : list string) (k : cli_call) : Prop :=
  match k with
  | CallReport _ id => ValidRunID id = true
  | CallRecover _ id apply =>
      ValidRunID id = true ∧ (apply = true → head args = Some "recover"%string ∧ ∃ a, a ∈ args ∧ asks_apply a)
  | _ => True
  end.

Section cli_facts.
Context {W : Type} `{Epoch W}.
Lemma dispatch_zero cmd c o pos (w w' : W) calls : dispatch cmd c o pos w = (0, w', calls) →
  ∃ k, calls = [k] ∧ exit_zero w k.
Proof.
  unfold dispatch. destruct pos as [|arg pos].
  - unfold doctor. pose proof (eq_refl (ep_doctor w (FirecrackerPath c) (op_probe o))) as E. revert E.
    generalize (ep_doctor w (FirecrackerPath c) (op_probe o)) at 1 3. intros [e w1] E. destruct e as [e|].
    + destruct (encode_failed _ w1). intros [=].
    + destruct (ep_executable w1 (FirecrackerPath c)) as [e w2] eqn:E2. destruct (encode_failed _ w2) as [bad w3].
      destruct e as [e|]; [intros [=]|]. destruct bad; [intros [=]|]. intros [= _ <-]. eexists. split; [done|].
      cbn. rewrite <-E. cbn. by rewrite E2.
  - destruct (cmd =?s "validate").
    { destruct (ep_validate w c arg) as [p w1] eqn:E. destruct (is_ok p) eqn:Ep; intros [= _ <-]. eexists. split; [done|].
      cbn. by rewrite E. }
    destruct (cmd =?s "run").
    { unfold cli_run. destruct (ep_run w c arg) as [[r e] w1] eqn:E. destruct r as [r|].
      - destruct (encode_failed _ w1) as [bad w2]. destruct bad; [intros [=]|]. intros [= Hx _ <-]. eexists. split; [done|].
        cbn. rewrite E. by exists r.
      - destruct (match e with Some e => _ | None => _ end); [intros [=]|]. destruct (ep_cancelled w1); intros [=]. }
    destruct (negb (ValidRunID arg)); [intros [=]|]. destruct (cmd =?s "report").
    { unfold cli_report. destruct (ep_report w c arg) as [r|] eqn:E; [|intros [=]].
      destruct (encode_failed _ w) as [bad w1]. destruct bad; [intros [=]|]. destruct (rp_saved r) eqn:Es; [|intros [=]].
      intros [= _ <-]. eexists. split; [done|]. cbn. by exists r. }
    unfold cli_recover. destruct (ep_recover w c arg (op_apply o)) as [[r e] w1] eqn:E.
    destruct e as [e|]; [intros [=]|]. destruct r as [r|]; [|intros [=]]. destruct (rv_clean r) eqn:Ec; [|intros [=]].
    intros [= _ <-]. eexists. split; [done|]. cbn. rewrite E. by exists r.
Qed.
Lemma dispatch_calls args cmd c o pos (w w' : W) code calls : dispatch cmd c o pos w = (code, w', calls) →
  (op_apply o = true → head args = Some "recover"%string ∧ ∃ a, a ∈ args ∧ asks_apply a) →
  (List.length calls ≤ 1)%nat ∧ Forall (λ k, call_config k c ∧ well_called args k) calls.
Proof.
  unfold dispatch. intros Hd Ha.
  assert (Hone : ∀ k, call_config k c → well_called args k → (List.length [k] ≤ 1)%nat ∧ Forall (λ k, call_config k c ∧ well_called args k) [k])
    by (intros k ? ?; split; [done|by repeat constructor]).
  destruct pos as [|arg pos].
  { destruct (doctor c o w). injection Hd as _ _ <-. by apply Hone. }
  destruct (cmd =?s "validate"). { destruct (ep_validate w c arg). injection Hd as _ _ <-. by apply Hone. }
  destruct (cmd =?s "run"). { destruct (cli_run c o arg w). injection Hd as _ _ <-. by apply Hone. }
  destruct (ValidRunID arg) eqn:Ev; cbn [negb] in Hd; [|injection Hd as _ _ <-; split; [cbn; lia|constructor]].
  destruct (cmd =?s "report"). { destruct (cli_report c o arg w). injection Hd as _ _ <-. by apply Hone. }
  destruct (cli_recover c o arg w). injection Hd as _ _ <-. by apply Hone.
Qed.
End cli_facts.

(** C27.  The command line calls the engine at most once, and only with a configuration
    that loaded and validated; recovery is applied only when the command is [recover] and
    an argument asks for it, and runs are named by valid run IDs; and exit code 0 of a
    call means success: the run's own exit code is 0, the plan is valid, the report is a
    saved one, recovery ended without error and found nothing ambiguous. *)
Theorem command_sound {W} `{Epoch W} args (w w' : W) code calls : command args w = (code, w', calls) →
  (calls = [] ∧ w' = w) ∨
  ∃ path c, ep_config w path = Ok c ∧ (List.length calls ≤ 1)%nat ∧
    Forall (λ k, call_config k c ∧ well_called args k) calls ∧ (code = 0 → ∃ k, calls = [k] ∧ exit_zero w k).
Proof.
  unfold command. destruct args as [|cmd rest]; [intros [= _ <- <-]; by left|].
  destruct (cmd =?s "version"); [intros [= _ <- <-]; by left|]. destruct (_ || _); [intros [= _ <- <-]; by left|].
  destruct (negb _); [intros [= _ <- <-]; by left|].
  destruct (rbind (partition rest) _) as [[[c o] pos]|e] eqn:E; [|intros [= _ <- <-]; by left]. intros Hd. right.
  apply rbind_ok in E as ([flags pos'] & Hp & E). apply rbind_ok in E as (o' & Hf & E). inv_ok1 E.
  apply rbind_ok in E as (c' & Hc & E). injection E as -> -> ->. exists (op_config o), c. split; [done|].
  assert (Hask : op_apply o = true → head (cmd :: rest) = Some "recover"%string ∧ ∃ a, a ∈ cmd :: rest ∧ asks_apply a).
  { intros Ha. destruct (parse_flags_apply _ _ _ _ _ (le_n _) Hf Ha) as [?|(-> & a & Hin & Hask)]; [done|].
    split; [done|]. exists a. split; [|done]. right.
    exact (proj1 (partition_subset _ _ _ _ (le_n _) Hp) _ Hin). }
  destruct (dispatch_calls (cmd :: rest) _ _ _ _ _ _ _ _ Hd Hask) as [Hl Hall].
  split; [exact Hl|split; [exact Hall|]]. intros ->. by eapply dispatch_zero.
Qed.

(** An engine whose recovery finds nothing left, and whose configuration loads. *)
Definition quiet_engine : Epoch unit := {|
  ep_config _ _ := Ok Defaults;
  ep_doctor w _ _ := (None, w);
  ep_executable w _ := (None, w);
  ep_validate w _ _ := (Err (Errorf "invalid" []), w);
  ep_run w _ _ := ((None, None), w);
  ep_report _ _ _ := Err (Errorf "no report" []);
  ep_recover w _ id apply :=
    ((Some {| rv_run := id; rv_apply := apply; rv_alive := false; rv_clean := true; rv_message := "";
              rv_report := None |}, None), w);
  ep_encode w := (None, w);
  ep_cancelled _ := false
|}.
Definition recover_args : list string := ["recover"; "0123456789abcdef0123456789abcdef"; "--apply"]%string.
Lemma command_sound_witness :
  command (H := quiet_engine) recover_args tt
  = (0, tt, [CallRecover Defaults "0123456789abcdef0123456789abcdef" true]) ∧
  ∃ a, a ∈ recover_args ∧ asks_apply a.
Proof.
  assert (Hc : command (H := quiet_engine) recover_args tt
    = (0, tt, [CallRecover Defaults "0123456789abcdef0123456789abcdef" true])) by (vm_compute; reflexivity).
  split; [exact Hc|].
  destruct (command_sound (H := quiet_engine) recover_args tt tt _ _ Hc) as [[Hn _]|(path & c & _ & _ & Hall & _)];
    [discriminate|].
  apply Forall_inv in Hall as [_ [_ Happ]]. exact (proj2 (Happ eq_refl)).
Defined.
