(* ===== verification/Platform.v ===== *)
(** * Platform: the agent's entry point and the other platforms

    cmd/epoch-agent/main.go: the guest binary is either the re-executed workload child or
    the agent.  [OtherPlatform] holds what the files with the suffix _other.go put in place
    of the Linux code: nothing that needs a guest, a lock or a virtual machine succeeds. *)

From S2P Require Import Prelude GoLib Json GoTime GoText JsonUtil JsonText Protocol HostCheck HostDoctor GuestClock Firecracker EngineTypes Cli.
From Stdlib Require Import Ascii String.

(** ** cmd/epoch-agent/main.go *)
Definition default_manifest : string := "/etc/epoch/workload.json".
Record agent_flags := { af_manifest : string; af_version : bool }.
(** What ends the parsing: the arguments that are left, a request for help, or an error. *)
Inductive parsed := Parsed (o : agent_flags) (rest : list string) | Help | BadFlag (e : error).
Fixpoint agent_parse (args : list string) (o : agent_flags) : parsed :=
  match args with
  | [] => Parsed o []
  | s :: rest =>
      match flag_name s with
      | None => Parsed o (if s =?s "--" then rest else args)
      | Some name =>
          if (name =?s "") || has_prefix name "-" || has_prefix name "=" then BadFlag bad_flag else
          let '(key, value, has_value) := cut "=" name in
          if key =?s "manifest" then
            if has_value : bool then agent_parse rest {| af_manifest := value; af_version := af_version o |}
            else match rest with
                 | [] => BadFlag (Errorf "flag needs an argument: -%s" [key])
                 | v :: rest => agent_parse rest {| af_manifest := v; af_version := af_version o |}
                 end
          else if key =?s "version" then
            if has_value : bool
            then match parse_bool value with
                 | Some b => agent_parse rest {| af_manifest := af_manifest o; af_version := b |}
                 | None => BadFlag (Errorf "invalid boolean value %q for -%s" [value; key])
                 end
            else agent_parse rest {| af_manifest := af_manifest o; af_version := true |}
          else if (key =?s "help") || (key =?s "h") then Help
          else BadFlag (Errorf "flag provided but not defined: -%s" [key])
      end
  end.

(** guestagent.WorkloadExec and guestagent.Run. *)
Class AgentProgram (W : Type) := {
  ap_exec : W → list string → option error * W;
  ap_run : W → string → option error * W
}.
Inductive agent_start := ExecWorkload (args : list string) | RunAgent (manifest : string).
Definition workload_exec : string := "--workload-exec".
(** The exit status, and which of the two was called. *)
Section main.
Context {W : Type} `{AgentProgram W}.
Definition start_agent (args : list string) (w : W) : Z * W * list agent_start :=
  match agent_parse args {| af_manifest := default_manifest; af_version := false |} with
  | Help => (0, w, [])
  | BadFlag _ => (2, w, [])
  | Parsed o rest =>
      if af_version o then (0, w, [])
      else if negb (List.length rest =? 0)%nat then (2, w, [])
      else
        let '(e, w) := ap_run w (af_manifest o) in
        (match e with
         | Some e => if err_is "context.Canceled" e then 0 else 1
         | None => 0
         end, w, [RunAgent (af_manifest o)])
  end.
Definition agent_main (args : list string) (w : W) : Z * W * list agent_start :=
  match args with
  | a :: rest =>
      if a =?s workload_exec then
        let '(e, w) := ap_exec w rest in (match e with Some _ => 125 | None => 0 end, w, [ExecWorkload rest])
      else start_agent args w
  | [] => start_agent [] w
  end.

(** The binary takes one role: the child's first argument decides it, and the agent does not
    start with arguments it does not know. *)
Lemma agent_main_role args (w w' : W) code calls : agent_main args w = (code, w', calls) →
  (calls = [] ∧ w' = w) ∨
  (∃ rest, args = workload_exec :: rest ∧ calls = [ExecWorkload rest]) ∨
  (∃ manifest e, head args ≠ Some workload_exec ∧ calls = [RunAgent manifest] ∧ ap_run w manifest = (e, w') ∧
     ∃ o, agent_parse args {| af_manifest := default_manifest; af_version := false |} = Parsed o [] ∧ af_manifest o = manifest).
Proof.
  assert (Hstart : ∀ args, head args ≠ Some workload_exec → start_agent args w = (code, w', calls) →
    (calls = [] ∧ w' = w) ∨
    (∃ manifest e, head args ≠ Some workload_exec ∧ calls = [RunAgent manifest] ∧ ap_run w manifest = (e, w') ∧
       ∃ o, agent_parse args {| af_manifest := default_manifest; af_version := false |} = Parsed o [] ∧ af_manifest o = manifest)).
  { intros l Hl. unfold start_agent. destruct (agent_parse l _) as [o rest| |e] eqn:Ep; [|intros [= <- <- <-]; by left..].
    destruct (af_version o); [intros [= <- <- <-]; by left|]. destruct rest as [|r rest]; cbn [List.length Nat.eqb negb]; [|intros [= <- <- <-]; by left].
    destruct (ap_run w _) as [e w1] eqn:Er. intros [= _ <- <-]. right. exists (af_manifest o), e. split_and!; [done..|]. by exists o. }
  unfold agent_main. destruct args as [|a rest]; [intros Hs%Hstart; [naive_solver|done]|].
  destruct (String.eqb_spec a workload_exec) as [->|Ha].
  - destruct (ap_exec w rest). intros [= _ _ <-]. right. left. by exists rest.
  - intros Hs%Hstart; [naive_solver|]. cbn. congruence.
Qed.
End main.

(** ** Files named _other.go *)
Module OtherPlatform.
Definition ErrUnsupported : error := ErrSentinel "ErrUnsupported".
(** internal/hostcheck/hostcheck_other.go *)
Definition CheckPrivilege : option error := Some ErrUnsupported.
Definition Observe : result Observation := Err ErrUnsupported.
Definition BootID : result string := Err ErrUnsupported.
Definition doctor (goos goarch : string) (text : error → string) (path : string) (probe : bool) : HostReport * option error :=
  ({| hr_os := goos; hr_arch := goarch; hr_uid := -1; hr_kernel := ""; hr_boot := ""; hr_selinux := false; hr_cgroup := false;
      hr_kvm := false; hr_requested := probe; hr_passed := false; hr_path := path; hr_observation := None;
      hr_problems := [text ErrUnsupported]; hr_notes := [] |}, Some ErrUnsupported).
(** internal/firecracker/process_other.go *)
Definition ValidateExecutable (path version : string) : result unit := Err ErrUnsupported.
Definition Start : result ProcessIdentity := Err ErrUnsupported.
Definition InspectProcess (id : ProcessIdentity) : result ProcessState := Err ErrUnsupported.
Definition StopOwned (id : ProcessIdentity) : option error := Some ErrUnsupported.
(** internal/safefs/safefs_other.go *)
Definition check_file : option error := None.
Definition AcquireLock (root : string) : result unit := Err (Errorf "runtime locks require Linux" []).
Definition CheckSpace (path : string) (copy reserve : Z) : option error := Some (Errorf "runtime free-space inspection requires Linux" []).
(** internal/guestclock/system_other.go, internal/guestagent/run_other.go *)
Definition NewSystem : result Identity := Err (Errorf "guest clock control requires Linux inside an Epoch microVM" []).
Definition Run (manifest version : string) : option error := Some (Errorf "epoch-agent runs only inside a prepared Linux Epoch guest" []).
Definition WorkloadExec (args : list string) : option error := Some (Errorf "workload execution requires a prepared Linux Epoch guest" []).
(** workloads/clock-probe/observe_other.go and agent-authority-expiry/sync_other.go *)
Definition observe : result (Z * Z) := Err (Errorf "clock-probe actual OS clock observations require Linux" []).
Definition syncDirectory (path : string) : option error := None.

(** The agent built elsewhere: both roles of [agent_main] end in an error. *)
#[local] Instance stub_program : AgentProgram unit := {| ap_exec w args := (WorkloadExec args, w); ap_run w manifest := (Run manifest "", w) |}.
Lemma other_agent_fails args code calls : agent_main args tt = (code, tt, calls) → calls ≠ [] → code = 125 ∨ code = 1.
Proof.
  unfold agent_main, start_agent. destruct args as [|a rest]; [|destruct (a =?s workload_exec); [intros [= <- _]; by left|]].
  all: destruct (agent_parse _ _) as [o l| |e]; [|by intros [= _ <-]|by intros [= _ <-]].
  all: destruct (af_version o); [by intros [= _ <-]|].
  all: destruct l; cbn; [intros [= <- _]; by right|by intros [= _ <-]].
Qed.
End OtherPlatform.
