(* ===== verification/GoJson.v ===== *)
(** * GoJson: encoding/json as the workloads and the demo call it

    The code that does not go through internal/jsonutil uses json.Decoder with
    DisallowUnknownFields: keys match a field exactly or else by case folding, later
    duplicates are stored over earlier ones, [null] stores nothing, and bytes that are not
    UTF-8 become U+FFFD.  [print_plain] is the encoder after SetEscapeHTML(false).  The second part is
    demos/incident-response-agent/internal/jsonio/jsonio.go. *)

From S2P Require Import Prelude GoLib Json JsonFacts GoTime GoText JsonUtil JsonText.
From Stdlib Require Import Ascii String.

(** ** Text *)
(** The names that fold to the same name: the letter case of ASCII, the Kelvin sign and
    the long s. *)
Definition to_lower (c : ascii) : ascii := if is_upper c then chr (bz c + 32) else c.
Fixpoint fold_name (s : string) : string :=
  match s with
  | EmptyString => ""
  | String a r =>
      match r with
      | String b r1 =>
          match r1 with
          | String c r2 =>
              if (bz a =? 226) && (bz b =? 132) && (bz c =? 170) then String "k" (fold_name r2)
              else if (bz a =? 197) && (bz b =? 191) then String "s" (fold_name r1)
              else String (to_lower a) (fold_name r)
          | EmptyString => if (bz a =? 197) && (bz b =? 191) then "s" else String (to_lower a) (fold_name r)
          end
      | EmptyString => String (to_lower a) ""
      end
  end.

(** ** Decoding into a struct *)
(** The fields of a struct: the name and how a raw value is stored. *)
Definition fields (A : Type) : Type := list (string * (A → string → result A)).
Definition field_of {A} (fs : list (string * A)) (key : string) : option A :=
  match List.find (λ f, f.1 =?s key) fs with
  | Some f => Some f.2
  | None => option_map snd (List.find (λ f, fold_name f.1 =?s fold_name key) fs)
  end.
Fixpoint store_members {A} (fs : fields A) (old : A) (ms : list (string * string)) : result A :=
  match ms with
  | [] => Ok old
  | (key, raw) :: ms =>
      match field_of fs key with
      | None => Err (Errorf "json: unknown field %q" [key])
      | Some store => let? x := store old raw in store_members fs x ms
      end
  end.
Definition store_struct {A} (fs : fields A) (old : A) (raw : string) : result A :=
  let? ms := struct_fields raw in store_members fs old ms.

(** One call of [Decoder.Decode]: the destination and the text after the value. *)
Definition decode_next {A} (st : A → string → result A) (old : A) (s : string) : result (A * string) :=
  if skip_ws s =?s "" then Err ErrEOF else
  match value (fuel_for s) s, raw_value s with
  | Some (v, _), Some (raw, rest) =>
      fail_if max_nesting <? nesting v with Errorf "exceeded max depth" [] ;;
      let? x := st old raw in Ok (x, rest)
  | _, _ => Err (Errorf "invalid JSON" [])
  end.

(** ** Writing *)
(** A byte of a string when HTML is not escaped. *)
Definition quote_ascii_plain (c : ascii) : string :=
  if is_one_of [60; 62; 38] c then String c "" else quote_ascii c.
Fixpoint quote_body_plain (copy skip : nat) (s : string) : string :=
  match s with
  | EmptyString => ""
  | String c r =>
      match skip, copy with
      | S skip, _ => quote_body_plain 0 skip r
      | O, S copy => String c (quote_body_plain copy 0 r)
      | O, O =>
          if bz c <? 128 then quote_ascii_plain c +:+ quote_body_plain 0 0 r
          else if has_prefix s (bytes_of [226; 128; 168]) then escape_u 8232 +:+ quote_body_plain 0 2 r
          else if has_prefix s (bytes_of [226; 128; 169]) then escape_u 8233 +:+ quote_body_plain 0 2 r
          else match utf8_head s with
               | Some n => String c (quote_body_plain (Nat.pred n) 0 r)
               | None => escape_u 65533 +:+ quote_body_plain 0 0 r
               end
      end
  end.
Definition quote_plain (s : string) : string :=
  String (chr 34) (quote_body_plain 0 0 s +:+ String (chr 34) "").
Fixpoint print_plain (v : json) : string :=
  match v with
  | JNull => "null"
  | JBool b => if b then "true" else "false"
  | JNumber lit => lit
  | JString s => quote_plain s
  | JArray l => String (chr 91) (commas (map print_plain l) +:+ String (chr 93) "")
  | JObject m =>
      String (chr 123)
        (commas (map (λ kv, quote_plain kv.1 +:+ String (chr 58) (print_plain kv.2)) m) +:+ String (chr 125) "")
  end.

(** [Time.MarshalJSON]: a year that does not have four digits is an error. *)
Definition year (t : Z) : Z := (civil_of_days (t / nsec_per_sec / 86400)).1.1.
Definition marshal_time (t : Z) : option json :=
  if (year t <? 0) || (9999 <? year t) then None else Some (JString (format_rfc3339nano t)).

(** ** jsonio.go *)
Definition MaxDocument : Z := Z.shiftl 64 10.
Definition DecodeBytes {A} (st : A → string → result A) (old : A) (b : string) : result A :=
  let? (x, rest) := decode_next st old (to_valid 0 b) in
  match decode_next (store dec_any) JNull rest with
  | Ok _ => Err (Errorf "multiple JSON values are not allowed" [])
  | Err e => if err_is "io.EOF" e then Ok x else Err e
  end.
(** [input] is what reading everything gives. *)
Definition Decode {A} (st : A → string → result A) (old : A) (input : result string) : result A :=
  let? b := input in
  let b := string_take (Z.to_nat (MaxDocument + 1)) b in
  fail_if (blen b =? 0) || (MaxDocument <? blen b) with Errorf "JSON input must be 1..%d bytes" [] ;;
  DecodeBytes st old b.
Definition Encode (v : json) : string := print_plain v +:+ String (chr 10) "".

(** ** Facts *)
(** *** Decoding what was written *)
Lemma to_valid_id s : ∀ k, utf8_ok k s = true → to_valid k s = s.
Proof.
  induction s as [|c s IH]; intros k; [done|]. cbn [utf8_ok to_valid]. destruct k as [|k].
  - destruct (utf8_head (String c s)) as [n|]; [|done]. intros Hs. by rewrite IH.
  - intros [_ Hs]%andb_true_iff. by rewrite IH.
Qed.
Lemma decode_next_print {A} (st : A → string → result A) old v x rest : json_wf v = true → nesting v ≤ max_nesting → delimited rest →
  st old (print v) = Ok x → decode_next st old (print v +:+ rest) = Ok (x, rest).
Proof.
  intros Hv Hh Hd Hs. unfold decode_next. pose proof (raw_value_print _ v Hv rest Hd (le_n _)) as Hr. unfold id in Hr.
  rewrite Hr, starts_skip by (by apply print_start).
  unfold fuel_for. rewrite (value_print v Hv _ _ (Nat.lt_succ_diag_r _) rest Hd) by lia.
  destruct (print v) eqn:Ep; [by destruct (starts_nonempty _ (print_start v Hv))|].
  cbn [String.append]. rewrite (proj2 (Z.ltb_ge _ _)) by done. cbn. by rewrite Hs.
Qed.
Lemma delimited_newline : delimited (String (chr 10) "").
Proof. by intros []. Qed.
Lemma DecodeBytes_print {A} (st : A → string → result A) old v x : json_wf v = true → nesting v ≤ max_nesting →
  st old (print v) = Ok x → DecodeBytes st old (print v +:+ String (chr 10) "") = Ok x.
Proof.
  intros Hv Hh Hs. unfold DecodeBytes. rewrite to_valid_id.
  - by rewrite (decode_next_print _ _ _ x _ Hv Hh delimited_newline Hs).
  - rewrite utf8_ok_app; [done|]. by apply print_utf8.
Qed.
(** Fields in the order written, each read back. *)
Lemma store_struct_print {A} (fs : fields A) old m : json_wf (JObject m) = true →
  store_struct fs old (print (JObject m)) = store_members fs old (raw_members m).
Proof. intros Hm. unfold store_struct. by rewrite struct_fields_print. Qed.

(** Without anything that HTML escaping changes, the two encoders agree. *)
Definition no_html (s : string) : bool := all_bytes (λ c, negb (is_one_of [60; 62; 38] c)) s.
Fixpoint json_no_html (v : json) : bool :=
  match v with
  | JNull | JBool _ | JNumber _ => true
  | JString s => no_html s
  | JArray l => forallb json_no_html l
  | JObject m => forallb (λ kv, no_html kv.1 && json_no_html kv.2) m
  end.
Lemma quote_body_no_html s : no_html s = true → ∀ copy skip, quote_body_plain copy skip s = quote_body copy skip s.
Proof.
  unfold no_html. induction s as [|c s IH]; [done|]. intros [Hc Hs]%andb_true_iff copy skip. cbn [quote_body_plain quote_body].
  rewrite !(IH Hs). unfold quote_ascii_plain. apply negb_true_iff in Hc. rewrite Hc. destruct skip, copy; rewrite ?(IH Hs); [|done..].
  destruct (utf8_head (String c s)); by rewrite ?(IH Hs).
Qed.
Lemma print_no_html v : json_no_html v = true → print_plain v = print v.
Proof.
  assert (Hq : ∀ s, no_html s = true → quote_plain s = quote s).
  { intros s Hs. unfold quote_plain. by rewrite quote_body_no_html. }
  induction v as [|b|lit|s|l IH|m IH] using json_nested_ind; intros Hv; [done..|by apply Hq| |]; cbn [json_no_html print_plain print] in Hv |- *; do 3 f_equal;
    apply map_ext_in; rewrite forallb_forall in Hv; rewrite Forall_forall in IH.
  - intros x Hx. apply IH; [by apply list_elem_of_In|by apply Hv].
  - intros [k x] Hx. specialize (Hv _ Hx). cbn [fst snd] in Hv |- *. apply andb_true_iff in Hv as [Hk Hv]. rewrite Hq by done.
    do 2 f_equal. apply (IH (k, x)); [by apply list_elem_of_In|done].
Qed.

Lemma marshal_supported t : supported t = true → marshal_time t = Some (JString (format_rfc3339nano t)).
Proof.
  unfold supported. change (utc_midnight 1990 1 1) with 631152000000000000.
  change (utc_midnight 2100 1 1) with 4102444800000000000. intros H. to_prop.
  pose proof (civil_supported (t / nsec_per_sec / 86400)) as Hc. unfold marshal_time, year, civil_ok in *.
  destruct (civil_of_days _) as [[y m] d]. specialize (Hc ltac:(unfold nsec_per_sec in *; Z.div_mod_to_equations; lia)).
  to_prop. cbn. rewrite !(proj2 (Z.ltb_ge _ _)) by lia. done.
Qed.
Lemma plain_no_html s : plain s → no_html s = true.
Proof.
  apply all_bytes_impl. intros c. unfold plain_char, is_one_of. cbn [existsb]. unfold in_range. lia.
Qed.
Lemma string_take_short n s : (String.length (string_take n s) < n)%nat → string_take n s = s.
Proof.
  revert s. induction n as [|n IH]; intros [|c s]; cbn; [done|lia|done|]. intros Hl. by rewrite IH by lia.
Qed.
(** A document that is read at all is read as it was written. *)
Lemma decode_encode {A} (st : A → string → result A) old v x y : json_wf v = true → json_no_html v = true → nesting v ≤ max_nesting →
  st old (print v) = Ok x → Decode st old (Ok (Encode v)) = Ok y → y = x.
Proof.
  intros Hv Hh Hn Hs. unfold Decode, Encode. cbn [rbind]. destruct (_ || _) eqn:El; [done|].
  apply orb_false_iff in El as [_ El%Z.ltb_ge]. unfold blen in El. rewrite string_take_short by lia.
  rewrite print_no_html by done. rewrite (DecodeBytes_print st old v x) by done. congruence.
Qed.
