(* ===== verification/ClockProbe.v ===== *)
(** * ClockProbe: the clock-probe workload (workloads/clock-probe/main.go, observe_linux.go)

    The fixture program of the scenarios: it observes the clocks, keeps a marker file across
    invocations, and misbehaves on demand (sleeps, hangs, floods its streams, exits with
    an error, serves until a signal).  The process is the [Probe] class over the files of
    [Disk] and the clocks of [GuestSystem].  [run] yields [None] when the program is still
    running after [fuel] rounds of its endless loop, or waits for a signal that never comes. *)

From S2P Require Import Prelude GoLib Json JsonFacts GoTime GoText JsonUtil JsonText Protocol GuestSystem Disk GoJson.
From Stdlib Require Import Ascii String.

Definition markerPath : string := "marker.json".
Definition markerTemp : string := markerPath +:+ ".tmp".
Definition serviceReady : string := "service.ready".
(** [strings.Repeat]. *)
Fixpoint string_repeat (n : nat) (s : string) : string :=
  match n with O => "" | S n => s +:+ string_repeat n s end.
Definition inputQuota : Z := Z.shiftl 64 10.

(** [pb_input] is everything on standard input; [pb_stat] is os.Stat; [pb_await] is the world
    after the first termination signal. *)
Class Probe (W : Type) := {
  pb_input : W → result string;
  pb_stdout : W → string → option error * W;
  pb_stderr : W → string → option error * W;
  pb_sleep : W → Z → W;
  pb_euid : W → Z;
  pb_pid : W → Z;
  pb_stat : W → string → option error;
  pb_write_file : W → string → string → option error * W;
  pb_await : W → option W
}.
(** Printing leaves the files alone. *)
Class LawfulProbe (W : Type) `{Probe W} `{LawfulDisk W} := {
  stdout_law (w : W) s p : dk_content (pb_stdout w s).2 p = dk_content w p
}.

Definition enc_marker (v : string) : json := JObject [("value"%string, JString v)].
Definition enc_flag (name : string) (b : bool) : json := JObject [(name, JBool b)].
Definition marker_fields : fields string := [("value"%string, store dec_string)].
Definition no_fields : fields unit := [].
(** Decoding the input of write-marker: one object, and nothing after it. *)
Definition decode_marker (b : string) : result string :=
  let? (v, rest) := decode_next (store_struct marker_fields) ""%string (to_valid 0 b) in
  match decode_next (store_struct no_fields) tt rest with
  | Err e => if err_is "io.EOF" e then Ok v else Err (Errorf "trailing marker input" [])
  | Ok _ => Err (Errorf "trailing marker input" [])
  end.

Section probe.
Context {W : Type} `{Probe W} `{Disk W} `{UnixClocks W}.

Definition observe (w : W) : result (Z * Z) * W :=
  let '(rt, w) := clock_gettime w CLOCK_REALTIME in
  match rt with
  | Err e => (Err e, w)
  | Ok rt =>
      let '(mono, w) := clock_gettime w CLOCK_MONOTONIC in
      match mono with
      | Err e => (Err e, w)
      | Ok mono => (Ok (time_Unix (ts_sec rt) (ts_nsec rt), Nano mono), w)
      end
  end.

(** What [run] returns: the exit code and the error. *)
Definition exit : Type := Z * option error.
Definition emit (v : json) (w : W) : option error * W := pb_stdout w (print v +:+ String (chr 10) "").
Definition exits (code : Z) (r : option error * W) : exit * W := ((code, r.1), r.2).
Definition failed (e : error) (w : W) : exit * W := ((0, Some e), w).

(** Maps are written by key. *)
Definition run_observe (w : W) : exit * W :=
  let '(o, w) := observe w in
  match o with
  | Err e => failed e w
  | Ok (realtime, monotonic) =>
      match marshal_time realtime with
      | None => failed (Errorf "Time.MarshalJSON: year outside of range [0,9999]" []) w
      | Some t => exits 0 (emit (JObject [("monotonic_ns", enc_int monotonic); ("realtime", t);
                                          ("uid", enc_int (pb_euid w)); ("year_utc", enc_int (year realtime))]%string) w)
      end
  end.

Definition marker_input (w : W) : result string :=
  let? b := pb_input w in
  let b := string_take (Z.to_nat (inputQuota + 1)) b in
  fail_if inputQuota <? blen b with Errorf "marker input quota exceeded" [] ;;
  let? v := decode_marker b in
  fail_if 4096 <? blen v with Errorf "marker value too long" [] ;;
  Ok v.
(** The file is written beside the marker, and all three errors are looked at. *)
Definition write_temp (data : string) (w : W) : option error * W :=
  let '(e, w) := dk_create w markerTemp in
  match e with
  | Some e => (Some e, w)
  | None =>
      let '(writeErr, w) := dk_write w markerTemp data in
      let '(syncErr, w) := dk_sync w markerTemp in
      let '(closeErr, w) := dk_close w markerTemp in
      (join_errors [writeErr; syncErr; closeErr], w)
  end.
Definition run_write (w : W) : exit * W :=
  match marker_input w with
  | Err e => failed e w
  | Ok v =>
      let '(e, w) := write_temp (print (enc_marker v)) w in
      match e with Some e => failed e w | None =>
        let '(e, w) := dk_rename w markerTemp markerPath in
        match e with Some e => failed e w | None =>
          let '(e, w) := dk_sync_dir w "." in
          match e with Some e => failed e w | None => exits 0 (emit (enc_marker v) w) end
        end
      end
  end.
Definition run_read (w : W) : exit * W :=
  match dk_read w markerPath with
  | Err e => failed e w
  | Ok b =>
      if negb (json_Valid b) then failed (Errorf "malformed persistent marker" []) w
      else exits 0 (pb_stdout w (compact Outside 0 b +:+ String (chr 10) ""))
  end.
Fixpoint hang (fuel : nat) (w : W) : option (exit * W) :=
  match fuel with
  | O => None
  | S fuel => hang fuel (pb_sleep w (3600 * nsec_per_sec))
  end.
Definition flood : string := string_repeat (Z.to_nat (inputQuota + 1)) "x".
Definition run_flood_stderr (w : W) : exit * W :=
  let '(e, w) := pb_stderr w flood in
  match e with Some e => failed e w | None => exits 0 (emit (enc_flag "emitted" true) w) end.
(** The deferred removal runs when the signal arrives. *)
Definition run_service (w : W) : option (exit * W) :=
  let '(e, w) := pb_write_file w serviceReady (itoa (pb_pid w)) in
  match e with
  | Some e => Some (failed e w)
  | None => let! w := pb_await w in Some ((0, None), (dk_remove w serviceReady).2)
  end.
Definition run_ready (w : W) : exit * W :=
  match pb_stat w serviceReady with
  | Some _ => exits 1 (emit (enc_flag "ready" false) w)
  | None => exits 0 (emit (enc_flag "ready" true) w)
  end.

Definition run (fuel : nat) (args : list string) (w : W) : option (exit * W) :=
  match args with
  | [cmd] =>
      if cmd =?s "observe" then Some (run_observe w)
      else if cmd =?s "write-marker" then Some (run_write w)
      else if cmd =?s "read-marker" then Some (run_read w)
      else if cmd =?s "sleep" then Some (exits 0 (emit (enc_flag "slept" true) (pb_sleep w (2 * nsec_per_sec))))
      else if cmd =?s "hang" then hang fuel w
      else if cmd =?s "large-output" then Some (exits 0 (pb_stdout w flood))
      else if cmd =?s "large-stderr" then Some (run_flood_stderr w)
      else if cmd =?s "malformed-json" then Some (exits 0 (pb_stdout w ("{malformed" +:+ String (chr 10) "")))
      else if cmd =?s "nonzero" then Some (exits 7 (emit (enc_flag "expected_nonzero" true) w))
      else if cmd =?s "service" then run_service w
      else if cmd =?s "service-ready" then Some (run_ready w)
      else Some (failed (Errorf "unknown fixture command" []) w)
  | _ => Some (failed (Errorf "one declared fixture command is required" []) w)
  end.
(** [main]: the exit status; an error is printed on standard error first. *)
Definition main (render : error → string) (fuel : nat) (args : list string) (w : W) : option (Z * W) :=
  let! ((code, e), w) := run fuel args w in
  match e with
  | Some e => Some (125, (pb_stderr w (render e +:+ String (chr 10) "")).2)
  | None => Some (code, w)
  end.
End probe.

(** ** Facts *)
(** Hanging is hanging: no number of rounds ends it. *)
Lemma hang_forever {W} `{Probe W} fuel (w : W) : hang fuel w = None.
Proof. revert w. induction fuel as [|fuel IH]; [done|]. intros w. apply IH. Qed.

(** *** The marker's text *)
Lemma marker_settled v : compact Outside 0 (print (enc_marker v)) = print (enc_marker v).
Proof.
  assert (Hs : settled (print (enc_marker v))).
  { cbn [enc_marker print map commas fst snd]. apply (settled_app (String (chr 123) "")); [by apply settled_token|].
    apply settled_app; [|by apply settled_token]. apply settled_app; [apply settled_quote|].
    apply (settled_app (String (chr 58) "")); [by apply settled_token|apply settled_quote]. }
  specialize (Hs ""%string). by rewrite !sapp_nil_r in Hs.
Qed.
Lemma value_quote f s rest : value (S f) (quote s +:+ rest) = Some (JString (to_valid 0 s), rest).
Proof. cbn [value]. unfold quote. cbn [String.append]. read_char 34. rewrite sapp_assoc. cbn [String.append]. by rewrite unquote_quote_any. Qed.
Lemma marker_parse v : parse (print (enc_marker v)) = Some (enc_marker (to_valid 0 v)).
Proof.
  unfold parse, fuel_for. set (n := String.length (print (enc_marker v))). assert (Hn : (0 < n)%nat) by (cbn; lia). clearbody n.
  destruct n as [|n]; [lia|]. remember (S n) as n1 eqn:En1. cbn [value enc_marker print map fst snd].
  cbn [String.append]. read_char 123.
  assert (Hm : object_body (value n1) n1 (commas [quote "value" +:+ String (chr 58) (quote v)] +:+ String (chr 125) "")
               = Some ([("value"%string, JString (to_valid 0 v))], ""%string)).
  { unfold object_body, commas, quote at 1. cbn [String.append]. read_char 34. subst n1.
    change (String (chr 34) ((quote_body 0 0 "value" +:+ String (chr 34) "") +:+ ?r))
      with (quote "value" +:+ r)%string.
    pose proof (members_commas (value (S n)) (String.length (commas (map (print_member (λ _ : json, quote v))
      [("value"%string, JString (to_valid 0 v))]) +:+ String (chr 125) "")) (λ _ : json, quote v)
      [("value"%string, JString (to_valid 0 v))] ""%string (S n)) as Hc.
    apply Hc; [done| |done|cbn; lia]. apply Forall_singleton. split; [done|]. intros rest _ _. apply value_quote. }
  rewrite Hm. done.
Qed.
Lemma marker_valid v : json_Valid (print (enc_marker v)) = true.
Proof. unfold json_Valid. by rewrite marker_parse. Qed.

(** *** The marker file *)
Section marker.
Context {W : Type} `{HP : Probe W} `{HD : LawfulDisk W} `{HC : UnixClocks W} `{HL : !LawfulProbe W}.
Lemma temp_apart : markerPath ≠ markerTemp.
Proof. done. Qed.
Lemma write_temp_law data (w w' : W) e : write_temp data w = (e, w') →
  dk_content w' markerPath = dk_content w markerPath ∧ (e = None → dk_content w' markerTemp = Some data).
Proof.
  unfold write_temp. pose proof (create_law w markerTemp) as Hc. pose proof (create_frame w markerTemp markerPath temp_apart) as Hf.
  destruct (dk_create w markerTemp) as [[e1|] w1]; cbn [fst snd] in *; [intros [= <- <-]; by split|].
  pose proof (write_law w1 markerTemp "" data) as Hw. pose proof (write_frame w1 markerTemp data markerPath temp_apart) as Hwf.
  destruct (dk_write w1 markerTemp data) as [e2 w2]. cbn [fst snd] in *.
  pose proof (sync_law w2 markerTemp) as Hs. destruct (dk_sync w2 markerTemp) as [e3 w3]. cbn [snd] in Hs.
  pose proof (close_law w3 markerTemp) as Hl. destruct (dk_close w3 markerTemp) as [e4 w4]. cbn [snd] in Hl.
  intros [= <- <-]. split; [congruence|]. intros [-> _]%join_errors_none%Forall_cons. rewrite Hl, Hs. apply Hw; [done|by apply Hc].
Qed.
(** What a later invocation reads. *)
Lemma read_marker (w : W) v b : dk_content w markerPath = Some (print (enc_marker v)) → dk_read w markerPath = Ok b →
  run_read w = exits 0 (emit (enc_marker v) w).
Proof.
  intros Hm Hr. unfold run_read. rewrite Hr. assert (b = print (enc_marker v)) as -> by (apply read_law in Hr; congruence).
  by rewrite marker_valid, marker_settled.
Qed.
Lemma marker_short (w : W) v : marker_input w = Ok v → blen v ≤ 4096.
Proof. unfold marker_input. intros Hv. inv_ok Hv. to_prop. congruence. Qed.
(** Writing the marker: nothing, or the whole of it, and the report comes last. *)
Lemma run_write_law (w w' : W) x : run_write w = (x, w') →
  (is_Some x.2 ∧ dk_content w' markerPath = dk_content w markerPath) ∨
  ∃ v, marker_input w = Ok v ∧ dk_content w' markerPath = Some (print (enc_marker v)) ∧
       (x.2 = None → x.1 = 0 ∧ ∃ w1, emit (enc_marker v) w1 = (None, w')).
Proof.
  unfold run_write. destruct (marker_input w) as [v|e] eqn:Ei; [|intros [= <- <-]; left; by split].
  destruct (write_temp _ w) as [e w1] eqn:Et. apply write_temp_law in Et as [Hp Ht]. destruct e as [e|]; [intros [= <- <-]; left; by split|].
  pose proof (rename_law w1 markerTemp markerPath) as Hn. pose proof (rename_fail w1 markerTemp markerPath) as Hnf.
  destruct (dk_rename w1 markerTemp markerPath) as [[e|] w2]; cbn [fst snd] in *.
  { intros [= <- <-]. left. split; [done|]. by rewrite Hnf. }
  rewrite (Ht eq_refl) in Hn. pose proof (sync_dir_law w2 "." markerPath) as Hs.
  destruct (dk_sync_dir w2 ".") as [[e|] w3]; cbn [snd] in Hs; intros Hx; right; exists v; (split; [done|]).
  { injection Hx as <- <-. split; [by rewrite Hs, Hn|done]. }
  unfold exits in Hx. injection Hx as <- <-. split.
  { unfold emit. by rewrite stdout_law, Hs, Hn. }
  cbn. intros He. split; [done|]. exists w3. by destruct (emit (enc_marker v) w3); cbn in *; subst.
Qed.
End marker.

(** C29.  The marker of the clock-probe workload survives whole: on any file system, whatever
    call fails, write-marker either reports an error and leaves marker.json as it was, or
    leaves there the complete document of the one value it accepted (at most 4096 bytes) and,
    when it succeeds, has printed that document as its last act; and every later read-marker
    that can read the file finds it valid and prints exactly the same line. *)
Theorem marker_kept {W} `{HP : Probe W} `{HD : LawfulDisk W} `{HC : UnixClocks W} `{HL : !LawfulProbe W} fuel (w w' : W) x :
  run fuel ["write-marker"%string] w = Some (x, w') →
  (is_Some x.2 ∧ dk_content w' markerPath = dk_content w markerPath) ∨
  ∃ v, marker_input w = Ok v ∧ blen v ≤ 4096 ∧ dk_content w' markerPath = Some (print (enc_marker v)) ∧
       (x.2 = None → x.1 = 0 ∧ ∃ w1, emit (enc_marker v) w1 = (None, w')) ∧
       ∀ fuel2 w2 b, dk_content w2 markerPath = dk_content w' markerPath → dk_read w2 markerPath = Ok b →
         run fuel2 ["read-marker"%string] w2 = Some (exits 0 (emit (enc_marker v) w2)).
Proof.
  intros Hr. cbn in Hr. injection Hr as Hr. apply run_write_law in Hr as [Hr|(v & Hv & Hm & Hx)]; [by left|right].
  exists v. split_and!; [done|by eapply marker_short|done|done|]. intros fuel2 w2 b Hc Hb. cbn. by rewrite (read_marker w2 v b) by congruence.
Qed.

(** A process over files in memory. *)
Definition sample_input : string := bytes_of [123; 32; 34; 86; 97; 108; 117; 101; 34; 58; 34; 60; 255; 226; 128; 168; 34; 125; 10].
#[export] Instance memory_probe : Probe memdisk := {|
  pb_input _ := Ok sample_input; pb_stdout m _ := (None, m); pb_stderr m _ := (None, m); pb_sleep m _ := m; pb_euid _ := 1000;
  pb_pid _ := 42; pb_stat m p := dk_lstat m p;
  pb_write_file m p s := (None, md_set m (<[p := s]> (md_files m))); pb_await _ := None
|}.
#[export] Instance memory_probe_lawful : LawfulProbe memdisk.
Proof. by constructor. Defined.
#[export] Instance memory_clocks : UnixClocks memdisk := {|
  clock_gettime m _ := (Ok {| ts_sec := md_time m; ts_nsec := 0 |}, m); clock_settime m _ := (None, m)
|}.
Definition empty_disk : memdisk := {| md_files := ∅; md_time := 0 |}.
Definition probe_written : option (exit * memdisk) := run 0 ["write-marker"%string] empty_disk.
(** The key is folded, the bad byte replaced, and HTML and line separators escaped. *)
Example probe_marker :
  match probe_written with Some ((0, None), m) => md_files m !! markerPath | _ => None end
  = Some ("{" +:+ quote "value" +:+ ":" +:+ String (chr 34) (escape_u 60 +:+ utf8_encode 65533 +:+ escape_u 8232) +:+ String (chr 34) "}")%string.
Proof. vm_compute. reflexivity. Qed.
Lemma marker_kept_witness : ∃ v m, probe_written = Some ((0, None), m) ∧ run 0 ["read-marker"%string] m = Some (exits 0 (emit (enc_marker v) m)).
Proof.
  assert (Hok : match probe_written with
                | Some ((0, None), m) => match dk_read m markerPath with Ok _ => True | Err _ => False end
                | _ => False end) by (vm_compute; exact I).
  destruct probe_written as [[[[| |] [e|]] m]|] eqn:Er; try contradiction. unfold probe_written in Er.
  destruct (dk_read m markerPath) as [b|] eqn:Eb; [|contradiction].
  destruct (marker_kept 0 empty_disk m (0, None) Er) as [[[? [=]] _]|(v & _ & _ & _ & _ & Hread)].
  exists v, m. split; [done|]. by apply (Hread 0%nat m b).
Defined.
