(* ===== verification/Authority.v ===== *)
(** * Authority: workloads/agent-authority-expiry/main.go

    The reference workload: an operation is authorized by a lease with a validity
    window, checked when it is requested and again when it is executed.  A request may be
    left pending on disk and executed by a later invocation; the invocation consumes it
    before it acts on it.

    The state directory and the clock are the [Disk] class.  The code runs in a small
    monad: the disk is threaded, errors stop the computation, and the effects that matter
    (time decisions, consuming the pending request, touching the worker state) are logged
    in order, also when the computation fails after them. *)

From S2P Require Import Prelude GoLib Json JsonFacts GoTime GoText JsonUtil JsonText Assertions Scenario Protocol ProtocolFacts Disk.
From Stdlib Require Import Ascii String.

(** ** Data *)
Inductive authorization :=
| authorized | denyNotYetValid | denyExpired | denyCapabilityMismatch | denyResourceMismatch
| denyMalformedAuthority | denyPrincipalMismatch | denyMalformedRequest | denyUnsupportedOperation.
#[export] Instance authorization_eq_dec : EqDecision authorization.
Proof. solve_decision. Defined.
Definition authorization_text (a : authorization) : string :=
  match a with
  | authorized => "AUTHORIZED"
  | denyNotYetValid => "DENY_NOT_YET_VALID"
  | denyExpired => "DENY_EXPIRED"
  | denyCapabilityMismatch => "DENY_CAPABILITY_MISMATCH"
  | denyResourceMismatch => "DENY_RESOURCE_MISMATCH"
  | denyMalformedAuthority => "DENY_MALFORMED_AUTHORITY"
  | denyPrincipalMismatch => "DENY_PRINCIPAL_MISMATCH"
  | denyMalformedRequest => "DENY_MALFORMED_REQUEST"
  | denyUnsupportedOperation => "DENY_UNSUPPORTED_OPERATION"
  end.

Record authority := {
  au_principal : string; au_capability : string; au_resource : string; au_not_before : string; au_expires : string
}.
Record operationRequest := {
  or_id : string; or_agent : string; or_operation : string; or_resource : string; or_authority : authority
}.
(** The initial authorization is kept as its text: a file may hold any. *)
Record pendingRequest := { pn_request : operationRequest; pn_initial : string; pn_time : Z }.
Record workerState := { wk_resource : string; wk_status : string; wk_restarts : Z; wk_last : string }.
Record outcome := {
  oc_id : string; oc_operation : string; oc_resource : string; oc_initial : string; oc_initial_time : Z;
  oc_execution : option authorization; oc_execution_time : option Z; oc_accepted : bool; oc_performed : bool;
  oc_worker : option workerState
}.

(** *** JSON *)
Definition enc_authority (a : authority) : json :=
  JObject [("principal", JString (au_principal a)); ("capability", JString (au_capability a));
           ("resource", JString (au_resource a)); ("not_before", JString (au_not_before a));
           ("expires_at", JString (au_expires a))]%string.
Definition enc_operation (r : operationRequest) : json :=
  JObject [("request_id", JString (or_id r)); ("agent_id", JString (or_agent r));
           ("operation", JString (or_operation r)); ("resource", JString (or_resource r));
           ("authority", enc_authority (or_authority r))]%string.
Definition enc_pending (p : pendingRequest) : json :=
  JObject [("request", enc_operation (pn_request p)); ("initial_authorization", JString (pn_initial p));
           ("initial_decision_time", enc_time (pn_time p))]%string.
Definition enc_worker (w : workerState) : json :=
  JObject ([("resource", JString (wk_resource w)); ("status", JString (wk_status w));
            ("restart_count", enc_int (wk_restarts w))]%string ++ omit_empty "last_request_id" (wk_last w)).
Definition enc_outcome (o : outcome) : json :=
  JObject ([("request_id", JString (oc_id o)); ("operation", JString (oc_operation o));
            ("resource", JString (oc_resource o)); ("initial_authorization", JString (oc_initial o));
            ("initial_decision_time", enc_time (oc_initial_time o))]%string
           ++ match oc_execution o with
              | Some a => [("execution_authorization"%string, JString (authorization_text a))] | None => [] end
           ++ match oc_execution_time o with Some t => [("execution_decision_time"%string, enc_time t)] | None => [] end
           ++ [("request_accepted", JBool (oc_accepted o)); ("side_effect_performed", JBool (oc_performed o))]%string
           ++ match oc_worker o with Some w => [("worker_state"%string, enc_worker w)] | None => [] end).

Definition dec_authority : decoder authority :=
  Build_decoder
    (TStruct [("principal", TString); ("capability", TString); ("resource", TString); ("not_before", TString);
              ("expires_at", TString)]%string)
    {| au_principal := ""; au_capability := ""; au_resource := ""; au_not_before := ""; au_expires := "" |}
    (λ old raw,
       let? fs := struct_fields raw in
       let? principal := get_field dec_string "principal" (au_principal old) fs in
       let? capability := get_field dec_string "capability" (au_capability old) fs in
       let? resource := get_field dec_string "resource" (au_resource old) fs in
       let? not_before := get_field dec_string "not_before" (au_not_before old) fs in
       let? expires := get_field dec_string "expires_at" (au_expires old) fs in
       Ok {| au_principal := principal; au_capability := capability; au_resource := resource;
             au_not_before := not_before; au_expires := expires |}).
Definition dec_operation : decoder operationRequest :=
  Build_decoder
    (TStruct [("request_id", TString); ("agent_id", TString); ("operation", TString); ("resource", TString);
              ("authority", go_type dec_authority)]%string)
    {| or_id := ""; or_agent := ""; or_operation := ""; or_resource := ""; or_authority := JsonUtil.zero dec_authority |}
    (λ old raw,
       let? fs := struct_fields raw in
       let? id := get_field dec_string "request_id" (or_id old) fs in
       let? agent := get_field dec_string "agent_id" (or_agent old) fs in
       let? operation := get_field dec_string "operation" (or_operation old) fs in
       let? resource := get_field dec_string "resource" (or_resource old) fs in
       let? au := get_field dec_authority "authority" (or_authority old) fs in
       Ok {| or_id := id; or_agent := agent; or_operation := operation; or_resource := resource; or_authority := au |}).
Definition dec_pending : decoder pendingRequest :=
  Build_decoder
    (TStruct [("request", go_type dec_operation); ("initial_authorization", TString); ("initial_decision_time", TTime)]%string)
    {| pn_request := JsonUtil.zero dec_operation; pn_initial := ""; pn_time := zero_time |}
    (λ old raw,
       let? fs := struct_fields raw in
       let? request := get_field dec_operation "request" (pn_request old) fs in
       let? initial := get_field dec_string "initial_authorization" (pn_initial old) fs in
       let? t := get_field dec_time "initial_decision_time" (pn_time old) fs in
       Ok {| pn_request := request; pn_initial := initial; pn_time := t |}).
Definition dec_worker : decoder workerState :=
  Build_decoder
    (TStruct [("resource", TString); ("status", TString); ("restart_count", TInt 64); ("last_request_id", TString)]%string)
    {| wk_resource := ""; wk_status := ""; wk_restarts := 0; wk_last := "" |}
    (λ old raw,
       let? fs := struct_fields raw in
       let? resource := get_field dec_string "resource" (wk_resource old) fs in
       let? status := get_field dec_string "status" (wk_status old) fs in
       let? restarts := get_field (dec_int 64) "restart_count" (wk_restarts old) fs in
       let? last := get_field dec_string "last_request_id" (wk_last old) fs in
       Ok {| wk_resource := resource; wk_status := status; wk_restarts := restarts; wk_last := last |}).
(** [stateRequest], with its one field. *)
Definition dec_state_request : decoder string :=
  Build_decoder (TStruct [("resource", TString)]%string) ""%string
    (λ old raw, let? fs := struct_fields raw in get_field dec_string "resource" old fs).

(** ** Authorization *)
Definition safeID (s : string) : bool := ident is_alnum (λ c, is_alnum c || is_one_of [95; 45] c) 63 s.
(** The same pattern as the scenario's timestamps. *)
Definition explicitTimestamp : string → bool := Scenario.timestamp.

Definition parseAuthority (v : authority) : option (Z * Z) :=
  if (au_principal v =?s "") || (au_capability v =?s "") || (au_resource v =?s "")
     || (256 <? blen (au_principal v)) || (128 <? blen (au_capability v)) || (128 <? blen (au_resource v))
     || negb (explicitTimestamp (au_not_before v)) || negb (explicitTimestamp (au_expires v))
  then None else
  let! not_before := parse_rfc3339nano (au_not_before v) in
  let! expires := parse_rfc3339nano (au_expires v) in
  if not_before <? expires then Some (not_before, expires) else None.

Definition authorize (r : operationRequest) (now : Z) : authorization :=
  if negb (safeID (or_id r)) || negb (safeID (or_agent r)) || negb (safeID (or_resource r)) then denyMalformedRequest
  else if or_operation r <>?s "worker.restart" then denyUnsupportedOperation
  else match parseAuthority (or_authority r) with
       | None => denyMalformedAuthority
       | Some (notBefore, expiresAt) =>
           if au_principal (or_authority r) <>?s ("agent://" +:+ or_agent r)%string then denyPrincipalMismatch
           else if au_capability (or_authority r) <>?s or_operation r then denyCapabilityMismatch
           else if au_resource (or_authority r) <>?s or_resource r then denyResourceMismatch
           else if now <? notBefore then denyNotYetValid
           else if negb (now <? expiresAt) then denyExpired
           else authorized
       end.

(** ** The state directory *)
Definition maxInputBytes : Z := 65536.
Definition pendingFile : string := "pending-request.json".
Definition workerFile : string := "worker-state.json".

Inductive event :=
| Decided (now : Z) (a : authorization)
| PendingWrite (p : pendingRequest)
| Consumed
| Durable
| WorkerWrite (w : workerState).

Section workload.
Context {F : Type} `{Disk F}.

(** Computations over the disk. *)
Definition D (A : Type) : Type := F → result A * F * list event.
Definition ret {A} (a : A) : D A := λ f, (Ok a, f, []).
Definition throw {A} (e : error) : D A := λ f, (Err e, f, []).
Definition log (e : event) : D unit := λ f, (Ok tt, f, [e]).
Definition bind {A B} (c : D A) (k : A → D B) : D B := λ f,
  let '(r, f, l) := c f in
  match r with
  | Err e => (Err e, f, l)
  | Ok a => let '(r, f, l') := k a f in (r, f, l ++ l')
  end.
(** A call that returns only an error. *)
Definition try (op : F → option error * F) : D unit := λ f, let '(e, f) := op f in (of_err e, f, []).
(** Run [cleanup], ignoring its outcome, when [c] fails. *)
Definition or_else {A} (c : D A) (cleanup : D unit) : D A := λ f,
  let '(r, f, l) := c f in
  match r with
  | Ok a => (Ok a, f, l)
  | Err e => let '(_, f, l') := cleanup f in (Err e, f, l ++ l')
  end.
Definition look {A} (g : F → result A) : D A := λ f, (g f, f, []).
Definition now : D Z := λ f, let '(t, f) := dk_now f in (Ok t, f, []).

Notation "x <- c ;; k" := (bind c (λ x, k)) (at level 100, c at next level, right associativity).
Notation "c ;;; k" := (bind c (λ _, k)) (at level 100, right associativity).

Definition path_parent (p : string) : string :=
  path_clean (join_slash (rev (tl (rev (split_on "/" p))))).
(** Write beside the target and rename: [path] changes at one point, or not at all. *)
Definition writeJSON (path : string) (value : json) : D unit :=
  let b := print value in
  let tmp := (path +:+ ".tmp")%string in
  let drop := try (λ f, dk_remove f tmp) in
  let drop_open := try (λ f, dk_close f tmp) ;;; drop in
  try (λ f, dk_create f tmp) ;;;
  or_else (try (λ f, dk_write f tmp b)) drop_open ;;;
  or_else (try (λ f, dk_sync f tmp)) drop_open ;;;
  or_else (try (λ f, dk_close f tmp)) drop ;;;
  or_else (try (λ f, dk_rename f tmp path)) drop ;;;
  or_else (try (λ f, dk_sync_dir f (path_parent path))) drop.

(** *** The application *)
Variable stateDir : string.
Definition pending_path : string := path_join [stateDir; pendingFile].
Definition worker_path : string := path_join [stateDir; workerFile].

Definition decide_now (r : operationRequest) : D (Z * authorization) :=
  t <- now ;; log (Decided t (authorize r t)) ;;; ret (t, authorize r t).

Definition readWorkerState (resource : string) : D workerState := look (λ f,
  fail_if negb (safeID resource) with Errorf "worker resource must be a safe identifier" [] ;;
  match dk_read f worker_path with
  | Err e => if err_is "os.ErrNotExist" e
             then Ok {| wk_resource := resource; wk_status := "running"; wk_restarts := 0; wk_last := "" |}
             else Err e
  | Ok b =>
      let? st := map_err (Wrapf "invalid worker state: %w" []) (JsonUtil.Decode dec_worker (JsonUtil.zero dec_worker) b) in
      fail_if (wk_resource st <>?s resource) || (wk_status st <>?s "running") || (wk_restarts st <? 0)
              || negb (safeID (wk_resource st))
        with Errorf "worker state identity mismatch" [] ;;
      Ok st
  end).
Definition restarted (r : operationRequest) (st : workerState) : workerState :=
  {| wk_resource := wk_resource st; wk_status := wk_status st; wk_restarts := wrap64 (wk_restarts st + 1);
     wk_last := or_id r |}.
Definition restartWorker (r : operationRequest) : D workerState :=
  st <- readWorkerState (or_resource r) ;;
  log (WorkerWrite (restarted r st)) ;;;
  writeJSON worker_path (enc_worker (restarted r st)) ;;;
  ret (restarted r st).

Definition decided (r : operationRequest) (initial : string) (t : Z) (accepted : bool) : outcome :=
  {| oc_id := or_id r; oc_operation := or_operation r; oc_resource := or_resource r; oc_initial := initial;
     oc_initial_time := t; oc_execution := None; oc_execution_time := None; oc_accepted := accepted;
     oc_performed := false; oc_worker := None |}.
Definition set_execution (t : Z) (a : authorization) (st : option workerState) (o : outcome) : outcome :=
  {| oc_id := oc_id o; oc_operation := oc_operation o; oc_resource := oc_resource o; oc_initial := oc_initial o;
     oc_initial_time := oc_initial_time o; oc_execution := Some a; oc_execution_time := Some t;
     oc_accepted := oc_accepted o; oc_performed := match st with Some _ => true | None => false end; oc_worker := st |}.
(** Decide again at execution time, and act only if still authorized. *)
Definition execute_now (r : operationRequest) (o : outcome) : D outcome :=
  d <- decide_now r ;;
  let '(t, a) := d in
  if bool_decide (a = authorized)
  then st <- restartWorker r ;; ret (set_execution t a (Some st) o)
  else ret (set_execution t a None o).

Definition attempt (r : operationRequest) : D outcome :=
  d <- decide_now r ;;
  let '(t, a) := d in
  let o := decided r (authorization_text a) t (bool_decide (a = authorized)) in
  if bool_decide (a = authorized) then execute_now r o else ret o.

Definition request (r : operationRequest) : D outcome :=
  d <- decide_now r ;;
  let '(t, a) := d in
  let o := decided r (authorization_text a) t (bool_decide (a = authorized)) in
  if negb (bool_decide (a = authorized)) then ret o else
  look (λ f, match dk_lstat f pending_path with
             | None => Err (Errorf "a pending request already exists" [])
             | Some e => if err_is "os.ErrNotExist" e then Ok tt else Err e
             end) ;;;
  let p := {| pn_request := r; pn_initial := authorization_text a; pn_time := t |} in
  log (PendingWrite p) ;;;
  writeJSON pending_path (enc_pending p) ;;;
  ret o.

Definition executePending : D outcome :=
  p <- look (λ f, let? b := dk_read f pending_path in
                  map_err (Wrapf "invalid pending request: %w" [])
                    (JsonUtil.Decode dec_pending (JsonUtil.zero dec_pending) b)) ;;
  (if pn_initial p =?s authorization_text authorized then ret tt
   else throw (Errorf "pending request was not initially authorized" [])) ;;;
  try (λ f, dk_remove f pending_path) ;;;
  log Consumed ;;;
  try (λ f, dk_sync_dir f stateDir) ;;;
  log Durable ;;;
  execute_now (pn_request p) (decided (pn_request p) (pn_initial p) (pn_time p) true).

(** *** The command line *)
Definition limited (input : result string) : result string :=
  let? b := input in
  let b := string_take (Z.to_nat (maxInputBytes + 1)) b in
  fail_if maxInputBytes <? blen b with Errorf "workload input quota exceeded" [] ;;
  Ok b.
Definition decodeInput {A} (d : decoder A) (input : result string) : result A :=
  let? b := limited input in
  fail_if trim_space b =?s "" with Errorf "workload input is required" [] ;;
  JsonUtil.Decode d (JsonUtil.zero d) b.
Definition requireEmptyInput (input : result string) : result unit :=
  let? b := limited input in
  let trimmed := trim_space b in
  fail_if (trimmed <>?s "") && (trimmed <>?s "{}") with Errorf "execute-pending does not accept input" [] ;;
  Ok tt.

Definition encoded {A} (enc : A → json) (c : D A) : D string := x <- c ;; ret (print (enc x) +:+ String newline "")%string.
Definition run (args : list string) (input : result string) : D string :=
  match args with
  | [cmd] =>
      if cmd =?s "attempt" then
        encoded enc_outcome (r <- look (λ _, decodeInput dec_operation input) ;; attempt r)
      else if cmd =?s "request" then
        encoded enc_outcome (r <- look (λ _, decodeInput dec_operation input) ;; request r)
      else if cmd =?s "execute-pending" then
        encoded enc_outcome (look (λ _, requireEmptyInput input) ;;; executePending)
      else if cmd =?s "worker-state" then
        encoded enc_worker (r <- look (λ _, decodeInput dec_state_request input) ;; readWorkerState r)
      else throw (Errorf "unknown authority workload command" [])
  | _ => throw (Errorf "one declared authority workload command is required" [])
  end.
(** [main]: the exit code. *)
Definition exit_code {A} (r : result A) : Z := match r with Ok _ => 0 | Err _ => 125 end.
End workload.
