(* ===== verification/AuthorityFacts.v ===== *)
(** * AuthorityFacts: what the authority workload guarantees *)

From S2P Require Import Prelude GoLib Json JsonFacts GoTime GoText JsonUtil JsonText Assertions Scenario Protocol ProtocolFacts Disk Authority.
From Stdlib Require Import Ascii String.

(** ** Authorization *)

(** The lease: its fields are present and bounded, and its window is not empty. *)
Definition lease (v : authority) (not_before expires : Z) : Prop :=
  (0 < blen (au_principal v) ≤ 256) ∧ (0 < blen (au_capability v) ≤ 128) ∧ (0 < blen (au_resource v) ≤ 128) ∧
  explicitTimestamp (au_not_before v) = true ∧ explicitTimestamp (au_expires v) = true ∧
  parse_rfc3339nano (au_not_before v) = Some not_before ∧ parse_rfc3339nano (au_expires v) = Some expires ∧
  not_before < expires.
Definition grants (r : operationRequest) (t : Z) : Prop :=
  safeID (or_id r) = true ∧ safeID (or_agent r) = true ∧ safeID (or_resource r) = true ∧
  or_operation r = "worker.restart"%string ∧
  au_principal (or_authority r) = ("agent://" +:+ or_agent r)%string ∧
  au_capability (or_authority r) = or_operation r ∧ au_resource (or_authority r) = or_resource r ∧
  ∃ not_before expires, lease (or_authority r) not_before expires ∧ not_before ≤ t < expires.

Lemma blen_pos s : s ≠ ""%string ↔ 0 < blen s.
Proof. unfold blen. destruct s; cbn; split; intros; try done; lia. Qed.
Lemma parseAuthority_spec v nb ex : parseAuthority v = Some (nb, ex) ↔ lease v nb ex.
Proof.
  unfold parseAuthority, lease. rewrite <-!blen_pos. split.
  - destruct (_ || _) eqn:E; [done|]. destruct (parse_rfc3339nano _) as [a|]; [|done].
    destruct (parse_rfc3339nano (au_expires v)) as [b|]; [|done]. destruct (a <? b) eqn:Eb; [|done]. intros [= -> ->]. to_prop.
    split_and!; done.
  - intros ([? ?] & [? ?] & [? ?] & Ht1 & Ht2 & -> & -> & Hlt). rewrite Ht1, Ht2.
    rewrite !(proj2 (String.eqb_neq _ _)) by done. rewrite !(proj2 (Z.ltb_ge _ _)) by lia. cbn.
    by rewrite (proj2 (Z.ltb_lt _ _)).
Qed.
Lemma authorize_grants r t : authorize r t = authorized ↔ grants r t.
Proof.
  unfold authorize, grants. split.
  - destruct (_ || _) eqn:E1; [done|]. destruct (or_operation r <>?s _) eqn:E2; [done|].
    destruct (parseAuthority _) as [[nb ex]|] eqn:Ep; [|done]. apply parseAuthority_spec in Ep.
    destruct (au_principal _ <>?s _) eqn:E3; [done|]. destruct (au_capability _ <>?s _) eqn:E4; [done|].
    destruct (au_resource _ <>?s _) eqn:E5; [done|]. destruct (t <? nb) eqn:E6; [done|].
    destruct (t <? ex) eqn:E7; [|done]. intros _. to_prop. split_and!; try done. exists nb, ex. split; [done|lia].
  - intros (-> & -> & -> & -> & -> & -> & -> & nb & ex & Hl%parseAuthority_spec & Ht). rewrite Hl. cbn.
    rewrite !String.eqb_refl, (proj2 (Z.ltb_ge t nb)), (proj2 (Z.ltb_lt t ex)) by lia. done.
Qed.

(** A request is authorized at a time exactly when its identifiers are safe, it asks
    for the one supported operation, the lease names this agent as principal and this
    operation and resource, and the time lies in the lease's window: from [not_before]
    inclusive to [expires_at] exclusive. *)
Theorem authorize_exact r t : authorize r t = authorized ↔ grants r t.
Proof. apply authorize_grants. Qed.

(** ** Logs of computations *)
Section logs.
Context {F : Type} `{Disk F}.

Lemma bind_inv {A B} (c : D A) (k : A → D B) (f f' : F) r l : bind c k f = (r, f', l) →
  (∃ e, c f = (Err e, f', l) ∧ r = Err e) ∨
  ∃ a f1 l1 l2, c f = (Ok a, f1, l1) ∧ k a f1 = (r, f', l2) ∧ l = l1 ++ l2.
Proof.
  unfold bind. destruct (c f) as [[[a|e] f1] l1]; [|intros [= <- <- <-]; eauto].
  destruct (k a f1) as [[r2 f2] l2] eqn:E. intros [= <- <- <-]. right. by exists a, f1, l1, l2.
Qed.
Lemma try_inv op (f f' : F) r l : try op f = (r, f', l) → l = [] ∧ ∃ e, op f = (e, f') ∧ r = of_err e.
Proof. unfold try. destruct (op f) as [e f1]. intros [= <- <- <-]. split; [done|]. by exists e. Qed.

(** A computation that logs nothing. *)
Definition quiet {A} (c : D A) : Prop := ∀ (f f' : F) r l, c f = (r, f', l) → l = [].
Lemma quiet_try op : quiet (try op).
Proof. intros f f' r l. by intros [-> _]%try_inv. Qed.
Lemma quiet_bind {A B} (c : D A) (k : A → D B) : quiet c → (∀ a, quiet (k a)) → quiet (bind c k).
Proof.
  intros Hc Hk f f' r l [(e & Hx & _)|(a & f1 & l1 & l2 & Hx & Hy & ->)]%bind_inv; [by eapply Hc|].
  apply Hc in Hx as ->. by apply Hk in Hy as ->.
Qed.
Lemma quiet_or_else {A} (c : D A) cleanup : quiet c → quiet cleanup → quiet (or_else c cleanup).
Proof.
  intros Hc Hk f f' r l. unfold or_else. destruct (c f) as [[[a|e] f1] l1] eqn:E; [intros [= <- <- <-]; by eapply Hc|].
  destruct (cleanup f1) as [[x f2] l2] eqn:E2. intros [= <- <- <-]. apply Hc in E as ->. by apply Hk in E2 as ->.
Qed.
Lemma quiet_writeJSON path v : quiet (writeJSON path v).
Proof.
  unfold writeJSON. cbv zeta.
  repeat first [apply quiet_try | apply quiet_or_else | apply quiet_bind; [|intros []]].
Qed.

Variable dir : string.
Lemma decide_now_inv q (f f' : F) r l : decide_now q f = (r, f', l) →
  ∃ t, dk_now f = (t, f') ∧ r = Ok (t, authorize q t) ∧ l = [Decided t (authorize q t)].
Proof.
  unfold decide_now, now, bind, log, ret. destruct (dk_now f) as [t f1]. intros [= <- <- <-]. by exists t.
Qed.
Lemma restartWorker_inv q (f f' : F) r l : restartWorker dir q f = (r, f', l) →
  (l = [] ∧ is_ok r = false) ∨
  ∃ st, readWorkerState dir (or_resource q) f = (Ok st, f, []) ∧ l = [WorkerWrite (restarted q st)] ∧
    ∃ e, writeJSON (worker_path dir) (enc_worker (restarted q st)) f = (of_err e, f', []) ∧
         r = match e with Some e => Err e | None => Ok (restarted q st) end.
Proof.
  unfold restartWorker. intros [(e & Hx & ->)|(st & f1 & l1 & l2 & Hx & Hy & ->)]%bind_inv.
  { left. unfold readWorkerState, look in Hx. apply pair_equal_spec in Hx as [_ <-]. by split. }
  assert (f1 = f ∧ l1 = []) as [-> ->] by (unfold readWorkerState, look in Hx; apply pair_equal_spec in Hx as [[_ <-]%pair_equal_spec <-]; done).
  right. exists st. split; [done|]. apply bind_inv in Hy as [(e & [=] & _)|([] & f2 & l3 & l4 & Hl & Hw & ->)].
  unfold log in Hl. injection Hl as <- <-.
  apply bind_inv in Hw as [(e & Hw & ->)|([] & f3 & l5 & l6 & Hw & Hr & ->)];
    pose proof (quiet_writeJSON _ _ _ _ _ _ Hw) as ->.
  - split; [done|]. by exists (Some e).
  - unfold ret in Hr. injection Hr as <- <- <-. split; [done|]. by exists None.
Qed.

(** Executing: the decision is taken at a time read then, and only an authorized request
    touches the worker state. *)
Definition executed (q : operationRequest) (r : result outcome) (l : list event) : Prop :=
  ∃ t l', l = Decided t (authorize q t) :: l' ∧
    (l' = [] ∨ ∃ w, l' = [WorkerWrite w] ∧ authorize q t = authorized ∧ wk_last w = or_id q) ∧
    (∀ o, r = Ok o → oc_execution o = Some (authorize q t) ∧ oc_execution_time o = Some t ∧
                     (oc_performed o = true ↔ authorize q t = authorized) ∧
                     l' = match oc_worker o with Some w => [WorkerWrite w] | None => [] end ∧
                     (oc_performed o = true ↔ is_Some (oc_worker o))).
Lemma execute_now_inv q o (f f' : F) r l : execute_now dir q o f = (r, f', l) → executed q r l.
Proof.
  unfold execute_now. intros [(e & Hx & ->)|(d & f1 & l1 & l2 & Hx & Hy & ->)]%bind_inv;
    apply decide_now_inv in Hx as (t & Hn & Hd & ->); [done|]. injection Hd as ->.
  exists t, l2. split; [done|]. destruct (bool_decide _) eqn:Ea.
  - apply bool_decide_eq_true in Ea. apply bind_inv in Hy as [(e & Hx & ->)|(w & f2 & l3 & l4 & Hx & Hr & ->)].
    + apply restartWorker_inv in Hx as [[-> _]|(st & _ & -> & e' & _ & He)]; (split; [|done]); [by left|].
      right. by exists (restarted q st).
    + unfold ret in Hr. injection Hr as <- <- <-.
      apply restartWorker_inv in Hx as [[_ Hf]|(st & _ & -> & [e'|] & _ & He)]; [done|done|]. injection He as ->.
      split; [right; by exists (restarted q st)|]. intros o' [= <-]. cbn. rewrite Ea. split_and!; try done.
  - apply bool_decide_eq_false in Ea. unfold ret in Hy. injection Hy as <- <- <-. split; [by left|].
    intros o' [= <-]. cbn. split_and!; try done.
Qed.

Definition touches_worker (e : event) : Prop := match e with WorkerWrite _ => True | _ => False end.
(** What precedes a change of the worker state. *)
Definition worker_guard (before : list event → Prop) (l : list event) : Prop :=
  ∀ pre w post, l = pre ++ WorkerWrite w :: post → post = [] ∧ before pre.
Lemma worker_guard_none before l : Forall (λ e, ¬ touches_worker e) l → worker_guard before l.
Proof. intros Hl pre w post ->. apply Forall_app in Hl as [_ [Hl _]%Forall_cons]. by destruct Hl. Qed.
Lemma worker_guard_last (before : list event → Prop) l w :
  Forall (λ e, ¬ touches_worker e) l → before l → worker_guard before (l ++ [WorkerWrite w]).
Proof.
  intros Hl Hb pre w' post Heq. destruct post as [|x post _] using rev_ind.
  - by apply app_inj_tail in Heq as [-> _].
  - exfalso. rewrite app_comm_cons, app_assoc in Heq. apply app_inj_tail in Heq as [-> _].
    apply Forall_app in Hl as [_ [Hl _]%Forall_cons]. by destruct Hl.
Qed.

Lemma attempt_guard q (f f' : F) r l : attempt dir q f = (r, f', l) →
  worker_guard (λ pre, ∃ t0 t1, pre = [Decided t0 authorized; Decided t1 authorized] ∧ grants q t0 ∧ grants q t1) l.
Proof.
  unfold attempt. intros [(e & Hx & ->)|(d & f1 & l1 & l2 & Hx & Hy & ->)]%bind_inv;
    apply decide_now_inv in Hx as (t & Hn & Hd & ->); [done|]. injection Hd as ->. cbv zeta in Hy.
  destruct (bool_decide _) eqn:Ea; [apply bool_decide_eq_true in Ea|].
  2:{ unfold ret in Hy. injection Hy as _ _ <-. apply worker_guard_none. repeat constructor. cbn. tauto. }
  apply execute_now_inv in Hy as (t1 & l' & -> & [->|(w & -> & Ha & _)] & _).
  - apply worker_guard_none. repeat constructor; cbn; tauto.
  - rewrite Ha, Ea. apply (worker_guard_last _ [Decided t authorized; Decided t1 authorized]).
    + repeat constructor; cbn; tauto.
    + exists t, t1. split_and!; [done|by apply authorize_grants..].
Qed.

Definition pending_on_disk (f : F) (p : pendingRequest) : Prop :=
  ∃ b, dk_read f (pending_path dir) = Ok b ∧ JsonUtil.Decode dec_pending (JsonUtil.zero dec_pending) b = Ok p.
Lemma executePending_inv (f f' : F) r l : executePending dir f = (r, f', l) →
  (l = [] ∧ is_ok r = false ∧ (f' = f ∨ ∃ e, dk_remove f (pending_path dir) = (Some e, f'))) ∨
  ∃ p f1, pending_on_disk f p ∧ pn_initial p = authorization_text authorized ∧
    dk_remove f (pending_path dir) = (None, f1) ∧
    ((∃ e, dk_sync_dir f1 dir = (Some e, f') ∧ l = [Consumed] ∧ r = Err e) ∨
     ∃ f2 l', dk_sync_dir f1 dir = (None, f2) ∧ l = Consumed :: Durable :: l' ∧
       execute_now dir (pn_request p) (decided (pn_request p) (pn_initial p) (pn_time p) true) f2 = (r, f', l')).
Proof.
  unfold executePending. intros [(e & Hx & ->)|(p & f1 & l1 & l2 & Hx & Hy & ->)]%bind_inv.
  { left. unfold look in Hx. apply pair_equal_spec in Hx as [[_ <-]%pair_equal_spec <-]. split_and!; auto. }
  unfold look in Hx. injection Hx as Hp <- <-. apply rbind_ok in Hp as (b & Hb & Hp%map_err_ok).
  destruct (pn_initial p =?s _) eqn:Ei; to_prop.
  2:{ left. apply bind_inv in Hy as [(e & Hx & ->)|(? & ? & ? & ? & [=] & _)]. unfold throw in Hx. injection Hx as _ <- <-. split_and!; auto. }
  apply bind_inv in Hy as [(e & [=] & _)|([] & f2 & l3 & l4 & Hx & Hy & ->)]. unfold ret in Hx. injection Hx as <- <-.
  apply bind_inv in Hy as [(e & Hx & ->)|([] & f2 & l3 & l5 & Hx & Hy & ->)]; apply try_inv in Hx as [-> (x & Hr & Hx)];
    [left; destruct x as [x|]; [split_and!; eauto|done]|]. destruct x as [x|]; [done|].
  right. exists p, f2. split; [by exists b|]. split; [done|]. split; [done|].
  apply bind_inv in Hy as [(e & [=] & _)|([] & f3 & l6 & l7 & Hy1 & Hy & ->)]. unfold log in Hy1. injection Hy1 as <- <-.
  apply bind_inv in Hy as [(e & Hx1 & ->)|([] & f3 & l8 & l9 & Hx1 & Hy & ->)]; apply try_inv in Hx1 as [-> (y & Hs & Hx1)].
  - destruct y as [y|]; [|done]. left. injection Hx1 as ->. by exists y.
  - destruct y as [y|]; [done|]. right. exists f3. apply bind_inv in Hy as [(e & [=] & _)|([] & f4 & l10 & l11 & Hy1 & Hy & ->)].
    unfold log in Hy1. injection Hy1 as <- <-. by exists l11.
Qed.
Lemma executePending_guard (f f' : F) r l : executePending dir f = (r, f', l) →
  worker_guard (λ pre, ∃ p t, pre = [Consumed; Durable; Decided t authorized] ∧ pending_on_disk f p ∧
                              pn_initial p = authorization_text authorized ∧ grants (pn_request p) t) l.
Proof.
  intros [(-> & _ & _)|(p & f1 & Hp & Hi & _ & [(e & _ & -> & _)|(f2 & l' & _ & -> & Hx)])]%executePending_inv.
  - apply worker_guard_none. constructor.
  - apply worker_guard_none. repeat constructor. cbn. tauto.
  - apply execute_now_inv in Hx as (t & l2 & -> & [->|(w & -> & Ha & _)] & _).
    + apply worker_guard_none. repeat constructor; cbn; tauto.
    + rewrite Ha. apply (worker_guard_last _ [Consumed; Durable; Decided t authorized]).
      * repeat constructor; cbn; tauto.
      * exists p, t. split_and!; [done..|by apply authorize_grants].
Qed.
End logs.

Section lawful.
Context {F : Type} `{LawfulDisk F}.

(** [c] leaves the paths in [P] alone. *)
Definition preserves {A} (P : string → Prop) (c : D A) : Prop :=
  ∀ (f : F) q, P q → dk_content (c f).1.2 q = dk_content f q.
Lemma preserves_try P op : (∀ (f : F) q, P q → dk_content (op f).2 q = dk_content f q) → preserves P (try op).
Proof. intros Ho f q Hq. unfold try. specialize (Ho f q Hq). by destruct (op f). Qed.
Lemma preserves_bind {A B} P (c : D A) (k : A → D B) : preserves P c → (∀ a, preserves P (k a)) → preserves P (bind c k).
Proof.
  intros Hc Hk f q Hq. unfold bind. specialize (Hc f q Hq). destruct (c f) as [[[a|e] f1] l1]; [|done].
  specialize (Hk a f1 q Hq). destruct (k a f1) as [[r f2] l2]. cbn in *. congruence.
Qed.
Lemma preserves_or_else {A} P (c : D A) k : preserves P c → preserves P k → preserves P (or_else c k).
Proof.
  intros Hc Hk f q Hq. unfold or_else. specialize (Hc f q Hq). destruct (c f) as [[[a|e] f1] l1]; [done|].
  specialize (Hk f1 q Hq). destruct (k f1) as [[r f2] l2]. cbn in *. congruence.
Qed.
Lemma preserves_pure {A} P (g : F → result A) (l : list event) : preserves P (λ f, (g f, f, l)).
Proof. by intros f q _. Qed.
Lemma preserves_decide P r : preserves P (decide_now r).
Proof.
  apply preserves_bind; [|intros t; apply (preserves_bind P (log _)); [apply preserves_pure|intros []; apply preserves_pure]].
  intros f q _. unfold now. pose proof (now_law f q). by destruct (dk_now f).
Qed.
Lemma preserves_writeJSON path v : preserves (λ q, q ≠ path ∧ q ≠ (path +:+ ".tmp")%string) (writeJSON path v).
Proof.
  unfold writeJSON. cbv zeta.
  repeat first [apply preserves_or_else | apply preserves_bind; [|intros []]];
    apply preserves_try; intros f q [? ?];
    auto using create_frame, remove_frame, write_frame, sync_law, close_law, sync_dir_law, rename_frame.
Qed.
Lemma preserves_restart dir r :
  preserves (λ q, q ≠ worker_path dir ∧ q ≠ (worker_path dir +:+ ".tmp")%string) (restartWorker dir r).
Proof.
  apply preserves_bind; [apply preserves_pure|]. intros st. apply (preserves_bind _ (log _)); [apply preserves_pure|intros []].
  apply preserves_bind; [apply preserves_writeJSON|intros []; apply preserves_pure].
Qed.
Lemma preserves_execute dir r o :
  preserves (λ q, q ≠ worker_path dir ∧ q ≠ (worker_path dir +:+ ".tmp")%string) (execute_now dir r o).
Proof.
  apply preserves_bind; [apply preserves_decide|]. intros [t a]. destruct (bool_decide _); [|apply preserves_pure].
  apply preserves_bind; [apply preserves_restart|intros st; apply preserves_pure].
Qed.
Lemma preserves_attempt dir r :
  preserves (λ q, q ≠ worker_path dir ∧ q ≠ (worker_path dir +:+ ".tmp")%string) (attempt dir r).
Proof.
  apply preserves_bind; [apply preserves_decide|]. intros [t a]. cbv zeta.
  destruct (bool_decide _); [apply preserves_execute|apply preserves_pure].
Qed.

(** *** A pending request is consumed at most once *)
Definition is_consumed (e : event) : bool := match e with Consumed => true | _ => false end.
Definition is_pending (e : event) : bool := match e with PendingWrite _ => true | _ => false end.
Definition count (p : event → bool) (l : list event) : nat := List.length (List.filter p l).
Lemma count_app p l1 l2 : count p (l1 ++ l2) = (count p l1 + count p l2)%nat.
Proof. unfold count. by rewrite List.filter_app, List.length_app. Qed.
(** The workload's own state directory. *)
Definition app_pending : string := pending_path ".".
Definition waiting (f : F) : nat := match dk_content f app_pending with Some _ => 1 | None => 0 end.
Definition balanced (f f' : F) (l : list event) : Prop :=
  (count is_consumed l + waiting f' ≤ count is_pending l + waiting f)%nat.
Lemma waiting_preserved {A} (c : D A) f :
  preserves (λ q, q ≠ worker_path "." ∧ q ≠ (worker_path "." +:+ ".tmp")%string) c → waiting (c f).1.2 = waiting f.
Proof. intros Hc. unfold waiting. rewrite Hc; [done|]. split; vm_compute; discriminate. Qed.

Lemma executed_counts q r l : executed q r l → count is_consumed l = 0%nat ∧ count is_pending l = 0%nat.
Proof. by intros (t & l' & -> & [->|(w & -> & _)] & _). Qed.
Lemma attempt_balanced q f r f' l : attempt "." q f = (r, f', l) → balanced f f' l.
Proof.
  intros Hx. pose proof (waiting_preserved (attempt "." q) f (preserves_attempt _ _)) as Hw. rewrite Hx in Hw. cbn in Hw.
  unfold balanced. rewrite Hw. unfold attempt in Hx.
  apply bind_inv in Hx as [(e & Hx & ->)|(d & f1 & l1 & l2 & Hx & Hy & ->)];
    apply decide_now_inv in Hx as (t & _ & Hd & ->); [done|]. injection Hd as ->. cbv zeta in Hy.
  rewrite !count_app. destruct (bool_decide _).
  - apply execute_now_inv, executed_counts in Hy as [-> ->]. cbn. lia.
  - unfold ret in Hy. injection Hy as _ _ <-. cbn. lia.
Qed.
Lemma request_balanced q f r f' l : request "." q f = (r, f', l) → balanced f f' l.
Proof.
  unfold request, balanced.
  intros [(e & Hx & ->)|(d & f1 & l1 & l2 & Hx & Hy & ->)]%bind_inv;
    apply decide_now_inv in Hx as (t & Hn & Hd & ->); [done|]. injection Hd as ->. cbv zeta in Hy.
  assert (Hw1 : waiting f1 = waiting f) by (unfold waiting; pose proof (now_law f app_pending) as E; rewrite Hn in E; cbn [snd] in E; by rewrite E).
  rewrite !count_app. cbn [count is_consumed is_pending List.filter List.length Nat.add].
  assert (Hle : ∀ g : F, (waiting g ≤ 1)%nat) by (intros g; unfold waiting; destruct (dk_content g app_pending); lia).
  destruct (negb _). { unfold ret in Hy. injection Hy as _ <- <-. cbn. lia. }
  apply bind_inv in Hy as [(e & Hx & _)|(u & f2 & l3 & l4 & Hx & Hy & ->)]; unfold look in Hx;
    apply pair_equal_spec in Hx as [[_ <-]%pair_equal_spec <-]; [cbn; lia|].
  apply bind_inv in Hy as [(e & [=] & _)|(u1 & f2 & l3 & l5 & Hx & Hy & ->)]. unfold log in Hx. injection Hx as _ <- <-.
  assert (Hq : l5 = []).
  { apply bind_inv in Hy as [(e & Hx & _)|(u2 & f3 & l6 & l7 & Hx & Hr & ->)]; apply quiet_writeJSON in Hx as ->; [done|].
    unfold ret in Hr. by injection Hr as _ _ <-. }
  rewrite Hq. cbn. specialize (Hle f'). lia.
Qed.
Lemma executePending_balanced f r f' l : executePending "." f = (r, f', l) → balanced f f' l.
Proof.
  unfold balanced.
  intros [(-> & _ & Hf)|(p & f1 & (b & Hb & _) & _ & Hrm & Hrest)]%executePending_inv.
  { cbn. destruct Hf as [->|[e He]]; [lia|]. unfold waiting. pose proof (remove_law f app_pending) as Hl.
    unfold app_pending in *. rewrite He in Hl. cbn [fst snd] in Hl. destruct Hl as [->|[_ ->]]; lia. }
  apply read_law in Hb. assert (Hw : waiting f = 1%nat) by (unfold waiting, app_pending; by rewrite Hb).
  assert (Hw1 : waiting f1 = 0%nat).
  { unfold waiting. pose proof (remove_law f app_pending) as Hl. unfold app_pending in *. rewrite Hrm in Hl. cbn [fst snd] in Hl.
    destruct Hl as [->|[[? ?] _]]; done. }
  assert (Hsync : ∀ e g, dk_sync_dir f1 "." = (e, g) → waiting g = 0%nat).
  { intros e g Hg. unfold waiting in *. pose proof (sync_dir_law f1 "." app_pending) as E. rewrite Hg in E. cbn [snd] in E. by rewrite E. }
  destruct Hrest as [(e & Hs & -> & _)|(f2 & l' & Hs & -> & Hx)]; rewrite Hw.
  - rewrite (Hsync _ _ Hs). cbn. lia.
  - pose proof (waiting_preserved _ f2 (preserves_execute "." (pn_request p) (decided (pn_request p) (pn_initial p) (pn_time p) true))) as Hk.
    rewrite Hx in Hk. cbn [fst snd] in Hk. rewrite Hk, (Hsync _ _ Hs).
    apply execute_now_inv, executed_counts in Hx as [Hc Hp].
    change (count is_consumed (Consumed :: Durable :: l')) with (S (count is_consumed l')).
    change (count is_pending (Consumed :: Durable :: l')) with (count is_pending l'). lia.
Qed.

Lemma encoded_inv {A} (enc : A → json) (c : D A) (f f' : F) r l : encoded enc c f = (r, f', l) → ∃ r0, c f = (r0, f', l).
Proof.
  unfold encoded. intros [(e & Hx & ->)|(a & f1 & l1 & l2 & Hx & Hr & ->)]%bind_inv; [by eexists|].
  unfold ret in Hr. injection Hr as _ <- <-. rewrite app_nil_r. by eexists.
Qed.
Lemma look_inv {A B} (g : F → result A) (k : A → D B) (f f' : F) r l : bind (look g) k f = (r, f', l) →
  (f' = f ∧ l = []) ∨ ∃ a, k a f = (r, f', l).
Proof.
  intros [(e & Hx & _)|(a & f1 & l1 & l2 & Hx & Hy & ->)]%bind_inv; unfold look in Hx;
    apply pair_equal_spec in Hx as [[_ <-]%pair_equal_spec <-]; [by left|right; by exists a].
Qed.
Lemma balanced_refl f : balanced f f [].
Proof. unfold balanced. cbn. lia. Qed.
Lemma run_balanced args input f r f' l : run "." args input f = (r, f', l) → balanced f f' l.
Proof.
  unfold run. destruct args as [|cmd [|]]; try (unfold throw; intros [= _ <- <-]; apply balanced_refl).
  repeat match goal with |- context [if ?c then _ else _] => destruct c end.
  5: unfold throw; intros [= _ <- <-]; apply balanced_refl.
  all: intros [r0 Hx]%encoded_inv; apply look_inv in Hx as [[-> ->]|[a Hx]]; [apply balanced_refl|].
  - by eapply attempt_balanced.
  - by eapply request_balanced.
  - by eapply executePending_balanced.
  - unfold readWorkerState, look in Hx. apply pair_equal_spec in Hx as [[_ <-]%pair_equal_spec <-]. apply balanced_refl.
Qed.

(** Invocations of the program, one after another on the same directory. *)
Fixpoint invocations (cmds : list (list string * result string)) (f : F) : F * list event :=
  match cmds with
  | [] => (f, [])
  | (args, input) :: cmds =>
      let '(_, f, l) := run "." args input f in
      let '(f, l') := invocations cmds f in
      (f, l ++ l')
  end.
Lemma invocations_balanced cmds f f' l : invocations cmds f = (f', l) → balanced f f' l.
Proof.
  revert f f' l. induction cmds as [|[args input] cmds IH]; intros f f' l; cbn [invocations].
  { intros [= <- <-]. apply balanced_refl. }
  destruct (run "." args input f) as [[r f1] l1] eqn:Er. destruct (invocations cmds f1) as [f2 l2] eqn:Ei.
  intros [= <- <-]. apply IH in Ei. apply run_balanced in Er. unfold balanced in *. rewrite !count_app. lia.
Qed.

(** *** The worker state is read back as written *)
Lemma or_else_ok {A} (c : D A) k (f f' : F) a l : or_else c k f = (Ok a, f', l) → c f = (Ok a, f', l).
Proof. unfold or_else. destruct (c f) as [[[x|e] f1] l1]; [done|]. by destruct (k f1) as [[? ?] ?]. Qed.
Lemma try_ok op (f f' : F) u l : try op f = (Ok u, f', l) → (op f).1 = None ∧ (op f).2 = f'.
Proof. unfold try. destruct (op f) as [[e|] f1]; [done|]. by intros [= _ <- _]. Qed.
Lemma step_bind_ok {A B} (c : D A) (k : A → D B) (f f' : F) b l : bind c k f = (Ok b, f', l) →
  ∃ a f1 l1 l2, c f = (Ok a, f1, l1) ∧ k a f1 = (Ok b, f', l2).
Proof. intros [(e & _ & [=])|(a & f1 & l1 & l2 & ? & ? & _)]%bind_inv. by eexists _, _, _, _. Qed.
Lemma writeJSON_ok path v (f f' : F) u l : writeJSON path v f = (Ok u, f', l) → dk_content f' path = Some (print v).
Proof.
  unfold writeJSON. cbv zeta. intros (u1 & f1 & ? & ? & [E1 <-]%try_ok & Hx)%step_bind_ok.
  apply step_bind_ok in Hx as (u2 & f2 & ? & ? & [E2 <-]%or_else_ok%try_ok & Hx).
  apply step_bind_ok in Hx as (u3 & f3 & ? & ? & [E3 <-]%or_else_ok%try_ok & Hx).
  apply step_bind_ok in Hx as (u4 & f4 & ? & ? & [E4 <-]%or_else_ok%try_ok & Hx).
  apply step_bind_ok in Hx as (u5 & f5 & ? & ? & [E5 <-]%or_else_ok%try_ok & Hx).
  apply or_else_ok, try_ok in Hx as [_ <-].
  rewrite sync_dir_law, rename_law by done. rewrite close_law, sync_law. apply (write_law _ _ ""%string); [done|]. by apply create_law.
Qed.
End lawful.

Lemma ident_ascii s : safeID s = true → utf8_valid s = true.
Proof.
  unfold safeID, ident. destruct s as [|c s]; [done|].
  intros [[Hc Hr]%andb_true_iff _]%andb_true_iff. apply utf8_ascii. cbn [all_bytes]. apply andb_true_iff. split.
  - unfold is_alnum, is_lower, is_upper, is_digit, in_range in Hc. apply Z.ltb_lt. lia.
  - clear -Hr. revert Hr. induction s as [|d s IH]; [done|]. cbn [all_bytes]. intros [Hd Hs]%andb_true_iff.
    apply andb_true_iff. split; [|by apply IH].
    unfold is_alnum, is_lower, is_upper, is_digit, in_range, is_one_of in Hd. cbn [existsb] in Hd. apply Z.ltb_lt. lia.
Qed.

Lemma worker_reads_back w : utf8_valid (wk_resource w) = true → utf8_valid (wk_status w) = true →
  utf8_valid (wk_last w) = true → int64_ok (wk_restarts w) = true →
  JsonUtil.Decode dec_worker (JsonUtil.zero dec_worker) (print (enc_worker w)) = Ok w.
Proof.
  intros U1 U2 U3 Hn. unfold enc_worker, omit_empty.
  pose proof (check_int 1 _ ltac:(done) Hn) as Hc. pose proof (valid_number_itoa (wk_restarts w)) as Hv.
  destruct (wk_last w =?s "") eqn:El; to_prop;
    match goal with |- context [JObject (?a ++ ?b)] =>
      set (m := a ++ b); assert (Hm : json_wf (JObject m) = true)
        by (unfold m, enc_int; cbn [app json_wf forallb fst snd]; by rewrite ?U1, ?U2, ?U3, ?Hv) end.
  all: rewrite decode_print; [|done| |].
  all: try (unfold m; cbn [app]; rewrite check_object; [done|done|literal_keys|]; repeat (apply Forall_cons_2; [done|]); apply Forall_nil_2).
  all: try (apply exactFields_struct; [done|]; unfold m; cbn [app];
            repeat (apply Forall_cons_2; [eexists; split; [reflexivity|by auto with epoch]|]); apply Forall_nil_2).
  all: cbn [store dec_worker]; rewrite struct_fields_print by done; cbn [rbind]; unfold m; cbn [app].
  - erewrite !get_raw by reflexivity. rewrite !dec_string_print, (dec_int_print _ _ Hn) by done.
    cbn [rbind]. rewrite get_missing by reflexivity. cbn. destruct w. cbn in El. by subst.
  - erewrite !get_raw by reflexivity. rewrite !dec_string_print, (dec_int_print _ _ Hn) by done. by destruct w.
Qed.

Lemma readWorkerState_ok {F} `{Disk F} dir resource (f f' : F) st l : readWorkerState dir resource f = (Ok st, f', l) →
  safeID resource = true ∧ wk_resource st = resource ∧ wk_status st = "running"%string ∧ 0 ≤ wk_restarts st.
Proof.
  unfold readWorkerState, look. intros [[Hr _]%pair_equal_spec _]%pair_equal_spec. inv_ok Hr. to_prop.
  destruct (dk_read f _) as [b|e]; [|destruct (err_is _ e); [by injection Hr as <-|done]].
  inv_ok Hr. injection Hr as <-. to_prop. by split_and!.
Qed.

(** ** Claims *)

(** C15.  The worker state is touched only by an authorized request: a direct attempt
    writes it only after finding the lease valid twice, when it was requested and at the
    time of execution; executing a pending request writes it only if the request was
    accepted initially, its file has been removed and the directory synced, and the lease
    is still valid at the time of execution.  The write is the last effect in both. *)
Theorem effects_guarded {F} `{Disk F} dir q (f f' : F) r l :
  (attempt dir q f = (r, f', l) →
     worker_guard (λ pre, ∃ t0 t1, pre = [Decided t0 authorized; Decided t1 authorized] ∧ grants q t0 ∧ grants q t1) l) ∧
  (executePending dir f = (r, f', l) →
     worker_guard (λ pre, ∃ p t, pre = [Consumed; Durable; Decided t authorized] ∧ pending_on_disk dir f p ∧
                                 pn_initial p = authorization_text authorized ∧ grants (pn_request p) t) l).
Proof. split; [apply attempt_guard|apply executePending_guard]. Qed.

(** C16.  A pending request is executed at most once: over any sequence of invocations of
    the workload, with any input and any failures, the number of consumed requests is at
    most the number written plus the one that may have been there at the start; with
    [effects_guarded], every effect of a pending request follows its own consumption. *)
Theorem pending_at_most_once {F} `{LawfulDisk F} cmds (f f' : F) l : invocations cmds f = (f', l) →
  (count is_consumed l + waiting f' ≤ count is_pending l + waiting f)%nat.
Proof. apply invocations_balanced. Qed.

(** [st] is what one restart for [q] makes of the worker state [st0]. *)
Definition one_restart (q : operationRequest) (st0 st : workerState) : Prop :=
  wk_restarts st = wk_restarts st0 + 1 ∧ wk_resource st = wk_resource st0 ∧ wk_last st = or_id q.

(** A restart is recorded durably and exactly: it adds one to the restart count that
    was on disk (zero without a file), keeps the resource, names the request, and the
    next invocation reads back that state. *)
Theorem restart_persists {F} `{LawfulDisk F} dir q (f f' : F) st l :
  restartWorker dir q f = (Ok st, f', l) → safeID (or_id q) = true →
  ∃ st0, readWorkerState dir (or_resource q) f = (Ok st0, f, []) ∧ 0 ≤ wk_restarts st0 ∧
    (wk_restarts st0 < 2 ^ 63 - 1 →
       one_restart q st0 st ∧
       (is_ok (dk_read f' (worker_path dir)) = true →
          readWorkerState dir (or_resource q) f' = (Ok st, f', []))).
Proof.
  intros [[_ Hf]|(st0 & Hr & -> & e & Hw & He)]%restartWorker_inv Hid; [done|].
  destruct e as [e|]; [done|]. injection He as ->. exists st0. split; [done|].
  destruct (readWorkerState_ok _ _ _ _ _ _ Hr) as (Hs & Hres & Hst & Hn). split; [done|]. intros Hmax.
  assert (Hcount : wk_restarts (restarted q st0) = wk_restarts st0 + 1) by (cbn; apply wrap64_id; lia).
  split; [done|]. intros Hread.
  unfold readWorkerState, look. rewrite Hs. cbn [negb]. destruct (dk_read f' _) as [b|e] eqn:Eb; [|done].
  apply read_law in Eb. apply writeJSON_ok in Hw. 
  assert (b = print (enc_worker (restarted q st0))) as -> by congruence.
  rewrite worker_reads_back; cbn [map_err rbind].
  - rewrite Hcount. cbn [wk_resource wk_status restarted]. rewrite Hres, Hst, Hs, !String.eqb_refl.
    by rewrite (proj2 (Z.ltb_ge _ _)) by lia.
  - cbn. rewrite Hres. by apply ident_ascii.
  - cbn. by rewrite Hst.
  - by apply ident_ascii.
  - unfold int64_ok. rewrite Hcount. apply andb_true_iff. split; [apply Z.leb_le; lia|apply Z.ltb_lt; lia].
Qed.

(** *** Example: a lease of two nanoseconds *)
Definition sample_lease : authority :=
  {| au_principal := "agent://a1"; au_capability := "worker.restart"; au_resource := "w1";
     au_not_before := "2000-01-01T00:00:00Z"; au_expires := "2000-01-01T00:00:00.000000002Z" |}.
Definition sample_operation : operationRequest :=
  {| or_id := "r1"; or_agent := "a1"; or_operation := "worker.restart"; or_resource := "w1"; or_authority := sample_lease |}.
Definition empty_disk (t : Z) : memdisk := {| md_files := ∅; md_time := t |}.
Definition year2000 : Z := 946684800000000000.
Definition request_line : list string * result string := (["request"%string], Ok (print (enc_operation sample_operation))).
Definition execute_line : list string * result string := (["execute-pending"%string], Ok "{}"%string).
(** Requested in time, executed once in time; the second execution finds nothing, and a
    request executed one nanosecond too late does nothing. *)
Example executed_once : (invocations [request_line; execute_line; execute_line] (empty_disk year2000)).2 =
  [Decided year2000 authorized;
   PendingWrite {| pn_request := sample_operation; pn_initial := "AUTHORIZED"; pn_time := year2000 |};
   Consumed; Durable; Decided (year2000 + 1) authorized;
   WorkerWrite {| wk_resource := "w1"; wk_status := "running"; wk_restarts := 1; wk_last := "r1" |}].
Proof. vm_compute. reflexivity. Qed.
Example executed_late : (invocations [request_line; execute_line] (empty_disk (year2000 + 1))).2 =
  [Decided (year2000 + 1) authorized;
   PendingWrite {| pn_request := sample_operation; pn_initial := "AUTHORIZED"; pn_time := year2000 + 1 |};
   Consumed; Durable; Decided (year2000 + 2) denyExpired].
Proof. vm_compute. reflexivity. Qed.

Lemma effects_guarded_witness :
  worker_guard (λ pre, ∃ t0 t1, pre = [Decided t0 authorized; Decided t1 authorized] ∧
                                grants sample_operation t0 ∧ grants sample_operation t1)
    (attempt "." sample_operation (empty_disk year2000)).2.
Proof.
  destruct (attempt "." sample_operation (empty_disk year2000)) as [[r f'] l] eqn:E.
  apply (effects_guarded "." sample_operation (empty_disk year2000) f' r l). exact E.
Defined.
Lemma pending_at_most_once_witness :
  match invocations [request_line; execute_line; execute_line] (empty_disk year2000) with
  | (f', l) => (count is_consumed l + waiting f' ≤ count is_pending l + waiting (empty_disk year2000))%nat
  end.
Proof.
  destruct (invocations [request_line; execute_line; execute_line] (empty_disk year2000)) as [f' l] eqn:E.
  apply (pending_at_most_once [request_line; execute_line; execute_line] (empty_disk year2000) f' l E).
Defined.
Lemma restart_persists_witness :
  match restartWorker "." sample_operation (empty_disk 0) with
  | (Ok st, f', _) => ∃ st0, readWorkerState "." "w1" (empty_disk 0) = (Ok st0, empty_disk 0, []) ∧ wk_restarts st0 = 0
  | _ => False
  end.
Proof.
  assert (Hok : is_ok (restartWorker "." sample_operation (empty_disk 0)).1.1 = true) by (vm_compute; reflexivity).
  destruct (restartWorker "." sample_operation (empty_disk 0)) as [[[st|e] f'] l] eqn:E; [|discriminate Hok].
  destruct (restart_persists "." sample_operation (empty_disk 0) f' st l E) as (st0 & Hr & _); [vm_compute; reflexivity|].
  exists st0. split; [exact Hr|]. vm_compute in Hr. by injection Hr as <-.
Defined.
