(* ===== verification/DemoTools.v ===== *)
(** * DemoTools: delegated authority and the tools of the incident-response demo
    (demos/incident-response-agent: internal/api/types.go, internal/authority/authority.go,
    internal/tools/tools.go)

    A restart tool that checks a signed, time-limited authority when it is called and
    again after its delay, and then performs one transaction.  The JWT library is the [Jwt]
    class, the database is the interface the code declares ([Store]), and the clock and
    the delay are [ToolEnv].  The trace records the checks, the audit records and the
    transaction, in order, also when the call fails. *)

From S2P Require Import Prelude GoLib Json GoTime GoText JsonUtil.
From Stdlib Require Import Ascii String.

(** ** Data (types.go) *)
Inductive Decision :=
| Authorized | DenyNotYetValid | DenyExpired | DenyScopeMismatch | DenyResourceMismatch | DenySubjectMismatch
| DenyInvalidSignature | DenyMalformedAuthority | DenyReplayedAuthority.
#[export] Instance decision_eq_dec : EqDecision Decision.
Proof. solve_decision. Defined.

Record Incident := {
  in_id : string; in_service : string; in_severity : string; in_summary : string; in_status : string; in_created : Z
}.
Record Worker := { wo_id : string; wo_service : string; wo_health : string; wo_count : Z; wo_updated : Z }.
Record AuditRecord := {
  ad_id : Z; ad_agent : string; ad_tool : string; ad_resource : string; ad_decision : Decision; ad_effect : bool;
  ad_time : Z
}.
Record AuthorizationCheck := { ck_time : Z; ck_decision : Decision }.
Record WorkerRestartInput := { ri_worker : string; ri_token : string; ri_delay : Z }.
Record WorkerTransition := { tr_before : Z; tr_after : Z; tr_health_before : string; tr_health_after : string }.
Record WorkerRestartOutput := {
  ro_agent : string; ro_tool : string; ro_resource : string; ro_initial : AuthorizationCheck;
  ro_execution : option AuthorizationCheck; ro_delay : Z; ro_elapsed : Z; ro_effect : bool;
  ro_worker : WorkerTransition; ro_audit : AuditRecord
}.
Record RestartResult := {
  rr_before : Worker; rr_after : Worker; rr_audit : AuditRecord; rr_decision : Decision; rr_applied : bool
}.

(** ** Authority (authority.go) *)
Record Claims := {
  cm_scope : string; cm_resource : string; cm_subject : string; cm_id : string;
  cm_not_before : option Z; cm_expires : option Z
}.
#[export] Instance claims_eq_dec : EqDecision Claims.
Proof. solve_decision. Defined.
Definition no_claims : Claims :=
  {| cm_scope := ""; cm_resource := ""; cm_subject := ""; cm_id := ""; cm_not_before := None; cm_expires := None |}.
Record IssueRequest := { ir_subject : string; ir_scope : string; ir_resource : string; ir_not_before : Z; ir_expires : Z }.
Record IssueResult := { is_public : string; is_token : string }.
Record Evaluation := { ev_decision : Decision; ev_claims : Claims }.
Record Validator := { va_key : string; va_subject : string }.

Definition MaxTokenBytes : Z := Z.shiftl 16 10.
Definition PublicKeySize : Z := 32.

(** The JWT library: [jwt_parse key token] is [ParseWithClaims] restricted to EdDSA and
    without claims validation, giving [Valid] and the claims; [jwt_sign] signs claims with
    a private key; [NewNumericDate] is the instant a numeric date keeps. *)
Class Jwt := {
  jwt_parse : string → string → result (bool * Claims);
  jwt_sign : string → Claims → result string;
  NewNumericDate : Z → Z
}.
(** What the library documents: a signed token is text of its own alphabet and is accepted
    with its claims under the public key of the pair; numeric dates keep whole seconds. *)
Class LawfulJwt `{Jwt} := {
  key_pair : string → string → Prop;
  sign_parse public private c token : key_pair public private → jwt_sign private c = Ok token →
    token ≠ ""%string ∧ jwt_parse public token = Ok (true, c);
  sign_text private c token : jwt_sign private c = Ok token → plain token;
  numeric_date_floor t : NewNumericDate t = t - t mod 1000000000
}.

Fixpoint count_dots (s : string) : Z :=
  match s with
  | EmptyString => 0
  | String c s => (if Ascii.eqb c "." then 1 else 0) + count_dots s
  end.

Section authority.
Context `{Jwt}.

(** [Validator.Evaluate]. *)
Definition Evaluate (v : Validator) (token : string) (now : Z) (scope resource : string) : Evaluation :=
  let malformed := {| ev_decision := DenyMalformedAuthority; ev_claims := no_claims |} in
  if negb (blen (va_key v) =? PublicKeySize) || (token =?s "") || (MaxTokenBytes <? blen token)
     || negb (count_dots token =? 2) then malformed else
  match jwt_parse (va_key v) token with
  | Err e => if err_is "jwt.ErrTokenSignatureInvalid" e
             then {| ev_decision := DenyInvalidSignature; ev_claims := no_claims |} else malformed
  | Ok (valid, claims) =>
      if negb valid || (cm_subject claims =?s "") || (cm_id claims =?s "") || (cm_scope claims =?s "")
         || (cm_resource claims =?s "") then malformed else
      match cm_not_before claims, cm_expires claims with
      | Some not_before, Some expires =>
          if negb (not_before <? expires) then malformed else
          let result d := {| ev_decision := d; ev_claims := claims |} in
          if cm_subject claims <>?s va_subject v then result DenySubjectMismatch else
          if cm_scope claims <>?s scope then result DenyScopeMismatch else
          if cm_resource claims <>?s resource then result DenyResourceMismatch else
          if now <? not_before then result DenyNotYetValid else
          if negb (now <? expires) then result DenyExpired else result Authorized
      | _, _ => malformed
      end
  end.

(** [IssueEphemeral]: the key pair and the random identifier are given. *)
Definition IssueEphemeral (keys : result (string * string)) (jti : result string) (encode : string → string)
    (req : IssueRequest) : result IssueResult :=
  fail_if (ir_subject req =?s "") || (ir_scope req =?s "") || (ir_resource req =?s "") || (256 <? blen (ir_subject req))
          || (128 <? blen (ir_scope req)) || (256 <? blen (ir_resource req)) || negb (ir_not_before req <? ir_expires req)
    with Errorf "invalid authority request" [] ;;
  let? (public, private) := keys in
  let? id := jti in
  let? token := jwt_sign private
    {| cm_scope := ir_scope req; cm_resource := ir_resource req; cm_subject := ir_subject req; cm_id := id;
       cm_not_before := Some (NewNumericDate (ir_not_before req)); cm_expires := Some (NewNumericDate (ir_expires req)) |} in
  Ok {| is_public := encode public; is_token := token |}.
End authority.

(** ** Tools (tools.go) *)
Class Store (W : Type) := {
  ListIncidents : W → string → result (list Incident) * W;
  InspectIncident : W → string → result (Incident * list Worker) * W;
  ReadWorker : W → string → result Worker * W;
  RecordAudit : W → string → string → string → Decision → bool → result AuditRecord * W;
  RestartWorker : W → string → string → string → result RestartResult * W
}.
Class ToolEnv (W : Type) := {
  tool_now : W → Z * W;
  tool_sleep : W → Z → option error * W
}.
Inductive tool_event :=
| Checked (t : Z) (e : Evaluation)
| Audited (d : Decision) (r : result AuditRecord)
| Transacted (jti : string) (r : result RestartResult).

Definition safe_id (s : string) : bool :=
  match s with
  | EmptyString => false
  | String c r => is_alnum c && all_bytes (λ c, is_alnum c || is_one_of [95; 45] c) r && (blen s <=? 128)
  end.
Definition worker_restart : string := "worker_restart".
Definition restart_scope : string := "worker.restart".

Section tools.
Context `{Jwt} {W : Type} `{Store W} `{ToolEnv W}.
Variable v : Validator.

Definition incidentList (status : string) (w : W) : result (list Incident) * W :=
  if (status <>?s "") && (status <>?s "active") && (status <>?s "resolved")
  then (Err (Errorf "unsupported incident status filter" []), w) else ListIncidents w status.
Definition incidentInspect (id : string) (w : W) : result (Incident * list Worker) * W :=
  if negb (safe_id id) then (Err (Errorf "invalid incident identifier" []), w) else InspectIncident w id.
Definition workerStatus (id : string) (w : W) : result Worker * W :=
  if negb (safe_id id) then (Err (Errorf "invalid worker identifier" []), w) else ReadWorker w id.

Definition with_audit (r : result AuditRecord) (out : AuditRecord → WorkerRestartOutput) : result WorkerRestartOutput :=
  let? a := r in Ok (out a).

(** [workerRestart] from the execution-time check on. *)
Definition execute_restart (input : WorkerRestartInput) (initial : AuthorizationCheck) (before : Worker) (w : W) :
    result WorkerRestartOutput * W * list tool_event :=
  let resource := ri_worker input in
  let '(now, w) := tool_now w in
  if now <? ck_time initial
  then (Err (Errorf "guest wall clock regressed during worker_restart" []), w, []) else
  let elapsed := Z.quot (time_sub now (ck_time initial)) millisecond in
  let execution := Evaluate v (ri_token input) now restart_scope resource in
  let checked := Checked now execution in
  let output decision effect worker audit :=
    {| ro_agent := va_subject v; ro_tool := worker_restart; ro_resource := resource; ro_initial := initial;
       ro_execution := Some {| ck_time := now; ck_decision := decision |}; ro_delay := ri_delay input;
       ro_elapsed := elapsed; ro_effect := effect; ro_worker := worker; ro_audit := audit |} in
  if negb (bool_decide (ev_decision execution = Authorized)) then
    let '(after, w) := ReadWorker w resource in
    match after with
    | Err e => (Err e, w, [checked])
    | Ok after =>
        let '(a, w) := RecordAudit w (va_subject v) worker_restart resource (ev_decision execution) false in
        (with_audit a (output (ev_decision execution) false
                         {| tr_before := wo_count before; tr_after := wo_count after;
                            tr_health_before := wo_health before; tr_health_after := wo_health after |}),
         w, [checked; Audited (ev_decision execution) a])
    end
  else
    let jti := cm_id (ev_claims execution) in
    let '(t, w) := RestartWorker w (va_subject v) resource jti in
    ((let? r := t in
      Ok (output (rr_decision r) (rr_applied r)
            {| tr_before := wo_count (rr_before r); tr_after := wo_count (rr_after r);
               tr_health_before := wo_health (rr_before r); tr_health_after := wo_health (rr_after r) |}
            (rr_audit r))),
     w, [checked; Transacted jti t]).

Definition workerRestart (input : WorkerRestartInput) (w : W) : result WorkerRestartOutput * W * list tool_event :=
  if negb (safe_id (ri_worker input)) || (ri_token input =?s "") || (ri_delay input <? 0) || (30000 <? ri_delay input)
  then (Err (Errorf "invalid worker_restart input" []), w, []) else
  let '(now, w) := tool_now w in
  let first := Evaluate v (ri_token input) now restart_scope (ri_worker input) in
  let checked := Checked now first in
  let '(before, w) := ReadWorker w (ri_worker input) in
  match before with
  | Err e => (Err e, w, [checked])
  | Ok before =>
      let initial := {| ck_time := now; ck_decision := ev_decision first |} in
      if negb (bool_decide (ev_decision first = Authorized)) then
        let '(a, w) := RecordAudit w (va_subject v) worker_restart (ri_worker input) (ev_decision first) false in
        (with_audit a (λ audit,
           {| ro_agent := va_subject v; ro_tool := worker_restart; ro_resource := ri_worker input; ro_initial := initial;
              ro_execution := None; ro_delay := ri_delay input; ro_elapsed := 0; ro_effect := false;
              ro_worker := {| tr_before := wo_count before; tr_after := wo_count before;
                              tr_health_before := wo_health before; tr_health_after := wo_health before |};
              ro_audit := audit |}), w, [checked; Audited (ev_decision first) a])
      else
        let '(slept, w) := tool_sleep w (wrap64 (ri_delay input * millisecond)) in
        match slept with
        | Some e => (Err e, w, [checked])
        | None => let '(r, w, t) := execute_restart input initial before w in (r, w, checked :: t)
        end
  end.
End tools.

(** ** Facts *)
(** The claims of a token that authorize an operation now. *)
Record grants `{Jwt} (v : Validator) (token : string) (now : Z) (scope resource : string) (c : Claims) : Prop := {
  gr_parsed : jwt_parse (va_key v) token = Ok (true, c);
  gr_key : blen (va_key v) = PublicKeySize;
  gr_subject : cm_subject c = va_subject v;
  gr_scope : cm_scope c = scope;
  gr_resource : cm_resource c = resource;
  gr_id : cm_id c ≠ ""%string;
  gr_window : ∃ not_before expires, cm_not_before c = Some not_before ∧ cm_expires c = Some expires ∧
                                    not_before ≤ now < expires
}.
Section authority_facts.
Context `{Jwt}.
Lemma evaluate_grants v token now scope resource : ev_decision (Evaluate v token now scope resource) = Authorized →
  grants v token now scope resource (ev_claims (Evaluate v token now scope resource)).
Proof.
  unfold Evaluate. destruct (_ || _) eqn:E1; [done|].
  destruct (jwt_parse (va_key v) token) as [[valid c]|e] eqn:Ep; [|by destruct (err_is _ e)].
  destruct (negb valid || _ || _ || _ || _) eqn:E2; [done|].
  destruct (cm_not_before c) as [nb|] eqn:En; [|done]. destruct (cm_expires c) as [ex|] eqn:Ex; [|done].
  destruct (negb (nb <? ex)); [done|].
  destruct (String.eqb_spec (cm_subject c) (va_subject v)); cbn [negb]; [|done].
  destruct (String.eqb_spec (cm_scope c) scope); cbn [negb]; [|done].
  destruct (String.eqb_spec (cm_resource c) resource); cbn [negb]; [|done].
  destruct (Z.ltb_spec now nb); [done|]. destruct (Z.ltb_spec now ex); cbn [negb]; [|done]. intros _. cbn. to_prop.
  subst valid. split; try done. exists nb, ex. split_and!; done.
Qed.
(** The decision on well-formed claims, as the time window alone. *)
Definition window_decision (not_before expires now : Z) : Decision :=
  if now <? not_before then DenyNotYetValid else if now <? expires then Authorized else DenyExpired.
Lemma evaluate_window v token now c not_before expires :
  blen (va_key v) = PublicKeySize → token ≠ ""%string → blen token ≤ MaxTokenBytes → count_dots token = 2 →
  jwt_parse (va_key v) token = Ok (true, c) → cm_subject c = va_subject v → va_subject v ≠ ""%string →
  cm_id c ≠ ""%string → cm_scope c ≠ ""%string → cm_resource c ≠ ""%string →
  cm_not_before c = Some not_before → cm_expires c = Some expires →
  ev_decision (Evaluate v token now (cm_scope c) (cm_resource c)) =
    if not_before <? expires then window_decision not_before expires now else DenyMalformedAuthority.
Proof.
  intros Hk Ht Hl Hd Hp Hs Hsub Hid Hsc Hr Hn He. unfold Evaluate, window_decision.
  rewrite Hk, Hd, Z.eqb_refl, (proj2 (Z.ltb_ge _ _)) by done. rewrite (proj2 (String.eqb_neq _ _)) by done.
  cbn [negb orb Z.eqb Pos.eqb]. rewrite Hp. rewrite Hs, !(proj2 (String.eqb_neq _ _)) by done. cbn [negb orb]. rewrite Hn, He.
  destruct (not_before <? expires); cbn [negb]; [|done]. rewrite !String.eqb_refl. cbn [negb].
  destruct (now <? not_before); [done|]. by destruct (now <? expires).
Qed.
End authority_facts.

(** An issued authority is honoured exactly in the window it was issued for, in
    whole seconds: with the validator that holds its public key and subject, the decision
    for the issued scope and resource is AUTHORIZED from the second of [not_before] until
    the second of [expires_at], not yet valid before it and expired from it on; a window
    that vanishes when cut to whole seconds gives a token that is never accepted. *)
Theorem issue_window `{LawfulJwt} public private id encode req res now :
  IssueEphemeral (Ok (public, private)) (Ok id) encode req = Ok res → key_pair public private →
  blen public = PublicKeySize → id ≠ ""%string → blen (is_token res) ≤ MaxTokenBytes → count_dots (is_token res) = 2 →
  let v := {| va_key := public; va_subject := ir_subject req |} in
  let nb := ir_not_before req - ir_not_before req mod 1000000000 in
  let ex := ir_expires req - ir_expires req mod 1000000000 in
  ev_decision (Evaluate v (is_token res) now (ir_scope req) (ir_resource req)) =
    if nb <? ex then window_decision nb ex now else DenyMalformedAuthority.
Proof.
  unfold IssueEphemeral. intros Hi Hp Hk Hid Hl Hd. cbv zeta. inv_ok1 Hi. cbn [rbind] in Hi.
  apply rbind_ok in Hi as (token & Ht & Hi). injection Hi as <-. cbn in Hl, Hd |- *. to_prop.
  destruct (sign_parse _ _ _ _ Hp Ht) as [Hne Hparse]. rewrite <-!numeric_date_floor.
  exact (evaluate_window {| va_key := public; va_subject := ir_subject req |} token now _ _ _ Hk Hne Hl Hd Hparse
           eq_refl ltac:(done) Hid ltac:(done) ltac:(done) eq_refl eq_refl).
Qed.

(** A library that knows one key and one token. *)
Definition demo_key : string := "0123456789abcdef0123456789abcdef".
Definition demo_claims : Claims :=
  {| cm_scope := "worker.restart"; cm_resource := "worker-1"; cm_subject := "agent-1"; cm_id := "jti-1";
     cm_not_before := Some 0; cm_expires := Some 5000000000 |}.
#[export] Instance demo_jwt : Jwt := {|
  jwt_parse key token :=
    if (key =?s demo_key) && (token =?s "h.p.s") then Ok (true, demo_claims)
    else Err (ErrSentinel "jwt.ErrTokenSignatureInvalid");
  jwt_sign _ c := if bool_decide (c = demo_claims) then Ok "h.p.s"%string else Err (Errorf "unknown claims" []);
  NewNumericDate t := t - t mod 1000000000
|}.
#[export] Instance demo_jwt_lawful : LawfulJwt.
Proof.
  refine {| key_pair public _ := public = demo_key |}; [| |done].
  - intros public private c token ->. cbn. case_bool_decide; [|done]. intros [= <-]. by subst c.
  - intros private c token. cbn. case_bool_decide; [|done]. by intros [= <-].
Defined.
Definition demo_request : IssueRequest :=
  {| ir_subject := "agent-1"; ir_scope := "worker.restart"; ir_resource := "worker-1"; ir_not_before := 700000000;
     ir_expires := 5300000000 |}.
Definition demo_validator : Validator := {| va_key := demo_key; va_subject := "agent-1" |}.
Lemma issue_window_witness :
  ev_decision (Evaluate demo_validator "h.p.s" 4999999999 "worker.restart" "worker-1") = Authorized.
Proof.
  apply (issue_window demo_key "private" "jti-1" id demo_request {| is_public := demo_key; is_token := "h.p.s" |} 4999999999);
    vm_compute; first [reflexivity|discriminate].
Defined.

(** *** The restart tool *)
Definition is_transaction (e : tool_event) : Prop := match e with Transacted _ _ => True | _ => False end.
(** Two authorized checks of the same token, the second not before the first, and then the
    transaction under the identifier of the claims checked last. *)
Definition guarded_transaction `{Jwt} (v : Validator) (input : WorkerRestartInput) (t : list tool_event) : Prop :=
  ∃ t0 t1 c0 c1 r,
    t = [Checked t0 {| ev_decision := Authorized; ev_claims := c0 |};
         Checked t1 {| ev_decision := Authorized; ev_claims := c1 |}; Transacted (cm_id c1) r] ∧
    t0 ≤ t1 ∧ grants v (ri_token input) t0 restart_scope (ri_worker input) c0 ∧
    grants v (ri_token input) t1 restart_scope (ri_worker input) c1.
(** What a reported result says of the trace: its audit record is the one written last, and
    an effect was reported by the transaction. *)
Definition reported (o : WorkerRestartOutput) (t : list tool_event) : Prop :=
  (∃ d, last t = Some (Audited d (Ok (ro_audit o))) ∧ d ≠ Authorized ∧ ro_effect o = false) ∨
  (∃ jti r, last t = Some (Transacted jti (Ok r)) ∧ ro_audit o = rr_audit r ∧ ro_effect o = rr_applied r).

Section tool_facts.
Context `{Jwt} {W : Type} `{Store W} `{ToolEnv W}.
Variable v : Validator.
Lemma evaluation_eta e : ev_decision e = Authorized → e = {| ev_decision := Authorized; ev_claims := ev_claims e |}.
Proof. destruct e; cbn. by intros ->. Qed.

Lemma execute_restart_trace input t0 before (w w' : W) r t :
  execute_restart v input {| ck_time := t0; ck_decision := Authorized |} before w = (r, w', t) →
  (Exists is_transaction t → ∃ t1 c1 x, t = [Checked t1 {| ev_decision := Authorized; ev_claims := c1 |}; Transacted (cm_id c1) x] ∧
     t0 ≤ t1 ∧ grants v (ri_token input) t1 restart_scope (ri_worker input) c1) ∧
  (∀ o, r = Ok o → reported o t ∧ t ≠ []).
Proof.
  unfold execute_restart. destruct (tool_now w) as [now w1]. cbn [ck_time]. destruct (Z.ltb_spec now t0).
  { intros [= <- <- <-]. split; [by intros ?%Exists_nil|done]. }
  destruct (Evaluate v (ri_token input) now restart_scope (ri_worker input)) as [d c] eqn:Ev. cbn [ev_decision ev_claims].
  case_bool_decide as Hd; cbn [negb].
  - destruct (RestartWorker w1 _ _ _) as [x w2]. intros [= <- <- <-]. split.
    + intros _. exists now, c, x. subst d. split; [done|]. split; [done|].
      pose proof (evaluate_grants v (ri_token input) now restart_scope (ri_worker input)) as Hg. rewrite Ev in Hg. by apply Hg.
    + intros o Ho. split; [|done]. apply rbind_ok in Ho as (rr & -> & [= <-]). right. by exists (cm_id c), rr.
  - destruct (ReadWorker w1 _) as [[after|e] w2].
    + destruct (RecordAudit w2 _ _ _ _ _) as [a w3]. intros [= <- <- <-]. split.
      * intros [[]|[[]|?%Exists_nil]%Exists_cons]%Exists_cons. done.
      * intros o Ho. split; [|done]. apply rbind_ok in Ho as (rec & -> & [= <-]). left. by exists d.
    + intros [= <- <- <-]. split; [intros [[]|?%Exists_nil]%Exists_cons; done|done].
Qed.
End tool_facts.

Lemma workerRestart_trace `{Jwt} {W} `{Store W} `{ToolEnv W} v input (w w' : W) r t :
  workerRestart v input w = (r, w', t) →
  (Exists is_transaction t → guarded_transaction v input t) ∧ (∀ o, r = Ok o → reported o t).
Proof.
  unfold workerRestart. destruct (_ || _). { intros [= <- <- <-]. split; [by intros ?%Exists_nil|done]. }
  destruct (tool_now w) as [now w1].
  destruct (Evaluate v (ri_token input) now restart_scope (ri_worker input)) as [d c] eqn:Ev. cbn [ev_decision].
  destruct (ReadWorker w1 _) as [[before|e] w2].
  2:{ intros [= <- <- <-]. split; [intros [[]|?%Exists_nil]%Exists_cons; done|done]. }
  case_bool_decide as Hd; cbn [negb].
  - destruct (tool_sleep w2 _) as [[e|] w3].
    { intros [= <- <- <-]. split; [intros [[]|?%Exists_nil]%Exists_cons; done|done]. }
    subst d. destruct (execute_restart v input _ before w3) as [[r1 w4] t1] eqn:Ex. intros [= <- <- <-].
    destruct (execute_restart_trace _ _ _ _ _ _ _ _ Ex) as [Htr Hrep]. split.
    + intros [[]|Hex]%Exists_cons. destruct (Htr Hex) as (t' & c1 & x & -> & Hle & Hg). exists now, t', c, c1, x.
      split; [done|]. split; [done|]. split; [|done].
      pose proof (evaluate_grants v (ri_token input) now restart_scope (ri_worker input)) as H0g. rewrite Ev in H0g. by apply H0g.
    + intros o Ho. destruct (Hrep o Ho) as [Hr Hne]. unfold reported. destruct t1 as [|e t1]; [done|]. exact Hr.
  - destruct (RecordAudit w2 _ _ _ _ _) as [a w3]. intros [= <- <- <-]. split.
    + intros [[]|[[]|?%Exists_nil]%Exists_cons]%Exists_cons. done.
    + intros o Ho. apply rbind_ok in Ho as (rec & -> & [= <-]). left. by exists d.
Qed.
Lemma restart_transacts `{Jwt} {W} `{Store W} `{ToolEnv W} v input (w w' : W) r t :
  workerRestart v input w = (r, w', t) → Exists is_transaction t → guarded_transaction v input t.
Proof. intros Hw. by apply (workerRestart_trace v input w w' r t). Qed.

(** The restart tool performs its transaction only under an authority that held when
    the tool was called and still holds at execution: both checks of the token succeeded, in
    this order of the wall clock, with claims for this subject, scope and worker whose
    window contains the time of the check, and the transaction consumes the identifier of
    the claims checked last.  Every reported result carries the audit record that was
    written for it, and claims an effect only if the transaction did. *)
Theorem restart_guarded `{Jwt} {W} `{Store W} `{ToolEnv W} v input (w w' : W) r t :
  workerRestart v input w = (r, w', t) →
  (Exists is_transaction t → guarded_transaction v input t) ∧ (∀ o, r = Ok o → reported o t).
Proof. apply workerRestart_trace. Qed.
