(* ===== verification/DemoStore.v ===== *)
(** * DemoStore: the database of the incident-response demo
    (demos/incident-response-agent/internal/postgres/store.go)

    The tables are finite maps (keyed by their primary keys), a set of used authority
    identifiers and the list of audit records; each SQL statement of the code is an
    operation on them.  What the server adds, failures of a statement, the outcome of a
    commit, the clock and the collation, is the [PgEnv] class.  Transactions are
    serializable, so concurrent ones are modelled one after the other; a rolled back
    transaction restores the tables but not the sequence of audit identifiers. *)

From S2P Require Import Prelude GoLib Json GoTime GoText JsonUtil DemoTools.
From Stdlib Require Import Ascii String.

Record Database := {
  db_incidents : gmap string Incident; db_workers : gmap string Worker; db_uses : gset string;
  db_audit : list AuditRecord
}.
(** A commit is confirmed, refused, or lost after it took effect. *)
Inductive commit_outcome := Committed | Refused (e : error) | Unconfirmed (e : error).
Class PgEnv (E : Type) := {
  pg_fault : E → option error * E;
  pg_commit : E → commit_outcome * E;
  pg_clock : E → Z * E;
  pg_collate : E → string → string → bool;
  pg_time : E → Z * E;
  pg_sleep : E → Z → option error * E
}.
Record pg (E : Type) := { pg_db : Database; pg_seq : Z; pg_env : E }.
Arguments pg_db {E}.
Arguments pg_seq {E}.
Arguments pg_env {E}.
Arguments Build_pg {E}.

Definition ErrNoRows : error := ErrSentinel "pgx.ErrNoRows".
Fixpoint insert_row {A} (le : string → string → bool) (key : A → string) (x : A) (l : list A) : list A :=
  match l with
  | [] => [x]
  | y :: l => if le (key x) (key y) then x :: y :: l else y :: insert_row le key x l
  end.
Definition order_by {A} (le : string → string → bool) (key : A → string) (l : list A) : list A :=
  foldr (insert_row le key) [] l.

Section store.
Context {E : Type} `{PgEnv E}.
Implicit Types w : pg E.

Definition with_db (w : pg E) (db : Database) : pg E := {| pg_db := db; pg_seq := pg_seq w; pg_env := pg_env w |}.
Definition with_env (w : pg E) (env : E) : pg E := {| pg_db := pg_db w; pg_seq := pg_seq w; pg_env := env |}.
(** Sending a statement, beginning a transaction, scanning a row: each may fail. *)
Definition sent (w : pg E) : option error * pg E := let '(e, env) := pg_fault (pg_env w) in (e, with_env w env).

(** Rows are scanned one by one and the iteration may end in an error. *)
Fixpoint scan {A} (what : string) (rows : list A) (w : pg E) : result (list A) * pg E :=
  match rows with
  | [] => let '(e, w) := sent w in
          (match e with Some e => Err (Wrapf ("iterate " +:+ what +:+ ": %w") [] e) | None => Ok [] end, w)
  | r :: rows =>
      let '(e, w) := sent w in
      match e with
      | Some e => (Err (Wrapf ("scan " +:+ what +:+ ": %w") [] e), w)
      | None => let '(l, w) := scan what rows w in ((let? l := l in Ok (r :: l)), w)
      end
  end.

Definition pg_ListIncidents (w : pg E) (status : string) : result (list Incident) * pg E :=
  let '(e, w) := sent w in
  match e with
  | Some e => (Err (Wrapf "list incidents: %w" [] e), w)
  | None =>
      let rows := List.filter (λ i, (status =?s "") || (in_status i =?s status)) (map_to_list (db_incidents (pg_db w))).*2 in
      scan "incidents" (order_by (pg_collate (pg_env w)) in_id rows) w
  end.

Definition pg_InspectIncident (w : pg E) (id : string) : result (Incident * list Worker) * pg E :=
  let '(e, w) := sent w in
  let failed e := Err (Wrapf "inspect incident %q: %w" [id] e) in
  match e, db_incidents (pg_db w) !! id with
  | Some e, _ => (failed e, w)
  | None, None => (failed ErrNoRows, w)
  | None, Some incident =>
      let '(e, w) := sent w in
      match e with
      | Some e => (Err (Wrapf "list incident workers: %w" [] e), w)
      | None =>
          let rows := List.filter (λ k, wo_service k =?s in_service incident) (map_to_list (db_workers (pg_db w))).*2 in
          let '(workers, w) := scan "incident workers" (order_by (pg_collate (pg_env w)) wo_id rows) w in
          ((let? workers := workers in Ok (incident, workers)), w)
      end
  end.

(** [Worker] and [readWorker] differ in the error text and the row lock. *)
Definition select_worker (what : string) (w : pg E) (id : string) : result Worker * pg E :=
  let '(e, w) := sent w in
  match e, db_workers (pg_db w) !! id with
  | Some e, _ => (Err (Wrapf what [id] e), w)
  | None, None => (Err (Wrapf what [id] ErrNoRows), w)
  | None, Some worker => (Ok worker, w)
  end.
Definition pg_Worker (w : pg E) (id : string) : result Worker * pg E := select_worker "read worker %q: %w" w id.
Definition readWorker (w : pg E) (id : string) : result Worker * pg E := select_worker "lock worker %q: %w" w id.

Definition insertAudit (w : pg E) (agent tool resource : string) (d : Decision) (effect : bool) : result AuditRecord * pg E :=
  let '(e, w) := sent w in
  match e with
  | Some e => (Err (Wrapf "record tool audit: %w" [] e), w)
  | None =>
      let '(now, env) := pg_clock (pg_env w) in
      let a := {| ad_id := pg_seq w; ad_agent := agent; ad_tool := tool; ad_resource := resource; ad_decision := d;
                  ad_effect := effect; ad_time := now |} in
      let db := pg_db w in
      (Ok a, {| pg_db := {| db_incidents := db_incidents db; db_workers := db_workers db; db_uses := db_uses db;
                            db_audit := db_audit db ++ [a] |}; pg_seq := pg_seq w + 1; pg_env := env |})
  end.

(** [INSERT INTO authority_uses ... ON CONFLICT DO NOTHING RETURNING jti]: [false] when
    the identifier was used before. *)
Definition insert_use (w : pg E) (jti : string) : result bool * pg E :=
  let '(e, w) := sent w in
  match e with
  | Some e => (Err e, w)
  | None =>
      let db := pg_db w in
      if bool_decide (jti ∈ db_uses db) then (Ok false, w)
      else (Ok true, with_db w {| db_incidents := db_incidents db; db_workers := db_workers db;
                                  db_uses := {[jti]} ∪ db_uses db; db_audit := db_audit db |})
  end.
(** [UPDATE workers SET restart_count = restart_count + 1 ...], a 32-bit column. *)
Definition update_worker (w : pg E) (id : string) : result Worker * pg E :=
  let '(e, w) := sent w in
  match e, db_workers (pg_db w) !! id with
  | Some e, _ => (Err e, w)
  | None, None => (Err ErrNoRows, w)
  | None, Some k =>
      if 2147483647 <=? wo_count k then (Err (Errorf "integer out of range" []), w) else
      let '(now, env) := pg_clock (pg_env w) in
      let k := {| wo_id := wo_id k; wo_service := wo_service k; wo_health := "healthy"; wo_count := wo_count k + 1;
                  wo_updated := now |} in
      let db := pg_db w in
      (Ok k, with_env (with_db w {| db_incidents := db_incidents db; db_workers := <[id := k]> (db_workers db);
                                    db_uses := db_uses db; db_audit := db_audit db |}) env)
  end.

(** [tx.Commit]; the deferred [Rollback] restores the tables of the start. *)
Definition commit {A} (what : string) (db0 : Database) (r : A) (w : pg E) : result A * pg E :=
  let '(o, env) := pg_commit (pg_env w) in
  let w := with_env w env in
  match o with
  | Committed => (Ok r, w)
  | Refused e => (Err (Wrapf what [] e), with_db w db0)
  | Unconfirmed e => (Err (Wrapf what [] e), w)
  end.

(** The body of the transaction: its result with whether to commit, or its error. *)
Definition restart_body (w : pg E) (agent worker jti : string) : result RestartResult * pg E :=
  let '(before, w) := readWorker w worker in
  match before with
  | Err e => (Err e, w)
  | Ok before =>
      let '(inserted, w) := insert_use w jti in
      match inserted with
      | Err e => (Err (Wrapf "consume delegated authority: %w" [] e), w)
      | Ok false =>
          let '(audit, w) := insertAudit w agent worker_restart worker DenyReplayedAuthority false in
          ((let? audit := audit in
            Ok {| rr_before := before; rr_after := before; rr_audit := audit; rr_decision := DenyReplayedAuthority;
                  rr_applied := false |}), w)
      | Ok true =>
          let '(after, w) := update_worker w worker in
          match after with
          | Err e => (Err (Wrapf "apply simulated worker restart: %w" [] e), w)
          | Ok after =>
              let '(audit, w) := insertAudit w agent worker_restart worker Authorized true in
              ((let? audit := audit in
                Ok {| rr_before := before; rr_after := after; rr_audit := audit; rr_decision := Authorized;
                      rr_applied := true |}), w)
          end
      end
  end.
Definition pg_RestartWorker (w : pg E) (agent worker jti : string) : result RestartResult * pg E :=
  if jti =?s "" then (Err (Errorf "delegated authority identifier is required" []), w) else
  let '(e, w) := sent w in
  match e with
  | Some e => (Err (Wrapf "begin restart transaction: %w" [] e), w)
  | None =>
      let db0 := pg_db w in
      let '(r, w) := restart_body w agent worker jti in
      match r with
      | Err e => (Err e, with_db w db0)
      | Ok r => commit (if rr_applied r then "commit restart transaction: %w" else "commit replay audit: %w")%string db0 r w
      end
  end.

(** On the pool the insert is a transaction of its own: its answer may be lost after it took
    effect. *)
Definition pg_RecordAudit (w : pg E) (agent tool resource : string) (d : Decision) (effect : bool) : result AuditRecord * pg E :=
  let db0 := pg_db w in
  let '(a, w) := insertAudit w agent tool resource d effect in
  match a with
  | Err e => (Err e, w)
  | Ok a => commit "record tool audit: %w" db0 a w
  end.

#[export] Instance pg_store : Store (pg E) := {|
  ListIncidents := pg_ListIncidents; InspectIncident := pg_InspectIncident; ReadWorker := pg_Worker;
  RecordAudit := pg_RecordAudit; RestartWorker := pg_RestartWorker
|}.
#[export] Instance pg_tools : ToolEnv (pg E) := {|
  tool_now w := let '(t, env) := pg_time (pg_env w) in (t, with_env w env);
  tool_sleep w d := let '(e, env) := pg_sleep (pg_env w) d in (e, with_env w env)
|}.
End store.

(** ** The books balance *)
Definition restarts (db : Database) : Z := map_fold (λ _ k s, wo_count k + s) 0 (db_workers db).
Definition used (db : Database) : Z := Z.of_nat (size (db_uses db)).
Definition effects (db : Database) : Z := Z.of_nat (List.length (List.filter ad_effect (db_audit db))).
(** Audit records of an effect on one worker. *)
Definition effect_on (id : string) (a : AuditRecord) : bool := ad_effect a && (ad_resource a =?s id).
Definition effects_on (id : string) (db : Database) : Z :=
  Z.of_nat (List.length (List.filter (effect_on id) (db_audit db))).
(** A row whose worker was restarted [n] times: unchanged when never, and otherwise healthy,
    with a new time of update. *)
Record restarted (n : Z) (k k' : Worker) : Prop := {
  re_id : wo_id k' = wo_id k;
  re_service : wo_service k' = wo_service k;
  re_count : wo_count k' = wo_count k + n;
  re_rest : n = 0 ∧ k' = k ∨ 0 < n ∧ wo_health k' = "healthy"%string
}.
(** From [db] to [db']: every restart has consumed one identifier of its own and left one
    audit record with an effect, for the worker restarted; identifiers and audit records are
    only added, incidents stay as they are, and so do the rows of workers, their restarts
    apart. *)
Record balanced (db db' : Database) : Prop := {
  ba_restarts : restarts db' - restarts db = used db' - used db;
  ba_effects : effects db' - effects db = used db' - used db;
  ba_uses : db_uses db ⊆ db_uses db';
  ba_incidents : db_incidents db' = db_incidents db;
  ba_audit : db_audit db `prefix_of` db_audit db';
  ba_workers id : match db_workers db !! id, db_workers db' !! id with
                  | Some k, Some k' => restarted (effects_on id db' - effects_on id db) k k'
                  | None, None => True
                  | _, _ => False
                  end
}.
Lemma restarted_refl k n : n = 0 → restarted n k k.
Proof. intros ->. split; [done|done|lia|by left]. Qed.
Lemma restarted_trans n m p k1 k2 k3 : p = n + m → restarted n k1 k2 → restarted m k2 k3 → restarted p k1 k3.
Proof.
  intros -> [I1 S1 C1 R1] [I2 S2 C2 R2]. split; [congruence|congruence|lia|].
  destruct R1 as [[-> ->]|[Hn Hh]], R2 as [[-> ->]|[Hm Hh2]]; [by left|right; split; [lia|done]..].
Qed.
#[export] Instance balanced_preorder : PreOrder balanced.
Proof.
  split.
  - intros db. split; [lia|lia|done|done|done|]. intros id. destruct (db_workers db !! id); [apply restarted_refl; lia|done].
  - intros d1 d2 d3 [R1 E1 U1 I1 A1 W1] [R2 E2 U2 I2 A2 W2]. split; [lia|lia|set_solver|congruence|by etrans|].
    intros id. specialize (W1 id). specialize (W2 id).
    destruct (db_workers d1 !! id), (db_workers d2 !! id), (db_workers d3 !! id); try done.
    eapply restarted_trans; [|exact W1|exact W2]. lia.
Qed.

Lemma restarts_update db id k k' : db_workers db !! id = Some k →
  map_fold (λ _ k s, wo_count k + s) 0 (<[id := k']> (db_workers db)) = restarts db - wo_count k + wo_count k'.
Proof.
  intros Hk. unfold restarts. rewrite <-insert_delete_eq.
  rewrite map_fold_insert_L; [|intros; lia|apply lookup_delete_eq].
  rewrite (map_fold_delete_L _ 0 id k (db_workers db)) by (done || (intros; lia)). lia.
Qed.

Section store_facts.
Context {E : Type} `{PgEnv E}.
Lemma sent_db (w : pg E) : pg_db (sent w).2 = pg_db w.
Proof. unfold sent. by destruct (pg_fault (pg_env w)). Qed.
Lemma scan_db {A} what (rows : list A) (w : pg E) : pg_db (scan what rows w).2 = pg_db w.
Proof.
  revert w. induction rows as [|r rows IH]; intros w; cbn [scan]; pose proof (sent_db w) as Hs; destruct (sent w) as [e w1]; [done|].
  destruct e; [done|]. specialize (IH w1). destruct (scan what rows w1). cbn in *. congruence.
Qed.
Lemma select_worker_db what (w : pg E) id : pg_db (select_worker what w id).2 = pg_db w.
Proof. unfold select_worker. pose proof (sent_db w). destruct (sent w) as [[e|] w1]; [done|]. by destruct (_ !! id). Qed.
Lemma select_worker_ok what (w w' : pg E) id k : select_worker what w id = (Ok k, w') →
  pg_db w' = pg_db w ∧ db_workers (pg_db w) !! id = Some k.
Proof.
  unfold select_worker. pose proof (sent_db w) as Hs. destruct (sent w) as [[e|] w1]; [done|]. cbn in Hs. rewrite Hs.
  destruct (db_workers (pg_db w) !! id) eqn:Ek; [|done]. by intros [= -> <-].
Qed.

Definition with_audit_row (db : Database) (a : AuditRecord) : Database :=
  {| db_incidents := db_incidents db; db_workers := db_workers db; db_uses := db_uses db; db_audit := db_audit db ++ [a] |}.
Lemma insertAudit_spec (w w' : pg E) agent tool resource d effect r : insertAudit w agent tool resource d effect = (r, w') →
  match r with
  | Ok a => pg_db w' = with_audit_row (pg_db w) a ∧ ad_effect a = effect ∧ ad_decision a = d ∧ ad_resource a = resource
  | Err _ => pg_db w' = pg_db w
  end.
Proof.
  unfold insertAudit. pose proof (sent_db w) as Hs. destruct (sent w) as [[e|] w1]; [by intros [= <- <-]|]. cbn in Hs.
  destruct (pg_clock (pg_env w1)). intros [= <- <-]. cbn. by rewrite Hs.
Qed.
Lemma effects_row db a : effects (with_audit_row db a) = effects db + (if ad_effect a then 1 else 0).
Proof. unfold effects. cbn. rewrite List.filter_app, length_app. cbn. destruct (ad_effect a); cbn; lia. Qed.
Lemma effects_on_row id db a : effects_on id (with_audit_row db a) = effects_on id db + (if effect_on id a then 1 else 0).
Proof. unfold effects_on. cbn. rewrite List.filter_app, length_app. cbn. destruct (effect_on id a); cbn; lia. Qed.
Lemma audit_balanced db a : ad_effect a = false → balanced db (with_audit_row db a).
Proof.
  intros Ha. split; [unfold restarts, used; cbn; lia| |done|done|by apply prefix_app_r|].
  - rewrite effects_row, Ha. unfold used. cbn. lia.
  - intros id. cbn [with_audit_row db_workers]. destruct (db_workers db !! id); [|done]. apply restarted_refl.
    rewrite effects_on_row. unfold effect_on. rewrite Ha. cbn. lia.
Qed.

(** A committed body: replayed, or applied under a fresh identifier. *)
Definition replayed (db db' : Database) (jti : string) (r : RestartResult) : Prop :=
  rr_applied r = false ∧ rr_decision r = DenyReplayedAuthority ∧ jti ∈ db_uses db ∧
  db' = with_audit_row db (rr_audit r) ∧ ad_effect (rr_audit r) = false.
Definition applied (db db' : Database) (worker jti : string) (r : RestartResult) : Prop :=
  rr_applied r = true ∧ rr_decision r = Authorized ∧ (jti ∉ db_uses db) ∧ db_workers db !! worker = Some (rr_before r) ∧
  restarted 1 (rr_before r) (rr_after r) ∧
  db' = with_audit_row {| db_incidents := db_incidents db; db_workers := <[worker := rr_after r]> (db_workers db);
                          db_uses := {[jti]} ∪ db_uses db; db_audit := db_audit db |} (rr_audit r) ∧
  ad_effect (rr_audit r) = true ∧ ad_resource (rr_audit r) = worker.
Lemma restart_body_ok (w w' : pg E) agent worker jti r : restart_body w agent worker jti = (Ok r, w') →
  replayed (pg_db w) (pg_db w') jti r ∨ applied (pg_db w) (pg_db w') worker jti r.
Proof.
  unfold restart_body, readWorker. destruct (select_worker _ w worker) as [[before|e] w1] eqn:E1; [|done].
  apply select_worker_ok in E1 as [D1 Hb]. unfold insert_use. pose proof (sent_db w1) as Hs.
  destruct (sent w1) as [[e|] w2]; [done|]. cbn in Hs. rewrite D1 in Hs. rewrite Hs. case_bool_decide as Hu.
  - destruct (insertAudit w2 _ _ _ _ _) as [a w3] eqn:E3. intros [= Hr <-]. apply rbind_ok in Hr as (rec & -> & [= <-]).
    apply insertAudit_spec in E3 as (D3 & Ha & _). rewrite Hs in D3. left. by split_and!.
  - unfold update_worker. set (db1 := {| db_incidents := _; db_workers := _; db_uses := _; db_audit := _ |}).
    pose proof (sent_db (with_db w2 db1)) as Hs2. destruct (sent (with_db w2 db1)) as [[e|] w3]; [done|]. cbn in Hs2.
    rewrite Hs2. cbn [db_workers db1]. rewrite Hb. destruct (2147483647 <=? wo_count before); [done|].
    destruct (pg_clock (pg_env w3)) as [now env]. set (after := {| wo_id := _; wo_service := _; wo_health := _; wo_count := _; wo_updated := _ |}).
    destruct (insertAudit _ _ _ _ _ _) as [a w4] eqn:E4. intros [= Hr <-]. apply rbind_ok in Hr as (rec & -> & [= <-]).
    apply insertAudit_spec in E4 as (D4 & Ha & _ & Hw). right. split_and!; try done. by split; cbn; [..|right].
Qed.
Lemma applied_balanced db db' worker jti r : applied db db' worker jti r → balanced db db'.
Proof.
  intros (_ & _ & Hj & Hk & Hc & -> & Ha & Hw).
  assert (Hused : used (with_audit_row {| db_incidents := db_incidents db; db_workers := <[worker := rr_after r]> (db_workers db);
                          db_uses := {[jti]} ∪ db_uses db; db_audit := db_audit db |} (rr_audit r)) = used db + 1).
  { unfold used. cbn. rewrite size_union, size_singleton by set_solver. lia. }
  split.
  - unfold restarts at 1. cbn [with_audit_row db_workers]. rewrite (restarts_update db worker (rr_before r)), (re_count _ _ _ Hc) by done. lia.
  - rewrite effects_row, Ha, Hused. unfold effects. cbn. lia.
  - cbn. set_solver.
  - done.
  - by apply prefix_app_r.
  - intros id. rewrite effects_on_row. unfold effect_on. rewrite Ha, Hw. cbn [with_audit_row db_workers andb].
    change (effects_on id {| db_incidents := _; db_workers := _; db_uses := _; db_audit := db_audit db |}) with (effects_on id db).
    destruct (decide (id = worker)) as [->|Hne].
    + rewrite Hk, lookup_insert_eq, String.eqb_refl. by replace (effects_on worker db + 1 - effects_on worker db) with 1 by lia.
    + rewrite lookup_insert_ne by done. destruct (db_workers db !! id); [|done]. apply restarted_refl.
      rewrite (proj2 (String.eqb_neq _ _)) by congruence. lia.
Qed.
Lemma body_balanced db db' worker jti r : replayed db db' jti r ∨ applied db db' worker jti r →
  balanced db db' ∧ db_uses db' ⊆ {[jti]} ∪ db_uses db ∧ (rr_applied r = true → used db < used db').
Proof.
  intros [(Ha & _ & _ & -> & He)|Happ].
  - split; [by apply audit_balanced|]. split; [cbn; set_solver|]. by rewrite Ha.
  - split; [by eapply applied_balanced|]. destruct Happ as (_ & _ & Hj & _ & _ & -> & _). split; [done|].
    intros _. unfold used. cbn. rewrite size_union, size_singleton by set_solver. lia.
Qed.

(** The transaction: at worst its outcome is not reported. *)
Lemma restart_balanced (w w' : pg E) agent worker jti r : pg_RestartWorker w agent worker jti = (r, w') →
  balanced (pg_db w) (pg_db w') ∧ db_uses (pg_db w') ⊆ {[jti]} ∪ db_uses (pg_db w) ∧
  (∀ x, r = Ok x → rr_applied x = true → used (pg_db w) < used (pg_db w')).
Proof.
  unfold pg_RestartWorker. destruct (jti =?s ""); [intros [= <- <-]; split; [done|]; split; [set_solver|done]|].
  pose proof (sent_db w) as Hs. destruct (sent w) as [[e|] w1]; cbn in Hs.
  { intros [= <- <-]. rewrite Hs. split; [done|]. split; [set_solver|done]. }
  destruct (restart_body w1 agent worker jti) as [[x|e] w2] eqn:Eb.
  2:{ intros [= <- <-]. cbn. rewrite Hs. split; [done|]. split; [set_solver|done]. }
  apply restart_body_ok, body_balanced in Eb as (Hb & Hu & Hf). rewrite Hs in Hb, Hu, Hf. unfold commit.
  destruct (pg_commit (pg_env w2)) as [[|e|e] env]; intros [= <- <-]; cbn.
  - split; [done|]. split; [done|]. by intros ? [= <-].
  - rewrite Hs. split; [done|]. split; [set_solver|done].
  - done.
Qed.
Lemma audit_op_balanced (w w' : pg E) agent tool resource d r : pg_RecordAudit w agent tool resource d false = (r, w') →
  balanced (pg_db w) (pg_db w') ∧ db_uses (pg_db w') = db_uses (pg_db w).
Proof.
  unfold pg_RecordAudit. destruct (insertAudit w _ _ _ _ _) as [x w1] eqn:Ea. apply insertAudit_spec in Ea.
  destruct x as [a|e]; [|intros [= _ <-]; by rewrite Ea]. destruct Ea as (Hd & He & _).
  assert (Hb : balanced (pg_db w) (pg_db w1) ∧ db_uses (pg_db w1) = db_uses (pg_db w)) by (rewrite Hd; split; [by apply audit_balanced|done]).
  unfold commit. destruct (pg_commit (pg_env w1)) as [[|e|e] env]; intros [= _ <-]; cbn; done.
Qed.

(** What one step of the tool does to the tables. *)
Record step_effect (db db' : Database) (r : result WorkerRestartOutput) (t : list tool_event) : Prop := {
  sf_balanced : balanced db db';
  sf_uses jti : jti ∈ db_uses db' → jti ∈ db_uses db ∨ ∃ x, Transacted jti x ∈ t;
  sf_effect o : r = Ok o → ro_effect o = true → used db < used db'
}.
Lemma quiet_step db t r : (∀ o, r = Ok o → ro_effect o = false) → step_effect db db r t.
Proof. intros Hr. split; [done|by left|]. intros o Ho He. by rewrite (Hr o Ho) in He. Qed.

Context `{Jwt}.
Variable v : Validator.
Lemma tool_now_db (w : pg E) : pg_db (tool_now w).2 = pg_db w.
Proof. cbn. by destruct (pg_time (pg_env w)). Qed.
Lemma tool_sleep_db (w : pg E) d : pg_db (tool_sleep w d).2 = pg_db w.
Proof. cbn. by destruct (pg_sleep (pg_env w) d). Qed.
Lemma audit_step (w w' : pg E) agent tool resource d a t out : pg_RecordAudit w agent tool resource d false = (a, w') →
  (∀ x, ro_effect (out x) = false) → step_effect (pg_db w) (pg_db w') (with_audit a out) t.
Proof.
  intros Ha Ho. destruct (audit_op_balanced _ _ _ _ _ _ _ Ha) as [Hb Hu]. split; [done|rewrite Hu; by left|].
  intros o Hr He. apply rbind_ok in Hr as (x & _ & [= <-]). by rewrite Ho in He.
Qed.
Lemma execute_step input initial before (w w' : pg E) r t : execute_restart v input initial before w = (r, w', t) →
  step_effect (pg_db w) (pg_db w') r t.
Proof.
  unfold execute_restart. pose proof (tool_now_db w) as Hn. destruct (tool_now w) as [now w1]. cbn in Hn. rewrite <-Hn.
  destruct (now <? _); [intros [= <- <- <-]; by apply quiet_step|].
  destruct (Evaluate v _ now _ _) as [d c]. cbn [ev_decision ev_claims]. destruct (bool_decide _); cbn [negb].
  - change RestartWorker with (pg_RestartWorker (E := E)).
    destruct (pg_RestartWorker w1 _ _ _) as [x w2] eqn:Er. intros [= <- <- <-].
    destruct (restart_balanced _ _ _ _ _ _ Er) as (Hb & Hu & Hf). split; [done| |].
    + intros jti Hj%Hu. apply elem_of_union in Hj as [->%elem_of_singleton|Hj]; [right|by left].
      exists x. set_solver.
    + intros o Ho He. apply rbind_ok in Ho as (y & -> & [= <-]). by apply (Hf y).
  - change ReadWorker with (pg_Worker (E := E)). pose proof (select_worker_db "read worker %q: %w" w1 (ri_worker input)) as Hw.
    change (select_worker _ w1 _) with (pg_Worker w1 (ri_worker input)) in Hw. destruct (pg_Worker w1 _) as [[after|e] w2]; cbn in Hw.
    + change RecordAudit with (pg_RecordAudit (E := E)).
      destruct (pg_RecordAudit w2 _ _ _ _ _) as [a w3] eqn:Ea. intros [= <- <- <-]. rewrite <-Hw. by eapply audit_step.
    + intros [= <- <- <-]. rewrite Hw. by apply quiet_step.
Qed.
Lemma step_cons db db' r t e : step_effect db db' r t → step_effect db db' r (e :: t).
Proof.
  intros [Hb Hu Hf]. split; [done| |done]. intros jti Hj. destruct (Hu jti Hj) as [|[x Hx]]; [by left|].
  right. exists x. by right.
Qed.
Lemma tool_step input (w w' : pg E) r t : workerRestart v input w = (r, w', t) → step_effect (pg_db w) (pg_db w') r t.
Proof.
  unfold workerRestart. destruct (_ || _); [intros [= <- <- <-]; by apply quiet_step|].
  pose proof (tool_now_db w) as Hn. destruct (tool_now w) as [now w1]. cbn in Hn. rewrite <-Hn.
  change ReadWorker with (pg_Worker (E := E)). pose proof (select_worker_db "read worker %q: %w" w1 (ri_worker input)) as Hw.
  change (select_worker _ w1 _) with (pg_Worker w1 (ri_worker input)) in Hw.
  destruct (pg_Worker w1 _) as [[before|e] w2]; cbn in Hw; rewrite <-Hw; [|intros [= <- <- <-]; by apply quiet_step].
  destruct (negb _).
  - change RecordAudit with (pg_RecordAudit (E := E)).
    destruct (pg_RecordAudit w2 _ _ _ _ _) as [a w3] eqn:Ea. intros [= <- <- <-]. by eapply audit_step.
  - pose proof (tool_sleep_db w2 (wrap64 (ri_delay input * millisecond))) as Hsl.
    destruct (tool_sleep w2 _) as [[e|] w3]; cbn in Hsl; rewrite <-Hsl; [intros [= <- <- <-]; by apply quiet_step|].
    destruct (execute_restart v input _ before w3) as [[r1 w4] t1] eqn:Ex. intros [= <- <- <-].
    by eapply step_cons, execute_step.
Qed.

(** A server's whole life: one call after another. *)
Fixpoint tool_calls (inputs : list WorkerRestartInput) (w : pg E) :
    pg E * list (WorkerRestartInput * result WorkerRestartOutput * list tool_event) :=
  match inputs with
  | [] => (w, [])
  | input :: inputs =>
      let '(r, w, t) := workerRestart v input w in
      let '(w, log) := tool_calls inputs w in (w, (input, r, t) :: log)
  end.
Definition effective (x : WorkerRestartInput * result WorkerRestartOutput * list tool_event) : bool :=
  match x.1.2 with Ok o => ro_effect o | Err _ => false end.
Lemma tool_calls_balanced inputs (w w' : pg E) log : tool_calls inputs w = (w', log) →
  balanced (pg_db w) (pg_db w') ∧
  Z.of_nat (List.length (List.filter effective log)) ≤ used (pg_db w') - used (pg_db w) ∧
  (∀ jti, jti ∈ db_uses (pg_db w') → jti ∈ db_uses (pg_db w) ∨
     ∃ input r t x, (input, r, t) ∈ log ∧ Transacted jti x ∈ t) ∧
  Forall (λ x, Exists is_transaction x.2 → guarded_transaction v x.1.1 x.2) log.
Proof.
  revert w log. induction inputs as [|input inputs IH]; intros w log; cbn [tool_calls].
  { intros [= <- <-]. split; [done|]. split; [cbn; lia|]. split; [by left|constructor]. }
  destruct (workerRestart v input w) as [[r w1] t] eqn:Ew. destruct (tool_calls inputs w1) as [w2 l] eqn:El.
  intros [= <- <-]. destruct (IH _ _ El) as (Hb & Hc & Hu & Hg). destruct (tool_step _ _ _ _ _ Ew) as [Hb1 Hu1 Hf1].
  split; [by etrans|]. split; [|split].
  - assert (Hmono : used (pg_db w) ≤ used (pg_db w1))
      by (unfold used; apply Nat2Z.inj_le, subseteq_size, (ba_uses _ _ Hb1)).
    cbn [List.filter]. unfold effective at 1. cbn. destruct r as [o|e]; [|lia]. destruct (ro_effect o) eqn:Eo; [|lia].
    specialize (Hf1 o eq_refl Eo). cbn [List.length]. lia.
  - intros jti Hj. destruct (Hu jti Hj) as [Hj1|(i & r' & t' & x & Hin & Hx)]; [|right; exists i, r', t', x; set_solver].
    destruct (Hu1 jti Hj1) as [|[x Hx]]; [by left|]. right. exists input, r, t, x. split; [left|done].
  - constructor; [|done]. cbn. by apply (restart_transacts v input w w1 r t).
Qed.
End store_facts.

(** C20.  The books of the demo balance over any sequence of calls of the restart tool, with
    any tokens, failures and unconfirmed commits: the restart counts grow by exactly the
    number of authority identifiers consumed and of audit records that claim an effect, each
    worker's count by the number of those that name it.  A worker's row keeps its identifier
    and service; its health and time of update change only with a restart, the health to
    healthy.  Incidents stay as they are, and identifiers and audit records are only added.
    At most as many calls report an effect as restarts happened; and each identifier consumed
    was consumed by a call whose authority was checked twice, so no authority restarts a
    worker a second time. *)
Theorem demo_books {E} `{PgEnv E} `{Jwt} v inputs (w w' : pg E) log : tool_calls v inputs w = (w', log) →
  balanced (pg_db w) (pg_db w') ∧
  Z.of_nat (List.length (List.filter effective log)) ≤ restarts (pg_db w') - restarts (pg_db w) ∧
  (∀ jti, jti ∈ db_uses (pg_db w') → (jti ∉ db_uses (pg_db w)) →
     ∃ input r t x, (input, r, t) ∈ log ∧ Transacted jti x ∈ t ∧ guarded_transaction v input t).
Proof.
  intros (Hb & Hc & Hu & Hg)%tool_calls_balanced. split; [done|]. split; [by rewrite (ba_restarts _ _ Hb)|].
  intros jti Hj Hn. destruct (Hu jti Hj) as [|(input & r & t & x & Hin & Hx)]; [done|].
  exists input, r, t, x. split; [done|]. split; [done|]. rewrite Forall_forall in Hg.
  apply (Hg _ Hin). apply Exists_exists. by exists (Transacted jti x).
Qed.

(** A server without failures, whose clock advances by a second at every reading. *)
#[export] Instance calm_server : PgEnv Z := {|
  pg_fault t := (None, t);
  pg_commit t := (Committed, t);
  pg_clock t := (t, t);
  pg_collate _ := String.leb;
  pg_time t := (t, t + 1000000000);
  pg_sleep t d := (None, t + d)
|}.
Definition sick_worker : Worker :=
  {| wo_id := "worker-1"; wo_service := "billing"; wo_health := "unhealthy"; wo_count := 0; wo_updated := 0 |}.
Definition demo_db : pg Z := {|
  pg_db := {| db_incidents := ∅; db_workers := {["worker-1"%string := sick_worker]}; db_uses := ∅; db_audit := [] |};
  pg_seq := 1; pg_env := 0
|}.
Definition demo_input : WorkerRestartInput := {| ri_worker := "worker-1"; ri_token := "h.p.s"; ri_delay := 500 |}.
(** The first call restarts; the second finds the authority used, and the third expired. *)
Definition demo_run := tool_calls demo_validator [demo_input; demo_input; demo_input] demo_db.
Example demo_decisions :
  map (λ x, match x.1.2 with Ok o => (ad_decision (ro_audit o), ro_effect o) | Err _ => (DenyMalformedAuthority, true) end) demo_run.2
  = [(Authorized, true); (DenyReplayedAuthority, false); (DenyExpired, false)].
Proof. vm_compute. reflexivity. Qed.
Lemma demo_books_witness : balanced (pg_db demo_db) (pg_db demo_run.1) ∧ restarts (pg_db demo_run.1) = 1.
Proof.
  split; [|vm_compute; reflexivity].
  exact (proj1 (demo_books demo_validator [demo_input; demo_input; demo_input] demo_db demo_run.1 demo_run.2
                  (surjective_pairing _))).
Defined.
Definition demo_call := workerRestart demo_validator demo_input demo_db.
Lemma restart_guarded_witness : guarded_transaction demo_validator demo_input demo_call.2.
Proof.
  assert (Hex : match demo_call.2 with [_; _; e] => is_transaction e | _ => False end) by (vm_compute; exact I).
  destruct demo_call as [[r w'] t] eqn:Ec. unfold demo_call in Ec.
  apply (restart_guarded demo_validator demo_input demo_db w' r t Ec). cbn [snd] in Hex.
  destruct t as [|e1 [|e2 [|e3 [|? ?]]]]; try (exfalso; exact Hex). by apply Exists_cons_tl, Exists_cons_tl, Exists_cons_hd.
Defined.
