(* ===== verification/DemoAgent.v ===== *)
(** * DemoAgent: the incident-response agent
    (demos/incident-response-agent/internal/agent/agent.go, and validateInput of cmd/agent)

    The deterministic workflow: discover the tools, pick an active critical incident,
    inspect it, pick an unhealthy worker of its service, look again, restart.  The tools
    are reached through the interface the code declares ([Client]), one operation per tool;
    the trace records each request sent, with its answer or error.  Go's sort is not stable, so
    sorting is any function that permutes and orders ([GoSort]). *)

From S2P Require Import Prelude GoLib Json GoTime GoText JsonUtil DemoTools DemoStore.
From Stdlib Require Import Ascii String.

Class GoSort := {
  go_sort {A} (key : A → string) (l : list A) : list A;
  go_sort_perm {A} (key : A → string) (l : list A) : go_sort key l ≡ₚ l;
  go_sort_sorted {A} (key : A → string) (l : list A) : StronglySorted (λ a b, String.le (key a) (key b)) (go_sort key l)
}.

(** [sort.Search]: the least index in [i, j) where [f] holds, or [j]; the interval halves, so
    its length is fuel enough. *)
Fixpoint search (fuel : nat) (f : nat → bool) (i j : nat) : nat :=
  match fuel with
  | O => i
  | S fuel =>
      if (i <? j)%nat then
        let h := ((i + j) / 2)%nat in
        if f h then search fuel f i h else search fuel f (S h) j
      else i
  end.
Definition SearchStrings (l : list string) (s : string) : nat :=
  search (List.length l) (λ i, match l !! i with Some x => String.leb s x | None => true end) 0 (List.length l).
Definition contains (values : list string) (value : string) : bool :=
  match values !! SearchStrings values value with Some x => x =?s value | None => false end.

Class Client (W : Type) := {
  Discover : W → result (list string) * W;
  call_list : W → string → result (list Incident) * W;
  call_inspect : W → string → result (Incident * list Worker) * W;
  call_status : W → string → result Worker * W;
  call_restart : W → WorkerRestartInput → result WorkerRestartOutput * W
}.
(** A request with what came of it. *)
Inductive agent_call :=
| Listed (status : string) (r : result (list Incident))
| Inspected_ (id : string) (r : result (Incident * list Worker))
| Status (id : string) (r : result Worker)
| Restarted (input : WorkerRestartInput) (r : result WorkerRestartOutput).
Definition answered (c : agent_call) : bool :=
  match c with Listed _ r => is_ok r | Inspected_ _ r => is_ok r | Status _ r => is_ok r | Restarted _ r => is_ok r end.
Definition incident_list : string := "incident_list".
Definition incident_inspect : string := "incident_inspect".
Definition worker_status : string := "worker_status".
Definition call_name (c : agent_call) : string :=
  match c with
  | Listed _ _ => incident_list
  | Inspected_ _ _ => incident_inspect
  | Status _ _ => worker_status
  | Restarted _ _ => worker_restart
  end.

Record AgentInput := {
  ai_scenario : string; ai_agent : string; ai_scope : string; ai_resource : string; ai_not_before : Z; ai_expires : Z;
  ai_delay : Z
}.
Definition validateInput (i : AgentInput) : result unit :=
  fail_if negb (safe_id (ai_scenario i)) || negb (safe_id (ai_agent i)) || (ai_scope i <>?s "worker.restart")
          || negb (safe_id (ai_resource i)) || negb (ai_not_before i <? ai_expires i) || (ai_delay i <? 0)
          || (30000 <? ai_delay i) with Errorf "invalid workload input" [] ;;
  Ok tt.

Record AgentDecision := { de_restart : bool; de_reason : string }.
(** [None] stands for a field that keeps its zero value. *)
Record WorkflowOutput := {
  wf_scenario : string; wf_agent : string; wf_tools : list string; wf_calls : list string; wf_incident : option Incident;
  wf_decision : AgentDecision; wf_before : option Worker; wf_restart : option WorkerRestartOutput; wf_after : option Worker
}.
Definition required_tools : list string := [incident_list; incident_inspect; worker_status; worker_restart].

(** The selection loops: the zero value when there is none. *)
Definition critical (i : Incident) : bool := (in_status i =?s "active") && (in_severity i =?s "critical").
Definition sick (service : string) (k : Worker) : bool := (wo_service k =?s service) && (wo_health k =?s "unhealthy").
Definition first_named {A} (key : A → string) (ok : A → bool) (l : list A) : option A :=
  match List.find ok l with
  | Some x => if key x =?s "" then None else Some x
  | None => None
  end.

Section agent.
Context `{GoSort} {W : Type} `{Client W}.

(** The end of the workflow, from a worker that was found unhealthy. *)
Definition restart_phase (input : AgentInput) (token : string) (out : list agent_call → AgentDecision → option Worker →
      option WorkerRestartOutput → option Worker → WorkflowOutput) (status : Worker) (t : list agent_call) (w : W) :
    result WorkflowOutput * W * list agent_call :=
  let request := {| ri_worker := wo_id status; ri_token := token; ri_delay := ai_delay input |} in
  let '(r, w) := call_restart w request in
  let t := t ++ [Restarted request r] in
  match r with
  | Err e => (Err e, w, t)
  | Ok o =>
      let '(after, w) := call_status w (wo_id status) in
      let t := t ++ [Status (wo_id status) after] in
      match after with
      | Err e => (Err e, w, t)
      | Ok after =>
          (Ok (out t {| de_restart := true; de_reason := "ACTIVE_CRITICAL_INCIDENT_WITH_UNHEALTHY_WORKER" |}
                 (Some status) (Some o) (Some after)), w, t)
      end
  end.

(** The output lists the calls that were answered. *)
Definition Run (input : AgentInput) (token : string) (w : W) : result WorkflowOutput * W * list agent_call :=
  let '(found, w) := Discover w in
  match found with
  | Err e => (Err e, w, [])
  | Ok found =>
      let tools := go_sort id found in
      match List.find (λ name, negb (contains tools name)) required_tools with
      | Some name => (Err (Errorf "required MCP tool %q was not discovered" [name]), w, [])
      | None =>
          let output incident t decision before restart after :=
            {| wf_scenario := ai_scenario input; wf_agent := ai_agent input; wf_tools := tools;
               wf_calls := map call_name (List.filter answered t); wf_incident := incident; wf_decision := decision;
               wf_before := before; wf_restart := restart; wf_after := after |} in
          let stop reason := {| de_restart := false; de_reason := reason |} in
          let '(listed, w) := call_list w "active" in
          let t := [Listed "active" listed] in
          match listed with
          | Err e => (Err e, w, t)
          | Ok listed =>
              match first_named in_id critical (go_sort in_id listed) with
              | None => (Ok (output None t (stop "NO_ACTIVE_CRITICAL_INCIDENT") None None None), w, t)
              | Some selected =>
                  let '(inspected, w) := call_inspect w (in_id selected) in
                  let t := t ++ [Inspected_ (in_id selected) inspected] in
                  match inspected with
                  | Err e => (Err e, w, t)
                  | Ok (incident, workers) =>
                      match first_named wo_id (sick (in_service incident)) (go_sort wo_id workers) with
                      | None => (Ok (output (Some incident) t (stop "NO_UNHEALTHY_ASSOCIATED_WORKER") None None None), w, t)
                      | Some worker =>
                          let '(status, w) := call_status w (wo_id worker) in
                          let t := t ++ [Status (wo_id worker) status] in
                          match status with
                          | Err e => (Err e, w, t)
                          | Ok status =>
                              if wo_health status <>?s "unhealthy"
                              then (Ok (output (Some incident) t (stop "WORKER_NO_LONGER_UNHEALTHY") (Some status) None
                                          (Some status)), w, t)
                              else restart_phase input token (output (Some incident)) status t w
                          end
                      end
                  end
              end
          end
      end
  end.

(** The requests a trace records, made one after the other: the client's state is reached by
    these and no others. *)
Definition performs (w : W) (c : agent_call) (w' : W) : Prop :=
  match c with
  | Listed status r => call_list w status = (r, w')
  | Inspected_ id r => call_inspect w id = (r, w')
  | Status id r => call_status w id = (r, w')
  | Restarted request r => call_restart w request = (r, w')
  end.
Fixpoint performed (w : W) (t : list agent_call) (w' : W) : Prop :=
  match t with
  | [] => w' = w
  | c :: t => ∃ w1, performs w c w1 ∧ performed w1 t w'
  end.
End agent.

(** ** The MCP client (SDKClient of agent.go)

    A session of the SDK lists tools page by page and calls one tool; [None] is running
    out of fuel, which only a server that never ends its pages can cause. *)
Class McpSession (W : Type) := {
  list_tools : W → string → result (list (option string) * string) * W;
  call_tool : W → string → json → result (bool * option json) * W
}.
Section sdk.
Context `{GoSort} {W : Type} `{McpSession W}.
Fixpoint discover_pages (fuel : nat) (cursor : string) (names : list string) (w : W) : option (result (list string) * W) :=
  match fuel with
  | O => None
  | S fuel =>
      let '(page, w) := list_tools w cursor in
      match page with
      | Err e => Some (Err (Wrapf "discover MCP tools: %w" [] e), w)
      | Ok (tools, next) =>
          let names := names ++ omap id tools in
          if next =?s "" then Some (Ok (go_sort id names), w) else discover_pages fuel next names w
      end
  end.
Definition sdk_Discover (fuel : nat) (connected : bool) (w : W) : option (result (list string) * W) :=
  if connected then discover_pages fuel "" [] w else Some (Err (Errorf "MCP session is unavailable" []), w).
(** [decode] is [json.Unmarshal] into the caller's output. *)
Definition sdk_Call {O} (decode : json → result O) (connected : bool) (name : string) (input : json) (w : W) :
    result O * W :=
  if negb connected then (Err (Errorf "MCP session is unavailable" []), w) else
  let '(r, w) := call_tool w name input in
  (match r with
   | Err e => Err (Wrapf "call MCP tool %s: %w" [name] e)
   | Ok (is_error, content) =>
       if is_error : bool then Err (Errorf "MCP tool %s returned an application error" [name]) else
       match content with
       | None => Err (Errorf "MCP tool %s omitted structured content" [name])
       | Some v => map_err (Wrapf "decode MCP tool %s result: %w" [name]) (decode v)
       end
   end, w).
End sdk.

(** ** Facts *)
#[export] Instance merge_sorter : GoSort.
Proof.
  assert (Htotal : ∀ A (key : A → string), Total (λ a b, String.le (key a) (key b))) by (intros A key a b; apply String.le_total).
  assert (Htrans : ∀ A (key : A → string), Transitive (λ a b, String.le (key a) (key b)))
    by (intros A key a b c; apply (transitivity (R := String.le))).
  refine {| go_sort A key := merge_sort (λ a b, String.le (key a) (key b)) |}.
  - intros A key l. apply merge_sort_Permutation.
  - intros A key l. by apply StronglySorted_merge_sort.
Defined.

(** *** Binary search agrees with membership *)
Lemma search_spec f n : ∀ fuel i j, (j - i ≤ fuel)%nat → (i ≤ j ≤ n)%nat →
  (∀ a b, (a ≤ b < n)%nat → f a = true → f b = true) →
  (∀ k, (k < i)%nat → f k = false) → (∀ k, (j ≤ k < n)%nat → f k = true) →
  let r := search fuel f i j in (i ≤ r ≤ j)%nat ∧ (∀ k, (k < r)%nat → f k = false) ∧ (∀ k, (r ≤ k < n)%nat → f k = true).
Proof.
  induction fuel as [|fuel IH]; intros i j Hfuel Hij Hmono Hlo Hhi; cbn [search].
  { assert (i = j) as <- by lia. split; [lia|by split]. }
  destruct (Nat.ltb_spec i j); [|assert (i = j) as <- by lia; split; [lia|by split]].
  pose proof (Nat.div_mod_eq (i + j) 2). pose proof (Nat.mod_upper_bound (i + j) 2).
  set (h := ((i + j) / 2)%nat) in *. destruct (f h) eqn:Eh.
  - destruct (IH i h) as (Ha & Hb & Hc); [lia|lia|done|done| |split; [lia|by split]].
    intros k Hk. apply (Hmono h k); [lia|done].
  - destruct (IH (S h) j) as (Ha & Hb & Hc); [lia|lia|done| |done|split; [lia|by split]].
    intros k Hk. destruct (f k) eqn:Ek; [|done]. rewrite (Hmono k h) in Eh; [done|lia|done].
Qed.
Lemma sorted_lookup {A} (R : relation A) l i j x y : StronglySorted R l → (i < j)%nat → l !! i = Some x → l !! j = Some y → R x y.
Proof.
  intros Hs. revert i j. induction Hs as [|z l _ IH Hall]; intros [|i] [|j] Hij Hx Hy; cbn in *; try done; try lia.
  - injection Hx as ->. rewrite Forall_forall in Hall. apply Hall. by eapply list_elem_of_lookup_2.
  - apply (IH i j); [lia|done|done].
Qed.
Lemma contains_spec l s : StronglySorted String.le l → contains l s = true ↔ s ∈ l.
Proof.
  intros Hs. unfold contains, SearchStrings. set (f := λ i, match l !! i with Some x => String.leb s x | None => true end).
  assert (Hmono : ∀ a b, (a ≤ b < List.length l)%nat → f a = true → f b = true).
  { intros a b Hab. unfold f. destruct (lookup_lt_is_Some_2 l a) as [x Hx]; [lia|].
    destruct (lookup_lt_is_Some_2 l b) as [y Hy]; [lia|]. rewrite Hx, Hy. destruct (decide (a = b)) as [->|Hne]; [congruence|].
    intros Hle. pose proof (sorted_lookup String.le l a b x y Hs ltac:(lia) Hx Hy) as Hxy.
    apply Is_true_true. transitivity x; [by apply Is_true_true|done]. }
  destruct (search_spec f (List.length l) (List.length l) 0 (List.length l)) as (Hr & Hlo & Hhi); [lia|lia|done|lia|lia|].
  set (r := search (List.length l) f 0 (List.length l)) in *. split.
  - destruct (l !! r) as [x|] eqn:Ex; [|done]. intros <-%String.eqb_eq. by eapply list_elem_of_lookup_2.
  - intros [k Hk]%list_elem_of_lookup. pose proof (lookup_lt_Some _ _ _ Hk) as Hlt.
    assert (Hfk : f k = true) by (unfold f; rewrite Hk; apply Is_true_true; reflexivity).
    assert (r ≤ k)%nat by (destruct (Nat.lt_ge_cases k r) as [Hkr|]; [rewrite Hlo in Hfk by done; done|done]).
    destruct (lookup_lt_is_Some_2 l r) as [x Hx]; [lia|]. rewrite Hx. apply String.eqb_eq.
    specialize (Hhi r ltac:(lia)). unfold f in Hhi. rewrite Hx in Hhi. destruct (decide (r = k)) as [->|Hne]; [congruence|].
    pose proof (sorted_lookup String.le l r k x s Hs ltac:(lia) Hx Hk) as Hxs.
    apply (anti_symm String.le); [done|by apply Is_true_true].
Qed.

(** *** Selection *)
Definition least_of {A} (key : A → string) (ok : A → bool) (l : list A) (x : A) : Prop :=
  x ∈ l ∧ ok x = true ∧ key x ≠ ""%string ∧ ∀ y, y ∈ l → ok y = true → String.le (key x) (key y).
Lemma find_sorted {A} (key : A → string) ok l x : StronglySorted (λ a b, String.le (key a) (key b)) l →
  List.find ok l = Some x → x ∈ l ∧ ok x = true ∧ ∀ y, y ∈ l → ok y = true → String.le (key x) (key y).
Proof.
  induction 1 as [|z l Hs IH Hall]; cbn; [done|]. rewrite Forall_forall in Hall. destruct (ok z) eqn:Ez.
  - intros [= ->]. split; [left|]. split; [done|]. intros y [->|Hy]%elem_of_cons _; [reflexivity|by apply Hall].
  - intros (Hx & Hok & Hmin)%IH. split; [by right|]. split; [done|]. intros y [->|Hy]%elem_of_cons Hoky; [congruence|auto].
Qed.
Lemma first_named_least `{GoSort} {A} (key : A → string) ok l x : first_named key ok (go_sort key l) = Some x → least_of key ok l x.
Proof.
  unfold first_named. destruct (List.find ok _) as [y|] eqn:E; [|done]. destruct (String.eqb_spec (key y) ""); [done|].
  intros [= ->]. apply (find_sorted key) in E as (Hx & Hok & Hmin); [|apply go_sort_sorted].
  split; [by rewrite (go_sort_perm key l) in Hx|]. split; [done|]. split; [done|].
  intros y Hy. apply Hmin. by rewrite (go_sort_perm key l).
Qed.

(** Why a restart was asked for: the least named active critical incident, the least named
    unhealthy worker of its service, and a second look that still found it unhealthy.  Only
    an answered request is followed by anything, a last look at the worker. *)
Record ground (input : AgentInput) (token : string) (t : list agent_call) (request : WorkerRestartInput)
    (r : result WorkerRestartOutput) : Prop := {
  gd_selected : ∃ listed selected incident workers worker status rest,
    t = [Listed "active" (Ok listed); Inspected_ (in_id selected) (Ok (incident, workers)); Status (wo_id worker) (Ok status);
         Restarted request r] ++ rest ∧
    least_of in_id critical listed selected ∧ least_of wo_id (sick (in_service incident)) workers worker ∧
    wo_health status = "unhealthy"%string ∧
    request = {| ri_worker := wo_id status; ri_token := token; ri_delay := ai_delay input |} ∧
    (rest = [] ∨ is_ok r = true ∧ ∃ after, rest = [Status (wo_id status) after])
}.
Definition is_restart (c : agent_call) : bool := match c with Restarted _ _ => true | _ => false end.
Definition asked (t : list agent_call) : Prop := ∃ request r, Restarted request r ∈ t.
(** What a run may have done and said. *)
Record justified (input : AgentInput) (token : string) (tools : list string) (t : list agent_call) (r : result WorkflowOutput) : Prop := {
  ju_ground request x : Restarted request x ∈ t → ground input token t request x;
  ju_once : (List.length (List.filter is_restart t) ≤ 1)%nat;
  ju_result out : r = Ok out → Forall (λ c, answered c = true) t ∧ wf_calls out = map call_name t ∧ wf_tools out = tools ∧
                               (de_restart (wf_decision out) = true ↔ asked t)
}.

Section run_facts.
Context `{GoSort} {W : Type} `{Client W}.
Lemma performed_snoc (w w1 w2 : W) t c : performed w t w1 → performs w1 c w2 → performed w (t ++ [c]) w2.
Proof.
  revert w. induction t as [|d t IH]; intros w; cbn [performed app].
  - intros -> Hc. by exists w2.
  - intros (w0 & Hd & Ht) Hc. exists w0. split; [done|by apply IH].
Qed.
Lemma restart_phase_spec input token out status t0 (w0 w w' : W) r t : performed w0 t0 w →
  restart_phase input token out status t0 w = (r, w', t) →
  performed w0 t w' ∧
  ∃ x rest, t = t0 ++ Restarted {| ri_worker := wo_id status; ri_token := token; ri_delay := ai_delay input |} x :: rest ∧
    (rest = [] ∨ is_ok x = true ∧ ∃ after, rest = [Status (wo_id status) after]) ∧
    ∀ y, r = Ok y → ∃ d o after, x = Ok o ∧ rest = [Status (wo_id status) (Ok after)] ∧
      y = out t d (Some status) (Some o) (Some after) ∧ de_restart d = true.
Proof.
  intros Hq. unfold restart_phase. destruct (call_restart w _) as [x w1] eqn:E1.
  eapply (performed_snoc _ _ _ _ (Restarted _ _)) in Hq; [|exact E1].
  destruct x as [o|e]; [|intros [= <- <- <-]; split; [done|]; eexists _, []; split; [done|]; split; [by left|done]].
  destruct (call_status w1 _) as [after w2] eqn:E2. eapply (performed_snoc _ _ _ _ (Status _ _)) in Hq; [|exact E2].
  destruct after as [after|e]; intros [= <- <- <-]; (split; [done|]); eexists _, _; rewrite <-app_assoc;
    (split; [done|]); (split; [right; split; [done|by eexists]|]); [|done].
  intros y [= <-]. eexists _, o, after. done.
Qed.
Lemma find_contained tools : StronglySorted String.le tools → List.find (λ name, negb (contains tools name)) required_tools = None →
  required_tools ⊆ tools.
Proof.
  intros Hs Hf name Hn. apply list_elem_of_In in Hn. pose proof (List.find_none _ _ Hf _ Hn) as Hc.
  apply negb_false_iff in Hc. by apply contains_spec.
Qed.
(** Without a restart among the requests there is little to show. *)
Lemma quiet_justified input token tools t r : List.filter is_restart t = [] →
  (∀ out, r = Ok out → Forall (λ c, answered c = true) t ∧ wf_calls out = map call_name t ∧ wf_tools out = tools ∧
                       de_restart (wf_decision out) = false) →
  justified input token tools t r.
Proof.
  intros Ht Hr. assert (Hno : ∀ request x, Restarted request x ∉ t).
  { intros request x Hin%list_elem_of_In. assert (Hf : List.In (Restarted request x) (List.filter is_restart t))
      by (by apply List.filter_In). by rewrite Ht in Hf. }
  split; [intros ? ? Hin; by destruct (Hno _ _ Hin)|rewrite Ht; cbn; lia|].
  intros out Ho. destruct (Hr out Ho) as (L1 & L2 & L3 & Hd). split_and!; [done..|]. rewrite Hd. split; [done|].
  intros (? & ? & Hin). by destruct (Hno _ _ Hin).
Qed.
Lemma run_justified input token (w w' : W) r t : Run input token w = (r, w', t) →
  ∃ found w1, Discover w = (found, w1) ∧ performed w1 t w' ∧
    justified input token (match found with Ok l => go_sort id l | Err _ => [] end) t r ∧
    (∀ out, r = Ok out → is_ok found = true ∧ required_tools ⊆ wf_tools out).
Proof.
  unfold Run. destruct (Discover w) as [[found|e] w1]; [|intros [= <- <- <-]; eexists _, _; split_and!; [done|done|by apply quiet_justified|done]].
  intros Hr. exists (Ok found), w1. split; [done|].
  destruct (List.find _ required_tools) as [name|] eqn:Ef; [injection Hr as <- <- <-; split_and!; [done|by apply quiet_justified|done]|].
  apply find_contained in Ef; [|exact (go_sort_sorted id found)]. revert Hr.
  destruct (call_list w1 "active") as [listed w2] eqn:E2.
  assert (Hq : performed w1 [Listed "active" listed] w2) by (by exists w2).
  destruct listed as [listed|e]; [|intros [= <- <- <-]; split_and!; [done|by apply quiet_justified|done]].
  destruct (first_named in_id critical _) as [selected|] eqn:Es.
  2:{ intros [= <- <- <-]. split_and!; [done| |by intros out [= <-]]. apply quiet_justified; [done|]. intros out [= <-]. by repeat constructor. }
  apply first_named_least in Es. destruct (call_inspect w2 _) as [inspected w3] eqn:E3.
  eapply (performed_snoc _ _ _ _ (Inspected_ _ _)) in Hq; [|exact E3].
  destruct inspected as [[incident workers]|e]; [|intros [= <- <- <-]; split_and!; [done|by apply quiet_justified|done]].
  destruct (first_named wo_id _ _) as [worker|] eqn:Ew.
  2:{ intros [= <- <- <-]. split_and!; [done| |by intros out [= <-]]. apply quiet_justified; [done|]. intros out [= <-]. by repeat constructor. }
  apply first_named_least in Ew. destruct (call_status w3 _) as [status w4] eqn:E4.
  eapply (performed_snoc _ _ _ _ (Status _ _)) in Hq; [|exact E4].
  destruct status as [status|e]; [|intros [= <- <- <-]; split_and!; [done|by apply quiet_justified|done]].
  destruct (String.eqb_spec (wo_health status) "unhealthy") as [Hh|Hh]; cbn [negb].
  2:{ intros [= <- <- <-]. split_and!; [done| |by intros out [= <-]]. apply quiet_justified; [done|]. intros out [= <-]. by repeat constructor. }
  intros Hr. destruct (restart_phase_spec _ _ _ _ _ _ _ _ _ _ Hq Hr) as (Hp & x & rest & -> & Hrest & Hout). clear Hr Hq.
  split; [done|]. split; [|intros out Ho; destruct (Hout out Ho) as (d & o & after & _ & _ & -> & _); done].
  cbn [app]. split.
  - intros request x' Hin. assert (Hone : Restarted request x' = Restarted {| ri_worker := wo_id status; ri_token := token;
      ri_delay := ai_delay input |} x) by (destruct Hrest as [->|[_ [after ->]]]; set_solver).
    injection Hone as -> ->. split. by exists listed, selected, incident, workers, worker, status, rest.
  - by destruct Hrest as [->|[_ [after ->]]].
  - intros out Ho. destruct (Hout out Ho) as (d & o & after & -> & -> & -> & Hd). split_and!; [by repeat constructor|done|done|].
    cbn. rewrite Hd. split; [|done]. intros _. eexists _, (Ok o). do 3 right. left.
Qed.
End run_facts.

(** C21.  The agent restarts a worker only on evidence, and reports what it did.  The trace holds
    every request the agent sends after discovery, answered or failed: the state of the tool
    client is the one those requests lead to, one after the other.  Against any tool server a
    restart is requested at most once (a failed request is not repeated, and ends the run), and
    only after the calls have shown the least named active critical incident, the least named
    unhealthy worker of the inspected incident's service, and that worker still unhealthy on a
    second look; the request carries the given token and delay.  A result lists exactly the
    calls made, all of them answered; all required tools were discovered; and it says that a
    restart was requested if and only if one was. *)
Theorem agent_justified `{GoSort} {W} `{Client W} input token (w w' : W) r t : Run input token w = (r, w', t) →
  (∃ found w1, Discover w = (found, w1) ∧ performed w1 t w') ∧
  (∀ request x, Restarted request x ∈ t → ground input token t request x) ∧
  (List.length (List.filter is_restart t) ≤ 1)%nat ∧
  (∀ out, r = Ok out → Forall (λ c, answered c = true) t ∧ wf_calls out = map call_name t ∧ required_tools ⊆ wf_tools out ∧
                       (de_restart (wf_decision out) = true ↔ asked t)).
Proof.
  intros (found & w1 & Hd & Hp & [Hg Ho Hr] & Ht)%run_justified. split; [by exists found, w1|]. split; [done|]. split; [done|].
  intros out Hout. destruct (Hr out Hout) as (H1 & H2 & _ & H4). destruct (Ht out Hout) as [_ H5]. done.
Qed.

(** *** Agent, tools and database together *)
(** The tools of [DemoTools] over the database of [DemoStore], reached without a transport. *)
Definition remote {A W} (name : string) (r : result A * W) : result A * W :=
  (match r.1 with Ok a => Ok a | Err _ => Err (Errorf "MCP tool %s returned an application error" [name]) end, r.2).
Definition loopback {E} `{PgEnv E} `{Jwt} (v : Validator) : Client (pg E) := {|
  Discover w := (Ok [worker_status; worker_restart; incident_list; incident_inspect], w);
  call_list w status := remote incident_list (incidentList status w);
  call_inspect w id := remote incident_inspect (incidentInspect id w);
  call_status w id := remote worker_status (workerStatus id w);
  call_restart w input := remote worker_restart (workerRestart v input w).1
|}.
Definition outage (id severity : string) : Incident :=
  {| in_id := id; in_service := "billing"; in_severity := severity; in_summary := ""; in_status := "active"; in_created := 0 |}.
Definition incident_db : pg Z := {|
  pg_db := {| db_incidents := {["inc-2"%string := outage "inc-2" "critical"; "inc-1"%string := outage "inc-1" "low"]};
              db_workers := {["worker-1"%string := sick_worker]}; db_uses := ∅; db_audit := [] |};
  pg_seq := 1; pg_env := 0
|}.
Definition demo_agent : AgentInput :=
  {| ai_scenario := "expiry"; ai_agent := "agent-1"; ai_scope := "worker.restart"; ai_resource := "worker-1";
     ai_not_before := 0; ai_expires := 5000000000; ai_delay := 500 |}.
Definition demo_workflow := Run (H0 := loopback demo_validator) demo_agent "h.p.s" incident_db.
(** The whole workflow restarts the worker of the critical incident. *)
Example demo_workflow_result :
  match demo_workflow with
  | (Ok out, _, _) => (de_reason (wf_decision out), option_map wo_health (wf_after out), option_map wo_count (wf_after out))
                      = ("ACTIVE_CRITICAL_INCIDENT_WITH_UNHEALTHY_WORKER"%string, Some "healthy"%string, Some 1)
  | _ => False
  end.
Proof. vm_compute. reflexivity. Qed.
Lemma agent_justified_witness : ∃ request o, ground demo_agent "h.p.s" demo_workflow.2 request (Ok o).
Proof.
  assert (Hok : match demo_workflow.2 with [_; _; _; Restarted _ (Ok _); _] => True | _ => False end) by (vm_compute; exact I).
  destruct demo_workflow as [[r w'] t] eqn:Er. unfold demo_workflow in Er. cbn [snd] in *.
  destruct (agent_justified (H0 := loopback demo_validator) demo_agent "h.p.s" incident_db w' r t Er) as (_ & Hg & _).
  destruct t as [|? [|? [|? [|[| | |request [o|]] [|? [|? ?]]]]]]; try (exfalso; exact Hok).
  exists request, o. apply Hg. do 3 right. left.
Defined.
