(* ===== verification/Base64.v ===== *)
(** * Base64: base64.RawStdEncoding, as the demo hands over its public key

    Three bytes are four characters of the standard alphabet, a rest of one or two bytes is
    two or three, and there is no padding.  The decoder passes over line ends and does not
    look at the unused bits of the last character. *)

From S2P Require Import Prelude GoLib Json JsonFacts GoTime JsonUtil.
From Stdlib Require Import Ascii String.

Definition b64_char (n : Z) : ascii :=
  chr (if n <? 26 then 65 + n else if n <? 52 then 71 + n else if n <? 62 then n - 4 else if n =? 62 then 43 else 47).
Definition b64_val (c : ascii) : option Z :=
  if is_upper c then Some (bz c - 65) else if is_lower c then Some (bz c - 71)
  else if is_digit c then Some (bz c + 4) else if bz c =? 43 then Some 62 else if bz c =? 47 then Some 63 else None.

Fixpoint b64_encode (s : string) : string :=
  match s with
  | EmptyString => ""
  | String a r =>
      let hi := b64_char (bz a / 4) in
      match r with
      | EmptyString => String hi (String (b64_char (bz a mod 4 * 16)) "")
      | String b r =>
          let second := b64_char (bz a mod 4 * 16 + bz b / 16) in
          match r with
          | EmptyString => String hi (String second (String (b64_char (bz b mod 16 * 4)) ""))
          | String c r => String hi (String second (String (b64_char (bz b mod 16 * 4 + bz c / 64))
                            (String (b64_char (bz c mod 64)) (b64_encode r))))
          end
      end
  end.

Definition line_end (c : ascii) : bool := is_one_of [10; 13] c.
Fixpoint drop_line_ends (s : string) : string :=
  match s with
  | EmptyString => ""
  | String c r => if line_end c then drop_line_ends r else String c (drop_line_ends r)
  end.
Fixpoint b64_groups (s : string) : option string :=
  match s with
  | EmptyString => Some ""%string
  | String a (String b r) =>
      let! x := b64_val a in
      let! y := b64_val b in
      let first := chr (x * 4 + y / 16) in
      match r with
      | EmptyString => Some (String first "")
      | String c r =>
          let! z := b64_val c in
          let second := chr (y mod 16 * 16 + z / 4) in
          match r with
          | EmptyString => Some (String first (String second ""))
          | String d r =>
              let! u := b64_val d in
              let! rest := b64_groups r in
              Some (String first (String second (String (chr (z mod 4 * 64 + u)) rest)))
          end
      end
  | String _ EmptyString => None
  end.
Definition b64_decode (s : string) : option string := b64_groups (drop_line_ends s).

(** ** Facts *)
Lemma b64_alphabet n : 0 ≤ n < 64 → b64_val (b64_char n) = Some n ∧ plain_char (b64_char n) = true ∧ line_end (b64_char n) = false.
Proof.
  intros Hn. assert (Hall : all_from 64 0 (λ n, bool_decide (b64_val (b64_char n) = Some n) && plain_char (b64_char n)
                                                && negb (line_end (b64_char n))) = true) by (vm_compute; reflexivity).
  apply (all_from_spec _ _ _ n) in Hall; [|lia]. apply andb_true_iff in Hall as [[H1 H2]%andb_true_iff H3].
  apply bool_decide_eq_true in H1. by apply negb_true_iff in H3.
Qed.
Lemma chr_bz c : chr (bz c) = c.
Proof. destruct c as [[] [] [] [] [] [] [] []]; reflexivity. Qed.

(** Every text of the encoder is made of groups; one lemma for the three sizes. *)
Lemma string_triple_ind (P : string → Prop) : P ""%string → (∀ a, P (String a "")) → (∀ a b, P (String a (String b ""))) →
  (∀ a b c r, P r → P (String a (String b (String c r)))) → ∀ s, P s.
Proof.
  intros H0 H1 H2 H3. fix IH 1. intros [|a [|b [|c r]]]; [exact H0|apply H1|apply H2|apply H3, IH].
Qed.
Ltac b64_step :=
  repeat match goal with
  | |- context [b64_val (b64_char ?n)] =>
      rewrite (proj1 (b64_alphabet n ltac:(Z.div_mod_to_equations; lia)))
  end; cbv beta iota zeta.
Ltac b64_byte := rewrite <-chr_bz; f_equal; Z.div_mod_to_equations; lia.
Lemma groups_encode s : b64_groups (b64_encode s) = Some s.
Proof.
  induction s as [|a|a b|a b c r IH] using string_triple_ind; [done| | |].
  - pose proof (bz_bound a). cbn [b64_encode b64_groups]. b64_step. do 2 f_equal. b64_byte.
  - pose proof (bz_bound a). pose proof (bz_bound b). cbn [b64_encode b64_groups]. b64_step.
    do 2 f_equal; [b64_byte|]. f_equal. b64_byte.
  - pose proof (bz_bound a). pose proof (bz_bound b). pose proof (bz_bound c). cbn [b64_encode b64_groups]. b64_step. rewrite IH.
    do 2 f_equal; [b64_byte|]. f_equal; [b64_byte|]. f_equal. b64_byte.
Qed.
Lemma encode_alphabet (p : ascii → bool) s : (∀ n, 0 ≤ n < 64 → p (b64_char n) = true) → all_bytes p (b64_encode s) = true.
Proof.
  intros Hp. induction s as [|a|a b|a b c r IH] using string_triple_ind; [done|..]; pose proof (bz_bound a);
    try pose proof (bz_bound b); try pose proof (bz_bound c); cbn [b64_encode all_bytes];
    rewrite !Hp by (Z.div_mod_to_equations; lia); [done..|exact IH].
Qed.
Lemma drop_none s : all_bytes (λ c, negb (line_end c)) s = true → drop_line_ends s = s.
Proof.
  induction s as [|c s IH]; [done|]. intros [Hc Hs]%andb_true_iff. cbn. apply negb_true_iff in Hc. by rewrite Hc, (IH Hs).
Qed.
Lemma b64_roundtrip s : b64_decode (b64_encode s) = Some s.
Proof.
  unfold b64_decode. rewrite drop_none; [apply groups_encode|]. apply encode_alphabet. intros n Hn.
  by rewrite (proj2 (proj2 (b64_alphabet n Hn))).
Qed.
Lemma encode_plain s : plain (b64_encode s).
Proof. apply encode_alphabet. intros n Hn. apply (b64_alphabet n Hn). Qed.
