(* ===== verification/DemoJson.v ===== *)
(** * DemoJson: the documents of the incident-response demo
    (the JSON tags of internal/api/types.go and internal/authority/authority.go)

    What the commands read ([fields] of a struct) and write.  A time whose year does not have
    four digits makes the encoder fail, hence [option]. *)

From S2P Require Import Prelude GoLib Json JsonFacts GoTime GoText JsonUtil JsonText GoJson DemoTools DemoStore DemoAgent.
From Stdlib Require Import Ascii String.

(** A field of a struct, stored over what it held. *)
Definition field {A B} (d : decoder B) (get : A → B) (set : B → A → A) (old : A) (raw : string) : result A :=
  let? x := store d (get old) raw in Ok (set x old).

Definition zero_input : AgentInput :=
  {| ai_scenario := ""; ai_agent := ""; ai_scope := ""; ai_resource := ""; ai_not_before := zero_time; ai_expires := zero_time;
     ai_delay := 0 |}.
Definition input_fields : fields AgentInput :=
  [("scenario", field dec_string ai_scenario (λ x o, let 'Build_AgentInput _ b c d e f g := o in Build_AgentInput x b c d e f g));
   ("agent_id", field dec_string ai_agent (λ x o, let 'Build_AgentInput a _ c d e f g := o in Build_AgentInput a x c d e f g));
   ("authority_scope", field dec_string ai_scope (λ x o, let 'Build_AgentInput a b _ d e f g := o in Build_AgentInput a b x d e f g));
   ("authority_resource", field dec_string ai_resource (λ x o, let 'Build_AgentInput a b c _ e f g := o in Build_AgentInput a b c x e f g));
   ("not_before", field dec_time ai_not_before (λ x o, let 'Build_AgentInput a b c d _ f g := o in Build_AgentInput a b c d x f g));
   ("expires_at", field dec_time ai_expires (λ x o, let 'Build_AgentInput a b c d e _ g := o in Build_AgentInput a b c d e x g));
   ("execution_delay_ms", field (dec_int 64) ai_delay (λ x o, let 'Build_AgentInput a b c d e f _ := o in Build_AgentInput a b c d e f x))]%string.

Definition zero_request : IssueRequest :=
  {| ir_subject := ""; ir_scope := ""; ir_resource := ""; ir_not_before := zero_time; ir_expires := zero_time |}.
Definition request_fields : fields IssueRequest :=
  [("subject", field dec_string ir_subject (λ x o, let 'Build_IssueRequest _ b c d e := o in Build_IssueRequest x b c d e));
   ("scope", field dec_string ir_scope (λ x o, let 'Build_IssueRequest a _ c d e := o in Build_IssueRequest a x c d e));
   ("resource", field dec_string ir_resource (λ x o, let 'Build_IssueRequest a b _ d e := o in Build_IssueRequest a b x d e));
   ("not_before", field dec_time ir_not_before (λ x o, let 'Build_IssueRequest a b c _ e := o in Build_IssueRequest a b c x e));
   ("expires_at", field dec_time ir_expires (λ x o, let 'Build_IssueRequest a b c d _ := o in Build_IssueRequest a b c d x))]%string.
Definition enc_issue_request (r : IssueRequest) : option json :=
  let! not_before := marshal_time (ir_not_before r) in
  let! expires := marshal_time (ir_expires r) in
  Some (JObject [("subject", JString (ir_subject r)); ("scope", JString (ir_scope r)); ("resource", JString (ir_resource r));
                 ("not_before", not_before); ("expires_at", expires)]%string).

Definition zero_result : IssueResult := {| is_public := ""; is_token := "" |}.
Definition result_fields : fields IssueResult :=
  [("public_key", field dec_string is_public (λ x o, let 'Build_IssueResult _ b := o in Build_IssueResult x b));
   ("token", field dec_string is_token (λ x o, let 'Build_IssueResult a _ := o in Build_IssueResult a x))]%string.
Definition enc_issue_result (r : IssueResult) : json :=
  JObject [("public_key", JString (is_public r)); ("token", JString (is_token r))]%string.

(** ** The result of the workflow *)
Definition decision_text (d : Decision) : string :=
  match d with
  | Authorized => "AUTHORIZED"
  | DenyNotYetValid => "DENY_NOT_YET_VALID"
  | DenyExpired => "DENY_EXPIRED"
  | DenyScopeMismatch => "DENY_SCOPE_MISMATCH"
  | DenyResourceMismatch => "DENY_RESOURCE_MISMATCH"
  | DenySubjectMismatch => "DENY_SUBJECT_MISMATCH"
  | DenyInvalidSignature => "DENY_INVALID_SIGNATURE"
  | DenyMalformedAuthority => "DENY_MALFORMED_AUTHORITY"
  | DenyReplayedAuthority => "DENY_REPLAYED_AUTHORITY"
  end.
Definition num (n : Z) : json := JNumber (itoa n).
Definition enc_incident (i : Incident) : option json :=
  let! created := marshal_time (in_created i) in
  Some (JObject [("id", JString (in_id i)); ("service", JString (in_service i)); ("severity", JString (in_severity i));
                 ("summary", JString (in_summary i)); ("status", JString (in_status i)); ("created_at", created)]%string).
Definition enc_demo_worker (k : Worker) : option json :=
  let! updated := marshal_time (wo_updated k) in
  Some (JObject [("id", JString (wo_id k)); ("service", JString (wo_service k)); ("health", JString (wo_health k));
                 ("restart_count", num (wo_count k)); ("updated_at", updated)]%string).
Definition enc_audit (a : AuditRecord) : option json :=
  let! occurred := marshal_time (ad_time a) in
  Some (JObject [("id", num (ad_id a)); ("agent_id", JString (ad_agent a)); ("tool", JString (ad_tool a));
                 ("resource", JString (ad_resource a)); ("decision", JString (decision_text (ad_decision a)));
                 ("side_effect_performed", JBool (ad_effect a)); ("occurred_at", occurred)]%string).
Definition enc_check (c : AuthorizationCheck) : option json :=
  let! t := marshal_time (ck_time c) in
  Some (JObject [("time", t); ("decision", JString (decision_text (ck_decision c)))]%string).
Definition enc_transition (t : WorkerTransition) : json :=
  JObject [("restart_count_before", num (tr_before t)); ("restart_count_after", num (tr_after t));
           ("health_before", JString (tr_health_before t)); ("health_after", JString (tr_health_after t))]%string.
(** [omitempty] on a pointer. *)
Definition omit_nil {A} (name : string) (enc : A → option json) (x : option A) : option (list (string * json)) :=
  match x with None => Some [] | Some a => let! v := enc a in Some [(name, v)] end.
Definition enc_restart (o : WorkerRestartOutput) : option json :=
  let! initial := enc_check (ro_initial o) in
  let! execution := omit_nil "execution_check" enc_check (ro_execution o) in
  let! audit := enc_audit (ro_audit o) in
  Some (JObject ([("agent_id", JString (ro_agent o)); ("tool", JString (ro_tool o)); ("resource", JString (ro_resource o));
                  ("initial_check", initial)]%string ++ execution ++
                 [("execution_delay_ms", num (ro_delay o)); ("wall_clock_elapsed_ms", num (ro_elapsed o));
                  ("side_effect_performed", JBool (ro_effect o)); ("worker", enc_transition (ro_worker o));
                  ("audit", audit)]%string)).
Definition zero_incident : Incident :=
  {| in_id := ""; in_service := ""; in_severity := ""; in_summary := ""; in_status := ""; in_created := zero_time |}.
Definition zero_worker : Worker :=
  {| wo_id := ""; wo_service := ""; wo_health := ""; wo_count := 0; wo_updated := zero_time |}.
(** A slice nothing was appended to is nil. *)
Definition enc_strings (l : list string) : json := match l with [] => JNull | _ => JArray (map JString l) end.
Definition enc_workflow (o : WorkflowOutput) : option json :=
  let! incident := enc_incident (default zero_incident (wf_incident o)) in
  let! before := enc_demo_worker (default zero_worker (wf_before o)) in
  let! restart := omit_nil "restart" enc_restart (wf_restart o) in
  let! after := enc_demo_worker (default zero_worker (wf_after o)) in
  Some (JObject ([("scenario", JString (wf_scenario o)); ("agent_id", JString (wf_agent o));
                  ("mcp", JObject [("transport", JString "stdio"); ("discovered_tools", enc_strings (wf_tools o));
                                   ("calls", enc_strings (wf_calls o))]);
                  ("incident", incident);
                  ("decision", JObject [("restart_requested", JBool (de_restart (wf_decision o)));
                                        ("reason", JString (de_reason (wf_decision o)))]);
                  ("worker_before", before)]%string ++ restart ++ [("worker_after"%string, after)])).

(** ** Facts *)
Lemma object_wf m : Forall (λ kv, plain kv.1 ∧ json_wf kv.2 = true) m → json_wf (JObject m) = true.
Proof.
  intros Hm. cbn [json_wf]. apply forallb_forall. intros kv Hin. rewrite Forall_forall in Hm.
  destruct (Hm kv) as [Hk Hv]; [by apply list_elem_of_In|]. by rewrite Hv, plain_utf8.
Qed.
Lemma object_no_html m : Forall (λ kv, plain kv.1 ∧ json_no_html kv.2 = true) m → json_no_html (JObject m) = true.
Proof.
  intros Hm. cbn [json_no_html]. apply forallb_forall. intros kv Hin. rewrite Forall_forall in Hm.
  destruct (Hm kv) as [Hk Hv]; [by apply list_elem_of_In|]. by rewrite Hv, plain_no_html.
Qed.
Ltac each_member := repeat (apply Forall_cons_2; [split; [reflexivity|]|]); try apply Forall_nil_2.
Ltac text_member := first [apply format_utf8 | apply plain_utf8; assumption
                          | apply plain_no_html; first [apply plain_format | assumption]].
Lemma field_string {A} (get : A → string) set old s : plain s → field dec_string get set old (print (JString s)) = Ok (set s old).
Proof. intros Hs. unfold field. by rewrite dec_string_print by (by apply plain_utf8). Qed.
Lemma field_time {A} (get : A → Z) set old t : supported t = true →
  field dec_time get set old (print (JString (format_rfc3339nano t))) = Ok (set t old).
Proof. intros Ht. unfold field. by rewrite dec_time_print. Qed.
(** One member stored, in the order of the document. *)
Lemma store_member {A} (fs : fields A) old k raw ms st x : field_of fs k = Some st → st old raw = Ok x →
  store_members fs old ((k, raw) :: ms) = store_members fs x ms.
Proof. intros Hf Hs. cbn [store_members]. by rewrite Hf, Hs. Qed.

Record plain_request (r : IssueRequest) : Prop := {
  pr_subject : plain (ir_subject r); pr_scope : plain (ir_scope r); pr_resource : plain (ir_resource r);
  pr_not_before : supported (ir_not_before r) = true; pr_expires : supported (ir_expires r) = true
}.
Lemma request_read r r' j : plain_request r → enc_issue_request r = Some j →
  Decode (store_struct request_fields) zero_request (Ok (Encode j)) = Ok r' → r' = r.
Proof.
  intros [Hs Hc Hr Hn He]. unfold enc_issue_request. rewrite !marshal_supported by done. intros [= <-].
  apply decode_encode; [| |done|].
  - apply object_wf. each_member; text_member.
  - apply object_no_html. each_member; text_member.
  - rewrite store_struct_print by (apply object_wf; each_member; text_member).
    cbn [raw_members map fst snd].
    do 3 (erewrite store_member; [|reflexivity|by apply field_string]).
    do 2 (erewrite store_member; [|reflexivity|by apply field_time]). by destruct r.
Qed.
Lemma result_read r r' : plain (is_public r) → plain (is_token r) →
  Decode (store_struct result_fields) zero_result (Ok (Encode (enc_issue_result r))) = Ok r' → r' = r.
Proof.
  intros Hp Ht. apply decode_encode; [| |done|].
  - apply object_wf. each_member; text_member.
  - apply object_no_html. each_member; text_member.
  - unfold enc_issue_result. rewrite store_struct_print by (apply object_wf; each_member; text_member).
    cbn [raw_members map fst snd]. do 2 (erewrite store_member; [|reflexivity|by apply field_string]). by destruct r.
Qed.
