(* ===== verification/DemoCommands.v ===== *)
(** * DemoCommands: the commands of the incident-response demo
    (demos/incident-response-agent/cmd/agent, cmd/authority-issuer and cmd/mcp-server; Open and
    Close of internal/postgres/store.go; NewMCPServer of internal/tools/tools.go)

    The agent reads its input, lets the issuer sign an authority for it, starts the tool
    server with the public key, and runs the workflow.  Other processes, the environment and
    the standard streams are the [AgentHost] class, the MCP session is [Client]; the pgx pool
    is the [Pool] class and serving a session is [McpHost]. *)

From S2P Require Import Prelude GoLib Json JsonFacts GoTime GoText JsonUtil JsonText GoJson Base64 DemoTools DemoStore DemoAgent DemoJson.
From Stdlib Require Import Ascii String.

Definition default_dsn : string := "host=/run/postgresql dbname=incident_ops user=incident_app sslmode=disable".
Definition defaultIssuer : string := "/opt/epoch/bin/incident-authority-issuer".
Definition defaultServer : string := "/opt/epoch/bin/incident-ops-mcp".
Definition envOrDefault (getenv : string → string) (name fallback : string) : string :=
  let value := getenv name in if value <>?s "" then value else fallback.
(** [os.Getenv] in a process started with [env]: of equal names the last entry wins. *)
Definition getenv_of (env : list string) (name : string) : string :=
  match List.find (λ e, has_prefix e (name +:+ "=")) (rev env) with
  | Some e => string_drop (S (String.length name)) e
  | None => ""
  end.

(** [authority.DecodePublicKey]. *)
Definition DecodePublicKey (encoded : string) : result string :=
  match b64_decode encoded with
  | Some b => fail_if negb (blen b =? PublicKeySize) with Errorf "invalid Ed25519 public key" [] ;; Ok b
  | None => Err (Errorf "invalid Ed25519 public key" [])
  end.

(** ** The issuer (cmd/authority-issuer/main.go)

    The exit status, standard output and the line on standard error.  [write] is the outcome
    of writing the result. *)
Definition issuer_main `{Jwt} (keys : result (string * string)) (jti : result string) (write : string → option error)
    (args : list string) (input : result string) : Z * string * option string :=
  if negb (List.length args =? 1)%nat || negb (default ""%string (head args) =?s "issue")
  then (2, ""%string, Some "usage: incident-authority-issuer issue"%string) else
  match Decode (store_struct request_fields) zero_request input with
  | Err _ => (2, ""%string, Some "invalid issuance request"%string)
  | Ok request =>
      match IssueEphemeral keys jti b64_encode request with
      | Err _ => (1, ""%string, Some "authority issuance failed"%string)
      | Ok result =>
          let text := Encode (enc_issue_result result) in
          match write text with
          | Some _ => (1, ""%string, Some "authority output failed"%string)
          | None => (0, text, None)
          end
      end
  end.

(** ** The agent (cmd/agent/main.go)

    [ah_run path args env input] is Command.Run with the collected standard output;
    [ah_connect] starts the server command and opens a session on its streams. *)
Class AgentHost (W : Type) := {
  ah_getenv : W → string → string;
  ah_stdin : W → result string;
  ah_run : W → string → list string → list string → string → option error * string * W;
  ah_connect : W → string → list string → option error * W;
  ah_close : W → option error * W;
  ah_stdout : W → string → option error * W
}.
Section agent_command.
Context `{GoSort} {W : Type} `{AgentHost W} `{Client W}.

Definition issueAuthority (path : string) (request : IssueRequest) (w : W) : result IssueResult * W :=
  match enc_issue_request request with
  | None => (Err (Wrapf "encode authority request: %w" [] (Errorf "Time.MarshalJSON: year outside of range [0,9999]" [])), w)
  | Some document =>
      let '(e, output, w) := ah_run w path ["issue"%string] ["PATH=/usr/sbin:/usr/bin:/sbin:/bin"; "TZ=UTC"]%string (Encode document) in
      (match e with
       | Some e => Err (Wrapf "issue delegated authority: %w" [] e)
       | None =>
           fail_if MaxTokenBytes * 2 <? blen output with Errorf "authority response exceeds limit" [] ;;
           match Decode (store_struct result_fields) zero_result (Ok output) with
           | Err _ => Err (Errorf "decode authority response" [])
           | Ok r => fail_if (is_public r =?s "") || (is_token r =?s "") with Errorf "decode authority response" [] ;; Ok r
           end
       end, w)
  end.

Definition request_of (input : AgentInput) : IssueRequest :=
  {| ir_subject := ai_agent input; ir_scope := ai_scope input; ir_resource := ai_resource input;
     ir_not_before := ai_not_before input; ir_expires := ai_expires input |}.
Definition server_env (getenv : string → string) (input : AgentInput) (issued : IssueResult) : list string :=
  ["INCIDENT_AUTHORITY_PUBLIC_KEY=" +:+ is_public issued; "INCIDENT_AGENT_ID=" +:+ ai_agent input;
   "INCIDENT_DATABASE_DSN=" +:+ envOrDefault getenv "INCIDENT_DATABASE_DSN" default_dsn]%string.
(** The input of the command, decoded and checked. *)
Definition agent_input (stdin : result string) : result AgentInput :=
  match Decode (store_struct input_fields) zero_input stdin with
  | Err _ => Err (Errorf "invalid workload input" [])
  | Ok input => do? validateInput input ;; Ok input
  end.
(** From the open session on; the deferred close runs unless it was closed already. *)
Definition agent_session (input : AgentInput) (token : string) (w : W) : option error * W * list agent_call :=
  let '(r, w, t) := Run input token w in
  match r with
  | Err e => (Some e, (ah_close w).2, t)
  | Ok out =>
      let '(e, w) := ah_close w in
      match e with
      | Some e => (Some (Wrapf "close MCP stdio session: %w" [] e), (ah_close w).2, t)
      | None =>
          let failed := Some (Errorf "encode structured workload output" []) in
          match enc_workflow out with
          | None => (failed, w, t)
          | Some v => let '(e, w) := ah_stdout w (Encode v) in (match e with Some _ => failed | None => None end, w, t)
          end
      end
  end.
Definition agent_run (w : W) : option error * W * list agent_call :=
  match agent_input (ah_stdin w) with
  | Err e => (Some e, w, [])
  | Ok input =>
      let getenv := ah_getenv w in
      let '(issued, w) := issueAuthority (envOrDefault getenv "INCIDENT_AUTHORITY_ISSUER" defaultIssuer) (request_of input) w in
      match issued with
      | Err e => (Some e, w, [])
      | Ok issued =>
          let '(e, w) := ah_connect w (envOrDefault getenv "INCIDENT_MCP_SERVER" defaultServer) (server_env getenv input issued) in
          match e with
          | Some e => (Some (Wrapf "connect to MCP server: %w" [] e), w, [])
          | None => agent_session input (is_token issued) w
          end
      end
  end.
End agent_command.
(** [main] and [fatal]: the exit status. *)
Definition command_status (e : option error) : Z := match e with Some _ => 1 | None => 0 end.

(** ** The store (Open and Close of store.go) *)
Record pool_config (C : Type) := { pc_settings : C; pc_max : Z; pc_min : Z }.
Arguments Build_pool_config {C}.
Class Pool (W C : Type) := {
  pp_parse : string → result C;
  pp_new : W → pool_config C → option error * W;
  pp_ping : W → option error * W;
  pp_close : W → W
}.
Definition pool_open {W C} `{Pool W C} (w : W) (dsn : string) : result unit * W :=
  match pp_parse dsn with
  | Err e => (Err (Wrapf "parse PostgreSQL configuration: %w" [] e), w)
  | Ok config =>
      let '(e, w) := pp_new w {| pc_settings := config; pc_max := 4; pc_min := 1 |} in
      match e with
      | Some e => (Err (Wrapf "open PostgreSQL pool: %w" [] e), w)
      | None =>
          let '(e, w) := pp_ping w in
          match e with
          | Some e => (Err (Wrapf "ping PostgreSQL: %w" [] e), pp_close w)
          | None => (Ok tt, w)
          end
      end
  end.

(** ** The tool server (cmd/mcp-server/main.go) *)
(** The clock and the delay of a service (tools.go): the functions it was given, or the wall
    clock and a timer; [timer] says whether the context ended first. *)
Record service_hooks (W : Type) := { sh_now : option (W → Z * W); sh_sleep : option (W → Z → option error * W) }.
Arguments sh_now {W}.
Arguments sh_sleep {W}.
Definition service_now {W} (wall : W → Z * W) (s : service_hooks W) (w : W) : Z * W :=
  match sh_now s with None => wall w | Some now => now w end.
Definition service_sleep {W} (timer : W → Z → option error * W) (s : service_hooks W) (w : W) (d : Z) : option error * W :=
  match sh_sleep s with Some sleep => sleep w d | None => timer w d end.
(** The tools [NewMCPServer] registers, with their descriptions. *)
Definition NewMCPServer : list (string * string) :=
  [(incident_list, "List synthetic operational incidents."); (incident_inspect, "Inspect one incident and its associated workers.");
   (worker_status, "Read one worker's database-backed status.");
   (worker_restart, "Perform an authorized simulated worker restart transaction.")]%string.
(** [mh_serve v tools] is Server.Run over the standard streams, with the service of [v]. *)
Class McpHost (W : Type) := { mh_serve : W → Validator → list (string * string) → option error * W }.
Section server_command.
Context {W C : Type} `{Pool W C} `{McpHost W}.
Definition mcp_config (getenv : string → string) : result (Validator * string) :=
  match DecodePublicKey (getenv "INCIDENT_AUTHORITY_PUBLIC_KEY") with
  | Err _ => Err (Errorf "authority public key is unavailable" [])
  | Ok key =>
      let subject := getenv "INCIDENT_AGENT_ID" in
      fail_if subject =?s "" with Errorf "expected agent subject is unavailable" [] ;;
      Ok ({| va_key := key; va_subject := subject |}, envOrDefault getenv "INCIDENT_DATABASE_DSN" default_dsn)
  end.
(** Everything before the first request. *)
Definition mcp_start (getenv : string → string) (w : W) : result Validator * W :=
  match mcp_config getenv with
  | Err e => (Err e, w)
  | Ok (v, dsn) => let '(r, w) := pool_open w dsn in ((let? _ := r in Ok v), w)
  end.
Definition mcp_run (getenv : string → string) (w : W) : option error * W :=
  let '(r, w) := mcp_start getenv w in
  match r with
  | Err e => (Some e, w)
  | Ok v => let '(e, w) := mh_serve w v NewMCPServer in
            (match e with Some e => Some (Wrapf "MCP stdio server failed: %w" [] e) | None => None end, pp_close w)
  end.
End server_command.

(** ** Facts *)
(** The three commands agree on how the key is handed over. *)
Lemma public_key_read key : blen key = PublicKeySize → DecodePublicKey (b64_encode key) = Ok key.
Proof. intros Hk. unfold DecodePublicKey. by rewrite b64_roundtrip, Hk. Qed.
Lemma getenv_server getenv input issued :
  getenv_of (server_env getenv input issued) "INCIDENT_AUTHORITY_PUBLIC_KEY" = is_public issued ∧
  getenv_of (server_env getenv input issued) "INCIDENT_AGENT_ID" = ai_agent input.
Proof. done. Qed.
