(* ===== verification/DemoBootstrap.v ===== *)
(** * DemoBootstrap: preparing the demo's PostgreSQL
    (demos/incident-response-agent/internal/postgres/bootstrap.go, cmd/postgres-bootstrap/main.go,
    and the SQL files the former embeds)

    [InitCluster] makes a data directory once and marks it when it is complete;
    [PrepareDatabase] makes role, database, tables and synthetic rows.  Files and the initdb
    program are the [ClusterHost] class with its laws; connecting is the [Admin] class; what
    the statements do is written out on the server's state, whose failures, commits and
    clock are those of [PgEnv]. *)

From S2P Require Import Prelude GoLib Json JsonFacts GoTime GoText JsonUtil DemoTools DemoStore DemoAgent DemoJson DemoCommands.
From Stdlib Require Import Ascii String.

Definition DatabaseName : string := "incident_ops".
Definition DatabaseUser : string := "incident_app".

(** ** The cluster *)
(** [ch_write_file] is os.WriteFile and [ch_append] the write to a file opened with
    [ch_open_append]; [ch_initdb path args env] runs the program. *)
Class ClusterHost (W : Type) := {
  ch_stat : W → string → option error;
  ch_mkdir_all : W → string → option error * W;
  ch_initdb : W → string → list string → list string → option error * W;
  ch_open_append : W → string → option error * W;
  ch_append : W → string → string → option error * W;
  ch_close : W → string → W;
  ch_write_file : W → string → string → option error * W
}.
Definition lines (l : list string) : string := List.fold_right (λ a r, a +:+ String (chr 10) r)%string ""%string l.
Definition cluster_configuration : string :=
  lines [""; "# Epoch incident-response reference application."; "listen_addresses = ''";
         "unix_socket_directories = '/run/postgresql'"; "unix_socket_group = 'epoch-workload'";
         "unix_socket_permissions = 0770"; "timezone = 'UTC'"; "log_timezone = 'UTC'"; "logging_collector = off"]%string.
Definition hostAuthentication : string :=
  lines ["# Local Unix-socket access only; TCP is disabled."; "local all postgres peer";
         "local incident_ops incident_app peer map=incident_map"; "local all all reject"]%string.
Definition identityMap : string :=
  lines ["# Map the constrained workload user to the least-privileged database role.";
         "incident_map epoch-workload incident_app"]%string.
Definition cluster_marker : string := lines ["epoch-incident-postgresql/v1"%string].

Section cluster.
Context {W : Type} `{ClusterHost W}.
Definition appendFile (path content : string) (w : W) : option error * W :=
  let '(e, w) := ch_open_append w path in
  match e with
  | Some e => (Some (Wrapf "open %s: %w" [path_base path] e), w)
  | None =>
      let '(e, w) := ch_append w path content in
      let w := ch_close w path in
      (match e with Some e => Some (Wrapf "write %s: %w" [path_base path] e) | None => None end, w)
  end.
(** A step with the text its error is wrapped in. *)
Definition wrapped (what : string) (r : option error * W) : option error * W :=
  (match r.1 with Some e => Some (Wrapf what [] e) | None => None end, r.2).
Definition andThen (r : option error * W) (k : W → option error * W) : option error * W :=
  match r with (Some e, w) => (Some e, w) | (None, w) => k w end.

Definition inside (dataDir name : string) : string := path_join [dataDir; name].
Definition fill_cluster (dataDir : string) (w : W) : option error * W :=
  andThen (appendFile (inside dataDir "postgresql.conf") cluster_configuration w) (λ w,
  andThen (wrapped "write pg_hba.conf: %w" (ch_write_file w (inside dataDir "pg_hba.conf") hostAuthentication)) (λ w,
  andThen (wrapped "write pg_ident.conf: %w" (ch_write_file w (inside dataDir "pg_ident.conf") identityMap)) (λ w,
  wrapped "write Epoch cluster marker: %w" (ch_write_file w (inside dataDir ".epoch-incident-cluster") cluster_marker)))).
Definition initdb_args (dataDir : string) : list string :=
  ["--pgdata=" +:+ dataDir; "--encoding=UTF8"; "--locale=C.UTF-8"; "--auth-local=reject"; "--auth-host=reject";
   "--no-instructions"]%string.
Definition InitCluster (initDBPath dataDir : string) (w : W) : option error * W :=
  if negb (is_abs initDBPath) || negb (is_abs dataDir)
  then (Some (Errorf "initdb and data directory paths must be absolute" []), w) else
  match ch_stat w (inside dataDir "PG_VERSION"), ch_stat w (inside dataDir ".epoch-incident-cluster") with
  | None, None => (None, w)
  | None, Some _ | Some _, None => (Some (Errorf "PostgreSQL data directory contains an incomplete prior initialization" []), w)
  | Some versionErr, Some markerErr =>
      if negb (err_is "os.ErrNotExist" versionErr) then (Some (Wrapf "inspect PostgreSQL version marker: %w" [] versionErr), w)
      else if negb (err_is "os.ErrNotExist" markerErr) then (Some (Wrapf "inspect Epoch cluster marker: %w" [] markerErr), w)
      else
        andThen (wrapped "create PostgreSQL data directory: %w" (ch_mkdir_all w dataDir)) (λ w,
        andThen (wrapped "initialize PostgreSQL cluster: %w"
                   (ch_initdb w initDBPath (initdb_args dataDir)
                      ["LANG=C.UTF-8"; "LC_ALL=C.UTF-8"; "PATH=/usr/sbin:/usr/bin:/sbin:/bin"]%string)) (fill_cluster dataDir))
  end.
End cluster.

(** What files do: [ch_content] is what a path holds.  A failed write may leave anything in its
    own file; initdb may write any file of the directory except the marker, which it does
    not know. *)
Class LawfulCluster (W : Type) `{ClusterHost W} := {
  ch_content : W → string → option string;
  stat_present (w : W) p : ch_stat w p = None → is_Some (ch_content w p);
  stat_absent (w : W) p e : ch_stat w p = Some e → err_is "os.ErrNotExist" e = true → ch_content w p = None;
  mkdir_frame (w : W) d p : ch_content (ch_mkdir_all w d).2 p = ch_content w p;
  initdb_law (w : W) program d args env : args = initdb_args d →
    ch_content (ch_initdb w program args env).2 (inside d ".epoch-incident-cluster") = ch_content w (inside d ".epoch-incident-cluster");
  open_frame (w : W) p q : ch_content (ch_open_append w p).2 q = ch_content w q;
  open_law (w : W) p : (ch_open_append w p).1 = None → is_Some (ch_content w p);
  append_law (w : W) p s t : (ch_append w p t).1 = None → ch_content w p = Some s →
    ch_content (ch_append w p t).2 p = Some (s +:+ t)%string;
  append_frame (w : W) p t q : q ≠ p → ch_content (ch_append w p t).2 q = ch_content w q;
  close_frame (w : W) p q : ch_content (ch_close w p) q = ch_content w q;
  write_file_law (w : W) p t : (ch_write_file w p t).1 = None → ch_content (ch_write_file w p t).2 p = Some t;
  write_file_frame (w : W) p t q : q ≠ p → ch_content (ch_write_file w p t).2 q = ch_content w q
}.

(** *** A marked directory is complete *)
Definition file_name (s : string) : Prop := no_slash s ∧ plain_part s.
Lemma inside_ne d a b : is_abs d = true → file_name a → file_name b → a ≠ b → inside d a ≠ inside d b.
Proof. intros Hd [Ha1 Ha2] [Hb1 Hb2] Hne Heq. apply Hne. rewrite <-(join_name d a), <-(join_name d b) by done. unfold inside in Heq. by rewrite Heq. Qed.
Ltac other_file := apply inside_ne; [assumption|by repeat split|by repeat split|done].
Lemma wrapped_2 {W} what (r : option error * W) : (wrapped what r).2 = r.2 ∧ ((wrapped what r).1 = None ↔ r.1 = None).
Proof. destruct r as [[e|] w]; done. Qed.

Section cluster_facts.
Context {W : Type} `{LawfulCluster W} (d : string) (Hd : is_abs d = true).
Abbreviation file name w := (ch_content w (inside d name)).
Definition marked (w : W) : Prop := is_Some (ch_content w (inside d ".epoch-incident-cluster")).
(** The configuration that closes TCP and maps the workload user, as the marker promises. *)
Record configured (w : W) : Prop := {
  cf_server : ∃ base, ch_content w (inside d "postgresql.conf") = Some (base +:+ cluster_configuration)%string;
  cf_access : ch_content w (inside d "pg_hba.conf") = Some hostAuthentication;
  cf_identity : ch_content w (inside d "pg_ident.conf") = Some identityMap
}.
Lemma append_file_law name content (w w' : W) e : appendFile (inside d name) content w = (e, w') →
  (e = None → ∃ base, ch_content w' (inside d name) = Some (base +:+ content)%string) ∧
  ∀ q, q ≠ inside d name → ch_content w' q = ch_content w q.
Proof.
  unfold appendFile. pose proof (open_frame w (inside d name)) as Ho. pose proof (open_law w (inside d name)) as Hl.
  destruct (ch_open_append w _) as [[e1|] w1]; cbn [fst snd] in *; [intros [= <- <-]; done|].
  destruct (Hl eq_refl) as [base Hb]. rewrite <-Ho in Hb.
  pose proof (append_law w1 (inside d name) base content) as Ha. pose proof (append_frame w1 (inside d name) content) as Hf.
  destruct (ch_append w1 _ content) as [e2 w2]. cbn [fst snd] in *. intros [= <- <-]. split.
  - intros He. exists base. rewrite close_frame. apply Ha; [by destruct e2|done].
  - intros q Hq. by rewrite close_frame, Hf, Ho.
Qed.
Lemma fill_law (w w' : W) e : fill_cluster d w = (e, w') → ¬ marked w → (marked w' → configured w') ∧ (e = None → marked w').
Proof.
  unfold fill_cluster, andThen, marked. intros Hf Hm.
  destruct (appendFile _ _ w) as [e1 w1] eqn:Ea. apply append_file_law in Ea as [Hconf Hframe1].
  assert (Hm1 : ¬ is_Some (file ".epoch-incident-cluster" w1)) by (rewrite Hframe1; [done|other_file]).
  destruct e1 as [e1|]; [injection Hf as <- <-; done|]. destruct (Hconf eq_refl) as [base Hbase]. clear Hconf Hframe1.
  pose proof (write_file_law w1 (inside d "pg_hba.conf") hostAuthentication) as Hw. pose proof (write_file_frame w1 (inside d "pg_hba.conf") hostAuthentication) as Hwf.
  destruct (ch_write_file w1 _ _) as [[e2|] w2]; cbn [wrapped fst snd] in *.
  { injection Hf as <- <-. rewrite Hwf by other_file. done. }
  assert (Hm2 : ¬ is_Some (file ".epoch-incident-cluster" w2)) by (rewrite Hwf; [done|other_file]).
  assert (Hb2 : file "postgresql.conf" w2 = Some (base +:+ cluster_configuration)%string) by (rewrite Hwf; [done|other_file]).
  specialize (Hw eq_refl). clear Hwf.
  pose proof (write_file_law w2 (inside d "pg_ident.conf") identityMap) as Hi. pose proof (write_file_frame w2 (inside d "pg_ident.conf") identityMap) as Hif.
  destruct (ch_write_file w2 _ _) as [[e3|] w3]; cbn [wrapped fst snd] in *.
  { injection Hf as <- <-. rewrite Hif by other_file. done. }
  specialize (Hi eq_refl). injection Hf as <- <-.
  pose proof (write_file_law w3 (inside d ".epoch-incident-cluster") cluster_marker) as Hk.
  pose proof (write_file_frame w3 (inside d ".epoch-incident-cluster") cluster_marker) as Hkf. split.
  - intros _. split; [exists base|..]; rewrite Hkf by other_file; [rewrite Hif by other_file; done|rewrite Hif by other_file; done|done].
  - destruct (ch_write_file w3 _ _) as [[e4|] w4]; cbn in *; [done|]. intros _. by rewrite Hk.
Qed.
Lemma init_law program (w w' : W) e : InitCluster program d w = (e, w') → (marked w → configured w) →
  (marked w' → configured w') ∧ (e = None → marked w').
Proof.
  intros Hi Hw. unfold InitCluster in Hi. destruct (_ || _); [by injection Hi as <- <-|].
  destruct (ch_stat w (inside d "PG_VERSION")) as [ve|] eqn:Ev, (ch_stat w (inside d ".epoch-incident-cluster")) as [me|] eqn:Em.
  - destruct (err_is "os.ErrNotExist" ve); cbn [negb] in Hi; [|by injection Hi as <- <-].
    destruct (err_is "os.ErrNotExist" me) eqn:Eme; cbn [negb] in Hi; [|by injection Hi as <- <-].
    pose proof (stat_absent _ _ _ Em Eme) as Hnone. pose proof (mkdir_frame w d) as Hmk. unfold andThen at 1 in Hi.
    destruct (ch_mkdir_all w d) as [[e1|] w1]; cbn [wrapped fst snd] in *.
    { injection Hi as <- <-. unfold marked. rewrite Hmk, Hnone. split; [by intros []|done]. }
    match type of Hi with context [ch_initdb w1 program ?args ?env] => pose proof (initdb_law w1 program d args env eq_refl) as Hdb end.
    unfold andThen in Hi. destruct (ch_initdb w1 _ _ _) as [[e2|] w2]; cbn [wrapped fst snd] in *.
    { injection Hi as <- <-. unfold marked. rewrite Hdb, Hmk, Hnone. split; [by intros []|done]. }
    apply (fill_law w2); [done|]. unfold marked. rewrite Hdb, Hmk, Hnone. by intros [].
  - by injection Hi as <- <-.
  - by injection Hi as <- <-.
  - injection Hi as <- <-. split; [done|]. intros _. by apply stat_present.
Qed.
End cluster_facts.

(** C30.  A data directory that carries the marker is complete, whatever happened before: after any
    number of runs of InitCluster from a directory without the marker, each with any
    program and any failure at any call, a marker there means that the access rules and the
    identity map are exactly the intended ones and the server configuration ends with the
    part that disables TCP; and a run that reports success has left the marker. *)
Theorem cluster_complete {W} `{LawfulCluster W} d (w0 w : W) : is_abs d = true → ¬ marked d w0 →
  rtc (λ w w' : W, ∃ program e, InitCluster program d w = (e, w')) w0 w →
  (marked d w → configured d w) ∧ ∀ program w', InitCluster program d w = (None, w') → marked d w' ∧ configured d w'.
Proof.
  intros Hd Hm Hr. assert (Hw : marked d w → configured d w).
  { revert Hr. revert w. apply (rtc_ind_r (λ w, marked d w → configured d w)); [done|].
    intros w1 w2 _ (program & e & Hi) IH. by apply (init_law d Hd _ _ _ _ Hi). }
  split; [done|]. intros program w' Hi. destruct (init_law d Hd _ _ _ _ Hi Hw) as [Hc Hk]. auto.
Qed.
(** Files in memory, with an initdb that writes its own files. *)
#[export] Instance memory_cluster : ClusterHost (gmap string string) := {|
  ch_stat w p := if w !! p is Some _ then None else Some ErrNotExist;
  ch_mkdir_all w _ := (None, w);
  ch_initdb w _ args _ :=
    match args with
    | arg :: _ => let d := string_drop 9 arg in
                  if decide (inside d "postgresql.conf" = inside d ".epoch-incident-cluster"
                             ∨ inside d "PG_VERSION" = inside d ".epoch-incident-cluster") then (Some ErrNotExist, w)
                  else (None, <[inside d "postgresql.conf" := "# defaults"%string]> (<[inside d "PG_VERSION" := "16"%string]> w))
    | [] => (Some ErrNotExist, w)
    end;
  ch_open_append w p := (if w !! p is Some _ then None else Some ErrNotExist, w);
  ch_append w p t := (None, alter (λ s, s +:+ t)%string p w);
  ch_close w _ := w;
  ch_write_file w p t := (None, <[p := t]> w)
|}.
#[export] Instance memory_cluster_lawful : LawfulCluster (gmap string string).
Proof.
  refine {| ch_content w p := w !! p |}.
  - intros w p. cbn. by destruct (w !! p).
  - intros w p e. cbn. by destruct (w !! p).
  - done.
  - intros w program d args env ->. cbn [ch_initdb memory_cluster initdb_args].
    change (string_drop 9 ("--pgdata=" +:+ d)) with d. destruct (decide _) as [|Hne]; [done|]. cbn.
    rewrite !lookup_insert_ne by naive_solver. done.
  - done.
  - intros w p. cbn. by destruct (w !! p).
  - intros w p s t _ Hs. cbn in *. by rewrite lookup_alter_eq, Hs.
  - intros w p t q Hq. cbn. by rewrite lookup_alter_ne.
  - done.
  - intros w p t _. cbn. apply lookup_insert_eq.
  - intros w p t q Hq. cbn. by rewrite lookup_insert_ne.
Defined.
Lemma cluster_complete_witness : ∃ w : gmap string string, marked "/data" w ∧ configured "/data" w.
Proof.
  assert (Hok : match InitCluster "/usr/bin/initdb" "/data" (∅ : gmap string string) with (None, _) => True | _ => False end)
    by (vm_compute; exact I).
  destruct (InitCluster "/usr/bin/initdb" "/data" ∅) as [[e|] w] eqn:Ei; [contradiction|]. exists w.
  assert (Hm : ¬ marked "/data" (∅ : gmap string string)) by (intros [s Hs]; vm_compute in Hs; discriminate).
  apply (proj2 (cluster_complete "/data" ∅ ∅ eq_refl Hm (rtc_refl _ _)) _ _ Ei).
Defined.

(** ** The database *)
(** 001_schema.sql makes four tables where there are none, and 001_synthetic.sql empties them,
    restarts the audit numbers and inserts one incident and one worker. *)
Definition empty_tables : Database := {| db_incidents := ∅; db_workers := ∅; db_uses := ∅; db_audit := [] |}.
Definition seed_time : Z := utc_midnight 2035 1 1 + secs (11 * 3600 + 50 * 60).
Definition seed_incident : Incident :=
  {| in_id := "INC-2026-001"; in_service := "payments-api"; in_severity := "critical";
     in_summary := "Elevated payment request failures"; in_status := "active"; in_created := seed_time |}.
Definition seed_worker : Worker :=
  {| wo_id := "payments-worker-17"; wo_service := "payments-api"; wo_health := "unhealthy"; wo_count := 0; wo_updated := seed_time |}.
Definition seed_tables : Database :=
  {| db_incidents := {[in_id seed_incident := seed_incident]}; db_workers := {[wo_id seed_worker := seed_worker]};
     db_uses := ∅; db_audit := [] |}.

(** The server: whether the role and the database exist, the tables with the next audit
    number, and its environment. *)
Record server (E : Type) := { sv_role : bool; sv_database : bool; sv_tables : option (Database * Z); sv_env : E }.
Arguments Build_server {E}.
Arguments sv_role {E}.
Arguments sv_database {E}.
Arguments sv_tables {E}.
Arguments sv_env {E}.
(** [ad_connect] is pgx.Connect and [ad_connect_config config database] is pgx.ConnectConfig;
    [ad_pause] waits for a tenth of a second or returns the error of a context that ended
    first; [ad_parse] is pgx.ParseConfig. *)
Class Admin (E : Type) := {
  ad_connect : E → string → option error * E;
  ad_connect_config : E → string → string → option error * E;
  ad_pause : E → option error * E;
  ad_parse : string → result string
}.

Section prepare.
Context {E : Type} `{PgEnv E} `{Admin E}.
Implicit Types s : server E.
Definition at_env (s : server E) (env : E) : server E :=
  {| sv_role := sv_role s; sv_database := sv_database s; sv_tables := sv_tables s; sv_env := env |}.
Definition at_tables (s : server E) (t : option (Database * Z)) : server E :=
  {| sv_role := sv_role s; sv_database := sv_database s; sv_tables := t; sv_env := sv_env s |}.
Definition asked_server (s : server E) : option error * server E := let '(e, env) := pg_fault (sv_env s) in (e, at_env s env).

Fixpoint connect_loop (fuel : nat) (dsn : string) (deadline : Z) (env : E) : option (result unit * E) :=
  match fuel with
  | O => None
  | S fuel =>
      let '(e, env) := ad_connect env dsn in
      match e with
      | None => Some (Ok tt, env)
      | Some lastErr =>
          let '(now, env) := pg_time env in
          if deadline <? now then Some (Err (Wrapf "wait for PostgreSQL readiness: %w" [] lastErr), env) else
          let '(e, env) := ad_pause env in
          match e with Some e => Some (Err e, env) | None => connect_loop fuel dsn deadline env end
      end
  end.
Definition connectWithRetry (fuel : nat) (dsn : string) (timeout : Z) (env : E) : option (result unit * E) :=
  let '(now, env) := pg_time env in connect_loop fuel dsn (now + timeout) env.

Definition step (what : string) (r : option error * server E) (k : server E → option error * server E) : option error * server E :=
  match r with (Some e, s) => (Some (Wrapf what [] e), s) | (None, s) => k s end.
Definition create_role (s : server E) : option error * server E :=
  let '(e, s) := asked_server s in
  (e, if e is None then {| sv_role := true; sv_database := sv_database s; sv_tables := sv_tables s; sv_env := sv_env s |} else s).
Definition create_database (s : server E) : option error * server E :=
  let '(e, s) := asked_server s in
  (e, if e is None then {| sv_role := sv_role s; sv_database := true; sv_tables := sv_tables s; sv_env := sv_env s |} else s).
(** The transaction, with the deferred rollback; [before] is what it restores. *)
Definition prepare_tx (s : server E) : option error * server E :=
  let before := sv_tables s in
  let undo (r : option error * server E) := (r.1, if r.1 is Some _ then at_tables r.2 before else r.2) in
  step "begin database preparation: %w" (asked_server s) (λ s,
  undo (step "assume application role: %w" (asked_server s) (λ s,
  step "apply schema: %w" (asked_server s) (λ s, let s := at_tables s (Some (default (empty_tables, 1) (sv_tables s))) in
  step "reset synthetic data: %w" (asked_server s) (λ s, let s := at_tables s (Some (seed_tables, 1)) in (None, s)))))).
Definition commit_tx (before : option (Database * Z)) (s : server E) : option error * server E :=
  let '(o, env) := pg_commit (sv_env s) in
  let s := at_env s env in
  match o with
  | Committed => (None, s)
  | Refused e => (Some (Wrapf "commit database preparation: %w" [] e), at_tables s before)
  | Unconfirmed e => (Some (Wrapf "commit database preparation: %w" [] e), s)
  end.
Definition prepare_application (dsn : string) (s : server E) : option error * server E :=
  match ad_parse dsn with
  | Err e => (Some (Wrapf "parse application database configuration: %w" [] e), s)
  | Ok config =>
      let '(e, env) := ad_connect_config (sv_env s) config DatabaseName in
      let s := at_env s env in
      match e with
      | Some e => (Some (Wrapf "connect to application database: %w" [] e), s)
      | None => let before := sv_tables s in
                match prepare_tx s with
                | (Some e, s) => (Some e, s)
                | (None, s) => commit_tx before s
                end
      end
  end.
Definition prepare_admin (dsn : string) (s : server E) : option error * server E :=
  step "create application role: %w" (create_role s) (λ s,
  step "inspect application database: %w" (asked_server s) (λ s,
  if negb (sv_database s) then step "create application database: %w" (create_database s) (prepare_application dsn)
  else prepare_application dsn s)).
Definition PrepareDatabase (fuel : nat) (adminDSN : string) (s : server E) : option (option error * server E) :=
  let! (r, env) := connectWithRetry fuel adminDSN (30 * nsec_per_sec) (sv_env s) in
  let s := at_env s env in
  Some (match r with Err e => (Some e, s) | Ok _ => prepare_admin adminDSN s end).
End prepare.

(** *** The command (cmd/postgres-bootstrap/main.go): the exit status *)
Definition defaultInitDB : string := "/usr/lib/postgresql/16/bin/initdb".
Definition defaultData : string := "/var/lib/postgresql/epoch".
Definition defaultAdmin : string := "host=/run/postgresql dbname=postgres user=postgres sslmode=disable".
Definition bootstrap_main {W E} `{ClusterHost W} `{PgEnv E} `{Admin E} (fuel : nat) (getenv : string → string) (args : list string)
    (w : W) (s : server E) : option (Z * W * server E) :=
  match args with
  | [cmd] =>
      if cmd =?s "init" then
        let '(e, w) := InitCluster (envOrDefault getenv "INCIDENT_INITDB" defaultInitDB)
                                   (envOrDefault getenv "INCIDENT_PGDATA" defaultData) w in
        Some (command_status e, w, s)
      else if cmd =?s "prepare" then
        let! (e, s) := PrepareDatabase fuel (envOrDefault getenv "INCIDENT_ADMIN_DSN" defaultAdmin) s in
        Some (command_status e, w, s)
      else Some (1, w, s)
  | _ => Some (1, w, s)
  end.

(** *** Facts *)
(** Clocks: readings do not go back, nothing else turns the clock back, and the pause lasts. *)
Class TimedAdmin (E : Type) `{PgEnv E} `{Admin E} := {
  clock_at : E → Z;
  time_reads (e : E) : (pg_time e).1 = clock_at e;
  time_on (e : E) : clock_at e ≤ clock_at (pg_time e).2;
  connect_on (e : E) dsn : clock_at e ≤ clock_at (ad_connect e dsn).2;
  pause_on (e : E) : (ad_pause e).1 = None → clock_at e + 100 * millisecond ≤ clock_at (ad_pause e).2
}.
Lemma connect_ends {E} `{TimedAdmin E} dsn deadline fuel : ∀ env, deadline < clock_at env + Z.of_nat fuel * (100 * millisecond) →
  is_Some (connect_loop (S fuel) dsn deadline env).
Proof.
  induction fuel as [|fuel IH]; intros env Hf; cbn [connect_loop]; pose proof (connect_on env dsn) as Hc;
    (destruct (ad_connect env dsn) as [[e|] env1]; [|done]); cbn [snd] in Hc; pose proof (time_reads env1) as Hr; pose proof (time_on env1) as Ht;
    destruct (pg_time env1) as [now env2]; cbn [fst snd] in Hr, Ht; destruct (Z.ltb_spec deadline now) as [|Hlate]; try done; [lia|].
  pose proof (pause_on env2) as Hp. destruct (ad_pause env2) as [[e1|] env3]; [done|]. cbn [fst snd] in Hp. specialize (Hp eq_refl).
  apply IH. unfold millisecond in *. lia.
Qed.

Section prepare_facts.
Context {E : Type} `{PgEnv E} `{Admin E}.
Lemma asked_keeps (s s' : server E) e : asked_server s = (e, s') → sv_role s' = sv_role s ∧ sv_database s' = sv_database s ∧ sv_tables s' = sv_tables s.
Proof. unfold asked_server. destruct (pg_fault (sv_env s)). by intros [= <- <-]. Qed.
Lemma step_spec what r k (s' : server E) e : step what r k = (e, s') → (∃ e1, r = (Some e1, s') ∧ is_Some e) ∨ (∃ s1, r = (None, s1) ∧ k s1 = (e, s')).
Proof. destruct r as [[e1|] s1]; cbn; [intros [= <- <-]; left; by exists e1|right; by exists s1]. Qed.
Lemma tx_spec (s s' : server E) e : prepare_tx s = (e, s') → sv_role s' = sv_role s ∧ sv_database s' = sv_database s ∧
  sv_tables s' = match e with Some _ => sv_tables s | None => Some (seed_tables, 1) end.
Proof.
  unfold prepare_tx. intros [(e1 & Ha%asked_keeps & [e2 ->])|(s1 & (Hr1 & Hd1 & Ht1)%asked_keeps & Hk)]%step_spec; [done|].
  destruct (step _ _ _) as [e2 s2] eqn:Es. cbn in Hk. injection Hk as <- <-.
  assert (Hs : sv_role s2 = sv_role s1 ∧ sv_database s2 = sv_database s1 ∧ (e2 = None → sv_tables s2 = Some (seed_tables, 1))).
  { apply step_spec in Es as [(e1 & Ha%asked_keeps & [? ->])|(s3 & (Hr3 & Hd3 & _)%asked_keeps & Hk)]; [naive_solver|].
    apply step_spec in Hk as [(e1 & Ha%asked_keeps & [? ->])|(s4 & (Hr4 & Hd4 & _)%asked_keeps & Hk)]; [naive_solver|]. cbv zeta in Hk.
    apply step_spec in Hk as [(e1 & Ha%asked_keeps & [? ->])|(s5 & (Hr5 & Hd5 & _)%asked_keeps & Hk)]; cbn in *; [naive_solver congruence|].
    injection Hk as <- <-. cbn. split_and!; congruence || done. }
  destruct Hs as (Hr2 & Hd2 & Ht2). destruct e2; cbn; split_and!; try congruence. by apply Ht2.
Qed.
(** The tables are the old ones or the prepared ones. *)
Record prepared (s s' : server E) (e : option error) : Prop := {
  pd_role : sv_role s = true → sv_role s' = true;
  pd_database : sv_database s = true → sv_database s' = true;
  pd_tables : sv_tables s' = sv_tables s ∨ sv_tables s' = Some (seed_tables, 1);
  pd_done : e = None → sv_tables s' = Some (seed_tables, 1)
}.
Lemma application_prepared dsn (s s' : server E) e : prepare_application dsn s = (e, s') → prepared s s' e ∧ sv_role s' = sv_role s ∧ sv_database s' = sv_database s.
Proof.
  unfold prepare_application. destruct (ad_parse dsn) as [config|e1]; [|intros [= <- <-]; split; [split; by auto|done]].
  destruct (ad_connect_config _ _ _) as [[e1|] env]; [intros [= <- <-]; split; [split; by auto|done]|].
  destruct (prepare_tx _) as [e1 s1] eqn:Et. apply tx_spec in Et as (Hr & Hd & Ht). cbn in Hr, Hd, Ht.
  destruct e1 as [e1|]; [intros [= <- <-]; split; [split; by auto with congruence|done]|].
  unfold commit_tx. destruct (pg_commit (sv_env s1)) as [[|e2|e2] env1]; intros [= <- <-]; (split; [split; cbn; by auto with congruence|done]).
Qed.
Lemma admin_prepared dsn (s s' : server E) e : prepare_admin dsn s = (e, s') →
  prepared s s' e ∧ (e = None → sv_role s' = true ∧ sv_database s' = true).
Proof.
  unfold prepare_admin. intros [(e1 & Ha & [e2 ->])|(s1 & Ha & Hk)]%step_spec; unfold create_role in Ha;
    destruct (asked_server s) as [e3 s2] eqn:E1; apply asked_keeps in E1 as (Hr1 & Hd1 & Ht1).
  { injection Ha as -> <-. split; [split|]; naive_solver congruence. }
  destruct e3; [done|]. injection Ha as <-. apply step_spec in Hk as [(e1 & (Hr & Hd & Ht)%asked_keeps & [e2 ->])|(s3 & (Hr & Hd & Ht)%asked_keeps & Hk)];
    cbn in Hr, Hd, Ht.
  { split; [split|]; naive_solver congruence. }
  destruct (sv_database s3) eqn:Ed; cbn [negb] in Hk.
  - apply application_prepared in Hk as ([P1 P2 P3 P4] & Hr4 & Hd4).
    split; [split; [intros _; congruence|intros _; congruence| |done]|intros _; split; congruence]. destruct P3; [left; congruence|by right].
  - apply step_spec in Hk as [(e1 & Ha & [e2 ->])|(s4 & Ha & Hk)]; unfold create_database in Ha;
      destruct (asked_server s3) as [e3 s5] eqn:E3; apply asked_keeps in E3 as (Hr5 & Hd5 & Ht5).
    { injection Ha as -> <-. split; [split|]; naive_solver congruence. }
    destruct e3; [done|]. injection Ha as <-. apply application_prepared in Hk as ([P1 P2 P3 P4] & Hr4 & Hd4). cbn in *.
    split; [split; [intros _; congruence|intros _; congruence| |done]|intros _; split; congruence]. destruct P3; [left; congruence|by right].
Qed.
End prepare_facts.

(** C31.  Preparing the demo's database always comes to an end and is all or nothing: with clocks
    that do not go back and pauses that last, 302 rounds are enough for the wait for the
    server, whatever fails; afterwards the tables are exactly what they were or exactly the
    synthetic data with fresh audit numbers, the role and the database are never lost, and
    a run that reports success has made the role, the database and the synthetic data. *)
Theorem prepare_atomic {E} `{TimedAdmin E} fuel dsn (s : server E) : (302 ≤ fuel)%nat →
  ∃ e s', PrepareDatabase fuel dsn s = Some (e, s') ∧ prepared s s' e ∧ (e = None → sv_role s' = true ∧ sv_database s' = true).
Proof.
  intros Hf. unfold PrepareDatabase, connectWithRetry. pose proof (time_reads (sv_env s)) as Hr. pose proof (time_on (sv_env s)) as Ht.
  destruct (pg_time (sv_env s)) as [now env]. cbn [fst snd] in Hr, Ht. destruct fuel as [|fuel]; [lia|].
  destruct (connect_ends dsn (now + 30 * nsec_per_sec) fuel env) as [[r env1] ->].
  { unfold millisecond, nsec_per_sec in *. lia. }
  destruct r as [[]|e].
  - destruct (prepare_admin dsn (at_env s env1)) as [e s'] eqn:Ep. exists e, s'. split; [done|].
    destruct (admin_prepared _ _ _ _ Ep) as [[P1 P2 P3 P4] P5]. by split.
  - eexists _, _. split; [done|]. split; [split; by auto|done].
Qed.
(** A server that answers after five seconds. *)
#[export] Instance slow_admin : Admin Z := {|
  ad_connect t _ := (if t <? 5000000000 then Some ErrNotExist else None, t); ad_connect_config t _ _ := (None, t);
  ad_pause t := (None, t + 100 * millisecond); ad_parse dsn := Ok dsn
|}.
#[export] Instance slow_admin_timed : TimedAdmin Z.
Proof. refine {| clock_at t := t |}; intros; cbn; unfold millisecond; lia. Defined.
Definition bare_server : server Z := {| sv_role := false; sv_database := false; sv_tables := None; sv_env := 0 |}.
Lemma prepare_atomic_witness :
  ∃ s', PrepareDatabase 302 defaultAdmin bare_server = Some (None, s') ∧ sv_tables s' = Some (seed_tables, 1) ∧ sv_role s' = true.
Proof.
  assert (Hok : match PrepareDatabase 302 defaultAdmin bare_server with Some (None, _) => True | _ => False end) by (vm_compute; exact I).
  destruct (prepare_atomic 302 defaultAdmin bare_server (le_n _)) as (e & s' & Hp & Hpd & Hrd). rewrite Hp in Hok.
  destruct e; [contradiction|]. exists s'. split; [exact Hp|]. split; [exact (pd_done _ _ _ Hpd eq_refl)|exact (proj1 (Hrd eq_refl))].
Defined.
