(* ===== verification/DemoSystem.v ===== *)
(** * DemoSystem: the incident-response demo as one system

    The agent command of [DemoCommands] with the issuer command as the program it runs, the
    tool server started by the environment the agent passes, and the database of
    [DemoStore] behind it.  Every step that leaves a process may fail ([sent]); the MCP
    transport is direct calls.  The theorem is what the demo demonstrates: the database
    moves only inside the window the agent was given. *)

From S2P Require Import Prelude GoLib Json JsonFacts GoTime GoText JsonUtil JsonText GoJson Base64 DemoTools DemoStore DemoAgent DemoJson DemoCommands DemoBootstrap.
From Stdlib Require Import Ascii String.

(** [sy_keys] and [sy_jti] are what the issuer draws from its random source. *)
Record system (E : Type) := {
  sy_pg : pg E; sy_server : option Validator; sy_environ : string → string; sy_stdin : result string; sy_stdout : string;
  sy_keys : result (string * string); sy_jti : result string
}.
Arguments Build_system {E}.
Arguments sy_pg {E}.
Arguments sy_server {E}.
Arguments sy_environ {E}.
Arguments sy_stdin {E}.
Arguments sy_stdout {E}.
Arguments sy_keys {E}.
Arguments sy_jti {E}.

Section system.
Context {E : Type} `{PgEnv E} `{Jwt}.
(** How pgx reads a connection string. *)
Variable parse_dsn : string → result string.
Definition set_pg (s : system E) (p : pg E) : system E :=
  {| sy_pg := p; sy_server := sy_server s; sy_environ := sy_environ s; sy_stdin := sy_stdin s; sy_stdout := sy_stdout s;
     sy_keys := sy_keys s; sy_jti := sy_jti s |}.
Definition set_server (s : system E) (v : option Validator) : system E :=
  {| sy_pg := sy_pg s; sy_server := v; sy_environ := sy_environ s; sy_stdin := sy_stdin s; sy_stdout := sy_stdout s;
     sy_keys := sy_keys s; sy_jti := sy_jti s |}.
Definition put_stdout (s : system E) (text : string) : system E :=
  {| sy_pg := sy_pg s; sy_server := sy_server s; sy_environ := sy_environ s; sy_stdin := sy_stdin s;
     sy_stdout := sy_stdout s +:+ text; sy_keys := sy_keys s; sy_jti := sy_jti s |}.
Definition on_pg {A} (s : system E) (r : A * pg E) : A * system E := (r.1, set_pg s r.2).
Definition fault (s : system E) : option error * system E := on_pg s (sent (sy_pg s)).

#[export] Instance system_pool : Pool (system E) string :=
  {| pp_parse := parse_dsn; pp_new s _ := fault s; pp_ping s := fault s; pp_close s := s |}.
#[export] Instance system_host : AgentHost (system E) := {|
  ah_getenv := sy_environ; ah_stdin := sy_stdin;
  ah_run s _ args _ input :=
    let '(e, s) := fault s in
    match e with
    | Some e => (Some e, ""%string, s)
    | None =>
        let '(code, out, _) := issuer_main (sy_keys s) (sy_jti s) (λ _, None) args (Ok input) in
        (if code =? 0 then None else Some (Errorf "exit status" [itoa code]), out, s)
    end;
  ah_connect s _ env :=
    let '(r, s) := mcp_start (getenv_of env) s in
    match r with
    | Err e => (Some e, s)
    | Ok v => (None, set_server s (Some v))
    end;
  ah_close s := fault (set_server s None);
  ah_stdout s text := let '(e, s) := fault s in (e, if e is None then put_stdout s text else s)
|}.
Definition served {A} (s : system E) (call : Validator → pg E → result A * pg E) : result A * system E :=
  match sy_server s with
  | None => (Err (Errorf "MCP session is unavailable" []), s)
  | Some v => on_pg s (call v (sy_pg s))
  end.
#[export] Instance system_client : Client (system E) := {|
  Discover s := served s (λ v, @Discover _ (loopback v));
  call_list s status := served s (λ v w, @call_list _ (loopback v) w status);
  call_inspect s id := served s (λ v w, @call_inspect _ (loopback v) w id);
  call_status s id := served s (λ v w, @call_status _ (loopback v) w id);
  call_restart s input := served s (λ v w, @call_restart _ (loopback v) w input)
|}.
End system.
Arguments system_pool {E _}.
Arguments system_host {E _ _}.

(** ** Runs of the agent over any client *)
Section run_states.
Context `{GoSort} {W : Type} `{Client W}.
Context (R : relation W) `{!PreOrder R}.
Hypothesis quiet_discover : ∀ w, R w (Discover w).2.
Hypothesis quiet_list : ∀ w s, R w (call_list w s).2.
Hypothesis quiet_inspect : ∀ w s, R w (call_inspect w s).2.
Hypothesis quiet_status : ∀ w s, R w (call_status w s).2.
(** At most one call is not quiet, and it is the restart, with the agent's token and delay. *)
Lemma run_states input token (w w' : W) r t : Run input token w = (r, w', t) →
  R w w' ∨ ∃ w1 w2 request x, R w w1 ∧ call_restart w1 request = (x, w2) ∧ R w2 w' ∧ ri_token request = token.
Proof.
  unfold Run. pose proof (quiet_discover w) as H1. destruct (Discover w) as [[found|e] w1]; cbn in H1; [|intros [= <- <- <-]; by left].
  destruct (List.find _ required_tools); [intros [= <- <- <-]; by left|].
  pose proof (quiet_list w1 "active") as H2. destruct (call_list w1 "active") as [[listed|e] w2]; cbn in H2.
  2:{ intros [= <- <- <-]. left. by etrans. }
  assert (R w w2) as H12 by (by etrans). destruct (first_named in_id critical _) as [selected|]; [|intros [= <- <- <-]; by left].
  pose proof (quiet_inspect w2 (in_id selected)) as H3. destruct (call_inspect w2 _) as [[[incident workers]|e] w3]; cbn in H3.
  2:{ intros [= <- <- <-]. left. by etrans. }
  assert (R w w3) as H13 by (by etrans). destruct (first_named wo_id _ _) as [worker|]; [|intros [= <- <- <-]; by left].
  pose proof (quiet_status w3 (wo_id worker)) as H4. destruct (call_status w3 _) as [[status|e] w4]; cbn in H4.
  2:{ intros [= <- <- <-]. left. by etrans. }
  assert (R w w4) as H14 by (by etrans). destruct (_ <>?s _); [intros [= <- <- <-]; by left|]. unfold restart_phase.
  destruct (call_restart w4 _) as [x w5] eqn:Ex. intros Hr. right. eexists w4, w5, _, x. split; [done|]. split; [exact Ex|].
  cbn. split; [|done]. destruct x as [o|e]; [|by injection Hr as <- <- <-].
  pose proof (quiet_status w5 (wo_id status)) as H5. by destruct (call_status w5 _) as [[after|e] w6]; injection Hr as <- <- <-.
Qed.
End run_states.

(** ** What the parts do to the database *)
Section tables.
Context {E : Type} `{PgEnv E} `{Jwt}.
(** The environment of the server moves only by its own operations. *)
Inductive env_step : relation E :=
| step_fault e : env_step e (pg_fault e).2
| step_commit e : env_step e (pg_commit e).2
| step_clock e : env_step e (pg_clock e).2
| step_time e : env_step e (pg_time e).2
| step_sleep e d : env_step e (pg_sleep e d).2.
Definition passes (w w' : pg E) : Prop := rtc env_step (pg_env w) (pg_env w').
#[export] Instance passes_preorder : PreOrder passes.
Proof. split; [intros w; apply rtc_refl|]. intros w1 w2 w3 Ha Hb. unfold passes. by etrans. Qed.
Definition rests (w w' : pg E) : Prop := pg_db w' = pg_db w ∧ passes w w'.
#[export] Instance rests_preorder : PreOrder rests.
Proof. split; [done|]. intros w1 w2 w3 [D1 P1] [D2 P2]. split; [congruence|by etrans]. Qed.
Lemma sent_rests (w : pg E) : rests w (sent w).2.
Proof. unfold sent. pose proof (step_fault (pg_env w)) as Hs. destruct (pg_fault (pg_env w)). split; [done|by apply rtc_once]. Qed.
Lemma now_rests (w : pg E) : rests w (tool_now w).2.
Proof. cbn. pose proof (step_time (pg_env w)) as Hs. destruct (pg_time (pg_env w)). split; [done|by apply rtc_once]. Qed.
Lemma sleep_rests (w : pg E) d : rests w (tool_sleep w d).2.
Proof. cbn. pose proof (step_sleep (pg_env w) d) as Hs. destruct (pg_sleep (pg_env w) d). split; [done|by apply rtc_once]. Qed.
Lemma scan_rests {A} what (rows : list A) (w : pg E) : rests w (scan what rows w).2.
Proof.
  revert w. induction rows as [|r rows IH]; intros w; cbn [scan]; pose proof (sent_rests w) as Hs; destruct (sent w) as [e w1]; [done|].
  destruct e; [done|]. specialize (IH w1). destruct (scan what rows w1). cbn in *. by etrans.
Qed.
Lemma select_rests what (w : pg E) id : rests w (select_worker what w id).2.
Proof. unfold select_worker. pose proof (sent_rests w). destruct (sent w) as [[e|] w1]; [done|]. by destruct (_ !! id). Qed.
Lemma list_rests (w : pg E) status : rests w (pg_ListIncidents w status).2.
Proof.
  unfold pg_ListIncidents. pose proof (sent_rests w) as Hs. destruct (sent w) as [[e|] w1]; [done|]. etrans; [exact Hs|apply scan_rests].
Qed.
Lemma inspect_rests (w : pg E) id : rests w (pg_InspectIncident w id).2.
Proof.
  unfold pg_InspectIncident. pose proof (sent_rests w) as Hs. destruct (sent w) as [[e|] w1]; [done|]. cbn in Hs.
  destruct (_ !! id) as [incident|]; [|done]. pose proof (sent_rests w1) as Hs1. destruct (sent w1) as [[e|] w2]; cbn in Hs1 |- *; [by etrans|].
  set (rows := order_by _ _ _). pose proof (scan_rests "incident workers" rows w2) as Hsc. destruct (scan _ rows w2). cbn in *.
  etrans; [exact Hs|]. by etrans.
Qed.

(** A call of the restart tool, seen as the steps it takes on the store; a time it checked
    was read from the clock in between. *)
Definition read_at (R : relation (pg E)) (w w' : pg E) (now : Z) : Prop :=
  ∃ w0, R w w0 ∧ (tool_now w0).1 = now ∧ R (tool_now w0).2 w'.
Lemma read_at_mono R `{!PreOrder R} w0 w w' w1 now : R w0 w → read_at R w w' now → R w' w1 → read_at R w0 w1 now.
Proof. intros H0r (x & H1 & H2 & H3) H4. exists x. split; [by etrans|]. split; [done|]. by etrans. Qed.
Section restart_relation.
Context (v : Validator) (input : WorkerRestartInput) (R : relation (pg E)) `{!PreOrder R}.
Hypothesis R_rests : ∀ w w', rests w w' → R w w'.
Hypothesis R_audit : ∀ w agent tool d, R w (pg_RecordAudit w agent tool (ri_worker input) d false).2.
Hypothesis R_restart : ∀ w agent jti, R w (pg_RestartWorker w agent (ri_worker input) jti).2.
Definition traced (w w' : pg E) (t : list tool_event) : Prop :=
  R w w' ∧ ∀ now e, Checked now e ∈ t → read_at R w w' now.
Lemma traced_nil w w' : R w w' → traced w w' [].
Proof. split; [done|]. intros now e ?%not_elem_of_nil. done. Qed.
Lemma traced_check w w1 w' now e t : (∀ n e, Checked n e ∉ t) → tool_now w = (now, w1) → R w1 w' → traced w w' (Checked now e :: t).
Proof.
  intros Hno Hn Hr. assert (Hw : R w w1) by (pose proof (now_rests w) as Hx; rewrite Hn in Hx; by apply R_rests).
  split; [by etrans|]. intros n e' [[= -> ->]|Hin]%elem_of_cons; [|by destruct (Hno _ _ Hin)]. exists w. rewrite Hn. done.
Qed.
Ltac no_check := let n := fresh in let e := fresh in let Hx := fresh in intros n e Hx; set_solver.
Lemma execute_traced initial before w w' r t : execute_restart v input initial before w = (r, w', t) → traced w w' t.
Proof.
  unfold execute_restart. destruct (tool_now w) as [now w1] eqn:En.
  destruct (now <? _). { intros [= <- <- <-]. apply traced_nil, R_rests. pose proof (now_rests w) as Hx. by rewrite En in Hx. }
  destruct (Evaluate v _ now _ _) as [d c]. cbn [ev_decision ev_claims]. destruct (negb _).
  - change ReadWorker with (pg_Worker (E := E)). pose proof (R_rests _ _ (select_rests "read worker %q: %w" w1 (ri_worker input))) as H2.
    change (select_worker _ w1 _) with (pg_Worker w1 (ri_worker input)) in H2. destruct (pg_Worker w1 _) as [[after|e] w2].
    + change RecordAudit with (pg_RecordAudit (E := E)). pose proof (R_audit w2 (va_subject v) worker_restart d) as H3.
      destruct (pg_RecordAudit w2 _ _ _ _ _) as [a w3]. intros [= <- <- <-]. eapply traced_check; [no_check|exact En|by etrans].
    + intros [= <- <- <-]. by eapply traced_check; [no_check|exact En|].
  - change RestartWorker with (pg_RestartWorker (E := E)). pose proof (R_restart w1 (va_subject v) (cm_id c)) as H3.
    destruct (pg_RestartWorker w1 _ _ _) as [x w2]. intros [= <- <- <-]. by eapply traced_check; [no_check|exact En|].
Qed.
Lemma tool_traced w w' r t : workerRestart v input w = (r, w', t) → traced w w' t.
Proof.
  unfold workerRestart. destruct (_ || _); [intros [= <- <- <-]; by apply traced_nil|]. destruct (tool_now w) as [now w1] eqn:En.
  change ReadWorker with (pg_Worker (E := E)). pose proof (R_rests _ _ (select_rests "read worker %q: %w" w1 (ri_worker input))) as H2.
  change (select_worker _ w1 _) with (pg_Worker w1 (ri_worker input)) in H2. destruct (pg_Worker w1 _) as [[before|e] w2].
  2:{ intros [= <- <- <-]. by eapply traced_check; [no_check|exact En|]. }
  destruct (negb _).
  - change RecordAudit with (pg_RecordAudit (E := E)).
    pose proof (R_audit w2 (va_subject v) worker_restart (ev_decision (Evaluate v (ri_token input) now restart_scope (ri_worker input)))) as H3.
    destruct (pg_RecordAudit w2 _ _ _ _ _) as [a w3]. intros [= <- <- <-]. eapply traced_check; [no_check|exact En|by etrans].
  - pose proof (R_rests _ _ (sleep_rests w2 (wrap64 (ri_delay input * millisecond)))) as H3.
    destruct (tool_sleep w2 _) as [[e|] w3]; [intros [= <- <- <-]; eapply traced_check; [no_check|exact En|by etrans]|].
    destruct (execute_restart v input _ before w3) as [[r1 w4] t1] eqn:Ex. intros [= <- <- <-].
    destruct (execute_traced _ _ _ _ _ _ Ex) as [Hr Hc]. assert (H13 : R w1 w3) by (by etrans).
    assert (Hw1 : R w w1) by (pose proof (now_rests w) as Hx; rewrite En in Hx; by apply R_rests).
    split; [etrans; [exact Hw1|]; by etrans|]. intros n e [[= -> ->]|Hin]%elem_of_cons.
    + exists w. rewrite En. split; [done|]. split; [done|]. by etrans.
    + eapply (read_at_mono R w w3 w4 w4); [by etrans|by eapply Hc|done].
Qed.
End restart_relation.

(** Only the named worker's row changes, and time passes. *)
Definition moves (worker : string) (w w' : pg E) : Prop :=
  (∀ id, id ≠ worker → db_workers (pg_db w') !! id = db_workers (pg_db w) !! id) ∧ passes w w'.
#[export] Instance moves_preorder worker : PreOrder (moves worker).
Proof.
  split; [done|]. intros w1 w2 w3 [O1 P1] [O2 P2]. split; [|by etrans]. intros id Hid. by rewrite O2, O1.
Qed.
Lemma moves_rests worker (w w' : pg E) : rests w w' → moves worker w w'.
Proof. intros [Hd Hp]. split; [|done]. intros id _. by rewrite Hd. Qed.
Lemma sent_moves worker (w : pg E) : moves worker w (sent w).2.
Proof. apply moves_rests, sent_rests. Qed.
Lemma audit_moves worker (w : pg E) agent tool resource d effect : moves worker w (insertAudit w agent tool resource d effect).2.
Proof.
  unfold insertAudit. pose proof (sent_moves worker w) as Hs. destruct (sent w) as [[e|] w1]; [done|]. etrans; [exact Hs|].
  pose proof (step_clock (pg_env w1)) as Hc. destruct (pg_clock (pg_env w1)). split; [done|by apply rtc_once].
Qed.
Lemma record_moves worker (w : pg E) agent tool resource d effect : moves worker w (pg_RecordAudit w agent tool resource d effect).2.
Proof.
  unfold pg_RecordAudit. pose proof (audit_moves worker w agent tool resource d effect) as [Ho Hp].
  destruct (insertAudit w _ _ _ _ _) as [[a|e] w1]; cbn in Ho, Hp; [|by split].
  unfold commit. pose proof (step_commit (pg_env w1)) as Hc. destruct (pg_commit (pg_env w1)) as [[| |] env]; cbn in Hc |- *;
    (split; [done|]); (eapply rtc_r; [exact Hp|exact Hc]).
Qed.
Lemma use_moves worker (w : pg E) jti : moves worker w (insert_use w jti).2.
Proof.
  unfold insert_use. pose proof (sent_moves worker w) as Hs. destruct (sent w) as [[e|] w1]; [done|].
  destruct (bool_decide _); [done|]. etrans; [exact Hs|]. split; [done|apply rtc_refl].
Qed.
Lemma update_moves (w : pg E) worker : moves worker w (update_worker w worker).2.
Proof.
  unfold update_worker. pose proof (sent_moves worker w) as Hs. destruct (sent w) as [[e|] w1]; [done|].
  destruct (_ !! worker) as [k|]; [|done]. destruct (_ <=? _); [done|]. etrans; [exact Hs|].
  pose proof (step_clock (pg_env w1)) as Hc. destruct (pg_clock (pg_env w1)). split; [|by apply rtc_once].
  intros id Hid. cbn. by rewrite lookup_insert_ne.
Qed.
Lemma body_moves (w : pg E) agent worker jti : moves worker w (restart_body w agent worker jti).2.
Proof.
  unfold restart_body, readWorker. pose proof (moves_rests worker _ _ (select_rests "lock worker %q: %w" w worker)) as H1.
  destruct (select_worker _ w worker) as [[before|e] w1]; [|done]. etrans; [exact H1|].
  pose proof (use_moves worker w1 jti) as H2. destruct (insert_use w1 jti) as [[[|]|e] w2]; [| |done]; (etrans; [exact H2|]).
  - pose proof (update_moves w2 worker) as H3. destruct (update_worker w2 worker) as [[after|e] w3]; [|done]. etrans; [exact H3|].
    pose proof (audit_moves worker w3 agent worker_restart worker Authorized true) as H4. by destruct (insertAudit w3 _ _ _ _ _).
  - pose proof (audit_moves worker w2 agent worker_restart worker DenyReplayedAuthority false) as H4. by destruct (insertAudit w2 _ _ _ _ _).
Qed.
Lemma restart_moves (w : pg E) agent worker jti : moves worker w (pg_RestartWorker w agent worker jti).2.
Proof.
  unfold pg_RestartWorker. destruct (jti =?s ""); [done|]. pose proof (sent_moves worker w) as Hs.
  destruct (sent w) as [[e|] w1]; [done|]. etrans; [exact Hs|]. pose proof (body_moves w1 agent worker jti) as [Ho Hp].
  destruct (restart_body w1 agent worker jti) as [[r|e] w2]; cbn in Ho, Hp; [|by split].
  unfold commit. pose proof (step_commit (pg_env w2)) as Hc. destruct (pg_commit (pg_env w2)) as [[| |] env]; cbn in Hc |- *;
    (split; [done|]); (eapply rtc_r; [exact Hp|exact Hc]).
Qed.
End tables.

(** ** From the agent's input to the validator *)
Lemma safe_plain s : safe_id s = true → plain s.
Proof.
  destruct s as [|c r]; [done|]. unfold safe_id. intros [[Hc Hr]%andb_true_iff _]%andb_true_iff. unfold plain. cbn [all_bytes].
  assert (Hw : ∀ c, is_alnum c || is_one_of [95; 45] c = true → plain_char c = true).
  { clear. intros c. unfold is_alnum, is_lower, is_upper, is_digit, plain_char, is_one_of. cbn [existsb]. unfold in_range. lia. }
  rewrite (Hw c) by (by rewrite Hc). exact (all_bytes_impl _ _ r Hw Hr).
Qed.
Lemma input_plain stdin i : agent_input stdin = Ok i → supported (ai_not_before i) = true → supported (ai_expires i) = true →
  plain_request (request_of i).
Proof.
  unfold agent_input. destruct (Decode _ _ stdin) as [j|]; [|done]. intros Hj Hn He.
  apply rbind_ok in Hj as (u & Hv & [= ->]). unfold validateInput in Hv. inv_ok1 Hv. to_prop.
  split; cbn; try done; try (by apply safe_plain).
  lazymatch goal with Hs : ai_scope i = _ |- _ => by rewrite Hs end.
Qed.

Section chain.
Context {E : Type} `{PgEnv E} `{LawfulJwt} (parse_dsn : string → result string).
(** The tables stay, and so does everything the agent was started with. *)
Record idle (s s' : system E) : Prop := {
  id_tables : rests (sy_pg s) (sy_pg s'); id_server : sy_server s' = sy_server s; id_keys : sy_keys s' = sy_keys s;
  id_jti : sy_jti s' = sy_jti s
}.
#[local] Instance idle_preorder : PreOrder idle.
Proof. split; [done|]. intros s1 s2 s3 [] []. split; [by etrans|congruence..]. Qed.
Lemma fault_idle (s : system E) : idle s (fault s).2.
Proof. unfold fault. pose proof (sent_rests (sy_pg s)). by split. Qed.

(** What an issuer run that succeeds has signed. *)
Definition claims_of (i : AgentInput) (id : string) : Claims :=
  {| cm_scope := ai_scope i; cm_resource := ai_resource i; cm_subject := ai_agent i; cm_id := id;
     cm_not_before := Some (NewNumericDate (ai_not_before i)); cm_expires := Some (NewNumericDate (ai_expires i)) |}.
Lemma issuer_signs keys jti write i j out line : plain_request (request_of i) → enc_issue_request (request_of i) = Some j →
  issuer_main keys jti write ["issue"%string] (Ok (Encode j)) = (0, out, line) →
  ∃ public private id token, keys = Ok (public, private) ∧ jwt_sign private (claims_of i id) = Ok token ∧
    out = Encode (enc_issue_result {| is_public := b64_encode public; is_token := token |}).
Proof.
  intros Hp He. unfold issuer_main. cbn [List.length Nat.eqb negb orb head default String.eqb Ascii.eqb Bool.eqb].
  destruct (Decode _ _ _) as [req|] eqn:Ed; [|done]. apply (request_read (request_of i)) in Ed; [|done|done]. subst req.
  destruct (IssueEphemeral _ _ _ _) as [res|] eqn:Ei; [|done]. destruct (write _); [done|]. intros [= <- _].
  unfold IssueEphemeral in Ei. inv_ok1 Ei. apply rbind_ok in Ei as ([public private] & -> & Ei).
  apply rbind_ok in Ei as (id & _ & Ei). apply rbind_ok in Ei as (token & Ht & [= <-]). by exists public, private, id, token.
Qed.
Lemma issue_chain path i (s s' : system E) issued : plain_request (request_of i) →
  issueAuthority (H0 := system_host parse_dsn) path (request_of i) s = (Ok issued, s') →
  idle s s' ∧ ∃ public private id, sy_keys s = Ok (public, private) ∧ is_public issued = b64_encode public ∧
    jwt_sign private (claims_of i id) = Ok (is_token issued).
Proof.
  intros Hp. unfold issueAuthority. destruct (enc_issue_request _) as [j|] eqn:Ej; [|done]. cbn [ah_run system_host].
  pose proof (fault_idle s) as Hi. destruct (fault s) as [[e|] s1]; [done|]. cbn in Hi.
  destruct (issuer_main _ _ _ _ _) as [[code out] line] eqn:Em. destruct (Z.eqb_spec code 0) as [->|]; [|done].
  intros [Hr <-]%pair_equal_spec. split; [done|]. destruct (issuer_signs _ _ _ i j out line Hp Ej Em) as (public & private & id & token & Hk & Ht & ->).
  inv_ok1 Hr. destruct (Decode _ _ _) as [res|] eqn:Ed; [|done]. inv_ok1 Hr. injection Hr as ->.
  apply result_read in Ed; [|apply encode_plain|exact (sign_text _ _ _ Ht)]. subst issued. cbn.
  exists public, private, id. by rewrite <-(id_keys _ _ Hi).
Qed.
Lemma connect_chain path getenv i public (s s' : system E) issued : blen public = PublicKeySize → is_public issued = b64_encode public →
  ah_connect (AgentHost := system_host parse_dsn) s path (server_env getenv i issued) = (None, s') →
  rests (sy_pg s) (sy_pg s') ∧ sy_server s' = Some {| va_key := public; va_subject := ai_agent i |}.
Proof.
  intros Hk Hp. cbn [ah_connect system_host]. unfold mcp_start, mcp_config.
  destruct (getenv_server getenv i issued) as [Hg Ha]. rewrite Hg, Ha, Hp, public_key_read by done.
  destruct (ai_agent i =?s ""); [done|]. unfold pool_open. destruct (pp_parse _) as [config|]; [|done]. cbn [pp_new pp_ping pp_close system_pool].
  pose proof (fault_idle s) as Hi1. destruct (fault s) as [[e|] s1]; [done|]. cbn in Hi1.
  pose proof (fault_idle s1) as Hi2. destruct (fault s1) as [[e|] s2]; [done|]. cbn in Hi2.
  intros [= <-]. cbn. split; [|done]. etrans; [exact (id_tables _ _ Hi1)|exact (id_tables _ _ Hi2)].
Qed.

(** *** The tools, while the server runs *)
Lemma served_idle {A} (s : system E) (call : Validator → pg E → result A * pg E) :
  (∀ v w, rests w (call v w).2) → idle s (served s call).2.
Proof. intros Hc. unfold served. destruct (sy_server s) as [v|] eqn:Ev; [|done]. split; cbn; [apply Hc|done..]. Qed.
Lemma run_system i token (s s' : system E) v r t : sy_server s = Some v → Run i token s = (r, s', t) →
  rests (sy_pg s) (sy_pg s') ∨
  ∃ request p p' x tr, ri_token request = token ∧ workerRestart v request p = (x, p', tr) ∧
    rests (sy_pg s) p ∧ rests p' (sy_pg s').
Proof.
  intros Hv Hr. apply (run_states idle) in Hr.
  - destruct Hr as [Hi|(s1 & s2 & request & x & Hi1 & Hc & Hi2 & Ht)]; [left; by apply id_tables|right]. cbn in Hc. unfold served in Hc.
    rewrite (id_server _ _ Hi1), Hv in Hc. cbn in Hc. unfold on_pg, remote in Hc. destruct (workerRestart v request (sy_pg s1)) as [[y p'] tr] eqn:Ew.
    injection Hc as _ <-. exists request, (sy_pg s1), p', y, tr. split_and!; [done|done|by apply id_tables|exact (id_tables _ _ Hi2)].
  - intros w. by apply served_idle.
  - intros w status. apply served_idle. intros v0 p. cbn. unfold incidentList. destruct (_ && _); [done|]. apply list_rests.
  - intros w id. apply served_idle. intros v0 p. cbn. unfold incidentInspect. destruct (negb _); [done|]. apply inspect_rests.
  - intros w id. apply served_idle. intros v0 p. cbn. unfold workerStatus. destruct (negb _); [done|]. apply select_rests.
Qed.
Lemma session_system i token (s s' : system E) v e t : sy_server s = Some v →
  agent_session (H0 := system_host parse_dsn) i token s = (e, s', t) →
  ∃ r s1, Run i token s = (r, s1, t) ∧ rests (sy_pg s1) (sy_pg s').
Proof.
  intros Hv. unfold agent_session. destruct (Run i token s) as [[r s1] t1]. intros Hr. exists r, s1.
  assert (Hclose : ∀ s : system E, rests (sy_pg s) (sy_pg (ah_close (AgentHost := system_host parse_dsn) s).2))
    by (intros s0; exact (id_tables _ _ (fault_idle (set_server s0 None)))).
  pose proof (Hclose s1) as Hc. destruct r as [out|e1]; [|by injection Hr as <- <- <-].
  destruct (ah_close s1) as [[e1|] s2]; cbn in Hc.
  { injection Hr as <- <- <-. split; [done|]. etrans; [exact Hc|exact (Hclose s2)]. }
  destruct (enc_workflow out) as [v1|]; [|by injection Hr as <- <- <-].
  assert (Hout : rests (sy_pg s2) (sy_pg (ah_stdout (AgentHost := system_host parse_dsn) s2 (Encode v1)).2)).
  { pose proof (sent_rests (sy_pg s2)) as Hs. cbn. by destruct (sent (sy_pg s2)) as [[e2|] p3]. }
  destruct (ah_stdout s2 (Encode v1)) as [e2 s3]. injection Hr as _ <- <-. split; [done|]. by etrans.
Qed.

(** One authority, one window: what a call of the tool can do with the issued token. *)
Definition whole_seconds (t : Z) : Z := t - t mod 1000000000.
Lemma restart_window i public private id token request p p' x tr : key_pair public private →
  jwt_sign private (claims_of i id) = Ok token → ri_token request = token →
  workerRestart {| va_key := public; va_subject := ai_agent i |} request p = (x, p', tr) →
  balanced (pg_db p) (pg_db p') ∧ moves (ri_worker request) p p' ∧
  (used (pg_db p') ≠ used (pg_db p) → used (pg_db p') = used (pg_db p) + 1 ∧ ri_worker request = ai_resource i ∧
     ∃ now, read_at (moves (ri_worker request)) p p' now ∧ whole_seconds (ai_not_before i) ≤ now < whole_seconds (ai_expires i)).
Proof.
  clear parse_dsn. intros Hkp Hsign Htok Hw. destruct (tool_step _ _ _ _ _ _ Hw) as [Hb Hu _].
  destruct (tool_traced _ request (moves (ri_worker request)) (moves_rests _) (λ w _ _ _, record_moves _ w _ _ _ _ _)
              (λ w _ _, restart_moves w _ _ _) _ _ _ _ Hw) as [Hm Hread].
  split; [done|]. split; [done|]. intros Hne. assert (Hlt : used (pg_db p) < used (pg_db p')).
  { pose proof (subseteq_size _ _ (ba_uses _ _ Hb)). unfold used in *. lia. }
  assert (Hnew : ∃ jti, jti ∈ db_uses (pg_db p') ∧ (jti ∉ db_uses (pg_db p))).
  { apply dec_stable. intros Hno. assert (db_uses (pg_db p') ⊆ db_uses (pg_db p)) as Hs%subseteq_size; [|unfold used in *; lia].
    intros jti Hj. destruct (decide (jti ∈ db_uses (pg_db p))); [done|]. exfalso. apply Hno. by exists jti. }
  destruct Hnew as (jti & Hin & Hout). destruct (Hu jti Hin) as [?|[y Hy]]; [done|].
  assert (Hex : Exists is_transaction tr) by (apply Exists_exists; by exists (Transacted jti y)).
  destruct (restart_transacts _ _ _ _ _ _ Hw Hex) as (t0 & t1 & c0 & c1 & z & Htr & _ & _ & Hg). rewrite Htok in Hg.
  destruct (sign_parse _ _ _ _ Hkp Hsign) as [_ Hparse]. pose proof (gr_parsed _ _ _ _ _ _ Hg) as Hp1. cbn in Hp1. rewrite Hparse in Hp1.
  injection Hp1 as <-. split; [|split].
  - assert (db_uses (pg_db p') ⊆ {[id]} ∪ db_uses (pg_db p)) as Hs%subseteq_size.
    { intros j Hj. destruct (Hu j Hj) as [?|[q Hq]]; [set_solver|]. rewrite Htr in Hq.
      assert (j = id) as -> by (apply list_elem_of_In in Hq as [?|[?|[[= <- _]|[]]]]; done). set_solver. }
    pose proof (size_union_alt {[id]} (db_uses (pg_db p))) as Hsz. rewrite Hsz, size_singleton in Hs.
    pose proof (subseteq_size (db_uses (pg_db p) ∖ {[id]}) (db_uses (pg_db p)) ltac:(set_solver)). unfold used in *. lia.
  - symmetry. exact (gr_resource _ _ _ _ _ _ Hg).
  - destruct (gr_window _ _ _ _ _ _ Hg) as (nb & ex & Hn & He & Hwin). cbn in Hn, He. injection Hn as <-. injection He as <-.
    exists t1. split; [|unfold whole_seconds; by rewrite <-!numeric_date_floor].
    apply (Hread t1 {| ev_decision := Authorized; ev_claims := claims_of i id |}). rewrite Htr. right. left.
Qed.

(** *** One run of the agent *)
Lemma issue_idle path request (s : system E) : idle s (issueAuthority (H0 := system_host parse_dsn) path request s).2.
Proof.
  unfold issueAuthority. destruct (enc_issue_request request) as [j|]; [|done]. cbn [ah_run system_host]. pose proof (fault_idle s) as Hf.
  destruct (fault s) as [[e|] s1]; [done|]. by destruct (issuer_main _ _ _ _ _) as [[code out] line].
Qed.
Lemma connect_tables path env (s : system E) :
  rests (sy_pg s) (sy_pg (ah_connect (AgentHost := system_host parse_dsn) s path env).2).
Proof.
  cbn [ah_connect system_host]. unfold mcp_start, pool_open. destruct (mcp_config _) as [[v dsn]|]; [|done].
  destruct (pp_parse dsn) as [config|]; [|done]. cbn [pp_new pp_ping pp_close system_pool].
  pose proof (fault_idle s) as Hf. destruct (fault s) as [[e|] s1]; cbn in Hf; [exact (id_tables _ _ Hf)|].
  pose proof (fault_idle s1) as Hf1. destruct (fault s1) as [[e|] s2]; cbn in Hf1 |- *;
    (etrans; [exact (id_tables _ _ Hf)|exact (id_tables _ _ Hf1)]).
Qed.
(** The tables move only in one call of the restart tool, under a validator that holds the
    key and the subject of the issued authority. *)
Lemma agent_run_tables i (s s' : system E) e t : agent_run (H0 := system_host parse_dsn) s = (e, s', t) →
  agent_input (sy_stdin s) = Ok i → plain_request (request_of i) →
  (∀ public private, sy_keys s = Ok (public, private) → key_pair public private ∧ blen public = PublicKeySize) →
  rests (sy_pg s) (sy_pg s') ∨
  ∃ public private id token request p p' x tr, key_pair public private ∧ jwt_sign private (claims_of i id) = Ok token ∧
    ri_token request = token ∧ workerRestart {| va_key := public; va_subject := ai_agent i |} request p = (x, p', tr) ∧
    rests (sy_pg s) p ∧ rests p' (sy_pg s').
Proof.
  intros Hrun Hi Hp Hkeys. unfold agent_run in Hrun. cbn [ah_stdin system_host] in Hrun. rewrite Hi in Hrun. cbv zeta in Hrun.
  destruct (issueAuthority _ _ s) as [[issued|e1] s1] eqn:Ei.
  2:{ injection Hrun as <- <- <-. left. pose proof (issue_idle (envOrDefault (ah_getenv (AgentHost := system_host parse_dsn) s)
        "INCIDENT_AUTHORITY_ISSUER" defaultIssuer) (request_of i) s) as Hf. rewrite Ei in Hf. exact (id_tables _ _ Hf). }
  destruct (issue_chain _ _ _ _ _ Hp Ei) as (Hf & public & private & id & Hk & Hpub & Hsign). destruct (Hkeys _ _ Hk) as [Hkp Hlen].
  destruct (ah_connect s1 _ _) as [[e2|] s2] eqn:Ec.
  { injection Hrun as <- <- <-. left. pose proof (connect_tables (envOrDefault (ah_getenv (AgentHost := system_host parse_dsn) s)
      "INCIDENT_MCP_SERVER" defaultServer) (server_env (ah_getenv (AgentHost := system_host parse_dsn) s) i issued) s1) as Hc.
    rewrite Ec in Hc. etrans; [exact (id_tables _ _ Hf)|exact Hc]. }
  destruct (connect_chain _ _ _ _ _ _ _ Hlen Hpub Ec) as [Hd Hv].
  destruct (session_system _ _ _ _ _ _ _ Hv Hrun) as (r & s3 & Hr & Hd3).
  destruct (run_system _ _ _ _ _ _ _ Hv Hr) as [Hq|(request & q & q' & x & tr & Htok & Hw & Hq & Hq')]; [left|right].
  - etrans; [exact (id_tables _ _ Hf)|]. etrans; [exact Hd|]. by etrans.
  - exists public, private, id, (is_token issued), request, q, q', x, tr. split_and!; [done..| |by etrans].
    etrans; [exact (id_tables _ _ Hf)|]. by etrans.
Qed.
End chain.

(** C19.  What the demo demonstrates, from the agent's input to the rows of the database: with the
    agent, issuer and tool server commands of the demo and any failures of the processes, the
    statements and the commit, one run of the agent keeps the books balanced, and if any
    worker was restarted then exactly one restart happened, it was of the worker the input
    names, no other row of the workers changed, and a reading of the tool server's clock in
    between stood inside the validity window of the input, cut to whole seconds.  The input's
    times lie between 1990 and 2100, and the issuer's key pairs are Ed25519 pairs. *)
Theorem demo_window {E} `{PgEnv E} `{LawfulJwt} parse_dsn i (s s' : system E) e t :
  agent_run (H0 := system_host parse_dsn) s = (e, s', t) →
  agent_input (sy_stdin s) = Ok i → supported (ai_not_before i) = true → supported (ai_expires i) = true →
  (∀ public private, sy_keys s = Ok (public, private) → key_pair public private ∧ blen public = PublicKeySize) →
  let db := pg_db (sy_pg s) in let db' := pg_db (sy_pg s') in
  balanced db db' ∧
  (restarts db' ≠ restarts db → restarts db' = restarts db + 1 ∧
     (∀ id, id ≠ ai_resource i → db_workers db' !! id = db_workers db !! id) ∧
     ∃ now, read_at passes (sy_pg s) (sy_pg s') now ∧
       whole_seconds (ai_not_before i) ≤ now < whole_seconds (ai_expires i)).
Proof.
  intros Hrun Hi Hn He Hkeys. cbv zeta.
  destruct (agent_run_tables _ _ _ _ _ _ Hrun Hi (input_plain _ _ Hi Hn He) Hkeys)
    as [[-> _]|(public & private & id & token & request & p & p' & x & tr & Hkp & Hsign & Htok & Hw & [Hd Hp] & [-> Hp'])].
  { split; [done|]. intros Hne. by destruct Hne. }
  destruct (restart_window i public private id token request p p' x tr Hkp Hsign Htok Hw) as (Hb & [Ho _] & Hu).
  rewrite Hd in *. split; [done|]. intros Hne. pose proof (ba_restarts _ _ Hb) as Hbr.
  destruct Hu as (Hone & Hres & now & (w0 & [_ Hr1] & Hr2 & [_ Hr3]) & Hwin); [lia|]. split; [lia|]. split.
  - intros w Hw0. apply Ho. by rewrite Hres.
  - exists now. split; [|done]. exists w0. split; [by etrans|]. split; [done|]. by etrans.
Qed.

(** A JWT library for one key pair, whose only token carries the claims of one input. *)
Definition window_input : AgentInput :=
  {| ai_scenario := "expiry"; ai_agent := "agent-1"; ai_scope := "worker.restart";
     ai_resource := "payments-worker-17"; ai_not_before := 1577836800500000000; ai_expires := 1577836860250000000; ai_delay := 500 |}.
Definition window_claims : Claims :=
  {| cm_scope := "worker.restart"; cm_resource := "payments-worker-17"; cm_subject := "agent-1"; cm_id := "jti-1";
     cm_not_before := Some 1577836800000000000; cm_expires := Some 1577836860000000000 |}.
Definition window_jwt : Jwt := {|
  jwt_parse key token :=
    if (key =?s demo_key) && (token =?s "h.p.s") then Ok (true, window_claims) else Err (ErrSentinel "jwt.ErrTokenSignatureInvalid");
  jwt_sign _ c := if bool_decide (c = window_claims) then Ok "h.p.s"%string else Err (Errorf "unknown claims" []);
  NewNumericDate t := t - t mod 1000000000
|}.
Definition window_lawful : @LawfulJwt window_jwt.
Proof.
  refine (@Build_LawfulJwt window_jwt (λ public _, public = demo_key) _ _ _); [| |done].
  - intros public private c token ->. cbn. case_bool_decide; [|done]. intros [= <-]. by subst c.
  - intros private c token. cbn. case_bool_decide; [|done]. by intros [= <-].
Defined.
Definition window_stdin : string := Encode (JObject
  [("scenario", JString "expiry"); ("agent_id", JString "agent-1"); ("authority_scope", JString "worker.restart");
   ("authority_resource", JString "payments-worker-17"); ("not_before", JString "2020-01-01T00:00:00.5Z");
   ("expires_at", JString "2020-01-01T01:01:00.25+01:00"); ("execution_delay_ms", JNumber "500")]%string).
Definition window_system : system Z := {|
  sy_pg := {| pg_db := seed_tables; pg_seq := 1; pg_env := 1577836830000000000 |}; sy_server := None;
  sy_environ := λ _, ""%string; sy_stdin := Ok window_stdin; sy_stdout := "";
  sy_keys := Ok (demo_key, "private"%string); sy_jti := Ok "jti-1"%string |}.
Definition window_run := @agent_run _ (system Z) (@system_host Z _ window_jwt (λ dsn, Ok dsn)) (@system_client Z _ window_jwt) window_system.
(** The demo end to end, on the prepared tables: it succeeds, prints its result, and one worker was restarted once. *)
Example window_result :
  match window_run with
  | (None, s', _) => (restarts (pg_db (sy_pg s')), negb (sy_stdout s' =?s "")) = (1, true)
  | _ => False
  end.
Proof. vm_compute. reflexivity. Qed.
Lemma demo_window_witness : ∃ now, read_at passes (sy_pg window_system) (sy_pg window_run.1.2) now ∧
  1577836800000000000 ≤ now < 1577836860000000000.
Proof.
  assert (Hok : restarts (pg_db (sy_pg window_run.1.2)) ≠ restarts (pg_db (sy_pg window_system))) by (vm_compute; discriminate).
  destruct window_run as [[e s'] t] eqn:Er. unfold window_run in Er. cbn [fst snd] in Hok |- *.
  assert (Hi : agent_input (sy_stdin window_system) = Ok window_input) by (vm_compute; reflexivity).
  pose proof (@demo_window Z _ window_jwt window_lawful (λ dsn, Ok dsn) window_input window_system s' e t Er Hi eq_refl eq_refl) as Hw.
  destruct Hw as [_ Hw].
  - intros public private [= <- <-]. split; reflexivity.
  - destruct (Hw Hok) as (_ & _ & now & Hr & Hn). exists now. split; [exact Hr|exact Hn].
Defined.
